(** * The GPSD JSON client clock driver (ntpd/refclock_gpsd.c)

    A shallow embedding of the driver's data path and of its connection
    management, followed by the properties of the driver that the
    specification of the synchronisation engine relies on: how malformed
    records are contained, how samples reach the core, how time strings
    and integers are converted, how reconnects back off, how log output is
    throttled, how lines are assembled and how the PPS account works. *)

From Stdlib Require Import ZArith List String Ascii Bool Lia.
Import ListNotations.

Local Open Scope string_scope.
Local Open Scope Z_scope.

(** ** Machine integers

    The driver is compiled for an LP64 target: [int] and [unsigned int]
    have 32 bits, [long] and [unsigned long] 64 bits.  Values are kept in
    [Z]; every C operation that can leave the range of its type has the
    wrap-around written out. *)

Definition wrap_unsigned (bits z : Z) : Z := z mod 2 ^ bits.

Definition wrap_signed (bits z : Z) : Z :=
  let m := z mod 2 ^ bits in
  if m <? 2 ^ (bits - 1) then m else m - 2 ^ bits.

Definition u16 : Z -> Z := wrap_unsigned 16.
Definition u32 : Z -> Z := wrap_unsigned 32.
Definition u64 : Z -> Z := wrap_unsigned 64.
Definition i8  : Z -> Z := wrap_signed 8.
Definition i16 : Z -> Z := wrap_signed 16.
Definition i32 : Z -> Z := wrap_signed 32.
Definition i64 : Z -> Z := wrap_signed 64.

Definition INT_MIN  : Z := - 2 ^ 31.
Definition INT_MAX  : Z := 2 ^ 31 - 1.
Definition LONG_MAX : Z := 2 ^ 63 - 1.
Definition LONG_MIN : Z := - 2 ^ 63.

(** [min] and [max] are the usual macros of the code base. *)
Definition min (a b : Z) : Z := if a <? b then a else b.
Definition max (a b : Z) : Z := if a >? b then a else b.

(** ** Characters and C strings

    A C string is the [string] of its characters before the terminating
    NUL.  [uchar] is the value of a character read through an
    [unsigned char] pointer. *)

Definition uchar (c : ascii) : Z := Z.of_N (N_of_ascii c).

Definition isdigit (c : ascii) : bool := (48 <=? uchar c) && (uchar c <=? 57).

Definition NUL : ascii := Ascii.zero.

(** The character a [char*] points at: the head of the text, or the
    terminating NUL. *)
Definition deref (s : string) : ascii :=
  match s with
  | EmptyString => NUL
  | String c _ => c
  end.

(** Advancing a [char*] by one; the code never steps over the NUL. *)
Definition next (s : string) : string :=
  match s with
  | EmptyString => s
  | String _ r => r
  end.

(** [strcmp a b == 0]. *)
Definition streq (a b : string) : bool := String.eqb a b.

(** ** errno *)

Definition EINVAL : Z := 22.
Definition ERANGE : Z := 34.

(** ** strtojint: the driver's own decimal parser *)

Definition JSON_INT_MAX : Z := LONG_MAX.
Definition JSON_INT_MIN : Z := LONG_MIN.

Record strtojint_result := mk_strtojint_result {
  sj_value : Z;        (* the returned json_int *)
  sj_end   : string;   (* the text the end pointer designates *)
  sj_errno : Z         (* errno after the call *)
}.

(** The digit loop.  [accu] is a [json_uint], [flags] the int holding the
    overflow bit (bit 0) and the sign bit (bit 1).  The result is the
    accumulator, the flags and the unread text. *)
Fixpoint strtojint_loop (limit_lo limit_hi : Z) (cp : string)
    (accu flags : Z) : Z * Z * string :=
  match cp with
  | String c rest =>
      if isdigit c then
        let flags := Z.lor flags (Z.b2z (accu >? limit_lo)) in
        let accu  := u64 (accu * 10 + u64 (uchar c - 48)) in
        let flags := Z.lor flags (Z.b2z (accu >? limit_hi)) in
        strtojint_loop limit_lo limit_hi rest accu flags
      else (accu, flags, cp)
  | EmptyString => (accu, flags, cp)
  end.

Definition strtojint (cp : string) (errno : Z) : strtojint_result :=
  let vep := cp in
  (* optional sign, and the limits that go with it *)
  let '(cp, flags, limit_hi) :=
    if Ascii.eqb (deref cp) "-"
    then (next cp, 2, u64 (- (JSON_INT_MIN + 1)) + 1)
    else ((if Ascii.eqb (deref cp) "+" then next cp else cp),
          0, u64 JSON_INT_MAX) in
  let limit_lo := limit_hi / 10 in
  (* the digits *)
  let hold := cp in
  let '(accu, flags, cp) := strtojint_loop limit_lo limit_hi cp 0 flags in
  (* empty conversion: no digit seen *)
  let '(vep, errno) :=
    if negb (String.length hold =? String.length cp)%nat
    then (cp, errno) else (vep, EINVAL) in
  (* range overflow *)
  let '(errno, accu) :=
    if negb (Z.land flags 1 =? 0) then (ERANGE, limit_hi) else (errno, accu) in
  if negb (Z.land flags 2 =? 0) && negb (accu =? 0)
  then mk_strtojint_result (- i64 (u64 (accu - 1)) - 1) vep errno
  else mk_strtojint_result (i64 accu) vep errno.

(** The four values the flag word of [strtojint] takes. *)
Definition flag_word (f : Z) : Prop := f = 0 \/ f = 1 \/ f = 2 \/ f = 3.

(** What the comment above [strtojint] promises, written as [strtol]
    would be described: an optional sign, the longest run of digits, the
    value clamped to the range of [long]. *)

Fixpoint digit_prefix (s : string) : string :=
  match s with
  | String c r => if isdigit c then String c (digit_prefix r) else EmptyString
  | EmptyString => EmptyString
  end.

Fixpoint skip_digits (s : string) : string :=
  match s with
  | String c r => if isdigit c then skip_digits r else s
  | EmptyString => s
  end.

Fixpoint dec_value_from (acc : Z) (ds : string) : Z :=
  match ds with
  | String c r => dec_value_from (acc * 10 + (uchar c - 48)) r
  | EmptyString => acc
  end.

Definition dec_value (ds : string) : Z := dec_value_from 0 ds.

Definition strtojint_spec (cp : string) (errno : Z) : strtojint_result :=
  let neg  := Ascii.eqb (deref cp) "-" in
  let body := if neg || Ascii.eqb (deref cp) "+" then next cp else cp in
  let ds   := digit_prefix body in
  let v    := dec_value ds in
  match ds with
  | EmptyString => mk_strtojint_result 0 cp EINVAL
  | _ =>
      if neg then
        if v >? - LONG_MIN
        then mk_strtojint_result LONG_MIN (skip_digits body) ERANGE
        else mk_strtojint_result (- v) (skip_digits body) errno
      else
        if v >? LONG_MAX
        then mk_strtojint_result LONG_MAX (skip_digits body) ERANGE
        else mk_strtojint_result v (skip_digits body) errno
  end.

(** ** JSON records

    The tokenizer is the JSMN library (libjsmn), which the driver only
    calls; a token is what JSMN's [jsmntok_t] holds. *)

Inductive jsmntype_t :=
  | JSMN_UNDEFINED | JSMN_OBJECT | JSMN_ARRAY | JSMN_STRING | JSMN_PRIMITIVE.

Definition jsmntype_eqb (a b : jsmntype_t) : bool :=
  match a, b with
  | JSMN_UNDEFINED, JSMN_UNDEFINED | JSMN_OBJECT, JSMN_OBJECT
  | JSMN_ARRAY, JSMN_ARRAY | JSMN_STRING, JSMN_STRING
  | JSMN_PRIMITIVE, JSMN_PRIMITIVE => true
  | _, _ => false
  end.

Record jsmntok_t := mk_tok {
  tok_type  : jsmntype_t;
  tok_start : Z;
  tok_end   : Z;
  tok_size  : Z
}.

Definition JSMN_MAXTOK : Z := 350.
Definition INVALID_TOKEN : Z := -1.

(** [json_ctx] without its [buf] member: [buf] only ever points at the
    unit's record buffer, so the functions below take the current
    content of that buffer as [mem]. *)
Record json_ctx := mk_json_ctx {
  ntok : Z;
  tok  : list jsmntok_t
}.

Definition tok_at (ctx : json_ctx) (tid : Z) : jsmntok_t :=
  nth (Z.to_nat tid) (tok ctx) (mk_tok JSMN_UNDEFINED 0 0 0).

(** *** The record buffer as memory *)

(** The character at index [i]; memory that was never written reads as
    NUL (the unit comes from [emalloc_zero]). *)
Definition load (mem : string) (i : Z) : ascii :=
  if i <? 0 then NUL
  else match String.get (Z.to_nat i) mem with
       | Some c => c
       | None => NUL
       end.

Fixpoint store_nat (mem : string) (i : nat) (c : ascii) : string :=
  match i, mem with
  | O, EmptyString => String c EmptyString
  | O, String _ r => String c r
  | S j, EmptyString => String NUL (store_nat EmptyString j c)
  | S j, String d r => String d (store_nat r j c)
  end.

(** [mem[i] = c]. *)
Definition store (mem : string) (i : Z) (c : ascii) : string :=
  if i <? 0 then mem else store_nat mem (Z.to_nat i) c.

(** The first [n] characters. *)
Definition take (n : Z) (mem : string) : string :=
  String.substring 0 (Z.to_nat n) mem.

Fixpoint until_nul (s : string) : string :=
  match s with
  | EmptyString => EmptyString
  | String c r => if Ascii.eqb c NUL then EmptyString else String c (until_nul r)
  end.

Fixpoint drop_nat (n : nat) (s : string) : string :=
  match n, s with
  | O, _ => s
  | S m, EmptyString => EmptyString
  | S m, String _ r => drop_nat m r
  end.

(** The C string that starts at [mem + off]. *)
Definition cstr_at (mem : string) (off : Z) : string :=
  until_nul (drop_nat (Z.to_nat off) mem).

(** *** Walking the token array *)

Fixpoint iter_opt (n : nat) (f : Z -> option Z) (x : Z) : option Z :=
  match n with
  | O => Some x
  | S m => match f x with
           | Some y => iter_opt m f y
           | None => None
           end
  end.

(** [json_token_skip] recurses into compounds; [fuel] bounds the depth of
    the recursion and [None] means that it ran out.  JSMN reports sizes
    that are not negative. *)
Fixpoint json_token_skip_fuel (fuel : nat) (ctx : json_ctx) (tid : Z)
    : option Z :=
  match fuel with
  | O => None
  | S fuel =>
      if (0 <=? tid) && (tid <? ntok ctx) then
        let len := tok_size (tok_at ctx tid) in
        let after :=
          match tok_type (tok_at ctx tid) with
          | JSMN_OBJECT =>
              iter_opt (Z.to_nat (len * 2))
                (json_token_skip_fuel fuel ctx) (tid + 1)
          | JSMN_ARRAY =>
              iter_opt (Z.to_nat len)
                (json_token_skip_fuel fuel ctx) (tid + 1)
          | _ => Some (tid + 1)
          end in
        match after with
        | Some tid' => Some (if tid' >? ntok ctx then ntok ctx else tid')
        | None => None
        end
      else Some tid
  end.

(** The depth of the recursion is at most the number of tokens left, so
    this much fuel is always enough (see [json_token_skip_fuel_enough]). *)
Definition json_token_skip (ctx : json_ctx) (tid : Z) : Z :=
  match json_token_skip_fuel (S (Z.to_nat (ntok ctx - tid))) ctx tid with
  | Some r => r
  | None => tid
  end.

(** [what]: [None] stands for a negative type code (any type will do). *)
Fixpoint json_object_lookup_loop (ctx : json_ctx) (mem key : string)
    (what : option jsmntype_t) (len : nat) (tid : Z) : Z :=
  match len with
  | O => INVALID_TOKEN
  | S len =>
      if tid + 1 <? ntok ctx then
        if negb (jsmntype_eqb (tok_type (tok_at ctx tid)) JSMN_STRING) then
          let tid := json_token_skip ctx tid in       (* skip key *)
          let tid := json_token_skip ctx tid in       (* skip val *)
          if tid <? 0 then INVALID_TOKEN
          else json_object_lookup_loop ctx mem key what len tid
        else if negb (streq key (cstr_at mem (tok_start (tok_at ctx tid)))) then
          let tid := json_token_skip ctx (tid + 1) in (* skip key+val *)
          if tid <? 0 then INVALID_TOKEN
          else json_object_lookup_loop ctx mem key what len tid
        else
          match what with
          | None => tid + 1
          | Some ty =>
              if jsmntype_eqb ty (tok_type (tok_at ctx (tid + 1)))
              then tid + 1 else INVALID_TOKEN
          end
      else INVALID_TOKEN
  end.

Definition json_object_lookup (ctx : json_ctx) (mem : string) (tid : Z)
    (key : string) (what : option jsmntype_t) : Z :=
  if (tid <? 0) || (tid >=? ntok ctx)
     || negb (jsmntype_eqb (tok_type (tok_at ctx tid)) JSMN_OBJECT)
  then INVALID_TOKEN
  else json_object_lookup_loop ctx mem key what
         (Z.to_nat (tok_size (tok_at ctx tid))) (tid + 1).

(** A [const char*] result: [None] is the NULL pointer. *)
Definition json_object_lookup_primitive (ctx : json_ctx) (mem : string)
    (tid : Z) (key : string) : option string :=
  let tid := json_object_lookup ctx mem tid key (Some JSMN_PRIMITIVE) in
  if negb (tid =? INVALID_TOKEN)
  then Some (cstr_at mem (tok_start (tok_at ctx tid)))
  else None.

(** A tribool: 0 is false, 1 is true, -1 is error or undefined. *)
Definition json_object_lookup_bool (ctx : json_ctx) (mem : string)
    (tid : Z) (key : string) : Z :=
  let c := match json_object_lookup_primitive ctx mem tid key with
           | Some cp => deref cp
           | None => NUL
           end in
  if Ascii.eqb c "t" then 1
  else if Ascii.eqb c "f" then 0
  else -1.

Definition json_object_lookup_string (ctx : json_ctx) (mem : string)
    (tid : Z) (key : string) : option string :=
  let tid := json_object_lookup ctx mem tid key (Some JSMN_STRING) in
  if negb (tid =? INVALID_TOKEN)
  then Some (cstr_at mem (tok_start (tok_at ctx tid)))
  else None.

Definition json_object_lookup_string_default (ctx : json_ctx) (mem : string)
    (tid : Z) (key def : string) : string :=
  let tid := json_object_lookup ctx mem tid key (Some JSMN_STRING) in
  if negb (tid =? INVALID_TOKEN)
  then cstr_at mem (tok_start (tok_at ctx tid))
  else def.

(** The value and [errno] after the call. *)
Definition json_object_lookup_int (ctx : json_ctx) (mem : string)
    (tid : Z) (key : string) (errno : Z) : Z * Z :=
  match json_object_lookup_primitive ctx mem tid key with
  | Some cp =>
      let r := strtojint cp errno in
      if negb (String.length cp =? String.length (sj_end r))%nat
         && Ascii.eqb NUL (deref (sj_end r))
      then (sj_value r, sj_errno r)
      else (0, sj_errno r)
  | None => (0, EINVAL)
  end.

Definition json_object_lookup_int_default (ctx : json_ctx) (mem : string)
    (tid : Z) (key : string) (def : Z) (errno : Z) : Z * Z :=
  match json_object_lookup_primitive ctx mem tid key with
  | Some cp =>
      let r := strtojint cp errno in
      if negb (String.length cp =? String.length (sj_end r))%nat
         && Ascii.eqb NUL (deref (sj_end r))
      then (sj_value r, sj_errno r)
      else (def, sj_errno r)
  | None => (def, errno)
  end.


(** ** The clock unit

    [struct gpsd_unit], with the members grouped the way the comments of
    the declaration group them.  The members that link units, count
    references and cache the log name play no part below. *)

Definition l_fp := Z.          (* a 64-bit unsigned fixed-point stamp *)
Definition addrinfoT := Z.     (* an entry of the resolver's address list *)

(** The PPS time stamps of the primary and the secondary channel *)
Record unit_pps := mk_unit_pps {
  pps_local : l_fp;  (* when we received the PPS message *)
  pps_stamp : l_fp;  (* related reference time *)
  pps_recvt : l_fp;  (* when GPSD detected the pulse *)
  pps_stamp2 : l_fp;  (* related reference time (secondary) *)
  pps_recvt2 : l_fp;  (* when GPSD detected the pulse (secondary) *)
  ppscount : Z;  (* PPS counter (primary unit), an int *)
  ppscount2 : Z  (* PPS counter (secondary unit), an int *)
}.

(** The TPV or TOFF serial time information *)
Record unit_ibt := mk_unit_ibt {
  ibt_local : l_fp;  (* when we received the TPV/TOFF message *)
  ibt_stamp : l_fp;  (* effective GPS time stamp *)
  ibt_recvt : l_fp  (* when GPSD got the fix *)
}.

(** The precision estimates (int16_t) *)
Record unit_prec := mk_unit_prec {
  ibt_prec : Z;  (* serial precision based on EPT *)
  pps_prec : Z  (* PPS precision from GPSD or above *)
}.

(** The fudge values, mirrored as l_fp *)
Record unit_fudge := mk_unit_fudge {
  pps_fudge : l_fp;  (* PPS fudge primary channel *)
  pps_fudge2 : l_fp;  (* PPS fudge secondary channel *)
  ibt_fudge : l_fp  (* TPV/TOFF serial data fudge *)
}.

(** The flags for available data and the protocol flags *)
Record unit_flags := mk_unit_flags {
  fl_nosync : bool;  (* GPSD signals bad quality *)
  fl_ibt : bool;  (* valid TPV/TOFF seen (have time) *)
  fl_pps : bool;  (* valid pulse seen *)
  fl_pps2 : bool;  (* valid pulse seen for PPS channel *)
  fl_rawibt : bool;  (* permit raw TPV/TOFF time stamps *)
  fl_vers : bool;  (* have protocol version *)
  fl_watch : bool;  (* watch reply seen *)
  pf_nsec : bool;  (* have nanosec PPS info *)
  pf_toff : bool  (* have TOFF record for timing *)
}.

(** The admin stuff for sockets *)
Record unit_sock := mk_unit_sock {
  fdt : Z;  (* current connecting socket *)
  addr : list addrinfoT;  (* next address to try, nil for NULL *)
  tickover : Z;  (* timeout countdown *)
  tickpres : Z  (* timeout preset *)
}.

(** The tallies for the various events (unsigned int) *)
Record unit_tally := mk_unit_tally {
  tc_recv : Z;  (* received known records *)
  tc_breply : Z;  (* bad replies / parsing errors *)
  tc_nosync : Z;  (* TPV / sample cycles w/o fix *)
  tc_ibt_recv : Z;  (* received serial time info records *)
  tc_ibt_used : Z;  (* used serial time info records *)
  tc_pps_recv : Z;  (* received PPS timing info records *)
  tc_pps_used : Z  (* used PPS timing info records *)
}.

Record gpsd_unit := mk_gpsd_unit {
  u_pps : unit_pps;
  u_ibt : unit_ibt;
  u_prec : unit_prec;
  u_fudge : unit_fudge;
  u_flags : unit_flags;
  u_sock : unit_sock;
  u_tally : unit_tally;
  mode : Z;  (* operation mode *)
  device : string;  (* device name of unit *)
  proto_version : Z;  (* current line protocol version *)
  logthrottle : Z;  (* seconds to next log slot *)
  json_parse : json_ctx;  (* the parse context for the current record *)
  buflen : Z;  (* saved length of the assembly buffer *)
  buffer : string  (* record assembly buffer *)
}.

(** The members are read under the names the source gives them. *)
Coercion u_pps : gpsd_unit >-> unit_pps.
Coercion u_ibt : gpsd_unit >-> unit_ibt.
Coercion u_prec : gpsd_unit >-> unit_prec.
Coercion u_fudge : gpsd_unit >-> unit_fudge.
Coercion u_flags : gpsd_unit >-> unit_flags.
Coercion u_sock : gpsd_unit >-> unit_sock.
Coercion u_tally : gpsd_unit >-> unit_tally.

(** Assignments to single members. *)
Definition upd_pps (f : unit_pps -> unit_pps) (u : gpsd_unit) : gpsd_unit :=
  mk_gpsd_unit (f (u_pps u)) (u_ibt u) (u_prec u) (u_fudge u) (u_flags u)
    (u_sock u) (u_tally u) (mode u) (device u) (proto_version u)
    (logthrottle u) (json_parse u) (buflen u) (buffer u).
Definition upd_ibt (f : unit_ibt -> unit_ibt) (u : gpsd_unit) : gpsd_unit :=
  mk_gpsd_unit (u_pps u) (f (u_ibt u)) (u_prec u) (u_fudge u) (u_flags u)
    (u_sock u) (u_tally u) (mode u) (device u) (proto_version u)
    (logthrottle u) (json_parse u) (buflen u) (buffer u).
Definition upd_prec (f : unit_prec -> unit_prec) (u : gpsd_unit) : gpsd_unit :=
  mk_gpsd_unit (u_pps u) (u_ibt u) (f (u_prec u)) (u_fudge u) (u_flags u)
    (u_sock u) (u_tally u) (mode u) (device u) (proto_version u)
    (logthrottle u) (json_parse u) (buflen u) (buffer u).
Definition upd_fudge (f : unit_fudge -> unit_fudge) (u : gpsd_unit) : gpsd_unit :=
  mk_gpsd_unit (u_pps u) (u_ibt u) (u_prec u) (f (u_fudge u)) (u_flags u)
    (u_sock u) (u_tally u) (mode u) (device u) (proto_version u)
    (logthrottle u) (json_parse u) (buflen u) (buffer u).
Definition upd_flags (f : unit_flags -> unit_flags) (u : gpsd_unit) : gpsd_unit :=
  mk_gpsd_unit (u_pps u) (u_ibt u) (u_prec u) (u_fudge u) (f (u_flags u))
    (u_sock u) (u_tally u) (mode u) (device u) (proto_version u)
    (logthrottle u) (json_parse u) (buflen u) (buffer u).
Definition upd_sock (f : unit_sock -> unit_sock) (u : gpsd_unit) : gpsd_unit :=
  mk_gpsd_unit (u_pps u) (u_ibt u) (u_prec u) (u_fudge u) (u_flags u)
    (f (u_sock u)) (u_tally u) (mode u) (device u) (proto_version u)
    (logthrottle u) (json_parse u) (buflen u) (buffer u).
Definition upd_tally (f : unit_tally -> unit_tally) (u : gpsd_unit) : gpsd_unit :=
  mk_gpsd_unit (u_pps u) (u_ibt u) (u_prec u) (u_fudge u) (u_flags u)
    (u_sock u) (f (u_tally u)) (mode u) (device u) (proto_version u)
    (logthrottle u) (json_parse u) (buflen u) (buffer u).
Definition set_pps_local (v : l_fp) : gpsd_unit -> gpsd_unit :=
  upd_pps (fun x => mk_unit_pps v (pps_stamp x) (pps_recvt x) (pps_stamp2 x)
    (pps_recvt2 x) (ppscount x) (ppscount2 x)).
Definition set_pps_stamp (v : l_fp) : gpsd_unit -> gpsd_unit :=
  upd_pps (fun x => mk_unit_pps (pps_local x) v (pps_recvt x) (pps_stamp2 x)
    (pps_recvt2 x) (ppscount x) (ppscount2 x)).
Definition set_pps_recvt (v : l_fp) : gpsd_unit -> gpsd_unit :=
  upd_pps (fun x => mk_unit_pps (pps_local x) (pps_stamp x) v (pps_stamp2 x)
    (pps_recvt2 x) (ppscount x) (ppscount2 x)).
Definition set_pps_stamp2 (v : l_fp) : gpsd_unit -> gpsd_unit :=
  upd_pps (fun x => mk_unit_pps (pps_local x) (pps_stamp x) (pps_recvt x) v
    (pps_recvt2 x) (ppscount x) (ppscount2 x)).
Definition set_pps_recvt2 (v : l_fp) : gpsd_unit -> gpsd_unit :=
  upd_pps (fun x => mk_unit_pps (pps_local x) (pps_stamp x) (pps_recvt x)
    (pps_stamp2 x) v (ppscount x) (ppscount2 x)).
Definition set_ppscount (v : Z) : gpsd_unit -> gpsd_unit :=
  upd_pps (fun x => mk_unit_pps (pps_local x) (pps_stamp x) (pps_recvt x)
    (pps_stamp2 x) (pps_recvt2 x) v (ppscount2 x)).
Definition set_ppscount2 (v : Z) : gpsd_unit -> gpsd_unit :=
  upd_pps (fun x => mk_unit_pps (pps_local x) (pps_stamp x) (pps_recvt x)
    (pps_stamp2 x) (pps_recvt2 x) (ppscount x) v).
Definition set_ibt_local (v : l_fp) : gpsd_unit -> gpsd_unit :=
  upd_ibt (fun x => mk_unit_ibt v (ibt_stamp x) (ibt_recvt x)).
Definition set_ibt_stamp (v : l_fp) : gpsd_unit -> gpsd_unit :=
  upd_ibt (fun x => mk_unit_ibt (ibt_local x) v (ibt_recvt x)).
Definition set_ibt_recvt (v : l_fp) : gpsd_unit -> gpsd_unit :=
  upd_ibt (fun x => mk_unit_ibt (ibt_local x) (ibt_stamp x) v).
Definition set_ibt_prec (v : Z) : gpsd_unit -> gpsd_unit :=
  upd_prec (fun x => mk_unit_prec v (pps_prec x)).
Definition set_pps_prec (v : Z) : gpsd_unit -> gpsd_unit :=
  upd_prec (fun x => mk_unit_prec (ibt_prec x) v).
Definition set_fl_nosync (v : bool) : gpsd_unit -> gpsd_unit :=
  upd_flags (fun x => mk_unit_flags v (fl_ibt x) (fl_pps x) (fl_pps2 x)
    (fl_rawibt x) (fl_vers x) (fl_watch x) (pf_nsec x) (pf_toff x)).
Definition set_fl_ibt (v : bool) : gpsd_unit -> gpsd_unit :=
  upd_flags (fun x => mk_unit_flags (fl_nosync x) v (fl_pps x) (fl_pps2 x)
    (fl_rawibt x) (fl_vers x) (fl_watch x) (pf_nsec x) (pf_toff x)).
Definition set_fl_pps (v : bool) : gpsd_unit -> gpsd_unit :=
  upd_flags (fun x => mk_unit_flags (fl_nosync x) (fl_ibt x) v (fl_pps2 x)
    (fl_rawibt x) (fl_vers x) (fl_watch x) (pf_nsec x) (pf_toff x)).
Definition set_fl_pps2 (v : bool) : gpsd_unit -> gpsd_unit :=
  upd_flags (fun x => mk_unit_flags (fl_nosync x) (fl_ibt x) (fl_pps x) v
    (fl_rawibt x) (fl_vers x) (fl_watch x) (pf_nsec x) (pf_toff x)).
Definition set_fl_rawibt (v : bool) : gpsd_unit -> gpsd_unit :=
  upd_flags (fun x => mk_unit_flags (fl_nosync x) (fl_ibt x) (fl_pps x)
    (fl_pps2 x) v (fl_vers x) (fl_watch x) (pf_nsec x) (pf_toff x)).
Definition set_fl_vers (v : bool) : gpsd_unit -> gpsd_unit :=
  upd_flags (fun x => mk_unit_flags (fl_nosync x) (fl_ibt x) (fl_pps x)
    (fl_pps2 x) (fl_rawibt x) v (fl_watch x) (pf_nsec x) (pf_toff x)).
Definition set_fl_watch (v : bool) : gpsd_unit -> gpsd_unit :=
  upd_flags (fun x => mk_unit_flags (fl_nosync x) (fl_ibt x) (fl_pps x)
    (fl_pps2 x) (fl_rawibt x) (fl_vers x) v (pf_nsec x) (pf_toff x)).
Definition set_pf_nsec (v : bool) : gpsd_unit -> gpsd_unit :=
  upd_flags (fun x => mk_unit_flags (fl_nosync x) (fl_ibt x) (fl_pps x)
    (fl_pps2 x) (fl_rawibt x) (fl_vers x) (fl_watch x) v (pf_toff x)).
Definition set_pf_toff (v : bool) : gpsd_unit -> gpsd_unit :=
  upd_flags (fun x => mk_unit_flags (fl_nosync x) (fl_ibt x) (fl_pps x)
    (fl_pps2 x) (fl_rawibt x) (fl_vers x) (fl_watch x) (pf_nsec x) v).
Definition set_fdt (v : Z) : gpsd_unit -> gpsd_unit :=
  upd_sock (fun x => mk_unit_sock v (addr x) (tickover x) (tickpres x)).
Definition set_addr (v : list addrinfoT) : gpsd_unit -> gpsd_unit :=
  upd_sock (fun x => mk_unit_sock (fdt x) v (tickover x) (tickpres x)).
Definition set_tickover (v : Z) : gpsd_unit -> gpsd_unit :=
  upd_sock (fun x => mk_unit_sock (fdt x) (addr x) v (tickpres x)).
Definition set_tickpres (v : Z) : gpsd_unit -> gpsd_unit :=
  upd_sock (fun x => mk_unit_sock (fdt x) (addr x) (tickover x) v).
Definition set_tc_recv (v : Z) : gpsd_unit -> gpsd_unit :=
  upd_tally (fun x => mk_unit_tally v (tc_breply x) (tc_nosync x)
    (tc_ibt_recv x) (tc_ibt_used x) (tc_pps_recv x) (tc_pps_used x)).
Definition set_tc_breply (v : Z) : gpsd_unit -> gpsd_unit :=
  upd_tally (fun x => mk_unit_tally (tc_recv x) v (tc_nosync x)
    (tc_ibt_recv x) (tc_ibt_used x) (tc_pps_recv x) (tc_pps_used x)).
Definition set_tc_nosync (v : Z) : gpsd_unit -> gpsd_unit :=
  upd_tally (fun x => mk_unit_tally (tc_recv x) (tc_breply x) v
    (tc_ibt_recv x) (tc_ibt_used x) (tc_pps_recv x) (tc_pps_used x)).
Definition set_tc_ibt_recv (v : Z) : gpsd_unit -> gpsd_unit :=
  upd_tally (fun x => mk_unit_tally (tc_recv x) (tc_breply x) (tc_nosync x)
    v (tc_ibt_used x) (tc_pps_recv x) (tc_pps_used x)).
Definition set_tc_ibt_used (v : Z) : gpsd_unit -> gpsd_unit :=
  upd_tally (fun x => mk_unit_tally (tc_recv x) (tc_breply x) (tc_nosync x)
    (tc_ibt_recv x) v (tc_pps_recv x) (tc_pps_used x)).
Definition set_tc_pps_recv (v : Z) : gpsd_unit -> gpsd_unit :=
  upd_tally (fun x => mk_unit_tally (tc_recv x) (tc_breply x) (tc_nosync x)
    (tc_ibt_recv x) (tc_ibt_used x) v (tc_pps_used x)).
Definition set_tc_pps_used (v : Z) : gpsd_unit -> gpsd_unit :=
  upd_tally (fun x => mk_unit_tally (tc_recv x) (tc_breply x) (tc_nosync x)
    (tc_ibt_recv x) (tc_ibt_used x) (tc_pps_recv x) v).
Definition set_proto_version (v : Z) (u : gpsd_unit) : gpsd_unit :=
  mk_gpsd_unit (u_pps u) (u_ibt u) (u_prec u) (u_fudge u) (u_flags u)
    (u_sock u) (u_tally u) (mode u) (device u) v (logthrottle u)
    (json_parse u) (buflen u) (buffer u).
Definition set_logthrottle (v : Z) (u : gpsd_unit) : gpsd_unit :=
  mk_gpsd_unit (u_pps u) (u_ibt u) (u_prec u) (u_fudge u) (u_flags u)
    (u_sock u) (u_tally u) (mode u) (device u) (proto_version u) v
    (json_parse u) (buflen u) (buffer u).
Definition set_json_parse (v : json_ctx) (u : gpsd_unit) : gpsd_unit :=
  mk_gpsd_unit (u_pps u) (u_ibt u) (u_prec u) (u_fudge u) (u_flags u)
    (u_sock u) (u_tally u) (mode u) (device u) (proto_version u)
    (logthrottle u) v (buflen u) (buffer u).
Definition set_buflen (v : Z) (u : gpsd_unit) : gpsd_unit :=
  mk_gpsd_unit (u_pps u) (u_ibt u) (u_prec u) (u_fudge u) (u_flags u)
    (u_sock u) (u_tally u) (mode u) (device u) (proto_version u)
    (logthrottle u) (json_parse u) v (buffer u).
Definition set_buffer (v : string) (u : gpsd_unit) : gpsd_unit :=
  mk_gpsd_unit (u_pps u) (u_ibt u) (u_prec u) (u_fudge u) (u_flags u)
    (u_sock u) (u_tally u) (mode u) (device u) (proto_version u)
    (logthrottle u) (json_parse u) (buflen u) v.

(** ** The peer and its clock process

    The members of [struct refclockproc] and [struct peer] that the
    driver touches. *)

Record clockprocT := mk_clockproc {
  io_fd           : Z;       (* io.fd, the data connection or -1 *)
  sloppyclockflag : Z;       (* the flag1..flag4 options *)
  lastref         : l_fp;
  lastrec         : l_fp;
  coderecv        : Z;       (* put index of the sample queue *)
  codeproc        : Z;       (* get index of the sample queue *)
  a_lastcode      : string
}.

Record peerT := mk_peer {
  precision : Z;             (* int8_t *)
  cfg_flags : Z;             (* cfg.flags *)
  cfg_mode  : Z;             (* cfg.mode *)
  procptr   : clockprocT
}.

Definition set_io_fd (v : Z) (pp : clockprocT) : clockprocT :=
  mk_clockproc v (sloppyclockflag pp) (lastref pp) (lastrec pp)
    (coderecv pp) (codeproc pp) (a_lastcode pp).
Definition set_lastref (v : l_fp) (pp : clockprocT) : clockprocT :=
  mk_clockproc (io_fd pp) (sloppyclockflag pp) v (lastrec pp)
    (coderecv pp) (codeproc pp) (a_lastcode pp).
Definition set_lastrec (v : l_fp) (pp : clockprocT) : clockprocT :=
  mk_clockproc (io_fd pp) (sloppyclockflag pp) (lastref pp) v
    (coderecv pp) (codeproc pp) (a_lastcode pp).
Definition set_coderecv (v : Z) (pp : clockprocT) : clockprocT :=
  mk_clockproc (io_fd pp) (sloppyclockflag pp) (lastref pp) (lastrec pp)
    v (codeproc pp) (a_lastcode pp).
Definition set_a_lastcode (v : string) (pp : clockprocT) : clockprocT :=
  mk_clockproc (io_fd pp) (sloppyclockflag pp) (lastref pp) (lastrec pp)
    (coderecv pp) (codeproc pp) v.

Definition set_precision (v : Z) (p : peerT) : peerT :=
  mk_peer v (cfg_flags p) (cfg_mode p) (procptr p).
Definition set_cfg_flags (v : Z) (p : peerT) : peerT :=
  mk_peer (precision p) v (cfg_mode p) (procptr p).
Definition upd_procptr (f : clockprocT -> clockprocT) (p : peerT) : peerT :=
  mk_peer (precision p) (cfg_flags p) (cfg_mode p) (f (procptr p)).

(** ** What the driver does to its surroundings

    Calls that leave the driver are recorded, oldest first, in a trace:
    the samples handed to the core, the clock events reported, the log
    lines written, and the traffic on file descriptors. *)

Inductive channel := Primary | Secondary.

Inductive clock_event :=
  | CEVNT_NOMINAL | CEVNT_TIMEOUT | CEVNT_BADREPLY | CEVNT_FAULT.

Inductive log_level := LOG_ERR | LOG_WARNING | LOG_NOTICE | LOG_INFO.

Inductive log_message :=
  | MsgGpsdVersion (revision release : string) (pvhi pvlo : Z)
  | MsgNoVersionData          (* could not evaluate version data *)
  | MsgWatchWriteFailed       (* failed to write watch request *)
  | MsgExpectPps              (* expect valid PPS from now *)
  | MsgUseTpvAlone            (* use TPV alone from now *)
  | MsgClosingSocket (fd : Z) (* closing socket to GPSD *)
  | MsgCannotCreateSocket     (* cannot create GPSD socket *)
  | MsgCannotSetNonBlocking   (* cannot set GPSD socket to non-blocking *)
  | MsgCannotDisableNagle     (* cannot disable TCP nagle *)
  | MsgCannotConnect          (* cannot connect GPSD socket *)
  | MsgCannotRegister         (* failed to register with I/O engine *)
  | MsgAsyncConnectFailed (fd ec : Z).

Inductive event :=
  | EvSample (ch : channel) (stamp recvt : l_fp)
      (* refclock_process_offset(pp, stamp, recvt, 0.0) *)
  | EvReport (ch : channel) (code : clock_event)   (* refclock_report *)
  | EvLog (lvl : log_level) (msg : log_message)    (* msyslog *)
  | EvWrite (fd : Z) (data : string)               (* write *)
  | EvClose (fd : Z)                               (* close *)
  | EvIoCloseClock (fd : Z).                       (* io_closeclock *)

Definition channel_eqb (a b : channel) : bool :=
  match a, b with
  | Primary, Primary | Secondary, Secondary => true
  | _, _ => false
  end.

(** The (reference time, receive time) pairs a trace hands to the core
    on a channel, oldest first. *)
Fixpoint samples_of (ch : channel) (tr : list event) : list (l_fp * l_fp) :=
  match tr with
  | [] => []
  | EvSample c stamp recvt :: tr =>
      if channel_eqb c ch then (stamp, recvt) :: samples_of ch tr
      else samples_of ch tr
  | _ :: tr => samples_of ch tr
  end.

(** The log lines of a trace, and among them the error messages. *)
Definition is_log (e : event) : bool :=
  match e with
  | EvLog _ _ => true
  | _ => false
  end.

Definition is_error_log (e : event) : bool :=
  match e with
  | EvLog LOG_ERR _ => true
  | _ => false
  end.

(** The broken-down time that [strptime] fills in. *)
Record tm := mk_tm {
  tm_year : Z; tm_mon : Z; tm_mday : Z; tm_hour : Z; tm_min : Z; tm_sec : Z
}.

(** The routines and constants the driver takes from elsewhere: JSMN,
    the C library, libntp, the headers of ntpd and the refclock interface
    of the core.  Nothing is assumed about them. *)
Class Externals := {
  (* libjsmn: jsmn_parse on the first len bytes of the buffer; the
     return code and the token array it leaves behind *)
  jsmn_parse : string -> Z * list jsmntok_t;
  (* libc: strptime(s, "%Y-%m-%dT%H:%M:%S", &gd), the fields and the
     number of characters read, or NULL *)
  strptime : string -> option (tm * nat);
  (* libc, floating point: the exponent kept for the "ept" member of a
     TPV record (strtod, fabs, frexp and the two range checks), given the
     text of the member if it has one *)
  ept_xlog2 : option string -> Z;
  (* whether plain char is a signed type *)
  char_is_signed : bool;
  (* include/ntp_fp.h *)
  lfpsint : l_fp -> Z;
  setlfpfrac : l_fp -> Z -> l_fp;
  (* libntp *)
  tspec_stamp_to_lfp : Z -> Z -> l_fp;
  tspec_intv_to_lfp : Z -> Z -> l_fp;
  ntpcal_tm_to_rd : tm -> Z;
  ntpcal_tm_to_daysec : tm -> Z;
  prettydate : l_fp -> string;
  DAY_NTP_STARTS : Z;
  SECSPERDAY : Z;
  (* include/ntp_refclock.h, include/ntp.h *)
  CLK_FLAG1 : Z;
  CLK_FLAG2 : Z;
  CLK_FLAG3 : Z;
  CLK_FLAG4 : Z;
  FLAG_PPS : Z;
  BMAX : Z;
  (* ntpd/ntp_refclock.c: what the calls do to the clock process and to
     the peer *)
  refclock_process_offset : clockprocT -> l_fp -> l_fp -> clockprocT;
  refclock_report : peerT -> clock_event -> peerT
}.

(** What the operating system answers during one call into the driver. *)
Record syscalls := mk_syscalls {
  sys_socket      : Z;     (* socket(): a descriptor or -1 *)
  sys_fcntl       : Z;     (* fcntl(F_SETFL, O_NONBLOCK) *)
  sys_setsockopt  : Z;     (* setsockopt(TCP_NODELAY) *)
  sys_connect     : Z;     (* connect() *)
  sys_errno       : Z;     (* errno after a failed connect or getsockopt *)
  sys_io_addclock : Z;     (* io_addclock(): 0 on failure *)
  sys_pselect     : Z;     (* pselect() on the connecting socket *)
  sys_fd_isset    : bool;  (* FD_ISSET(fdt, wset) afterwards *)
  sys_getsockopt  : Z;     (* getsockopt(SO_ERROR) *)
  sys_so_error    : Z;     (* the error code it stores *)
  sys_write       : string -> Z   (* write(): the count or -1 *)
}.

Definition EINPROGRESS : Z := 115.

(** ** Constants of the driver *)

Definition MODE_OP_MASK   : Z := 3.
Definition MODE_OP_IBT    : Z := 0.
Definition MODE_OP_STRICT : Z := 1.
Definition MODE_OP_AUTO   : Z := 2.
Definition MODE_OP_MAXVAL : Z := 2.
Definition MODE_OP_MODE (x : Z) : Z := Z.land x MODE_OP_MASK.

Definition PRECISION     : Z := -9.
Definition PPS_PRECISION : Z := -20.

Definition MAX_PDU_LEN : Z := 8192.

Definition TICKOVER_LOW  : Z := 10.
Definition TICKOVER_HIGH : Z := 120.
Definition SECSPERHR     : Z := 3600.   (* include/ntp_calendar.h *)
Definition LOGTHROTTLE   : Z := SECSPERHR.

Definition PPS_MAXCOUNT  : Z := 60.     (* upper limit of account  *)
Definition PPS_INCCOUNT  : Z := 3.      (* credit for good samples *)
Definition PPS_DECCOUNT  : Z := 1.      (* debit for bad samples   *)
Definition PPS2_MAXCOUNT : Z := 10.

Definition PROTO_VERSION (hi lo : Z) : Z :=
  Z.lor (Z.land (u32 (Z.shiftl (u32 hi) 16)) 4294901760)
        (Z.land (u32 lo) 65535).

(** ** The state the driver works on *)

Record world := mk_world {
  w_up        : gpsd_unit;
  w_peer      : peerT;           (* the primary peer *)
  w_pps_peer  : option peerT;    (* up->pps_peer, the secondary peer *)
  w_gpsd_addr : list addrinfoT;  (* s_gpsd_addr, nil for NULL *)
  w_trace     : list event
}.

Definition upd_up (f : gpsd_unit -> gpsd_unit) (w : world) : world :=
  mk_world (f (w_up w)) (w_peer w) (w_pps_peer w) (w_gpsd_addr w) (w_trace w).

Definition emit (e : event) (w : world) : world :=
  mk_world (w_up w) (w_peer w) (w_pps_peer w) (w_gpsd_addr w)
    (w_trace w ++ [e]).

(** The peer a channel stands for.  The secondary channel is only used
    when [up->pps_peer] is set. *)
Definition peer_of (ch : channel) (w : world) : peerT :=
  match ch, w_pps_peer w with
  | Secondary, Some p => p
  | _, _ => w_peer w
  end.

Definition upd_peer (ch : channel) (f : peerT -> peerT) (w : world) : world :=
  match ch with
  | Primary =>
      mk_world (w_up w) (f (w_peer w)) (w_pps_peer w) (w_gpsd_addr w)
        (w_trace w)
  | Secondary =>
      mk_world (w_up w) (w_peer w) (option_map f (w_pps_peer w))
        (w_gpsd_addr w) (w_trace w)
  end.

Definition pp_of (ch : channel) (w : world) : clockprocT :=
  procptr (peer_of ch w).

Definition upd_pp (ch : channel) (f : clockprocT -> clockprocT) : world -> world :=
  upd_peer ch (upd_procptr f).

Definition msyslog (lvl : log_level) (msg : log_message) : world -> world :=
  emit (EvLog lvl msg).

(** [++x] on an unsigned int member. *)
Definition incr (x : Z) : Z := u32 (x + 1).

(** ** The driver *)

Section Driver.

Context {ext : Externals}.

(** The value of a plain [char]. *)
Definition cval (c : ascii) : Z :=
  if char_is_signed then i8 (uchar c) else uchar c.

(** *** Log throttling *)

Definition syslogok (pp : clockprocT) (up : gpsd_unit) : bool * gpsd_unit :=
  let res := negb (0 =? Z.land (sloppyclockflag pp) CLK_FLAG3)
             || (0 =? logthrottle up)
             || (LOGTHROTTLE =? logthrottle up) in
  (res, if res then set_logthrottle LOGTHROTTLE up else up).

(** [if (syslogok(pp, up)) msyslog(lvl, msg)] on the primary peer. *)
Definition log_throttled (lvl : log_level) (msg : log_message) (w : world)
    : world :=
  let '(ok, up) := syslogok (pp_of Primary w) (w_up w) in
  let w := upd_up (fun _ => up) w in
  if ok then msyslog lvl msg w else w.

(** *** Helper stuff *)

Definition clamped_precision (rawprec : Z) : Z :=
  let rawprec := if rawprec >? 0 then 0 else rawprec in
  let rawprec := if rawprec <? -32 then -32 else rawprec in
  i16 rawprec.

(** The fractional digits: [ep] is the text after the pre-increment. *)
Fixpoint convert_ascii_time_frac (ep : string) (dw nsec : Z) : Z * string :=
  match ep with
  | String c r =>
      if isdigit c
      then convert_ascii_time_frac r (dw / 10) (nsec + (uchar c - 48) * dw)
      else (nsec, ep)
  | EmptyString => (nsec, ep)
  end.

(** The validity indicator and the content of [*fp] after the call. *)
Definition convert_ascii_time (fp : l_fp) (gps_time : string) : bool * l_fp :=
  match strptime gps_time with
  | None => (false, fp)        (* could not parse the mandatory stuff! *)
  | Some (gd, n) =>
      let ep := drop_nat n gps_time in
      let '(tv_nsec, ep) :=
        if Ascii.eqb (deref ep) "."
        then convert_ascii_time_frac (next ep) 100000000 0
        else (0, ep) in
      if negb (Ascii.eqb (deref ep) "Z") || negb (Ascii.eqb (deref (next ep)) NUL)
      then (false, fp)         (* trailing garbage *)
      else
        let tv_sec := (ntpcal_tm_to_rd gd - DAY_NTP_STARTS) * SECSPERDAY
                      + ntpcal_tm_to_daysec gd in
        (true, tspec_intv_to_lfp tv_sec tv_nsec)
  end.

(** [tc]: [None] is the NULL pointer. *)
Definition save_ltc (tc : option string) (pp : clockprocT) : clockprocT :=
  match tc with
  | None => set_a_lastcode EmptyString pp
  | Some tc => set_a_lastcode (take (BMAX - 1) tc) pp
  end.

(** *** Handling of operation mode switches *)

Definition enter_opmode (mode : Z) (w : world) : world :=
  let w := if MODE_OP_MODE mode =? MODE_OP_AUTO
           then upd_up (set_ppscount (PPS_MAXCOUNT / 2))
                  (upd_up (set_fl_rawibt false) w)
           else w in
  upd_up (set_fl_ibt false) (upd_up (set_fl_pps false) w).

Definition leave_opmode (mode : Z) (w : world) : world :=
  let w := if MODE_OP_MODE mode =? MODE_OP_AUTO
           then upd_up (set_ppscount 0) (upd_up (set_fl_rawibt false) w)
           else w in
  upd_up (set_fl_ibt false) (upd_up (set_fl_pps false) w).

(** *** Operation mode specific evaluation *)

Definition add_clock_sample (ch : channel) (stamp recvt : l_fp) (w : world)
    : world :=
  let w := upd_pp ch (set_lastref stamp) w in
  let w := if coderecv (pp_of ch w) =? codeproc (pp_of ch w)
           then emit (EvReport ch CEVNT_NOMINAL)
                  (upd_peer ch (fun p => refclock_report p CEVNT_NOMINAL) w)
           else w in
  emit (EvSample ch stamp recvt)
    (upd_pp ch (fun pp => refclock_process_offset pp stamp recvt) w).

Definition eval_strict (w : world) : world :=
  let up := w_up w in
  if fl_ibt up && fl_pps up then
    (* use TPV reference time + PPS receive time *)
    let w := add_clock_sample Primary (ibt_stamp up) (pps_recvt up) w in
    let w := upd_peer Primary (set_precision (i8 (pps_prec up))) w in
    (* both packets consumed now... *)
    let w := upd_up (set_fl_pps false) w in
    let w := upd_up (set_fl_ibt false) w in
    upd_up (fun up => set_tc_ibt_used (incr (tc_ibt_used up)) up) w
  else w.

(** PPS processing for the secondary channel; [ch] is [Secondary]. *)
Definition eval_pps_secondary (w : world) : world :=
  let up := w_up w in
  if fl_pps2 up then
    (* feed data *)
    let w := add_clock_sample Secondary (pps_stamp2 up) (pps_recvt2 up) w in
    let w := upd_peer Secondary (set_precision (i8 (pps_prec up))) w in
    (* PPS peer flag logic *)
    let w := upd_up (fun up =>
               set_ppscount2 (min PPS2_MAXCOUNT (ppscount2 up + 2)) up) w in
    let w := if (PPS2_MAXCOUNT =? ppscount2 (w_up w))
                && negb (Z.land (sloppyclockflag (pp_of Secondary w)) CLK_FLAG1
                         =? 0)
             then upd_peer Secondary
                    (fun p => set_cfg_flags (Z.lor (cfg_flags p) FLAG_PPS) p) w
             else w in
    (* mark time stamp as burned... *)
    let w := upd_up (set_fl_pps2 false) w in
    upd_up (fun up => set_tc_pps_used (incr (tc_pps_used up)) up) w
  else w.

Definition eval_serial (w : world) : world :=
  let up := w_up w in
  if fl_ibt up then
    let w := add_clock_sample Primary (ibt_stamp up) (ibt_recvt up) w in
    let w := upd_peer Primary (set_precision (i8 (ibt_prec up))) w in
    (* mark time stamp as burned... *)
    let w := upd_up (set_fl_ibt false) w in
    upd_up (fun up => set_tc_ibt_used (incr (tc_ibt_used up)) up) w
  else w.

Definition eval_auto (w : world) : world :=
  (* If there's no TPV available, stop working here... *)
  if negb (fl_ibt (w_up w)) then w
  else
    (* the counter/threshold dance *)
    let w :=
      if fl_pps (w_up w) then
        let w := upd_up (fun up =>
                   set_ppscount (min PPS_MAXCOUNT (ppscount up + PPS_INCCOUNT))
                     up) w in
        if (PPS_MAXCOUNT =? ppscount (w_up w)) && fl_rawibt (w_up w)
        then msyslog LOG_INFO MsgExpectPps (upd_up (set_fl_rawibt false) w)
        else w
      else
        let w := upd_up (fun up =>
                   set_ppscount (max 0 (ppscount up - PPS_DECCOUNT)) up) w in
        if (0 =? ppscount (w_up w)) && negb (fl_rawibt (w_up w))
        then msyslog LOG_WARNING MsgUseTpvAlone
               (upd_up (set_fl_rawibt true) w)
        else w in
    (* now eventually feed the sample *)
    if fl_rawibt (w_up w) then eval_serial w else eval_strict w.

(** *** JSON parsing stuff *)

(** The result, the parse context and the buffer after the call. *)
Definition json_parse_record (ctx : json_ctx) (buf : string) (len : Z)
    : bool * json_ctx * string :=
  let '(rc, toks) := jsmn_parse (take len buf) in
  if rc <=? 0 then (false, mk_json_ctx (ntok ctx) toks, buf)
  else
    let ctx := mk_json_ctx rc toks in
    if negb (jsmntype_eqb JSMN_OBJECT (tok_type (tok_at ctx 0)))
    then (false, ctx, buf)     (* not object!?! *)
    else
      (* make all tokens NUL terminated *)
      let buf :=
        fold_left
          (fun buf idx =>
             let t := tok_at ctx (Z.of_nat idx) in
             if tok_end t >? tok_start t then store buf (tok_end t) NUL
             else buf)
          (seq 0 (Z.to_nat (ntok ctx))) buf in
      (true, ctx, buf).

(** [Some] of the stamp stored through [dest] when the result is true. *)
Definition get_binary_time (jctx : json_ctx) (mem : string)
    (time_name frac_name : string) (fscale : Z) : option l_fp :=
  let errno := 0 in
  let '(tv_sec, errno) := json_object_lookup_int jctx mem 0 time_name errno in
  let '(tv_nsec, errno) := json_object_lookup_int jctx mem 0 frac_name errno in
  if 0 =? errno
  then Some (tspec_stamp_to_lfp tv_sec (i64 (tv_nsec * fscale)))
  else None.

Definition process_watch (w : world) : world :=
  let up := w_up w in
  match json_object_lookup_string (json_parse up) (buffer up) 0 "device" with
  | None => w
  | Some path =>
      if negb (streq path (device up)) then w
      else if (json_object_lookup_bool (json_parse up) (buffer up) 0 "enable" >? 0)
              && (json_object_lookup_bool (json_parse up) (buffer up) 0 "json" >? 0)
      then upd_up (set_fl_watch true) w
      else upd_up (set_fl_watch false) w
  end.

Definition DQ : string := String "034"%char EmptyString.

Definition CRLF : string := String "013"%char (String "010"%char EmptyString).

(** The two ?WATCH requests, with the device name filled in. *)
Definition s_req_watch (pps : bool) (dev : string) : string :=
  ("?WATCH={" ++ DQ ++ "device" ++ DQ ++ ":" ++ DQ ++ dev ++ DQ ++ ","
   ++ DQ ++ "enable" ++ DQ ++ ":true," ++ DQ ++ "json" ++ DQ ++ ":true"
   ++ (if pps then "," ++ DQ ++ "pps" ++ DQ ++ ":true" else "")
   ++ "};" ++ CRLF)%string.

Definition s_req_version : string := ("?VERSION;" ++ CRLF)%string.

(** [snprintf(up->buffer, sizeof(up->buffer), ...)] producing [s]. *)
Definition snprintf_buffer (mem s : string) : string :=
  let s := take (MAX_PDU_LEN - 1) s in
  (s ++ String NUL (drop_nat (S (String.length s)) mem))%string.

Definition process_version (sys : syscalls) (w : world) : world :=
  let up := w_up w in
  let jctx := json_parse up in
  let mem := buffer up in
  (* get protocol version number *)
  let revision := json_object_lookup_string_default jctx mem 0 "rev" "(unknown)" in
  let release  := json_object_lookup_string_default jctx mem 0 "release" "(unknown)" in
  let errno := 0 in
  let '(major, errno) := json_object_lookup_int jctx mem 0 "proto_major" errno in
  let pvhi := u16 major in
  let '(minor, errno) := json_object_lookup_int jctx mem 0 "proto_minor" errno in
  let pvlo := u16 minor in
  if 0 =? errno then
    let w := if negb (fl_vers up)
             then msyslog LOG_INFO (MsgGpsdVersion revision release pvhi pvlo) w
             else w in
    let w := upd_up (set_proto_version (PROTO_VERSION pvhi pvlo)) w in
    let w := upd_up (set_fl_vers true) w in
    let w := upd_up (fun up =>
               set_pf_nsec (proto_version up >=? PROTO_VERSION 3 9) up) w in
    let w := upd_up (fun up =>
               set_pf_toff (proto_version up >=? PROTO_VERSION 3 10) up) w in
    (* request watch for our GPS device if not yet watched *)
    if fl_watch (w_up w) then w
    else
      let w := upd_up (fun up =>
                 set_buffer
                   (snprintf_buffer (buffer up)
                      (s_req_watch (pf_toff up) (device up))) up) w in
      let buf := until_nul (buffer (w_up w)) in
      let len := Z.of_nat (String.length buf) in
      let w := emit (EvWrite (io_fd (pp_of Primary w)) buf) w in
      let ret := sys_write sys buf in
      if (ret <? 0) || negb (u64 ret =? len)
      then log_throttled LOG_ERR MsgWatchWriteFailed w
      else w
  else
    log_throttled LOG_INFO MsgNoVersionData w.

Definition process_tpv (rtime : l_fp) (w : world) : world :=
  let up := w_up w in
  let jctx := json_parse up in
  let mem := buffer up in
  let gps_mode := i32 (fst (json_object_lookup_int_default jctx mem 0 "mode" 0 0)) in
  let gps_time := json_object_lookup_string jctx mem 0 "time" in
  (* accept time stamps only in 2d or 3d fix *)
  match (if gps_mode <? 2 then None else gps_time) with
  | None =>
      (* receiver has no fix; tell about and avoid stale data *)
      let w := if negb (pf_toff up)
               then upd_up (fun up => set_tc_ibt_recv (incr (tc_ibt_recv up)) up) w
               else w in
      let w := upd_up (fun up => set_tc_nosync (incr (tc_nosync up)) up) w in
      let w := upd_up (set_fl_ibt false) w in
      let w := upd_up (set_fl_pps false) w in
      upd_up (set_fl_nosync true) w
  | Some gps_time =>
      let w := upd_up (set_fl_nosync false) w in
      (* convert clock and set resulting ref time, but only if the TOFF
         sentence is *not* available *)
      let w :=
        if negb (pf_toff up) then
          let w := upd_up (fun up => set_tc_ibt_recv (incr (tc_ibt_recv up)) up) w in
          (* save last time code to clock data *)
          let w := upd_pp Primary (save_ltc (Some gps_time)) w in
          (* now parse the time string *)
          let '(ok, stamp) := convert_ascii_time (ibt_stamp (w_up w)) gps_time in
          let w := upd_up (set_ibt_stamp stamp) w in
          if ok then
            let w := upd_up (set_ibt_local rtime) w in
            let w := upd_up (set_ibt_recvt rtime) w in
            let w := upd_up (fun up =>
                       set_ibt_recvt (u64 (ibt_recvt up - ibt_fudge up)) up) w in
            upd_up (set_fl_ibt true) w
          else
            let w := upd_up (fun up => set_tc_breply (incr (tc_breply up)) up) w in
            upd_up (set_fl_ibt false) w
        else w in
      (* set the precision from the GPSD data *)
      let xlog2 := ept_xlog2 (json_object_lookup_primitive jctx mem 0 "ept") in
      upd_up (set_ibt_prec (clamped_precision xlog2)) w
  end.

Definition process_pps (rtime : l_fp) (w : world) : world :=
  let w := upd_up (fun up => set_tc_pps_recv (incr (tc_pps_recv up)) up) w in
  (* bail out if there's indication that time sync is bad *)
  if fl_nosync (w_up w) then w
  else
    let w := upd_up (set_pps_local rtime) w in
    let up := w_up w in
    let jctx := json_parse up in
    let mem := buffer up in
    let fail (w : world) : world :=
      upd_up (fun up => set_tc_breply (incr (tc_breply up)) up) w in
    let '(clock_frac, real_frac, fscale) :=
      if pf_nsec up then ("clock_nsec", "real_nsec", 1)
      else ("clock_musec", "real_musec", 1000) in
    match get_binary_time jctx mem "clock_sec" clock_frac fscale with
    | None => fail w
    | Some recvt2 =>
        let w := upd_up (set_pps_recvt2 recvt2) w in
        match get_binary_time jctx mem "real_sec" real_frac fscale with
        | None => fail w
        | Some stamp2 =>
            let w := upd_up (set_pps_stamp2 stamp2) w in
            (* the precision field, or the precision of the serial data *)
            let xlog2 :=
              i32 (fst (json_object_lookup_int_default jctx mem 0 "precision"
                          (ibt_prec up) 0)) in
            let w := upd_up (set_pps_prec (clamped_precision xlog2)) w in
            (* fudged receive times for primary & secondary unit *)
            let w := upd_up (fun up => set_pps_recvt (pps_recvt2 up) up) w in
            let w := upd_up (fun up =>
                       set_pps_recvt (u64 (pps_recvt up - pps_fudge up)) up) w in
            let w := upd_up (fun up =>
                       set_pps_recvt2 (u64 (pps_recvt2 up - pps_fudge2 up)) up) w in
            let w := upd_pp Primary (set_lastrec (pps_recvt (w_up w))) w in
            (* map to nearest full second as reference time stamp *)
            let w := upd_up (fun up => set_pps_stamp (pps_recvt up) up) w in
            let w := upd_up (fun up =>
                       set_pps_stamp (u64 (pps_stamp up + 2147483648)) up) w in
            let w := upd_up (fun up =>
                       set_pps_stamp (setlfpfrac (pps_stamp up) 0) up) w in
            let w := upd_pp Secondary
                       (save_ltc (Some (prettydate (pps_stamp2 (w_up w))))) w in
            let w := upd_up
                       (set_fl_pps
                          (Z.land (sloppyclockflag (pp_of Primary w)) CLK_FLAG2
                           =? 0)) w in
            upd_up (set_fl_pps2 true) w
        end
    end.

Definition process_toff (rtime : l_fp) (w : world) : world :=
  let w := upd_up (fun up => set_tc_ibt_recv (incr (tc_ibt_recv up)) up) w in
  (* remember this! *)
  let w := upd_up (set_pf_toff true) w in
  (* bail out if there's indication that time sync is bad *)
  if fl_nosync (w_up w) then w
  else
    let up := w_up w in
    let jctx := json_parse up in
    let mem := buffer up in
    let fail (w : world) : world :=
      upd_up (fun up => set_tc_breply (incr (tc_breply up)) up) w in
    match get_binary_time jctx mem "clock_sec" "clock_nsec" 1 with
    | None => fail w
    | Some recvt =>
        let w := upd_up (set_ibt_recvt recvt) w in
        match get_binary_time jctx mem "real_sec" "real_nsec" 1 with
        | None => fail w
        | Some stamp =>
            let w := upd_up (set_ibt_stamp stamp) w in
            let w := upd_up (fun up =>
                       set_ibt_recvt (u64 (ibt_recvt up - ibt_fudge up)) up) w in
            let w := upd_up (set_ibt_local rtime) w in
            let w := upd_up (set_fl_ibt true) w in
            upd_pp Primary (save_ltc (Some (prettydate (ibt_stamp (w_up w))))) w
        end
    end.

Definition gpsd_parse (rtime : l_fp) (sys : syscalls) (w : world) : world :=
  let up := w_up w in
  let '(ok, jctx, mem) := json_parse_record (json_parse up) (buffer up) (buflen up) in
  let w := upd_up (set_buffer mem) (upd_up (set_json_parse jctx) w) in
  if negb ok then
    upd_up (fun up => set_tc_breply (incr (tc_breply up)) up) w
  else
    (* now dispatch over the objects we know *)
    match json_object_lookup_string jctx mem 0 "class" with
    | None => upd_up (fun up => set_tc_breply (incr (tc_breply up)) up) w
    | Some clsid =>
        let known :=
          if streq "TPV" clsid then Some (process_tpv rtime w)
          else if streq "PPS" clsid then Some (process_pps rtime w)
          else if streq "TOFF" clsid then Some (process_toff rtime w)
          else if streq "VERSION" clsid then Some (process_version sys w)
          else if streq "WATCH" clsid then Some (process_watch w)
          else None in
        match known with
        | None => w              (* nothing we know about... *)
        | Some w =>
            let w := upd_up (fun up => set_tc_recv (incr (tc_recv up)) up) w in
            (* if possible, feed the PPS side channel *)
            let w := match w_pps_peer w with
                     | Some _ => eval_pps_secondary w
                     | None => w
                     end in
            (* check PPS vs. IBT receive times: weed out stale stamps *)
            let w :=
              if fl_pps (w_up w) && fl_ibt (w_up w) then
                let diff := u64 (ibt_local (w_up w) - pps_local (w_up w)) in
                if lfpsint diff >? 0
                then upd_up (set_fl_pps false) w     (* pps too old *)
                else if lfpsint diff <? 0
                then upd_up (set_fl_ibt false) w     (* serial data too old *)
                else w
              else w in
            (* dispatch to the mode-dependent processing functions *)
            if mode (w_up w) =? MODE_OP_STRICT then eval_strict w
            else if mode (w_up w) =? MODE_OP_AUTO then eval_auto w
            else eval_serial w
        end
    end.

(** *** Receiving: the assembly of lines *)

(** The trimming loop: [n] is [pdst - up->buffer]. *)
Fixpoint trim_trailing (mem : string) (n : nat) : nat :=
  match n with
  | O => O
  | S m => if cval (load mem (Z.of_nat m)) <=? 32 then trim_trailing mem m
           else n
  end.

(** A line feed has arrived: trim trailing whitespace, terminate the
    buffer and save the length, as [gpsd_parse] will find them. *)
Definition terminate_line (pdst : Z) (w : world) : world :=
  let pdst := Z.of_nat (trim_trailing (buffer (w_up w)) (Z.to_nat pdst)) in
  let w := upd_up (fun up => set_buffer (store (buffer up) pdst NUL) up) w in
  upd_up (set_buflen (i32 pdst)) w.

(** The loop over the received characters.  [pdst] and [edst] are kept
    as offsets from [up->buffer].  A store at an offset of [MAX_PDU_LEN]
    or more lands behind the array; the model keeps it in [buffer]. *)
Fixpoint gpsd_receive_loop (rtime : l_fp) (sys : syscalls) (psrc : string)
    (edst pdst : Z) (w : world) : Z * world :=
  match psrc with
  | EmptyString => (pdst, w)
  | String ch psrc =>
      if Ascii.eqb ch "010" then
        (* process data and reset buffer *)
        let w := gpsd_parse rtime sys (terminate_line pdst w) in
        gpsd_receive_loop rtime sys psrc edst 0 w
      else if pdst <? edst then
        (* add next char, ignoring leading whitespace *)
        if (cval ch >? 32) || negb (pdst =? 0) then
          let w := upd_up (fun up => set_buffer (store (buffer up) pdst ch) up) w in
          gpsd_receive_loop rtime sys psrc edst (pdst + 1) w
        else gpsd_receive_loop rtime sys psrc edst pdst w
      else gpsd_receive_loop rtime sys psrc edst pdst w
  end.

(** [recv_buffer] holds the [recv_length] characters of the chunk,
    [rtime] is [recv_time]. *)
Definition gpsd_receive (recv_buffer : string) (rtime : l_fp) (sys : syscalls)
    (w : world) : world :=
  let pdst := buflen (w_up w) in
  let edst := pdst + MAX_PDU_LEN - 1 in     (* for trailing NUL *)
  let '(pdst, w) := gpsd_receive_loop rtime sys recv_buffer edst pdst w in
  let w := upd_up (set_buflen (i32 pdst)) w in
  upd_up (set_tickover TICKOVER_LOW) w.

(** *** The connection to GPSD *)

Definition gpsd_stop_socket (w : world) : world :=
  let fd := io_fd (pp_of Primary w) in
  let w :=
    if negb (-1 =? fd) then
      let w := log_throttled LOG_INFO (MsgClosingSocket fd) w in
      let w := emit (EvIoCloseClock fd) w in
      upd_pp Primary (set_io_fd (-1)) w
    else w in
  let w := upd_up (fun up => set_tickover (tickpres up) up) w in
  let w := upd_up (fun up =>
             set_tickpres (min (u32 (tickpres up + 5)) TICKOVER_HIGH) up) w in
  let w := upd_up (set_fl_vers false) w in
  let w := upd_up (set_fl_ibt false) w in
  let w := upd_up (set_fl_pps false) w in
  upd_up (set_fl_watch false) w.

(** The exit of [gpsd_init_socket] through its label [no_socket]. *)
Definition gpsd_init_socket_no_socket (w : world) : world :=
  let w := if negb (-1 =? io_fd (pp_of Primary w))
           then emit (EvClose (io_fd (pp_of Primary w))) w else w in
  let w := if negb (-1 =? fdt (w_up w))
           then emit (EvClose (fdt (w_up w))) w else w in
  let w := upd_pp Primary (set_io_fd (-1)) w in
  let w := upd_up (set_fdt (-1)) w in
  let w := upd_up (fun up => set_tickover (tickpres up) up) w in
  upd_up (fun up =>
    set_tickpres (min (u32 (tickpres up + 5)) TICKOVER_HIGH) up) w.

(** [None]: the address list is empty and the code would follow a NULL
    pointer; [timer_primary] does not call it then. *)
Definition gpsd_init_socket (sys : syscalls) (w : world) : option world :=
  (* draw next address to try *)
  let w := match addr (w_up w) with
           | [] => upd_up (set_addr (w_gpsd_addr w)) w
           | _ => w
           end in
  match addr (w_up w) with
  | [] => None
  | ai :: ai_next =>
      let w := upd_up (set_addr ai_next) w in
      (* try to create a matching socket *)
      let w := upd_up (set_fdt (sys_socket sys)) w in
      if -1 =? fdt (w_up w) then
        Some (gpsd_init_socket_no_socket
                (log_throttled LOG_ERR MsgCannotCreateSocket w))
      else if -1 =? sys_fcntl sys then
        (* make sure the socket is non-blocking *)
        Some (gpsd_init_socket_no_socket
                (log_throttled LOG_ERR MsgCannotSetNonBlocking w))
      else
        (* disable nagling *)
        let w := if -1 =? sys_setsockopt sys
                 then log_throttled LOG_INFO MsgCannotDisableNagle w
                 else w in
        (* start a non-blocking connect *)
        if -1 =? sys_connect sys then
          if sys_errno sys =? EINPROGRESS then Some w
          else Some (gpsd_init_socket_no_socket
                       (log_throttled LOG_ERR MsgCannotConnect w))
        else
          (* a successful synchronous connect *)
          let w := upd_pp Primary (set_io_fd (fdt (w_up w))) w in
          let w := upd_up (set_fdt (-1)) w in
          if 0 =? sys_io_addclock sys
          then Some (gpsd_init_socket_no_socket
                       (log_throttled LOG_ERR MsgCannotRegister w))
          else Some w
  end.

(** The exit of [gpsd_test_socket] through its label [no_socket]. *)
Definition gpsd_test_socket_no_socket (w : world) : world :=
  let w := if negb (-1 =? fdt (w_up w))
           then emit (EvClose (fdt (w_up w))) w else w in
  let w := upd_up (set_fdt (-1)) w in
  let w := upd_up (fun up => set_tickover (tickpres up) up) w in
  upd_up (fun up =>
    set_tickpres (min (u32 (tickpres up + 5)) TICKOVER_HIGH) up) w.

Definition gpsd_test_socket (sys : syscalls) (w : world) : world :=
  (* check if the non-blocking connect was finished *)
  if (0 =? sys_pselect sys) || negb (sys_fd_isset sys) then w
  else
    (* next timeout is a full one... *)
    let w := upd_up (set_tickover TICKOVER_LOW) w in
    (* check for socket error *)
    let ec := sys_so_error sys in
    if (-1 =? sys_getsockopt sys) || negb (0 =? ec) then
      let ec := if 0 =? ec then sys_errno sys else ec in
      gpsd_test_socket_no_socket
        (log_throttled LOG_ERR (MsgAsyncConnectFailed (fdt (w_up w)) ec) w)
    else
      (* swap socket FDs, and make sure the clock was added *)
      let w := upd_pp Primary (set_io_fd (fdt (w_up w))) w in
      let w := upd_up (set_fdt (-1)) w in
      if 0 =? sys_io_addclock sys
      then gpsd_test_socket_no_socket
             (log_throttled LOG_ERR MsgCannotRegister w)
      else w.

(** *** The timer, called once per second *)

(** [if (x) --x;] on an unsigned int. *)
Definition countdown (x : Z) : Z := if negb (x =? 0) then u32 (x - 1) else x.

(** The two countdowns at the head of [timer_primary]. *)
Definition timer_countdowns (w : world) : world :=
  let w := upd_up (fun up => set_logthrottle (countdown (logthrottle up)) up) w in
  upd_up (fun up => set_tickover (countdown (tickover up)) up) w.

Definition timer_primary (sys : syscalls) (w : world) : option world :=
  let w := timer_countdowns w in
  let fd := io_fd (pp_of Primary w) in
  if tickover (w_up w) =? 4 then
    (* a live signal, or a look at the connecting socket *)
    if negb (-1 =? fd) then Some (emit (EvWrite fd s_req_version) w)
    else if negb (-1 =? fdt (w_up w)) then Some (gpsd_test_socket sys w)
    else Some w
  else if tickover (w_up w) =? 0 then
    if negb (-1 =? fd) then Some (gpsd_stop_socket w)
    else if negb (-1 =? fdt (w_up w)) then Some (gpsd_test_socket sys w)
    else match w_gpsd_addr w with
         | [] => Some w
         | _ => gpsd_init_socket sys w
         end
  else
    if (-1 =? fd) && negb (-1 =? fdt (w_up w))
    then Some (gpsd_test_socket sys w)
    else Some w.

Definition timer_secondary (w : world) : world :=
  (* reduce the count by one *)
  let w := upd_up (fun up => set_ppscount2 (max 0 (ppscount2 up - 1)) up) w in
  if 0 =? ppscount2 (w_up w) then
    let pp := pp_of Secondary w in
    let w := if negb (coderecv pp =? codeproc pp) then
               let w := emit (EvReport Secondary CEVNT_TIMEOUT)
                          (upd_peer Secondary
                             (fun p => refclock_report p CEVNT_TIMEOUT) w) in
               upd_pp Secondary (fun pp => set_coderecv (codeproc pp) pp) w
             else w in
    upd_peer Secondary
      (fun p => set_cfg_flags (Z.land (cfg_flags p) (Z.lnot FLAG_PPS)) p) w
  else w.

(** [gpsd_timer]: [ch] tells whether [peer == up->pps_peer]. *)
Definition gpsd_timer (ch : channel) (sys : syscalls) (w : world)
    : option world :=
  match ch with
  | Secondary => Some (timer_secondary w)
  | Primary => timer_primary sys w
  end.

End Driver.

(** ** The vocabulary of the properties

    Nothing below is part of the driver: these are the predicates and the
    runs in whose terms its properties are stated. *)

Section Vocabulary.

Context {ext : Externals}.

(** *** Records and samples *)

(** The two ways in which [gpsd_parse] turns a line down: the line is not
    a JSON object (JSMN finds no token or an error, or the first token is
    not an object), or the object has no string member "class". *)
Definition record_rejected (w : world) : Prop :=
  let up := w_up w in
  let '(ok, jctx, mem) :=
    json_parse_record (json_parse up) (buffer up) (buflen up) in
  ok = false \/ json_object_lookup_string jctx mem 0 "class" = None.

(** The evaluations that can follow one another without a new record in
    between, and what they hand to the core. *)
Inductive evaluation := EvalSerial | EvalStrict | EvalAuto | EvalPpsSecondary.

Definition evaluate (e : evaluation) : world -> world :=
  match e with
  | EvalSerial => eval_serial
  | EvalStrict => eval_strict
  | EvalAuto => eval_auto
  | EvalPpsSecondary => eval_pps_secondary
  end.

Definition evaluations (es : list evaluation) (w : world) : world :=
  fold_left (fun w e => evaluate e w) es w.

(** AUTO mode at work: before every evaluation the records that came in
    have left the flags of the serial stamp and of the pulse at some
    values. *)
Fixpoint eval_auto_run (arrivals : list (bool * bool)) (w : world) : world :=
  match arrivals with
  | [] => w
  | (ibt, pps) :: rest =>
      eval_auto_run rest
        (eval_auto (upd_up (set_fl_pps pps) (upd_up (set_fl_ibt ibt) w)))
  end.

(** The stamps and precisions an evaluation reads are left alone. *)
Definition stamps_kept (w w' : world) : Prop :=
  u_ibt (w_up w') = u_ibt (w_up w)
  /\ u_prec (w_up w') = u_prec (w_up w)
  /\ pps_recvt (w_up w') = pps_recvt (w_up w)
  /\ pps_stamp2 (w_up w') = pps_stamp2 (w_up w)
  /\ pps_recvt2 (w_up w') = pps_recvt2 (w_up w).

(** Nothing went to the core on the primary channel between [w] and
    [w']; the flags of its stamps and the peer are as they were. *)
Definition primary_idle (w w' : world) : Prop :=
  samples_of Primary (w_trace w') = samples_of Primary (w_trace w)
  /\ w_peer w' = w_peer w
  /\ fl_ibt (w_up w') = fl_ibt (w_up w)
  /\ fl_pps (w_up w') = fl_pps (w_up w).

(** One sample went to the core on the primary channel: the serial stamp
    of [w] with its own receive time, or with the receive time of the
    pulse; the precision of the peer is the one that goes with it and the
    flags of the stamps that were used are down. *)
Definition primary_fed (w w' : world) : Prop :=
  fl_ibt (w_up w) = true /\ fl_ibt (w_up w') = false
  /\ ((samples_of Primary (w_trace w')
       = (samples_of Primary (w_trace w)
          ++ [(ibt_stamp (w_up w), ibt_recvt (w_up w))])%list
       /\ precision (w_peer w') = i8 (ibt_prec (w_up w))
       /\ fl_pps (w_up w') = fl_pps (w_up w))
      \/ (fl_pps (w_up w) = true /\ fl_pps (w_up w') = false
          /\ samples_of Primary (w_trace w')
             = (samples_of Primary (w_trace w)
                ++ [(ibt_stamp (w_up w), pps_recvt (w_up w))])%list
          /\ precision (w_peer w') = i8 (pps_prec (w_up w)))).

Definition secondary_idle (w w' : world) : Prop :=
  samples_of Secondary (w_trace w') = samples_of Secondary (w_trace w)
  /\ w_pps_peer w' = w_pps_peer w
  /\ fl_pps2 (w_up w') = fl_pps2 (w_up w).

(** One sample went to the core on the secondary channel. *)
Definition secondary_fed (w w' : world) : Prop :=
  fl_pps2 (w_up w) = true /\ fl_pps2 (w_up w') = false
  /\ samples_of Secondary (w_trace w')
     = (samples_of Secondary (w_trace w)
        ++ [(pps_stamp2 (w_up w), pps_recvt2 (w_up w))])%list
  /\ option_map precision (w_pps_peer w')
     = option_map (fun _ => i8 (pps_prec (w_up w))) (w_pps_peer w).

(** An evaluation adds at most one pair to what a channel has seen. *)
Definition at_most_one_more (ch : channel) (w w' : world) : Prop :=
  exists fed,
    samples_of ch (w_trace w') = (samples_of ch (w_trace w) ++ fed)%list
    /\ (List.length fed <= 1)%nat.

(** A step that moves neither stamps nor flags nor peers and hands
    nothing to the core. *)
Definition quiet (w w' : world) : Prop :=
  stamps_kept w w'
  /\ fl_ibt (w_up w') = fl_ibt (w_up w)
  /\ fl_pps (w_up w') = fl_pps (w_up w)
  /\ fl_pps2 (w_up w') = fl_pps2 (w_up w)
  /\ w_peer w' = w_peer w
  /\ w_pps_peer w' = w_pps_peer w
  /\ (forall ch, samples_of ch (w_trace w') = samples_of ch (w_trace w)).

(** *** Time strings *)

(** The text of a C string holds no NUL. *)
Fixpoint no_nul (s : string) : bool :=
  match s with
  | EmptyString => true
  | String c r => negb (Ascii.eqb c NUL) && no_nul r
  end.

Fixpoint all_digits (s : string) : bool :=
  match s with
  | EmptyString => true
  | String c r => isdigit c && all_digits r
  end.

(** What may follow the seconds of a time stamp: the letter Z, or a dot,
    decimal digits and the letter Z, and nothing after that.  The run of
    digits may be empty. *)
Definition utc_tail (tail : string) : Prop :=
  tail = "Z"
  \/ exists ds, all_digits ds = true /\ tail = ("." ++ ds ++ "Z")%string.

(** The seconds since the start of the NTP era that go with [gd]. *)
Definition tm_to_ntp_seconds (gd : tm) : Z :=
  (ntpcal_tm_to_rd gd - DAY_NTP_STARTS) * SECSPERDAY + ntpcal_tm_to_daysec gd.

(** *** Sockets and the timer *)

(** Whether the log throttle would let a message of the primary peer pass. *)
Definition log_open (w : world) : bool :=
  fst (syslogok (pp_of Primary w) (w_up w)).

(** No data connection and no connect under way. *)
Definition waiting (w : world) : Prop :=
  io_fd (pp_of Primary w) = -1 /\ fdt (w_up w) = -1.

(** [w'] is [w] after an attempt to connect that failed: there is no
    socket left, the countdown holds the preset the attempt started
    with, and of what the attempt added to the trace an error message is
    part if the log throttle was open and no message at all if it was
    shut.  The countdown of the log throttle is loaded with LOGTHROTTLE
    if the message passed and stands as it did if not; the flags of the
    clock are as they were. *)
Definition failed_attempt (w w' : world) : Prop :=
  waiting w'
  /\ tickover (w_up w') = tickpres (w_up w)
  /\ w_gpsd_addr w' = w_gpsd_addr w
  /\ sloppyclockflag (pp_of Primary w') = sloppyclockflag (pp_of Primary w)
  /\ logthrottle (w_up w')
     = (if log_open w then LOGTHROTTLE else logthrottle (w_up w))
  /\ exists new,
       w_trace w' = (w_trace w ++ new)%list
       /\ (log_open w = true -> existsb is_error_log new = true)
       /\ (log_open w = false -> existsb is_log new = false).

(** [w'] is [w] inside such an attempt, before it has failed. *)
Definition attempting (w w' : world) : Prop :=
  tickpres (w_up w') = tickpres (w_up w)
  /\ w_gpsd_addr w' = w_gpsd_addr w
  /\ log_open w' = log_open w
  /\ sloppyclockflag (pp_of Primary w') = sloppyclockflag (pp_of Primary w)
  /\ (logthrottle (w_up w') = logthrottle (w_up w)
      \/ (log_open w = true /\ logthrottle (w_up w') = LOGTHROTTLE))
  /\ exists pre,
       w_trace w' = (w_trace w ++ pre)%list
       /\ (log_open w = false -> existsb is_log pre = false).

(** A stretch of seconds: one call of the timer per answer of the
    system, for as long as the driver runs. *)
Fixpoint timer_run (answers : list syscalls) (w : world) : option world :=
  match answers with
  | [] => Some w
  | sys :: rest =>
      match timer_primary sys w with
      | Some w => timer_run rest w
      | None => None
      end
  end.

(** The answers of the system that send [gpsd_init_socket] to its label
    [no_socket]: no socket, no non-blocking mode, a refused connect, or
    no registration with the I/O engine. *)
Definition socket_failure (sys : syscalls) : Prop :=
  sys_socket sys = -1
  \/ sys_fcntl sys = -1
  \/ (sys_connect sys = -1 /\ sys_errno sys <> EINPROGRESS)
  \/ (sys_connect sys <> -1 /\ sys_io_addclock sys = 0).

(** The answers of the system that send [gpsd_test_socket] to its label
    [no_socket] with the connecting socket still in hand: the socket is
    ready, and it holds an error or cannot be asked for one. *)
Definition connect_failure (sys : syscalls) : Prop :=
  sys_pselect sys <> 0
  /\ sys_fd_isset sys = true
  /\ (sys_getsockopt sys = -1 \/ sys_so_error sys <> 0).

(** *** The log throttle and the backoff *)

(** The log throttle over time: a second passes, or a message asks to
    be logged.  The result lists the answers of [syslogok]. *)
Inductive throttle_step := Tick | Ask.

Fixpoint throttle_run (pp : clockprocT) (steps : list throttle_step)
    (up : gpsd_unit) : list bool :=
  match steps with
  | [] => []
  | Tick :: rest =>
      throttle_run pp rest (set_logthrottle (countdown (logthrottle up)) up)
  | Ask :: rest =>
      let '(ok, up) := syslogok pp up in
      ok :: throttle_run pp rest up
  end.

Definition ticks (steps : list throttle_step) : Z :=
  Z.of_nat (List.length (filter (fun s => match s with Tick => true | Ask => false end) steps)).

(** The preset for the next attempt as a function of the current one. *)
Definition next_preset (w : world) (p : Z) : Z :=
  tickpres (w_up (gpsd_stop_socket (upd_up (set_tickpres p) w))).

(** Exponential backoff: every failure multiplies the preset by the same
    factor [num / den] above one, up to the maximum. *)
Definition exponential_backoff (step : Z -> Z) : Prop :=
  exists num den,
    0 < den < num
    /\ forall p, TICKOVER_LOW <= p <= TICKOVER_HIGH ->
                 step p = Z.min (p * num / den) TICKOVER_HIGH.

(** *** The assembly of lines *)


End Vocabulary.

Section Administration.

Context {ext : Externals}.

(** ** The rest of the clock functions

    Poll and control, the start-up of the driver and of a unit, the
    shutdown, and the helpers they use.  Members of the unit that the
    data path does not touch get their setters here. *)
Definition set_mode (v : Z) (u : gpsd_unit) : gpsd_unit :=
  mk_gpsd_unit (u_pps u) (u_ibt u) (u_prec u) (u_fudge u) (u_flags u)
    (u_sock u) (u_tally u) v (device u) (proto_version u) (logthrottle u)
    (json_parse u) (buflen u) (buffer u).

Definition set_device (v : string) (u : gpsd_unit) : gpsd_unit :=
  mk_gpsd_unit (u_pps u) (u_ibt u) (u_prec u) (u_fudge u) (u_flags u)
    (u_sock u) (u_tally u) (mode u) v (proto_version u) (logthrottle u)
    (json_parse u) (buflen u) (buffer u).

Definition set_pps_fudge (v : l_fp) : gpsd_unit -> gpsd_unit :=
  upd_fudge (fun x => mk_unit_fudge v (pps_fudge2 x) (ibt_fudge x)).

Definition set_pps_fudge2 (v : l_fp) : gpsd_unit -> gpsd_unit :=
  upd_fudge (fun x => mk_unit_fudge (pps_fudge x) v (ibt_fudge x)).

Definition set_ibt_fudge (v : l_fp) : gpsd_unit -> gpsd_unit :=
  upd_fudge (fun x => mk_unit_fudge (pps_fudge x) (pps_fudge2 x) v).

(** The calls into the core that only the poll makes.  They are kept
    apart from the trace of the unit; in [poll_primary] and
    [poll_secondary] the report comes first. *)
Inductive poll_call :=
  | CallReceive (ch : channel)
      (* refclock_receive(peer) *)
  | CallClockStats (ch : channel) (tallies : list Z).
      (* mprintf_clock_stats(peer, "%u %u %u %u %u %u %u", ...) *)

(** ntpd/ntp_refclock.c: what [refclock_receive] does to the peer. *)
Class Core := {
  refclock_receive : peerT -> peerT
}.

Context {core : Core}.

(** *** Poll *)
Definition poll_primary (w : world) : list poll_call * world :=
  let pp := pp_of Primary w in
  let '(calls, w) :=
    if negb (coderecv pp =? codeproc pp) then
      (* all is well *)
      let w := upd_pp Primary (fun pp => set_lastref (lastrec pp) pp) w in
      let w := emit (EvReport Primary CEVNT_NOMINAL)
                 (upd_peer Primary (fun p => refclock_report p CEVNT_NOMINAL) w) in
      ([CallReceive Primary], upd_peer Primary refclock_receive w)
    else
      (* not working properly, admit to it *)
      let w := upd_peer Primary (set_precision PRECISION) w in
      let code :=
        if -1 =? io_fd (pp_of Primary w) then CEVNT_FAULT
        else if negb (0 =? tc_breply (w_up w)) then CEVNT_BADREPLY
        else CEVNT_TIMEOUT in
      ([], emit (EvReport Primary code)
             (upd_peer Primary (fun p => refclock_report p code) w)) in
  let up := w_up w in
  let calls :=
    if negb (Z.land (sloppyclockflag (pp_of Primary w)) CLK_FLAG4 =? 0)
    then (calls ++ [CallClockStats Primary
                      [tc_recv up; tc_breply up; tc_nosync up;
                       tc_ibt_recv up; tc_ibt_used up;
                       tc_pps_recv up; tc_pps_used up]])%list
    else calls in
  (* clear tallies for next round *)
  let w := upd_up (set_tc_breply 0) w in
  let w := upd_up (set_tc_recv 0) w in
  let w := upd_up (set_tc_nosync 0) w in
  let w := upd_up (set_tc_ibt_recv 0) w in
  let w := upd_up (set_tc_ibt_used 0) w in
  let w := upd_up (set_tc_pps_recv 0) w in
  let w := upd_up (set_tc_pps_used 0) w in
  (calls, w).

Definition poll_secondary (w : world) : list poll_call * world :=
  let pp := pp_of Secondary w in
  if negb (coderecv pp =? codeproc pp) then
    (* all is well *)
    let w := upd_pp Secondary (fun pp => set_lastref (lastrec pp) pp) w in
    let w := emit (EvReport Secondary CEVNT_NOMINAL)
               (upd_peer Secondary (fun p => refclock_report p CEVNT_NOMINAL) w) in
    ([CallReceive Secondary], upd_peer Secondary refclock_receive w)
  else
    let w := upd_peer Secondary (set_precision PPS_PRECISION) w in
    let w := upd_peer Secondary
               (fun p => set_cfg_flags (Z.land (cfg_flags p) (Z.lnot FLAG_PPS)) p)
               w in
    ([], emit (EvReport Secondary CEVNT_TIMEOUT)
           (upd_peer Secondary (fun p => refclock_report p CEVNT_TIMEOUT) w)).

(** [gpsd_poll]: [ch] tells whether [peer == up->pps_peer]; [polls] is
    [pp->polls], an unsigned long that the clock process above leaves
    out. *)
Definition gpsd_poll (ch : channel) (polls : Z) (w : world)
    : Z * (list poll_call * world) :=
  let polls := u64 (polls + 1) in
  match ch with
  | Secondary => (polls, poll_secondary w)
  | Primary => (polls, poll_primary w)
  end.

(** *** Control *)

(** [gpsd_control]: [ch] tells whether [peer == up->pps_peer]; [fudge1]
    and [fudge2] are [dtolfp(pp->fudgetime1)] and
    [dtolfp(pp->fudgetime2)]. *)
Definition gpsd_control (ch : channel) (fudge1 fudge2 : l_fp) (w : world)
    : world :=
  match ch with
  | Secondary =>
      let w := upd_up (set_pps_fudge2 fudge1) w in
      if Z.land (sloppyclockflag (pp_of Secondary w)) CLK_FLAG1 =? 0
      then upd_peer Secondary
             (fun p => set_cfg_flags (Z.land (cfg_flags p) (Z.lnot FLAG_PPS)) p)
             w
      else w
  | Primary =>
      (* save preprocessed fudge times *)
      let w := upd_up (set_pps_fudge fudge1) w in
      let w := upd_up (set_ibt_fudge fudge2) w in
      if negb (MODE_OP_MODE
                 (Z.lxor (u32 (mode (w_up w))) (cfg_mode (peer_of Primary w)))
               =? 0)
      then
        let w := leave_opmode (mode (w_up w)) w in
        let w := upd_up (set_mode (MODE_OP_MODE (cfg_mode (peer_of Primary w)))) w in
        enter_opmode (mode (w_up w)) w
      else w
  end.

(** *** Init: the socket address of the GPS daemon

    The list of service and socket names to resolve against, with the
    entry of NULL pointers that ends it. *)
Definition s_svctab : list (option string * option string) :=
  [ (Some "localhost", Some "gpsd");
    (Some "localhost", Some "2947");
    (Some "127.0.0.1", Some "2947");
    (None, None) ].

(** The resolution errors and the index of the service entry that
    finally worked: [s_svcerr] and [s_svcidx]. *)
Record resolver := mk_resolver {
  s_svcerr : list Z;
  s_svcidx : Z
}.

(** The lines that the init check logs. *)
Inductive init_message :=
  | MsgResolveFailed (node service : option string) (rc : Z)
      (* failed to resolve '%s:%s', rc=%d (%s) *)
  | MsgNoSocketAddress
      (* failed to get socket address, giving up. *)
  | MsgUsingInstead (node service node0 service0 : option string).
      (* using '%s:%s' instead of '%s:%s' *)

(** [a[i] = v] on an array. *)
Fixpoint array_set (i : nat) (v : Z) (a : list Z) : list Z :=
  match a, i with
  | [], _ => []
  | _ :: r, O => v :: r
  | x :: r, S j => x :: array_set j v r
  end.

Definition svctab_at (idx : Z) : option string * option string :=
  nth (Z.to_nat idx) s_svctab (None, None).

(** The loop of [gpsd_init] from entry [idx] on; [tab] is what is left of
    the table.  [getaddrinfo] gives the return code and the list stored
    through its last argument. *)
Fixpoint gpsd_init_loop
    (getaddrinfo : option string -> option string -> Z * list addrinfoT)
    (tab : list (option string * option string)) (idx : Z)
    (gpsd_addr : list addrinfoT) (svcerr : list Z)
    : Z * list addrinfoT * list Z :=
  match tab with
  | (Some node, service) :: rest =>
      match gpsd_addr with
      | _ :: _ => (idx, gpsd_addr, svcerr)
      | [] =>
          let '(rc, res) := getaddrinfo (Some node) service in
          let svcerr := array_set (Z.to_nat idx) rc svcerr in
          if 0 =? rc then (idx, res, svcerr)
          else gpsd_init_loop getaddrinfo rest (i32 (idx + 1)) [] svcerr
      end
  | _ => (idx, gpsd_addr, svcerr)
  end.

Definition gpsd_init
    (getaddrinfo : option string -> option string -> Z * list addrinfoT)
    (gpsd_addr : list addrinfoT) (r : resolver)
    : list addrinfoT * resolver :=
  let svcerr := map (fun _ => 0) (s_svcerr r) in
  let '(idx, gpsd_addr, svcerr) :=
    gpsd_init_loop getaddrinfo s_svctab 0 gpsd_addr svcerr in
  (gpsd_addr, mk_resolver svcerr idx).

(** The resolver errors that [gpsd_init_check] spools out, from entry
    [idx] on. *)
Fixpoint spool_errors (n : nat) (idx : Z) (svcerr : list Z)
    : list (log_level * init_message) :=
  match n with
  | O => []
  | S m =>
      (LOG_WARNING,
       MsgResolveFailed (fst (svctab_at idx)) (snd (svctab_at idx))
         (nth (Z.to_nat idx) svcerr 0))
      :: spool_errors m (i32 (idx + 1)) svcerr
  end.

(** Init check: flush pending log messages and tell whether the driver
    can proceed. *)
Definition gpsd_init_check (gpsd_addr : list addrinfoT) (r : resolver)
    : bool * resolver * list (log_level * init_message) :=
  let have_addr := match gpsd_addr with [] => false | _ :: _ => true end in
  (* check if there is something to log *)
  if s_svcidx r =? 0 then (have_addr, r, [])
  else
    (* spool out the resolver errors; idx is where the loop stops *)
    let log := spool_errors (Z.to_nat (s_svcidx r)) 0 (s_svcerr r) in
    let idx := Z.max 0 (s_svcidx r) in
    (* check if it was fatal, or if we can proceed *)
    let log :=
      if negb have_addr then (log ++ [(LOG_ERR, MsgNoSocketAddress)])%list
      else if negb (idx =? 0)
      then (log ++ [(LOG_WARNING,
                     MsgUsingInstead (fst (svctab_at idx)) (snd (svctab_at idx))
                       (fst (svctab_at 0)) (snd (svctab_at 0)))])%list
      else log in
    (* make sure this gets logged only once *)
    (have_addr, mk_resolver (s_svcerr r) 0, log).

(** *** asprintf replacement *)

(** What [myasprintf] asks of the allocator: the size of a block, and
    whether [malloc] gave it; [Free None] is [free(NULL)]. *)
Inductive heap_call :=
  | Malloc (size : Z) (ok : bool)
  | Free (block : option Z).

(** [malloc] tells whether a block of the size can be had; [vsnprintf]
    gives, for the size of the buffer, the return value and the string
    left in the buffer.  The result is the return value, the string that
    [*spp] points at, if any, and the calls to the allocator.  [None]:
    the loop has not come to its end within [fuel] rounds. *)
Fixpoint myasprintf_loop (fuel : nat) (malloc : Z -> bool)
    (vsnprintf : Z -> Z * string) (alen : Z) (spp : option Z)
    (heap : list heap_call)
    : option (Z * option string * list heap_call) :=
  match fuel with
  | O => None
  | S fuel =>
      let alen := u64 (alen + alen) in
      let heap := (heap ++ [Free spp])%list in
      if malloc alen then
        let heap := (heap ++ [Malloc alen true])%list in
        let '(rc, text) := vsnprintf alen in
        let plen := u64 rc in
        if plen >=? alen
        then myasprintf_loop fuel malloc vsnprintf alen (Some alen) heap
        else Some (i32 plen, Some text, heap)
      else Some (-1, None, (heap ++ [Malloc alen false])%list)
  end.

Definition myasprintf (fuel : nat) (malloc : Z -> bool)
    (vsnprintf : Z -> Z * string)
    : option (Z * option string * list heap_call) :=
  myasprintf_loop fuel malloc vsnprintf 32 None [].

(** *** Dump of a raw data buffer (DEBUG) *)
Definition hex_digit (d : Z) : ascii :=
  deref (drop_nat (Z.to_nat d) "0123456789abcdef").

(** What the format "\\%#.2x" makes of a byte. *)
Definition hex_escape (c : Z) : string :=
  if c =? 0 then "\00"
  else String "\" (String "0" (String "x"
         (String (hex_digit (c / 16)) (String (hex_digit (c mod 16)) "")))).

(** The loop of [log_data]: [src] is what is left of the data, [dptr]
    the offset of the write pointer in [s_lbuf], [out] the string that
    starts at [s_lbuf].  [isprint] is the test of the C library. *)
Fixpoint log_data_loop (isprint : Z -> bool) (src : string) (dptr : Z)
    (out : string) : Z * string :=
  match src with
  | EmptyString => (dptr, out)
  | String c rest =>
      (* leave room for hex (\\x23) + NUL *)
      let dtop := MAX_PDU_LEN - 10 in
      if dptr <? dtop then
        if Ascii.eqb c "\" then
          (* replace with two \ *)
          log_data_loop isprint rest (dptr + 2) (out ++ "\\")
        else if isprint (uchar c) then
          log_data_loop isprint rest (dptr + 1) (out ++ String c "")
        else
          let esc := hex_escape (uchar c) in
          log_data_loop isprint rest
            (dptr + Z.of_nat (String.length esc))
            (out ++ take (dtop - dptr - 1) esc)
      else (dptr, out)
  end.

(** [log_data]: the offset at which the closing NUL is stored and the
    text that is printed between the quotes, if the debug level asks for
    it. *)
Definition log_data (debug : Z) (isprint : Z -> bool) (buf : string)
    : option (Z * string) :=
  if debug >? 1 then
    let '(dptr, out) := log_data_loop isprint buf 0 "" in
    Some (dptr, until_nul out)
  else None.

(** *** Start and shutdown

    The clock for unit number n and the clock for n + 128, its PPS side,
    share one unit.  The units are linked into the list [s_clock_units];
    a cell of the list has the address of the unit, the members that
    count its users, point to the PPS peer, number and name it, and the
    members the data path works on. *)
Record unit_cell := mk_unit_cell {
  c_addr     : Z;            (* where the unit is *)
  c_refcount : Z;            (* size_t *)
  c_pps_peer : option Z;     (* where the PPS peer is, if there is one *)
  c_unit     : Z;            (* int *)
  c_logname  : string;       (* cached name for log/print *)
  c_up       : gpsd_unit
}.

(** A peer of the driver: where it is, the members above, and
    [pp->unitptr]. *)
Record clock_peer := mk_clock_peer {
  cp_addr    : Z;
  cp_peer    : peerT;
  cp_unitptr : option Z
}.

(** The statics of the driver. *)
Record driver := mk_driver {
  s_clock_units : list unit_cell;
  s_gpsd_addr   : list addrinfoT;
  s_resolver    : resolver
}.

(** What the surroundings answer during a start. *)
Record start_calls := mk_start_calls {
  sys_emalloc_zero  : Z;                 (* the address of the new unit *)
  sys_refclock_name : string;            (* refclock_name(peer) *)
  sys_cfg_path      : option string;     (* peer->cfg.path *)
  sys_malloc        : Z -> bool;         (* malloc() in myasprintf *)
  sys_stat          : string -> Z * bool (* stat(): the return code and
                                            S_ISCHR(sb.st_mode) *)
}.

Inductive start_message :=
  | MsgInit (msg : init_message)
  | MsgDeviceNameTooLong (logname : string)
      (* clock device name too long *)
  | MsgNotCharDevice (logname device : string)
      (* '%s' is not a character device *)
  | MsgNoGpsdAddress (logname : string)
      (* no GPSD socket address, giving up *)
  | MsgStartup (name device : string)
      (* LOGIF(CLOCKINFO, ...): startup, device is '%s' *)
  | MsgShutdown (refclkunit : Z).
      (* LOGIF(CLOCKINFO, ...): shutdown: gpsd_json(%d) *)

(** A unit as [emalloc_zero] hands it out. *)
Definition zero_unit : gpsd_unit :=
  mk_gpsd_unit
    (mk_unit_pps 0 0 0 0 0 0 0) (mk_unit_ibt 0 0 0) (mk_unit_prec 0 0)
    (mk_unit_fudge 0 0 0)
    (mk_unit_flags false false false false false false false false false)
    (mk_unit_sock 0 [] 0 0) (mk_unit_tally 0 0 0 0 0 0 0)
    0 "" 0 0 (mk_json_ctx 0 []) 0 "".

(** What "%d" makes of a number that is not negative. *)
Fixpoint decimal_digits (fuel : nat) (n : Z) (acc : string) : string :=
  match fuel with
  | O => acc
  | S fuel =>
      let acc := String (ascii_of_N (Z.to_N (48 + n mod 10))) acc in
      if n / 10 =? 0 then acc else decimal_digits fuel (n / 10) acc
  end.

Definition decimal (n : Z) : string := decimal_digits 10 n "".

(** The scan of the list for a unit with the number: how many links it
    follows before it stops, at that unit or at the end of the list. *)
Fixpoint scan_units (u : Z) (units : list unit_cell) : nat :=
  match units with
  | [] => O
  | c :: rest => if c_unit c =? u then O else S (scan_units u rest)
  end.

(** [*uscan = c]: the link at which the scan stopped points at [c], with
    what came after it behind; at the end of the list [c] is appended. *)
Fixpoint put_unit (pos : nat) (c : unit_cell) (units : list unit_cell)
    : list unit_cell :=
  match pos, units with
  | _, [] => [c]
  | O, _ :: rest => c :: rest
  | S pos, x :: rest => x :: put_unit pos c rest
  end.

(** [*uscan = up->next_unit]. *)
Fixpoint unlink_unit (pos : nat) (units : list unit_cell) : list unit_cell :=
  match pos, units with
  | _, [] => []
  | O, _ :: rest => rest
  | S pos, x :: rest => x :: unlink_unit pos rest
  end.

Definition set_c_refcount (v : Z) (c : unit_cell) : unit_cell :=
  mk_unit_cell (c_addr c) v (c_pps_peer c) (c_unit c) (c_logname c) (c_up c).

Definition set_c_pps_peer (v : option Z) (c : unit_cell) : unit_cell :=
  mk_unit_cell (c_addr c) (c_refcount c) v (c_unit c) (c_logname c) (c_up c).

Definition set_c_up (v : gpsd_unit) (c : unit_cell) : unit_cell :=
  mk_unit_cell (c_addr c) (c_refcount c) (c_pps_peer c) (c_unit c)
    (c_logname c) v.

Definition set_cp_peer (v : peerT) (p : clock_peer) : clock_peer :=
  mk_clock_peer (cp_addr p) v (cp_unitptr p).

Definition set_cp_unitptr (v : option Z) (p : clock_peer) : clock_peer :=
  mk_clock_peer (cp_addr p) (cp_peer p) v.

(** The exit of [gpsd_start] through its label [dev_fail]: on failure,
    remove all resources of the unit and declare defeat.  [c] is the
    unit as it is by then. *)
Definition gpsd_start_dev_fail (pos : nat) (c : unit_cell)
    (units : list unit_cell) (p : clock_peer)
    : list unit_cell * clock_peer :=
  let c := set_c_refcount (u64 (c_refcount c - 1)) c in
  let units := if c_refcount c =? 0 then unlink_unit pos units
               else put_unit pos c units in
  (units, set_cp_unitptr None p).

(** [gpsd_start]: whether the start succeeded, the statics and the peer
    afterwards, and what was logged.  [clockinfo] tells whether the log
    mask lets the startup notice pass.  [None]: [myasprintf] has not
    come to its end within [fuel] rounds. *)
Definition gpsd_start (fuel : nat) (clockinfo : bool) (unit : Z)
    (sys : start_calls) (d : driver) (p : clock_peer)
    : option (bool * driver * clock_peer * list (log_level * start_message)) :=
  (* check if we can proceed at all or if init failed *)
  let '(ok, r, ilog) := gpsd_init_check (s_gpsd_addr d) (s_resolver d) in
  let log := map (fun lm => (fst lm, MsgInit (snd lm))) ilog in
  let gpsd_addr := s_gpsd_addr d in
  let units := s_clock_units d in
  if negb ok then Some (false, mk_driver units gpsd_addr r, p, log)
  else
    let u := Z.land unit 127 in
    (* search for matching unit *)
    let pos := scan_units u units in
    let fail (c : unit_cell) (units : list unit_cell) (p : clock_peer)
             (log : list (log_level * start_message)) :=
      let '(units, p) := gpsd_start_dev_fail pos c units p in
      Some (false, mk_driver units gpsd_addr r, p, log) in
    (* setup refclock processing, and what follows it *)
    let setup (c : unit_cell) (units : list unit_cell) :=
      let p := set_cp_unitptr (Some (c_addr c)) p in
      let peer := upd_procptr (set_io_fd (-1)) (cp_peer p) in
      let peer := upd_procptr (set_a_lastcode "") peer in
      (* initialize miscellaneous variables *)
      let peer := if unit >=? 128 then set_precision PPS_PRECISION peer
                  else set_precision PRECISION peer in
      let p := set_cp_peer peer p in
      (* if the daemon name lookup failed, just give up now *)
      match addr (c_up c) with
      | [] => fail c units p
                (log ++ [(LOG_ERR, MsgNoGpsdAddress (c_logname c))])%list
      | _ :: _ =>
          let log := if clockinfo
                     then (log ++ [(LOG_NOTICE,
                                    MsgStartup (sys_refclock_name sys)
                                      (device (c_up c)))])%list
                     else log in
          let c := set_c_up (set_mode (MODE_OP_MODE (cfg_mode peer)) (c_up c)) c in
          let c := if mode (c_up c) >? MODE_OP_MAXVAL
                   then set_c_up (set_mode 0 (c_up c)) c else c in
          let c :=
            if unit >=? 128 then set_c_pps_peer (Some (cp_addr p)) c
            else set_c_up
                   (w_up (enter_opmode (mode (c_up c))
                            (mk_world (c_up c) peer None gpsd_addr []))) c in
          Some (true, mk_driver (put_unit pos c units) gpsd_addr r, p, log)
      end in
    match nth_error units pos with
    | None =>
        (* alloc unit, add to list and increment use count ASAP *)
        let c := mk_unit_cell (sys_emalloc_zero sys) 0 None 0 "" zero_unit in
        let units := put_unit pos c units in
        let c := set_c_refcount (u64 (c_refcount c + 1)) c in
        (* initialize the unit structure *)
        let c := mk_unit_cell (c_addr c) (c_refcount c) (c_pps_peer c) u
                   (sys_refclock_name sys) (c_up c) in
        let c := set_c_up (set_fdt (-1) (c_up c)) c in
        let c := set_c_up (set_addr gpsd_addr (c_up c)) c in
        let c := set_c_up (set_tickpres TICKOVER_LOW (c_up c)) c in
        (* create the device name and check for a character device *)
        let text := match sys_cfg_path sys with
                    | Some path => until_nul path
                    | None => "/dev/gps" ++ decimal (c_unit c)
                    end in
        match myasprintf fuel (sys_malloc sys)
                (fun n => (Z.of_nat (String.length text), take (n - 1) text))
        with
        | None => None
        | Some (ret, spp, _) =>
            let c := set_c_up
                       (set_device (match spp with Some s => s | None => "" end)
                          (c_up c)) c in
            if -1 =? ret then
              fail c (put_unit pos c units) p
                (log ++ [(LOG_ERR, MsgDeviceNameTooLong (c_logname c))])%list
            else
              let '(rc, is_chr) := sys_stat sys (device (c_up c)) in
              if (-1 =? rc) || negb is_chr then
                fail c (put_unit pos c units) p
                  (log ++ [(LOG_ERR,
                            MsgNotCharDevice (c_logname c) (device (c_up c)))])%list
              else setup c (put_unit pos c units)
        end
    | Some c =>
        (* all set up, just increment use count *)
        let c := set_c_refcount (u64 (c_refcount c + 1)) c in
        setup c (put_unit pos c units)
    end.

(** [gpsd_shutdown]: the statics and the peer afterwards, the
    descriptors that were closed and what was logged; [refclkunit] is
    [pp->refclkunit].  [None]: the unit pointer of the peer points at no
    unit of the list. *)
Definition gpsd_shutdown (clockinfo : bool) (refclkunit : Z) (d : driver)
    (p : clock_peer)
    : option (driver * clock_peer * list event
              * list (log_level * start_message)) :=
  match cp_unitptr p with
  | None =>
      (* the unit pointer might have been removed already *)
      Some (d, p, [], [])
  | Some a =>
      match find (fun c => c_addr c =? a) (s_clock_units d) with
      | None => None
      | Some c =>
          let pp := procptr (cp_peer p) in
          let '(p, trace) :=
            match c_pps_peer c with
            | None => (p, [])          (* this is NULL if no related PPS *)
            | Some pps =>
                if negb (cp_addr p =? pps) then
                  (* now check if we must close IO resources *)
                  let '(p, trace) :=
                    if negb (-1 =? io_fd pp)
                    then (set_cp_peer (upd_procptr (set_io_fd (-1)) (cp_peer p)) p,
                          [EvIoCloseClock (io_fd pp)])
                    else (p, []) in
                  if negb (fdt (c_up c) =? -1)
                  then (p, (trace ++ [EvClose (fdt (c_up c))])%list)
                  else (p, trace)
                else (p, [])
            end in
          (* decrement use count and eventually remove this unit *)
          let c := set_c_refcount (u64 (c_refcount c - 1)) c in
          let units :=
            if c_refcount c =? 0
            then filter (fun x => negb (c_addr x =? a)) (s_clock_units d)
            else map (fun x => if c_addr x =? a then c else x) (s_clock_units d) in
          Some (mk_driver units (s_gpsd_addr d) (s_resolver d),
                set_cp_unitptr None p, trace,
                if clockinfo then [(LOG_NOTICE, MsgShutdown (i32 refclkunit))]
                else [])
      end
  end.

End Administration.

(** ** More vocabulary

    Predicates and runs for the properties of the token walk, of the
    line assembly, of the connection management and of the clock
    functions. *)

Section Observations.

Context {ext : Externals}.

Definition jsmn_sizes (ctx : json_ctx) : Prop :=
  Forall (fun t => 0 <= tok_size t <= JSMN_MAXTOK) (tok ctx).

Definition scalar_token (ctx : json_ctx) (tid : Z) : Prop :=
  tok_type (tok_at ctx tid) <> JSMN_OBJECT
  /\ tok_type (tok_at ctx tid) <> JSMN_ARRAY.

Definition member_from (ctx : json_ctx) (p : Z) (i : nat) : Z :=
  Nat.iter i (fun p => json_token_skip ctx (p + 1)) p.

Definition member_key (ctx : json_ctx) (tid : Z) (i : nat) : Z :=
  member_from ctx (tid + 1) i.

Definition key_token (ctx : json_ctx) (mem : string) (p : Z) : option string :=
  match tok_type (tok_at ctx p) with
  | JSMN_STRING => Some (cstr_at mem (tok_start (tok_at ctx p)))
  | _ => None
  end.

(** An optional sign and at least one digit, and nothing else; [v] is the
    number written. *)
Definition integer_text (s : string) (v : Z) : Prop :=
  exists ds,
    ds <> "" /\ all_digits ds = true
    /\ ((s = ds \/ s = "+" ++ ds) /\ v = dec_value ds
        \/ s = "-" ++ ds /\ v = - dec_value ds).

(** Whether [strtojint] leaves [errno] alone on [cp]: after an optional
    sign there is at least one digit, and the digits fit a [long]. *)
Definition leading_integer (cp : string) : bool :=
  let neg := Ascii.eqb (deref cp) "-" in
  let body := if neg || Ascii.eqb (deref cp) "+" then next cp else cp in
  negb (String.eqb (digit_prefix body) "")
  && (dec_value (digit_prefix body) <=? (if neg then 2 ^ 63 else 2 ^ 63 - 1)).

(** A member that [get_binary_time] can use. *)
Definition readable_integer (ctx : json_ctx) (mem key : string) : bool :=
  match json_object_lookup_primitive ctx mem 0 key with
  | Some cp => leading_integer cp
  | None => false
  end.

(** What JSMN makes of the record in the buffer: the count it returns and
    the tokens it fills in. *)
Definition record_scan (w : world) : Z * list jsmntok_t :=
  jsmn_parse (take (buflen (w_up w)) (buffer (w_up w))).

(** The record in the buffer is no JSON object: JSMN reports an error or
    not a single token, or the first token is not an object. *)
Definition not_an_object (w : world) : Prop :=
  fst (record_scan w) <= 0
  \/ tok_type (nth 0 (snd (record_scan w)) (mk_tok JSMN_UNDEFINED 0 0 0))
     <> JSMN_OBJECT.

(** No member [key] has a string for its value: wherever a string token
    behind the head reads [key], the token after it is not a string. *)
Definition no_string_member (ctx : json_ctx) (mem key : string) : Prop :=
  forall t,
    0 < t -> t + 1 < ntok ctx ->
    tok_type (tok_at ctx t) = JSMN_STRING ->
    cstr_at mem (tok_start (tok_at ctx t)) = key ->
    tok_type (tok_at ctx (t + 1)) <> JSMN_STRING.

(** The members of the object at the head of the record have strings for
    their keys, and none of them is named [key] with a value of type
    [ty].  The members are counted as [json_object_lookup] walks them:
    the key of the first is the token after the head, and the key of the
    next is the token after the value. *)
Definition no_member_of_type (ctx : json_ctx) (mem key : string)
    (ty : jsmntype_t) : Prop :=
  forall i : nat,
    Z.of_nat i < tok_size (tok_at ctx 0) ->
    member_key ctx 0 i + 1 < ntok ctx ->
    exists k,
      key_token ctx mem (member_key ctx 0 i) = Some k
      /\ (k = key ->
          tok_type (tok_at ctx (member_key ctx 0 i + 1)) <> ty).

(** The record in the buffer has no string member "class", read off the
    tokens and the terminated text that [json_parse_record] leaves: no
    token pair looks like one, or the record is an object with string
    keys none of whose members is one. *)
Definition lacks_class (w : world) : Prop :=
  let up := w_up w in
  let '(_, jctx, mem) :=
    json_parse_record (json_parse up) (buffer up) (buflen up) in
  no_string_member jctx mem "class"
  \/ no_member_of_type jctx mem "class" JSMN_STRING.

(** The two halves of [process_version]: the version is noted in the
    unit, then the watch request is sent unless the device is watched. *)
Definition note_version (revision release : string) (pvhi pvlo : Z)
    (w : world) : world :=
  let w := if negb (fl_vers (w_up w))
           then msyslog LOG_INFO (MsgGpsdVersion revision release pvhi pvlo) w
           else w in
  let w := upd_up (set_proto_version (PROTO_VERSION pvhi pvlo)) w in
  let w := upd_up (set_fl_vers true) w in
  let w := upd_up (fun up =>
             set_pf_nsec (proto_version up >=? PROTO_VERSION 3 9) up) w in
  upd_up (fun up =>
            set_pf_toff (proto_version up >=? PROTO_VERSION 3 10) up) w.

Definition request_watch (sys : syscalls) (w : world) : world :=
  if fl_watch (w_up w) then w
  else
    let w := upd_up (fun up =>
               set_buffer
                 (snprintf_buffer (buffer up)
                    (s_req_watch (pf_toff up) (device up))) up) w in
    let buf := until_nul (buffer (w_up w)) in
    let len := Z.of_nat (String.length buf) in
    let w := emit (EvWrite (io_fd (pp_of Primary w)) buf) w in
    let ret := sys_write sys buf in
    if (ret <? 0) || negb (u64 ret =? len)
    then log_throttled LOG_ERR MsgWatchWriteFailed w
    else w.

(** Whether protocol [hi].[lo] is protocol [a].[b] or a later one. *)
Definition protocol_since (a b hi lo : Z) : bool :=
  (a <? hi) || ((hi =? a) && (b <=? lo)).

(** What [process_version] writes to the data connection of [w] when the
    protocol has TOFF records ([toff]) or not. *)
Definition watch_request (toff : bool) (w : world) : string :=
  until_nul (take (MAX_PDU_LEN - 1) (s_req_watch toff (device (w_up w)))).

(** What the parser has no business with: the administration of the
    sockets, the fudge values, the operation mode, the device name and
    the address list. *)
Definition admin_kept (w w' : world) : Prop :=
  u_sock (w_up w') = u_sock (w_up w)
  /\ u_fudge (w_up w') = u_fudge (w_up w)
  /\ mode (w_up w') = mode (w_up w)
  /\ device (w_up w') = device (w_up w)
  /\ w_gpsd_addr w' = w_gpsd_addr w.

(** The class of the record in the buffer, as [gpsd_parse] finds it. *)
Definition record_class (w : world) : option string :=
  let up := w_up w in
  let '(ok, jctx, mem) :=
    json_parse_record (json_parse up) (buffer up) (buflen up) in
  if ok then json_object_lookup_string jctx mem 0 "class" else None.

(** GPSD has said that the receiver has no fix, and no stamp of the
    primary channel is pending. *)
Definition no_fix (w : world) : Prop :=
  fl_nosync (w_up w) = true
  /\ fl_ibt (w_up w) = false
  /\ fl_pps (w_up w) = false.

(** What a TPV record says about the fix: the mode is below 2 or there
    is no time. *)
Definition tpv_without_fix (w : world) : Prop :=
  let up := w_up w in
  i32 (fst (json_object_lookup_int_default (json_parse up) (buffer up) 0
              "mode" 0 0)) < 2
  \/ json_object_lookup_string (json_parse up) (buffer up) 0 "time" = None.

(** The members of the unit that say what is pending. *)
Definition pending (w : world) : bool * bool * bool * bool :=
  (fl_nosync (w_up w), fl_ibt (w_up w), fl_pps (w_up w), fl_pps2 (w_up w)).

Definition rearm (t : Z) : world -> world := upd_up (set_tickover t).

(** What [gpsd_parse] does with a record of a class it knows once the
    record has been processed: count it, feed the secondary channel, weed
    out stale stamps and evaluate by mode. *)
Definition parse_tail (w : world) : world :=
  let w := upd_up (fun up => set_tc_recv (incr (tc_recv up)) up) w in
  let w := match w_pps_peer w with
           | Some _ => eval_pps_secondary w
           | None => w
           end in
  let w :=
    if fl_pps (w_up w) && fl_ibt (w_up w) then
      let diff := u64 (ibt_local (w_up w) - pps_local (w_up w)) in
      if lfpsint diff >? 0 then upd_up (set_fl_pps false) w
      else if lfpsint diff <? 0 then upd_up (set_fl_ibt false) w
      else w
    else w in
  if mode (w_up w) =? MODE_OP_STRICT then eval_strict w
  else if mode (w_up w) =? MODE_OP_AUTO then eval_auto w
  else eval_serial w.

(** The driver at work: seconds pass and chunks come in. *)
Inductive driver_step :=
  | Second (sys : syscalls)
  | Chunk (recv_buffer : string) (rtime : l_fp) (sys : syscalls).

Fixpoint driver_run (steps : list driver_step) (w : world) : option world :=
  match steps with
  | [] => Some w
  | Second sys :: rest =>
      match timer_primary sys w with
      | Some w => driver_run rest w
      | None => None
      end
  | Chunk recv_buffer rtime sys :: rest =>
      driver_run rest (gpsd_receive recv_buffer rtime sys w)
  end.

(** At most one of the two descriptors is in use. *)
Definition one_socket (w : world) : Prop :=
  io_fd (pp_of Primary w) = -1 \/ fdt (w_up w) = -1.

(** The preset is in its range. *)
Definition preset_in_range (w : world) : Prop :=
  TICKOVER_LOW <= tickpres (w_up w) <= TICKOVER_HIGH.

(** What a step of the connection management may do to the preset. *)
Definition preset_moved (w w' : world) : Prop :=
  w_gpsd_addr w' = w_gpsd_addr w
  /\ (tickpres (w_up w') = tickpres (w_up w)
      \/ tickpres (w_up w')
         = min (u32 (tickpres (w_up w) + 5)) TICKOVER_HIGH).

Definition preset_same (w w' : world) : Prop :=
  w_gpsd_addr w' = w_gpsd_addr w
  /\ tickpres (w_up w') = tickpres (w_up w).

Context {core : Core}.

(** The tallies in the order of the statistics line. *)
Definition tally_line (up : gpsd_unit) : list Z :=
  [tc_recv up; tc_breply up; tc_nosync up; tc_ibt_recv up; tc_ibt_used up;
   tc_pps_recv up; tc_pps_used up].

(** No sample waits in the queue of the channel. *)
Definition queue_empty (ch : channel) (w : world) : Prop :=
  coderecv (pp_of ch w) = codeproc (pp_of ch w).

(** What the resolver answers for entry [i] of the table. *)
Definition resolved
    (getaddrinfo : option string -> option string -> Z * list addrinfoT)
    (i : Z) : Z * list addrinfoT :=
  getaddrinfo (fst (svctab_at i)) (snd (svctab_at i)).

(** The warning for entry [i]. *)
Definition resolve_warning
    (getaddrinfo : option string -> option string -> Z * list addrinfoT)
    (i : nat) : log_level * init_message :=
  (LOG_WARNING,
   MsgResolveFailed (fst (svctab_at (Z.of_nat i))) (snd (svctab_at (Z.of_nat i)))
     (fst (resolved getaddrinfo (Z.of_nat i)))).

Definition is_nil {A : Type} (l : list A) : bool :=
  match l with [] => true | _ :: _ => false end.

(** The blocks that are allocated and not freed after the calls. *)
Fixpoint held_after (heap : list heap_call) (held : list Z) : list Z :=
  match heap with
  | [] => held
  | Malloc size true :: rest => held_after rest (held ++ [size])%list
  | Malloc _ false :: rest => held_after rest held
  | Free (Some size) :: rest => held_after rest (remove Z.eq_dec size held)
  | Free None :: rest => held_after rest held
  end.

Definition held (heap : list heap_call) : list Z := held_after heap [].

(** The text that [log_data] prints for one character and for a string
    of them. *)
Definition escape (isprint : Z -> bool) (c : ascii) : string :=
  if Ascii.eqb c "\" then "\\"
  else if isprint (uchar c) then String c ""
  else hex_escape (uchar c).

Fixpoint escape_all (isprint : Z -> bool) (s : string) : string :=
  match s with
  | EmptyString => EmptyString
  | String c rest => escape isprint c ++ escape_all isprint rest
  end.

(** Who is in the list of units: for each unit its address, its number
    and the count of its users. *)
Definition census (units : list unit_cell) : list (Z * Z * Z) :=
  map (fun c => (c_addr c, c_unit c, c_refcount c)) units.

(** The list of units is in order: no two units have the same number or
    the same address, the numbers are unit numbers, and every unit has a
    user. *)
Definition registry_ok (units : list unit_cell) : Prop :=
  NoDup (map c_unit units)
  /\ NoDup (map c_addr units)
  /\ Forall (fun c => 0 <= c_unit c <= 127 /\ 1 <= c_refcount c < 2 ^ 64) units.

(** The text of the device name that a start makes up. *)
Definition device_text (unit : Z) (sys : start_calls) : string :=
  match sys_cfg_path sys with
  | Some path => until_nul path
  | None => "/dev/gps" ++ decimal (Z.land unit 127)
  end.

(** How many users the unit with the number has; none if there is no
    such unit. *)
Definition users (u : Z) (units : list unit_cell) : Z :=
  match nth_error units (scan_units u units) with
  | Some c => c_refcount c
  | None => 0
  end.

(** The units with another number. *)
Definition other_units (u : Z) (units : list unit_cell) : list unit_cell :=
  filter (fun x => negb (c_unit x =? u)) units.

(** The part of [gpsd_start] that follows the search for the unit:
    [c] is the unit, found or made, [units] the list with [c] in it at
    [pos], [log] what was logged so far. *)
Definition start_setup (clockinfo : bool) (unit : Z) (sys : start_calls)
    (gpsd_addr : list addrinfoT) (r : resolver) (pos : nat) (p : clock_peer)
    (log : list (log_level * start_message)) (c : unit_cell)
    (units : list unit_cell)
    : option (bool * driver * clock_peer * list (log_level * start_message)) :=
  let p := set_cp_unitptr (Some (c_addr c)) p in
  let peer := upd_procptr (set_io_fd (-1)) (cp_peer p) in
  let peer := upd_procptr (set_a_lastcode "") peer in
  let peer := if unit >=? 128 then set_precision PPS_PRECISION peer
              else set_precision PRECISION peer in
  let p := set_cp_peer peer p in
  match addr (c_up c) with
  | [] =>
      let '(units, p) := gpsd_start_dev_fail pos c units p in
      Some (false, mk_driver units gpsd_addr r, p,
            (log ++ [(LOG_ERR, MsgNoGpsdAddress (c_logname c))])%list)
  | _ :: _ =>
      let log := if clockinfo
                 then (log ++ [(LOG_NOTICE,
                                MsgStartup (sys_refclock_name sys)
                                  (device (c_up c)))])%list
                 else log in
      let c := set_c_up (set_mode (MODE_OP_MODE (cfg_mode peer)) (c_up c)) c in
      let c := if mode (c_up c) >? MODE_OP_MAXVAL
               then set_c_up (set_mode 0 (c_up c)) c else c in
      let c :=
        if unit >=? 128 then set_c_pps_peer (Some (cp_addr p)) c
        else set_c_up
               (w_up (enter_opmode (mode (c_up c))
                        (mk_world (c_up c) peer None gpsd_addr []))) c in
      Some (true, mk_driver (put_unit pos c units) gpsd_addr r, p, log)
  end.

(** The unit that [gpsd_start] makes when it has found none, before its
    device name is known. *)
Definition new_unit (unit : Z) (sys : start_calls)
    (gpsd_addr : list addrinfoT) : unit_cell :=
  mk_unit_cell (sys_emalloc_zero sys) 1 None (Z.land unit 127)
    (sys_refclock_name sys)
    (set_tickpres TICKOVER_LOW (set_addr gpsd_addr (set_fdt (-1) zero_unit))).

(** [a] is what is left of [b] when some of its elements are struck out:
    the elements of [a] occur in [b] in the same order, each occurrence of
    [b] serving once. *)
Inductive sub_list {A : Type} : list A -> list A -> Prop :=
| sub_list_nil : sub_list [] []
| sub_list_keep (x : A) (a b : list A) :
    sub_list a b -> sub_list (x :: a) (x :: b)
| sub_list_drop (x : A) (a b : list A) :
    sub_list a b -> sub_list a (x :: b).

(** The stamps that wait for an evaluation: the serial stamp while
    [fl_ibt] is up, the receive time of the pulse while [fl_pps] is up,
    and the stamp of the pulse for the secondary channel while [fl_pps2]
    is up. *)
Definition pending_serial (w : world) : list l_fp :=
  if fl_ibt (w_up w) then [ibt_stamp (w_up w)] else [].

Definition pending_pulse (w : world) : list l_fp :=
  if fl_pps (w_up w) then [pps_recvt (w_up w)] else [].

Definition pending_pulse2 (w : world) : list l_fp :=
  if fl_pps2 (w_up w) then [pps_stamp2 (w_up w)] else [].

(** The unit with the record of its buffer cut into tokens, the way
    [gpsd_parse] has it when it looks for the class. *)
Definition tokenized (w : world) : world :=
  let up := w_up w in
  let '(_, jctx, mem) :=
    json_parse_record (json_parse up) (buffer up) (buflen up) in
  upd_up (set_buffer mem) (upd_up (set_json_parse jctx) w).

(** The time of a TPV record: the receiver has a fix (mode 2 or 3), the
    member "time" is a string that [convert_ascii_time] accepts, and GPSD
    is not known to send TOFF records. *)
Definition tpv_stamp (w : world) : list l_fp :=
  let up := w_up w in
  if pf_toff up then []
  else if i32 (fst (json_object_lookup_int_default (json_parse up) (buffer up)
                      0 "mode" 0 0)) <? 2 then []
  else
    match json_object_lookup_string (json_parse up) (buffer up) 0 "time" with
    | None => []
    | Some gps_time =>
        let '(ok, stamp) := convert_ascii_time (ibt_stamp up) gps_time in
        if ok then [stamp] else []
    end.

(** The time of a TOFF record: both the clock time and the real time
    can be read, and no record has said that the receiver lost its fix. *)
Definition toff_stamp (w : world) : list l_fp :=
  let up := w_up w in
  if fl_nosync up then []
  else
    match get_binary_time (json_parse up) (buffer up)
            "clock_sec" "clock_nsec" 1 with
    | None => []
    | Some _ =>
        match get_binary_time (json_parse up) (buffer up)
                "real_sec" "real_nsec" 1 with
        | None => []
        | Some stamp => [stamp]
        end
    end.

(** The clock time and the real time of a PPS record, in nanoseconds or
    in microseconds as the protocol version has it. *)
Definition pulse_times (w : world) : option (l_fp * l_fp) :=
  let up := w_up w in
  if fl_nosync up then None
  else
    let '(clock_frac, real_frac, fscale) :=
      if pf_nsec up then ("clock_nsec", "real_nsec", 1)
      else ("clock_musec", "real_musec", 1000) in
    match get_binary_time (json_parse up) (buffer up)
            "clock_sec" clock_frac fscale with
    | None => None
    | Some clock =>
        match get_binary_time (json_parse up) (buffer up)
                "real_sec" real_frac fscale with
        | None => None
        | Some real => Some (clock, real)
        end
    end.

(** What the record in the buffer brings: a serial stamp if it is a TPV
    or a TOFF record with a time; the receive time of a pulse, less the
    fudge, if it is a PPS record with its times and flag2 does not turn
    the pulse off for the primary channel; the stamp of the pulse for the
    secondary channel. *)
Definition serial_arrival (w : world) : list l_fp :=
  match record_class w with
  | Some clsid =>
      if streq "TPV" clsid then tpv_stamp (tokenized w)
      else if streq "TOFF" clsid then toff_stamp (tokenized w)
      else []
  | None => []
  end.

Definition pulse_arrival (w : world) : list l_fp :=
  match record_class w with
  | Some clsid =>
      if streq "PPS" clsid then
        match pulse_times (tokenized w) with
        | Some (clock, _) =>
            if Z.land (sloppyclockflag (pp_of Primary w)) CLK_FLAG2 =? 0
            then [u64 (clock - pps_fudge (w_up w))] else []
        | None => []
        end
      else []
  | None => []
  end.

Definition pulse_arrival2 (w : world) : list l_fp :=
  match record_class w with
  | Some clsid =>
      if streq "PPS" clsid then
        match pulse_times (tokenized w) with
        | Some (_, real) => [real]
        | None => []
        end
      else []
  | None => []
  end.

(** The account of the stamps between [w] and [w'], given what arrived
    in between.  What the core got on each channel is what it had plus
    the pairs [fed] and [fed2].  The reference stamps of [fed], followed
    by the serial stamp that still waits in [w'], are left of the stamp
    that waited in [w] followed by the arrivals: every stamp that was fed
    had been stored, none was fed twice, and the flag is up in [w'] only
    for a stamp that has not been fed.  The same holds of the stamps of
    the pulses on the secondary channel, and the receive time of a pulse
    waits in [w'] only if it waited in [w] or has arrived. *)
Definition accounted (serial pulse pulse2 : list l_fp) (w w' : world) : Prop :=
  exists fed fed2,
    samples_of Primary (w_trace w')
    = (samples_of Primary (w_trace w) ++ fed)%list
    /\ samples_of Secondary (w_trace w')
       = (samples_of Secondary (w_trace w) ++ fed2)%list
    /\ sub_list (map fst fed ++ pending_serial w')%list
         (pending_serial w ++ serial)%list
    /\ sub_list (map fst fed2 ++ pending_pulse2 w')%list
         (pending_pulse2 w ++ pulse2)%list
    /\ sub_list (pending_pulse w') (pending_pulse w ++ pulse)%list.

(** Records as they come in, each with the receive time of its chunk and
    the answers of the system while it is processed. *)
Record record_in := mk_record_in {
  r_time : l_fp;
  r_sys : syscalls;
  r_text : string
}.

(** [gpsd_parse] on [r], put in the buffer as a line of its length. *)
Definition parse_record (r : record_in) (w : world) : world :=
  gpsd_parse (r_time r) (r_sys r)
    (upd_up (set_buflen (Z.of_nat (String.length (r_text r))))
       (upd_up (set_buffer (r_text r)) w)).

Definition parse_records (rs : list record_in) (w : world) : world :=
  fold_left (fun w r => parse_record r w) rs w.

(** The arrivals of a run of records, oldest first. *)
Fixpoint arrivals (what : world -> list l_fp) (rs : list record_in)
    (w : world) : list l_fp :=
  match rs with
  | [] => []
  | r :: rest =>
      (what (upd_up (set_buflen (Z.of_nat (String.length (r_text r))))
               (upd_up (set_buffer (r_text r)) w))
       ++ arrivals what rest (parse_record r w))%list
  end.

(** The stamps that wait, all three kinds. *)
Definition stock (w : world) : list l_fp * list l_fp * list l_fp :=
  (pending_serial w, pending_pulse w, pending_pulse2 w).

(** The tail as the specification words it: after a dot there is at
    least one decimal digit. *)
Definition utc_tail_with_digits (tail : string) : Prop :=
  tail = "Z"
  \/ exists ds,
       ds <> "" /\ all_digits ds = true /\ tail = ("." ++ ds ++ "Z")%string.

(** The decimal digits that follow the dot of a tail, none when the tail
    has no dot. *)
Definition fraction_digits (tail : string) : string :=
  if Ascii.eqb (deref tail) "." then digit_prefix (next tail) else "".

(** The nanoseconds a run of fraction digits stands for: the number its
    first nine digits write, scaled as if zeros filled the run up to nine
    places.  Digits after the ninth do not count. *)
Definition nanoseconds (ds : string) : Z :=
  let head := substring 0 9 ds in
  dec_value head * 10 ^ (9 - Z.of_nat (String.length head)).

(** The digit weight when [k] places are left. *)
Definition digit_weight (k : nat) : Z :=
  match k with
  | O => 0
  | S k' => 10 ^ Z.of_nat k'
  end.

End Observations.

(** ** A test bench

    Stand-ins for the external routines, good enough to run the driver on
    the records of the examples: a tokenizer for flat objects in place of
    JSMN, a fixed-width reader in place of [strptime], 32.32 fixed-point
    stamps, a queue of 64 samples in place of the core. *)

Module Bench.

Inductive scan_state := Idle | InString (start : Z) | InPrimitive (start : Z).

Definition is_delim (c : ascii) : bool :=
  Ascii.eqb c "," || Ascii.eqb c ":" || Ascii.eqb c " " || Ascii.eqb c "}".

(** The tokens between the braces; [None] when the closing brace is
    missing. *)
Fixpoint scan_flat (s : string) (pos : Z) (st : scan_state) (iskey : bool)
    (acc : list jsmntok_t) : option (list jsmntok_t) :=
  match s with
  | EmptyString => None
  | String c r =>
      match st with
      | InString start =>
          if Ascii.eqb c "034"
          then scan_flat r (pos + 1) Idle (negb iskey)
                 (acc ++ [mk_tok JSMN_STRING start pos (if iskey then 1 else 0)])
          else scan_flat r (pos + 1) st iskey acc
      | InPrimitive start =>
          if is_delim c then
            let acc := (acc ++ [mk_tok JSMN_PRIMITIVE start pos
                                  (if iskey then 1 else 0)])%list in
            if Ascii.eqb c "}" then Some acc
            else scan_flat r (pos + 1) Idle (negb iskey) acc
          else scan_flat r (pos + 1) st iskey acc
      | Idle =>
          if Ascii.eqb c "034" then scan_flat r (pos + 1) (InString (pos + 1)) iskey acc
          else if Ascii.eqb c "}" then Some acc
          else if is_delim c then scan_flat r (pos + 1) Idle iskey acc
          else scan_flat r (pos + 1) (InPrimitive pos) iskey acc
      end
  end.

Definition jsmn_flat (s : string) : Z * list jsmntok_t :=
  let len := Z.of_nat (String.length s) in
  match s with
  | EmptyString => (0, [])
  | String c r =>
      if Ascii.eqb c "{" then
        match scan_flat r 1 Idle true [] with
        | Some toks =>
            let n := Z.of_nat (List.length toks) in
            (1 + n, mk_tok JSMN_OBJECT 0 len (n / 2) :: toks)
        | None => (-3, [])
        end
      else (1, [mk_tok JSMN_PRIMITIVE 0 len 0])
  end.

(** Two digits at the head of [s]. *)
Definition two_digits (s : string) : option Z :=
  match s with
  | String a (String b _) =>
      if isdigit a && isdigit b
      then Some ((uchar a - 48) * 10 + (uchar b - 48)) else None
  | _ => None
  end.

Definition sep_at (n : nat) (c : ascii) (s : string) : bool :=
  Ascii.eqb (deref (drop_nat n s)) c.

(** YYYY-MM-DDTHH:MM:SS, every field at its full width. *)
Definition strptime_fixed (s : string) : option (tm * nat) :=
  match two_digits s, two_digits (drop_nat 2 s), two_digits (drop_nat 5 s),
        two_digits (drop_nat 8 s), two_digits (drop_nat 11 s),
        two_digits (drop_nat 14 s), two_digits (drop_nat 17 s) with
  | Some c, Some y, Some mo, Some d, Some h, Some mi, Some se =>
      if sep_at 4 "-" s && sep_at 7 "-" s && sep_at 10 "T" s
         && sep_at 13 ":" s && sep_at 16 ":" s
      then Some (mk_tm (c * 100 + y - 1900) (mo - 1) d h mi se, 19%nat)
      else None
  | _, _, _, _, _, _, _ => None
  end.

(** Days since 0001-01-01 (day 1) in the proleptic Gregorian calendar. *)
Definition rata_die (gd : tm) : Z :=
  let y := tm_year gd + 1900 in
  let m := tm_mon gd + 1 in
  let y' := if m <=? 2 then y - 1 else y in
  let m' := if m <=? 2 then m + 9 else m - 3 in
  365 * y' + y' / 4 - y' / 100 + y' / 400 + (153 * m' + 2) / 5
  + tm_mday gd - 306.

Definition sample_queue (pp : clockprocT) (stamp recvt : l_fp) : clockprocT :=
  let pp := set_lastrec recvt pp in
  let pp := set_coderecv ((coderecv pp + 1) mod 64) pp in
  if coderecv pp =? codeproc pp
  then mk_clockproc (io_fd pp) (sloppyclockflag pp) (lastref pp) (lastrec pp)
         (coderecv pp) ((codeproc pp + 1) mod 64) (a_lastcode pp)
  else pp.

#[export] Instance ext : Externals := {|
  jsmn_parse := jsmn_flat;
  strptime := strptime_fixed;
  ept_xlog2 := fun _ => -9;
  char_is_signed := true;
  lfpsint := fun x => i32 (x / 2 ^ 32);
  setlfpfrac := fun x v => (x / 2 ^ 32) * 2 ^ 32 + v mod 2 ^ 32;
  tspec_stamp_to_lfp := fun sec nsec =>
    u64 ((sec + 2208988800) * 2 ^ 32 + nsec * 2 ^ 32 / 1000000000);
  tspec_intv_to_lfp := fun sec nsec =>
    u64 (sec * 2 ^ 32 + nsec * 2 ^ 32 / 1000000000);
  ntpcal_tm_to_rd := rata_die;
  ntpcal_tm_to_daysec := fun gd =>
    (tm_hour gd * 60 + tm_min gd) * 60 + tm_sec gd;
  prettydate := fun _ => "(date)";
  DAY_NTP_STARTS := 693596;
  SECSPERDAY := 86400;
  CLK_FLAG1 := 1;
  CLK_FLAG2 := 2;
  CLK_FLAG3 := 4;
  CLK_FLAG4 := 8;
  FLAG_PPS := 128;
  BMAX := 128;
  refclock_process_offset := sample_queue;
  refclock_report := fun p _ => p
|}.

(** The system answers of a quiet second: every call succeeds. *)
Definition sys_ok : syscalls :=
  mk_syscalls 7 0 0 0 0 1 1 true 0 0 (fun s => Z.of_nat (String.length s)).

(** The system refuses to hand out a socket. *)
Definition sys_no_socket : syscalls :=
  mk_syscalls (-1) 0 0 0 0 1 1 true 0 0 (fun s => Z.of_nat (String.length s)).

Definition pp0 : clockprocT := mk_clockproc (-1) 0 0 0 0 0 "".

Definition peer0 : peerT := mk_peer PRECISION 0 0 pp0.

(** The unit as [emalloc_zero] hands it out. *)
Definition unit_zero : gpsd_unit :=
  mk_gpsd_unit (mk_unit_pps 0 0 0 0 0 0 0) (mk_unit_ibt 0 0 0)
    (mk_unit_prec 0 0) (mk_unit_fudge 0 0 0)
    (mk_unit_flags false false false false false false false false false)
    (mk_unit_sock 0 [] 0 0) (mk_unit_tally 0 0 0 0 0 0 0)
    0 "" 0 0 (mk_json_ctx 0 []) 0 "".

(** The state [gpsd_start] leaves behind for the primary unit of
    /dev/gps0 in operation mode [m], with one resolved address. *)
Definition started (m : Z) : world :=
  let up := set_tickpres TICKOVER_LOW (set_addr [1] (set_fdt (-1) unit_zero)) in
  let up := mk_gpsd_unit (u_pps up) (u_ibt up) (u_prec up) (u_fudge up)
              (u_flags up) (u_sock up) (u_tally up) (MODE_OP_MODE m)
              "/dev/gps0" (proto_version up) (logthrottle up)
              (json_parse up) (buflen up) (buffer up) in
  enter_opmode m (mk_world up peer0 None [1] []).

(** The same state once the data connection is up on descriptor 7. *)
Definition connected (m : Z) : world :=
  upd_pp Primary (set_io_fd 7) (started m).

Definition tpv_record : string :=
  ("{" ++ DQ ++ "class" ++ DQ ++ ":" ++ DQ ++ "TPV" ++ DQ ++ ","
   ++ DQ ++ "mode" ++ DQ ++ ":3,"
   ++ DQ ++ "time" ++ DQ ++ ":" ++ DQ ++ "2019-03-01T12:00:00.250Z" ++ DQ
   ++ "}")%string.

Definition sky_record : string :=
  ("{" ++ DQ ++ "class" ++ DQ ++ ":" ++ DQ ++ "SKY" ++ DQ ++ "}")%string.

Definition classless_record : string :=
  ("{" ++ DQ ++ "device" ++ DQ ++ ":" ++ DQ ++ "/dev/gps0" ++ DQ ++ "}")%string.

Definition newline : string := String "010"%char EmptyString.

Fixpoint replicate (n : nat) (c : ascii) : string :=
  match n with
  | O => EmptyString
  | S m => String c (replicate m c)
  end.

End Bench.

(** ** More of the test bench

    Fixtures for the token walk and for the clock functions. *)

Module Fixtures.

Import Bench.

(** ** The clock functions on the test bench *)

(** The tokens and the buffer of the TPV record of the examples. *)
Definition tpv_ctx : json_ctx :=
  snd (fst (json_parse_record (mk_json_ctx 0 []) tpv_record
              (Z.of_nat (String.length tpv_record)))).

Definition tpv_mem : string :=
  snd (json_parse_record (mk_json_ctx 0 []) tpv_record
         (Z.of_nat (String.length tpv_record))).

(** A resolver that does not know the service name "gpsd". *)
Definition resolver_by_port (node service : option string)
    : Z * list addrinfoT :=
  match service with
  | Some "2947" => (0, [1])
  | _ => (-8, [])
  end.

(** A device name of a hundred characters. *)
Definition long_name : string := replicate 100 "g".

Definition vsnprintf_of (text : string) (n : Z) : Z * string :=
  (Z.of_nat (String.length text), take (n - 1) text).

(** The start of the clock for /dev/gps0 and of its PPS side. *)
Definition sys_start (a : Z) : start_calls :=
  mk_start_calls a "GPSD_JSON(0)" None (fun _ => true) (fun _ => (0, true)).

Definition driver0 : driver := mk_driver [] [1] (mk_resolver [0; 0; 0; 0] 0).

Definition clock_peer0 (a : Z) : clock_peer := mk_clock_peer a peer0 None.

(** The connected unit with [line] in its buffer, as [gpsd_receive] hands
    it to [gpsd_parse]. *)
Definition with_line (line : string) : world :=
  upd_up (set_buflen (Z.of_nat (String.length line)))
    (upd_up (set_buffer line) (connected 0)).

(** An object whose member "class" is a number. *)
Definition class_number_record : string :=
  ("{" ++ DQ ++ "class" ++ DQ ++ ":5}")%string.

(** An object without a class, one of whose values reads "class". *)
Definition class_value_record : string :=
  ("{" ++ DQ ++ "device" ++ DQ ++ ":" ++ DQ ++ "class" ++ DQ ++ ","
   ++ DQ ++ "path" ++ DQ ++ ":" ++ DQ ++ "x" ++ DQ ++ "}")%string.

(** A TPV record without a fix. *)
Definition tpv_nofix_record : string :=
  ("{" ++ DQ ++ "class" ++ DQ ++ ":" ++ DQ ++ "TPV" ++ DQ ++ ","
   ++ DQ ++ "mode" ++ DQ ++ ":1}")%string.

(** A TPV record whose time is one second later. *)
Definition tpv_record_later : string :=
  ("{" ++ DQ ++ "class" ++ DQ ++ ":" ++ DQ ++ "TPV" ++ DQ ++ ","
   ++ DQ ++ "mode" ++ DQ ++ ":3,"
   ++ DQ ++ "time" ++ DQ ++ ":" ++ DQ ++ "2019-03-01T12:00:01.250Z" ++ DQ
   ++ "}")%string.

(** The connect is under way. *)
Definition sys_in_progress : syscalls :=
  mk_syscalls 7 0 0 (-1) EINPROGRESS 1 1 true 0 0
    (fun s => Z.of_nat (String.length s)).

(** The socket is ready and holds ECONNREFUSED. *)
Definition sys_refused : syscalls :=
  mk_syscalls 7 0 0 (-1) 0 1 1 true 0 111
    (fun s => Z.of_nat (String.length s)).

(** The unit a second after it was started, with the connect pending. *)
Definition connecting : world :=
  match gpsd_init_socket sys_in_progress (started 0) with
  | Some w => w
  | None => started 0
  end.

(** AUTO mode with a serial stamp pending; [pps] says whether its pulse
    came. *)
Definition auto_pending (pps : bool) (w : world) : world :=
  upd_up (set_fl_pps pps) (upd_up (set_fl_ibt true) w).

(** The account at 30 of 60, a stamp and its pulse. *)
Definition auto_credit : world := auto_pending true (started 2).

(** The account at 1 after 29 stamps without a pulse, one more such
    stamp. *)
Definition auto_last_debit : world :=
  auto_pending false (eval_auto_run (repeat (true, false) 29%nat) (started 2)).

(** The account emptied and then filled to 57 by 19 stamps with their
    pulses, one more such stamp. *)
Definition auto_last_credit : world :=
  auto_pending true
    (eval_auto_run (repeat (true, false) 30%nat ++ repeat (true, true) 19%nat)%list
       (started 2)).

End Fixtures.

(** * Properties *)

(** Case analysis on the scrutinee of a conditional or of a match in the
    goal, and the splitting of a conjunction into all its parts. *)
Ltac break_if :=
  match goal with
  | |- context [if ?c then _ else _] => destruct c
  end.

Ltac break_match :=
  match goal with
  | |- context [match ?c with _ => _ end] => destruct c
  end.

Ltac split_all :=
  repeat match goal with
         | |- _ /\ _ => split
         end.

(** ** Integer helpers *)

Lemma min_spec (a b : Z) : min a b = Z.min a b.
Proof. unfold min. destruct (Z.ltb_spec a b); lia. Qed.

Lemma max_spec (a b : Z) : max a b = Z.max a b.
Proof. unfold max. rewrite Z.gtb_ltb. destruct (Z.ltb_spec b a); lia. Qed.

Lemma u64_small (z : Z) : 0 <= z < 2 ^ 64 -> u64 z = z.
Proof. intros H. unfold u64, wrap_unsigned. apply Z.mod_small. exact H. Qed.

Lemma u32_small (z : Z) : 0 <= z < 2 ^ 32 -> u32 z = z.
Proof. intros H. unfold u32, wrap_unsigned. apply Z.mod_small. exact H. Qed.

Lemma mod_neg_once (m z : Z) : - m <= z < 0 -> z mod m = z + m.
Proof.
  intros H. symmetry. apply Z.mod_unique with (q := -1); lia.
Qed.

Lemma i64_small (z : Z) : - 2 ^ 63 <= z < 2 ^ 63 -> i64 z = z.
Proof.
  intros H. unfold i64, wrap_signed.
  change (2 ^ (64 - 1)) with (2 ^ 63).
  destruct (Z_lt_le_dec z 0) as [N | N].
  - rewrite (mod_neg_once (2 ^ 64) z) by lia.
    destruct (Z.ltb_spec (z + 2 ^ 64) (2 ^ 63)); lia.
  - rewrite Z.mod_small by lia.
    destruct (Z.ltb_spec z (2 ^ 63)); lia.
Qed.

(** ** strtojint *)

Lemma uchar_range (c : ascii) : 0 <= uchar c < 256.
Proof.
  unfold uchar. pose proof (N_ascii_bounded c) as H.
  split; [ apply N2Z.is_nonneg | ].
  change 256 with (Z.of_N 256). apply N2Z.inj_lt. exact H.
Qed.

Lemma isdigit_range (c : ascii) : isdigit c = true -> 0 <= uchar c - 48 <= 9.
Proof. unfold isdigit. intros H. apply andb_prop in H as [A B]. lia. Qed.

Lemma length_digit_split (s : string) :
  String.length s
  = (String.length (digit_prefix s) + String.length (skip_digits s))%nat.
Proof.
  induction s as [| c r IH]; simpl; [ reflexivity | ].
  destruct (isdigit c); simpl; [ now rewrite IH | reflexivity ].
Qed.

Lemma digit_prefix_app (s : string) : s = digit_prefix s ++ skip_digits s.
Proof.
  induction s as [| c r IH]; simpl; [ reflexivity | ].
  destruct (isdigit c); simpl; [ now rewrite <- IH | reflexivity ].
Qed.

Lemma dec_value_from_mono (ds : string) :
  forall a b, a <= b -> 0 <= a ->
  a <= dec_value_from a (digit_prefix ds)
  /\ dec_value_from a (digit_prefix ds) <= dec_value_from b (digit_prefix ds).
Proof.
  induction ds as [| c r IH]; intros a b Hab Ha; simpl; [ lia | ].
  destruct (isdigit c) eqn:D; simpl; [ | lia ].
  apply isdigit_range in D.
  destruct (IH (a * 10 + (uchar c - 48)) (b * 10 + (uchar c - 48)))
    as [A B]; lia.
Qed.

Lemma flag_word_lor (f : Z) (b : bool) :
  flag_word f ->
  flag_word (Z.lor f (Z.b2z b))
  /\ Z.land (Z.lor f (Z.b2z b)) 2 = Z.land f 2
  /\ Z.land (Z.lor f (Z.b2z b)) 1
     = (if b then 1 else Z.land f 1).
Proof.
  intros [-> | [-> | [-> | ->]]]; destruct b; cbn; unfold flag_word; intuition lia.
Qed.

Lemma flag_word_bit0 (f : Z) :
  flag_word f -> Z.land f 1 = 0 \/ Z.land f 1 = 1.
Proof. intros [-> | [-> | [-> | ->]]]; cbn; lia. Qed.

(** The loop keeps the exact value in [accu] for as long as it fits under
    [limit_hi], and raises bit 0 of the flags for good as soon as it does
    not. *)
Lemma strtojint_loop_spec (H : Z) (s : string) :
  2 ^ 63 - 1 <= H <= 2 ^ 63 ->
  forall accu flags v,
    flag_word flags ->
    0 <= v ->
    (Z.land flags 1 = 0 -> accu = v /\ v <= H) ->
    (Z.land flags 1 = 1 -> H < v) ->
    let '(a', f', r) := strtojint_loop (H / 10) H s accu flags in
    let V := dec_value_from v (digit_prefix s) in
    r = skip_digits s
    /\ flag_word f'
    /\ Z.land f' 2 = Z.land flags 2
    /\ (V <= H -> Z.land f' 1 = 0 /\ a' = V)
    /\ (H < V -> Z.land f' 1 = 1).
Proof.
  intros HH. induction s as [| c r IH]; intros accu flags v Hf Hv H0 H1; simpl.
  - destruct (flag_word_bit0 flags Hf) as [E | E].
    + destruct (H0 E). repeat split; auto; lia.
    + specialize (H1 E). repeat split; auto; lia.
  - destruct (isdigit c) eqn:D; simpl.
    + pose proof (isdigit_range c D) as Dr.
      set (b1 := accu >? H / 10).
      destruct (flag_word_lor flags b1 Hf) as (F1 & F1s & F1o).
      set (a1 := u64 (accu * 10 + u64 (uchar c - 48))).
      set (b2 := a1 >? H).
      destruct (flag_word_lor (Z.lor flags (Z.b2z b1)) b2 F1) as (F2 & F2s & F2o).
      specialize (IH a1 (Z.lor (Z.lor flags (Z.b2z b1)) (Z.b2z b2))
                    (v * 10 + (uchar c - 48)) F2).
      assert (Hq : H / 10 = 922337203685477580).
      { symmetry. apply Z.div_unique with (r := H - 10 * 922337203685477580); lia. }
      destruct (strtojint_loop (H / 10) H r a1
                  (Z.lor (Z.lor flags (Z.b2z b1)) (Z.b2z b2)))
        as [[a' f'] r'] eqn:EL.
      cbv zeta in IH.
      assert (G : r' = skip_digits r /\ flag_word f'
                  /\ Z.land f' 2 = Z.land (Z.lor (Z.lor flags (Z.b2z b1)) (Z.b2z b2)) 2
                  /\ (dec_value_from (v * 10 + (uchar c - 48)) (digit_prefix r) <= H ->
                      Z.land f' 1 = 0 /\ a' = dec_value_from (v * 10 + (uchar c - 48)) (digit_prefix r))
                  /\ (H < dec_value_from (v * 10 + (uchar c - 48)) (digit_prefix r) ->
                      Z.land f' 1 = 1)).
      { apply IH; [ lia | | ].
        - rewrite F2o, F1o. intros E.
          destruct b2 eqn:B2; [ discriminate | ].
          destruct b1 eqn:B1; [ discriminate | ].
          destruct (H0 E) as [-> Hle].
          subst b1 b2. rewrite Z.gtb_ltb in B1, B2.
          apply Z.ltb_ge in B1. apply Z.ltb_ge in B2.
          assert (A1 : a1 = v * 10 + (uchar c - 48)).
          { subst a1. rewrite (u64_small (uchar c - 48)) by lia.
            apply u64_small. lia. }
          rewrite <- A1. split; [ reflexivity | lia ].
        - rewrite F2o, F1o. intros E.
          destruct (flag_word_bit0 flags Hf) as [E0 | E0].
          + destruct (H0 E0) as [-> Hle].
            destruct b1 eqn:B1.
            * subst b1. rewrite Z.gtb_ltb in B1. apply Z.ltb_lt in B1. lia.
            * subst b1. rewrite Z.gtb_ltb in B1. apply Z.ltb_ge in B1.
              assert (A1 : a1 = v * 10 + (uchar c - 48)).
              { subst a1. rewrite (u64_small (uchar c - 48)) by lia.
                apply u64_small. lia. }
              destruct b2 eqn:B2; [ | lia ].
              subst b2. rewrite Z.gtb_ltb in B2. apply Z.ltb_lt in B2. lia.
          + specialize (H1 E0). lia. }
      destruct G as (G1 & G2 & G3 & G4 & G5).
      repeat split; try tauto; try (apply G4; assumption); try (apply G5; assumption).
      rewrite G3, F2s, F1s. reflexivity.
    + destruct (flag_word_bit0 flags Hf) as [E | E].
      * destruct (H0 E). repeat split; auto; lia.
      * specialize (H1 E). repeat split; auto; lia.
Qed.

Lemma digit_prefix_empty_length (s : string) :
  digit_prefix s = EmptyString <->
  String.length s = String.length (skip_digits s).
Proof.
  rewrite (length_digit_split s) at 1.
  destruct (digit_prefix s); simpl; split; intros E;
    try reflexivity; try discriminate; lia.
Qed.

(** The body of [strtojint] after the sign has been eaten. *)
Lemma strtojint_body (neg : bool) (vep body : string) (errno : Z) :
  let H := if neg then 2 ^ 63 else 2 ^ 63 - 1 in
  let ds := digit_prefix body in
  let '(accu, flags, cp) :=
    strtojint_loop (H / 10) H body 0 (if neg then 2 else 0) in
  let '(vep', errno') :=
    if negb (String.length body =? String.length cp)%nat
    then (cp, errno) else (vep, EINVAL) in
  let '(errno'', accu') :=
    if negb (Z.land flags 1 =? 0) then (ERANGE, H) else (errno', accu) in
  (if negb (Z.land flags 2 =? 0) && negb (accu' =? 0)
   then mk_strtojint_result (- i64 (u64 (accu' - 1)) - 1) vep' errno''
   else mk_strtojint_result (i64 accu') vep' errno'')
  = match ds with
    | EmptyString => mk_strtojint_result 0 vep EINVAL
    | _ =>
        if dec_value ds >? H
        then mk_strtojint_result (if neg then LONG_MIN else LONG_MAX)
               (skip_digits body) ERANGE
        else mk_strtojint_result (if neg then - dec_value ds else dec_value ds)
               (skip_digits body) errno
    end.
Proof.
  intros H ds.
  assert (HH : 2 ^ 63 - 1 <= H <= 2 ^ 63) by (subst H; destruct neg; lia).
  pose proof (strtojint_loop_spec H body HH 0 (if neg then 2 else 0) 0) as L.
  destruct (strtojint_loop (H / 10) H body 0 (if neg then 2 else 0))
    as [[accu flags] cp].
  cbv zeta in L.
  destruct L as (Lr & Lf & Ls & Lle & Lgt).
  { unfold flag_word. destruct neg; lia. }
  { lia. }
  { intros _. lia. }
  { destruct neg; cbn; discriminate. }
  fold (dec_value (digit_prefix body)) in Lle, Lgt. fold ds in Lle, Lgt.
  assert (Hnn : 0 <= dec_value ds).
  { unfold dec_value, ds.
    destruct (dec_value_from_mono body 0 0); lia. }
  assert (Hs : Z.land flags 2 = if neg then 2 else 0).
  { rewrite Ls. destruct neg; reflexivity. }
  subst cp.
  destruct (digit_prefix_empty_length body) as [E1 E2]. fold ds in E1, E2.
  destruct ds as [| d ds'] eqn:Eds.
  - (* no digit *)
    rewrite (E1 eq_refl), Nat.eqb_refl. simpl negb. cbv iota.
    destruct Lle as [Lo La]; [ cbn; lia | ].
    rewrite Lo. cbn in La. subst accu. simpl.
    rewrite andb_false_r. reflexivity.
  - assert (NE : (String.length body =? String.length (skip_digits body))%nat
                 = false).
    { apply Nat.eqb_neq. intros C. specialize (E2 C). discriminate. }
    rewrite NE. simpl negb. cbv iota.
    rewrite Z.gtb_ltb.
    destruct (Z.ltb_spec H (dec_value (String d ds'))) as [G | G].
    + rewrite (Lgt G). simpl negb. cbv iota.
      rewrite Hs. subst H. destruct neg; reflexivity.
    + destruct (Lle G) as [Lo La]. rewrite Lo. simpl negb. cbv iota.
      rewrite Hs. subst accu.
      destruct neg; simpl negb; simpl andb; subst H; cbv iota in G.
      * destruct (Z.eqb_spec (dec_value (String d ds')) 0) as [Z0 | Z0];
          simpl negb; cbv iota.
        -- rewrite Z0. reflexivity.
        -- rewrite u64_small by lia.
           rewrite i64_small by lia.
           f_equal. lia.
      * cbv iota. rewrite i64_small by lia. reflexivity.
Qed.

(** C9.  [strtojint] is total and clamps on overflow.  For every text
    and every previous value of [errno] it returns a value between
    [LONG_MIN] and [LONG_MAX], and it does what [strtojint_spec] says:
    without a digit it returns 0, sets [errno] to [EINVAL] and hands the
    start pointer back; when the magnitude of the digits does not fit it
    sets [errno] to [ERANGE] and returns the extreme value of the sign;
    otherwise it returns the exact base-10 value with its sign, leaves
    [errno] alone and points at the first character it did not read. *)
Theorem strtojint_total_and_clamping (cp : string) (errno : Z) :
  strtojint cp errno = strtojint_spec cp errno
  /\ LONG_MIN <= sj_value (strtojint cp errno) <= LONG_MAX.
Proof.
  assert (E : strtojint cp errno = strtojint_spec cp errno).
  { unfold strtojint, strtojint_spec.
    destruct (Ascii.eqb (deref cp) "-") eqn:Neg.
    - simpl orb. cbv iota.
      change (u64 (- (JSON_INT_MIN + 1)) + 1) with (2 ^ 63).
      pose proof (strtojint_body true cp (next cp) errno) as B.
      cbv zeta in B. cbv iota in B.
      change (- LONG_MIN) with (2 ^ 63).
      destruct (strtojint_loop (2 ^ 63 / 10) (2 ^ 63) (next cp) 0 2)
        as [[accu flags] rest].
      destruct (negb (String.length (next cp) =? String.length rest)%nat);
        destruct (negb (Z.land flags 1 =? 0)); exact B.
    - simpl orb.
      change (u64 JSON_INT_MAX) with (2 ^ 63 - 1).
      pose proof (strtojint_body false cp
                    (if Ascii.eqb (deref cp) "+" then next cp else cp) errno) as B.
      cbv zeta in B. cbv iota in B.
      change LONG_MAX with (2 ^ 63 - 1).
      change LONG_MAX with (2 ^ 63 - 1) in B.
      set (body := if Ascii.eqb (deref cp) "+" then next cp else cp) in *.
      destruct (strtojint_loop ((2 ^ 63 - 1) / 10) (2 ^ 63 - 1) body 0 0)
        as [[accu flags] rest].
      destruct (negb (String.length body =? String.length rest)%nat);
        destruct (negb (Z.land flags 1 =? 0)); exact B. }
  split; [ exact E | ].
  rewrite E. unfold strtojint_spec.
  set (neg := Ascii.eqb (deref cp) "-").
  set (body := if neg || Ascii.eqb (deref cp) "+" then next cp else cp).
  assert (Hnn : 0 <= dec_value (digit_prefix body)).
  { unfold dec_value. destruct (dec_value_from_mono body 0 0); lia. }
  unfold LONG_MIN, LONG_MAX in *.
  destruct (digit_prefix body) eqn:Ed; [ simpl; lia | ].
  destruct neg.
  - rewrite Z.gtb_ltb.
    destruct (Z.ltb_spec (- - 2 ^ 63) (dec_value (String a s))); simpl; lia.
  - rewrite Z.gtb_ltb.
    destruct (Z.ltb_spec (2 ^ 63 - 1) (dec_value (String a s))); simpl; lia.
Qed.

(** ** The token walk terminates *)

Lemma iter_opt_progress (f : Z -> option Z) (bound : Z) (fuel : nat) :
  (forall x, (Z.to_nat (bound - x) < fuel)%nat ->
             exists y, f x = Some y /\ x <= y) ->
  forall n x, (Z.to_nat (bound - x) < fuel)%nat ->
  exists y, iter_opt n f x = Some y /\ x <= y.
Proof.
  intros Hf. induction n as [| n IH]; intros x Hx; simpl.
  - exists x. split; [ reflexivity | lia ].
  - destruct (Hf x Hx) as (y & -> & Hy).
    destruct (IH y) as (z & Hz & Hyz); [ lia | ].
    exists z. split; [ exact Hz | lia ].
Qed.

(** With more fuel than tokens left the walk never runs dry, and it never
    moves backwards. *)
Lemma json_token_skip_fuel_enough (ctx : json_ctx) :
  forall fuel tid, (Z.to_nat (ntok ctx - tid) < fuel)%nat ->
  exists r, json_token_skip_fuel fuel ctx tid = Some r /\ tid <= r.
Proof.
  induction fuel as [| fuel IH]; intros tid Hf; [ lia | ].
  simpl.
  destruct ((0 <=? tid) && (tid <? ntok ctx)) eqn:In.
  - apply andb_prop in In as [L U].
    apply Z.leb_le in L. apply Z.ltb_lt in U.
    assert (Step : forall n, exists y,
               iter_opt n (json_token_skip_fuel fuel ctx) (tid + 1) = Some y
               /\ tid + 1 <= y).
    { intros n. apply (iter_opt_progress _ (ntok ctx) fuel); [ | lia ].
      intros x Hx. apply IH. exact Hx. }
    assert (Clamp : forall y, tid + 1 <= y ->
               tid <= (if y >? ntok ctx then ntok ctx else y)).
    { intros y Hy. destruct (y >? ntok ctx); lia. }
    destruct (tok_type (tok_at ctx tid)).
    + eexists. split; [ reflexivity | apply Clamp; lia ].
    + destruct (Step (Z.to_nat (tok_size (tok_at ctx tid) * 2))) as (y & -> & Hy).
      eexists. split; [ reflexivity | apply Clamp; exact Hy ].
    + destruct (Step (Z.to_nat (tok_size (tok_at ctx tid)))) as (y & -> & Hy).
      eexists. split; [ reflexivity | apply Clamp; exact Hy ].
    + eexists. split; [ reflexivity | apply Clamp; lia ].
    + eexists. split; [ reflexivity | apply Clamp; lia ].
  - exists tid. split; [ reflexivity | lia ].
Qed.

(** So [json_token_skip] always has the result of the C function. *)
Lemma json_token_skip_total (ctx : json_ctx) (tid : Z) :
  json_token_skip_fuel (S (Z.to_nat (ntok ctx - tid))) ctx tid
  = Some (json_token_skip ctx tid).
Proof.
  unfold json_token_skip.
  destruct (json_token_skip_fuel_enough ctx (S (Z.to_nat (ntok ctx - tid))) tid)
    as (r & -> & _); [ lia | reflexivity ].
Qed.

Section Properties.

Context {ext : Externals}.

(** ** Bad records stay inside the unit *)

(** The two early returns of [gpsd_parse]: one count on the bad-reply
    tally and nothing else.  Neither peer changes, nothing is added to the
    trace, and in the unit only the tally, the parse context and the
    record buffer differ. *)
Lemma gpsd_parse_early_returns (rtime : l_fp) (sys : syscalls) (w : world) :
  record_rejected w ->
  let w' := gpsd_parse rtime sys w in
  tc_breply (w_up w') = incr (tc_breply (w_up w))
  /\ w_trace w' = w_trace w
  /\ w_peer w' = w_peer w
  /\ w_pps_peer w' = w_pps_peer w
  /\ w_gpsd_addr w' = w_gpsd_addr w
  /\ (u_pps (w_up w') = u_pps (w_up w)
      /\ u_ibt (w_up w') = u_ibt (w_up w)
      /\ u_prec (w_up w') = u_prec (w_up w)
      /\ u_fudge (w_up w') = u_fudge (w_up w)
      /\ u_flags (w_up w') = u_flags (w_up w)
      /\ u_sock (w_up w') = u_sock (w_up w))
  /\ (tc_recv (w_up w') = tc_recv (w_up w)
      /\ tc_nosync (w_up w') = tc_nosync (w_up w)
      /\ tc_ibt_recv (w_up w') = tc_ibt_recv (w_up w)
      /\ tc_ibt_used (w_up w') = tc_ibt_used (w_up w)
      /\ tc_pps_recv (w_up w') = tc_pps_recv (w_up w)
      /\ tc_pps_used (w_up w') = tc_pps_used (w_up w))
  /\ (mode (w_up w') = mode (w_up w)
      /\ device (w_up w') = device (w_up w)
      /\ proto_version (w_up w') = proto_version (w_up w)
      /\ logthrottle (w_up w') = logthrottle (w_up w)
      /\ buflen (w_up w') = buflen (w_up w))
  /\ (forall tid,
        json_token_skip_fuel
          (S (Z.to_nat (ntok (json_parse (w_up w')) - tid)))
          (json_parse (w_up w')) tid <> None).
Proof.
  unfold record_rejected, gpsd_parse.
  destruct (json_parse_record (json_parse (w_up w)) (buffer (w_up w))
              (buflen (w_up w))) as [[ok jctx] mem].
  intros Hrej.
  assert (Fuel : forall c tid,
             json_token_skip_fuel (S (Z.to_nat (ntok c - tid))) c tid <> None).
  { intros c tid. rewrite json_token_skip_total. discriminate. }
  destruct ok; simpl negb; cbv iota.
  - destruct Hrej as [Hrej | Hrej]; [ discriminate | ].
    rewrite Hrej.
    split_all; try reflexivity; apply Fuel.
  - split_all; try reflexivity; apply Fuel.
Qed.

(** A record of a class the driver has no use for is neither a bad reply
    nor a known record: apart from the parse context and the NUL
    terminators in the buffer the call leaves everything as it was. *)
Lemma gpsd_parse_skips_unknown_class (rtime : l_fp) (sys : syscalls)
    (w : world) (jctx : json_ctx) (mem clsid : string) :
  json_parse_record (json_parse (w_up w)) (buffer (w_up w)) (buflen (w_up w))
  = (true, jctx, mem) ->
  json_object_lookup_string jctx mem 0 "class" = Some clsid ->
  streq "TPV" clsid = false ->
  streq "PPS" clsid = false ->
  streq "TOFF" clsid = false ->
  streq "VERSION" clsid = false ->
  streq "WATCH" clsid = false ->
  gpsd_parse rtime sys w
  = upd_up (set_buffer mem) (upd_up (set_json_parse jctx) w).
Proof.
  intros P C T1 T2 T3 T4 T5. unfold gpsd_parse.
  rewrite P. cbn [negb]. cbv iota zeta. rewrite C, T1, T2, T3, T4, T5.
  reflexivity.
Qed.

(** ** Samples reach the core once *)

Lemma samples_of_app (ch : channel) (a b : list event) :
  samples_of ch (a ++ b) = (samples_of ch a ++ samples_of ch b)%list.
Proof.
  induction a as [| e a IH]; simpl; [ reflexivity | ].
  destruct e; try exact IH.
  destruct (channel_eqb ch0 ch); simpl; now rewrite IH.
Qed.

(** What [add_clock_sample] hands over: the pair it was given, on its
    channel, after at most one report. *)
Lemma add_clock_sample_trace (ch : channel) (stamp recvt : l_fp) (w : world) :
  w_up (add_clock_sample ch stamp recvt w) = w_up w
  /\ forall c,
       samples_of c (w_trace (add_clock_sample ch stamp recvt w))
       = (samples_of c (w_trace w)
          ++ (if channel_eqb ch c then [(stamp, recvt)] else []))%list.
Proof.
  unfold add_clock_sample.
  destruct (coderecv (pp_of ch (upd_pp ch (set_lastref stamp) w))
            =? codeproc (pp_of ch (upd_pp ch (set_lastref stamp) w))).
  - split; [ destruct ch; reflexivity | ].
    intros c. destruct ch; cbn; rewrite !samples_of_app; cbn;
      destruct c; cbn; rewrite ?app_nil_r; reflexivity.
  - split; [ destruct ch; reflexivity | ].
    intros c. destruct ch; cbn; rewrite !samples_of_app; cbn;
      destruct c; cbn; rewrite ?app_nil_r; reflexivity.
Qed.

Lemma add_clock_sample_peers (ch : channel) (stamp recvt : l_fp) (w : world) :
  match ch with
  | Primary => w_pps_peer (add_clock_sample ch stamp recvt w) = w_pps_peer w
  | Secondary => w_peer (add_clock_sample ch stamp recvt w) = w_peer w
  end.
Proof.
  unfold add_clock_sample.
  destruct (coderecv (pp_of ch (upd_pp ch (set_lastref stamp) w))
            =? codeproc (pp_of ch (upd_pp ch (set_lastref stamp) w)));
    destruct ch; reflexivity.
Qed.

Lemma stamps_kept_refl (w : world) : stamps_kept w w.
Proof. unfold stamps_kept. repeat split. Qed.

Lemma primary_idle_refl (w : world) : primary_idle w w.
Proof. unfold primary_idle. repeat split; auto. Qed.

Lemma secondary_idle_refl (w : world) : secondary_idle w w.
Proof. unfold secondary_idle. repeat split. Qed.

Lemma nothing_evaluated (w : world) :
  stamps_kept w w
  /\ (primary_idle w w \/ primary_fed w w)
  /\ secondary_idle w w.
Proof.
  split; [ apply stamps_kept_refl | ].
  split; [ left; apply primary_idle_refl | apply secondary_idle_refl ].
Qed.

Lemma eval_serial_step (w : world) :
  stamps_kept w (eval_serial w)
  /\ (primary_idle w (eval_serial w) \/ primary_fed w (eval_serial w))
  /\ secondary_idle w (eval_serial w).
Proof.
  unfold eval_serial.
  destruct (fl_ibt (w_up w)) eqn:Fi.
  - pose proof (add_clock_sample_trace Primary (ibt_stamp (w_up w))
                  (ibt_recvt (w_up w)) w) as [Hu Ht].
    pose proof (add_clock_sample_peers Primary (ibt_stamp (w_up w))
                  (ibt_recvt (w_up w)) w) as Hp.
    remember (add_clock_sample Primary (ibt_stamp (w_up w))
                (ibt_recvt (w_up w)) w) as wa.
    unfold stamps_kept, primary_idle, primary_fed, secondary_idle.
    cbn. rewrite !Hu, !Ht, Hp. cbn. rewrite app_nil_r.
    repeat split; auto. right. repeat split; auto.
  - apply nothing_evaluated.
Qed.

Lemma eval_strict_step (w : world) :
  stamps_kept w (eval_strict w)
  /\ (primary_idle w (eval_strict w) \/ primary_fed w (eval_strict w))
  /\ secondary_idle w (eval_strict w).
Proof.
  unfold eval_strict.
  destruct (fl_ibt (w_up w)) eqn:Fi; destruct (fl_pps (w_up w)) eqn:Fp;
    simpl andb; cbv iota.
  - pose proof (add_clock_sample_trace Primary (ibt_stamp (w_up w))
                  (pps_recvt (w_up w)) w) as [Hu Ht].
    pose proof (add_clock_sample_peers Primary (ibt_stamp (w_up w))
                  (pps_recvt (w_up w)) w) as Hp.
    remember (add_clock_sample Primary (ibt_stamp (w_up w))
                (pps_recvt (w_up w)) w) as wa.
    unfold stamps_kept, primary_idle, primary_fed, secondary_idle.
    cbn. rewrite !Hu, !Ht, Hp. cbn. rewrite app_nil_r.
    repeat split; auto. right. repeat split; auto.
  - apply nothing_evaluated.
  - apply nothing_evaluated.
  - apply nothing_evaluated.
Qed.

Lemma eval_pps_secondary_step (w : world) :
  stamps_kept w (eval_pps_secondary w)
  /\ primary_idle w (eval_pps_secondary w)
  /\ (secondary_idle w (eval_pps_secondary w)
      \/ secondary_fed w (eval_pps_secondary w)).
Proof.
  unfold eval_pps_secondary.
  destruct (fl_pps2 (w_up w)) eqn:F2.
  - pose proof (add_clock_sample_trace Secondary (pps_stamp2 (w_up w))
                  (pps_recvt2 (w_up w)) w) as [Hu Ht].
    pose proof (add_clock_sample_peers Secondary (pps_stamp2 (w_up w))
                  (pps_recvt2 (w_up w)) w) as Hp.
    remember (add_clock_sample Secondary (pps_stamp2 (w_up w))
                (pps_recvt2 (w_up w)) w) as wa.
    assert (Hq : option_map (fun _ : peerT => tt) (w_pps_peer wa)
                 = option_map (fun _ => tt) (w_pps_peer w)).
    { subst wa. unfold add_clock_sample.
      destruct (coderecv (pp_of Secondary (upd_pp Secondary
                  (set_lastref (pps_stamp2 (w_up w))) w))
                =? codeproc (pp_of Secondary (upd_pp Secondary
                  (set_lastref (pps_stamp2 (w_up w))) w)));
        cbn; destruct (w_pps_peer w); reflexivity. }
    match goal with
    | |- context [if ?c then _ else _] => destruct c
    end;
      unfold stamps_kept, primary_idle, secondary_idle, secondary_fed;
      cbn; rewrite !Hu, !Ht, Hp; cbn; rewrite app_nil_r;
      (repeat split; auto; right; repeat split; auto;
       destruct (w_pps_peer wa), (w_pps_peer w); try discriminate; reflexivity).
  - split; [ apply stamps_kept_refl | ].
    split; [ apply primary_idle_refl | left; apply secondary_idle_refl ].
Qed.

Lemma after_quiet (w wm w' : world) :
  quiet w wm ->
  stamps_kept wm w'
  /\ (primary_idle wm w' \/ primary_fed wm w')
  /\ secondary_idle wm w' ->
  stamps_kept w w'
  /\ (primary_idle w w' \/ primary_fed w w')
  /\ secondary_idle w w'.
Proof.
  unfold quiet, stamps_kept, primary_idle, primary_fed, secondary_idle.
  intros ((Q1 & Q2 & Q3 & Q4 & Q5) & Qi & Qp & Q2f & Qpeer & Qpps & Qs).
  rewrite (Qs Primary), (Qs Secondary), Qi, Qp, Q2f, Qpeer, Qpps,
    Q1, Q2, Q3, Q4, Q5.
  intros H. exact H.
Qed.

Lemma eval_auto_step (w : world) :
  stamps_kept w (eval_auto w)
  /\ (primary_idle w (eval_auto w) \/ primary_fed w (eval_auto w))
  /\ secondary_idle w (eval_auto w).
Proof.
  unfold eval_auto.
  destruct (fl_ibt (w_up w)) eqn:Fi; simpl negb; cbv iota;
    [ | apply nothing_evaluated ].
  cbv zeta.
  match goal with
  | |- stamps_kept _ (if fl_rawibt (u_flags (w_up ?m)) then _ else _) /\ _ =>
      set (wm := m)
  end.
  assert (Q : quiet w wm).
  { subst wm. unfold quiet, stamps_kept.
    destruct (fl_pps (w_up w)) eqn:Fp;
      match goal with
      | |- context [if ?c then _ else _] => destruct c
      end;
      cbn; rewrite ?Fi, ?Fp;
      repeat split; auto;
      intros ch; rewrite ?samples_of_app; cbn; rewrite ?app_nil_r; reflexivity. }
  destruct (fl_rawibt (w_up wm)).
  - apply (after_quiet w wm _ Q). apply eval_serial_step.
  - apply (after_quiet w wm _ Q). apply eval_strict_step.
Qed.

Lemma evaluate_step (e : evaluation) (w : world) :
  stamps_kept w (evaluate e w)
  /\ (primary_idle w (evaluate e w) \/ primary_fed w (evaluate e w))
  /\ (secondary_idle w (evaluate e w) \/ secondary_fed w (evaluate e w)).
Proof.
  destruct e; simpl.
  - destruct (eval_serial_step w) as (A & B & C). auto.
  - destruct (eval_strict_step w) as (A & B & C). auto.
  - destruct (eval_auto_step w) as (A & B & C). auto.
  - destruct (eval_pps_secondary_step w) as (A & B & C). auto.
Qed.

(** Chaining two stretches of evaluations. *)
Lemma primary_chain (w w1 w2 : world) :
  stamps_kept w w1 ->
  primary_idle w w1 \/ primary_fed w w1 ->
  primary_idle w1 w2 \/ primary_fed w1 w2 ->
  primary_idle w w2 \/ primary_fed w w2.
Proof.
  unfold stamps_kept, primary_idle, primary_fed.
  intros (K1 & K2 & K3 & K4 & K5).
  intros [(S1 & P1 & I1 & F1) | (A1 & B1 & C1)].
  - rewrite K1, K2, K3, S1, P1, I1, F1. intros H. exact H.
  - intros [(S2 & P2 & I2 & F2) | (A2 & B2 & C2)].
    + right. rewrite S2, P2, I2, F2. auto.
    + congruence.
Qed.

Lemma secondary_chain (w w1 w2 : world) :
  stamps_kept w w1 ->
  secondary_idle w w1 \/ secondary_fed w w1 ->
  secondary_idle w1 w2 \/ secondary_fed w1 w2 ->
  secondary_idle w w2 \/ secondary_fed w w2.
Proof.
  unfold stamps_kept, secondary_idle, secondary_fed.
  intros (K1 & K2 & K3 & K4 & K5).
  intros [(S1 & P1 & F1) | (A1 & B1 & C1 & D1)].
  - rewrite K2, K4, K5, S1, P1, F1. intros H. exact H.
  - intros [(S2 & P2 & F2) | (A2 & B2 & C2)].
    + right. rewrite S2, P2, F2. auto.
    + congruence.
Qed.

Lemma stamps_kept_trans (w w1 w2 : world) :
  stamps_kept w w1 -> stamps_kept w1 w2 -> stamps_kept w w2.
Proof.
  unfold stamps_kept.
  intros (A1 & A2 & A3 & A4 & A5) (B1 & B2 & B3 & B4 & B5).
  repeat split; congruence.
Qed.

Lemma evaluations_step (es : list evaluation) :
  forall w,
    stamps_kept w (evaluations es w)
    /\ (primary_idle w (evaluations es w) \/ primary_fed w (evaluations es w))
    /\ (secondary_idle w (evaluations es w)
        \/ secondary_fed w (evaluations es w)).
Proof.
  induction es as [| e es IH]; intros w.
  - split; [ apply stamps_kept_refl | ].
    split; left; [ apply primary_idle_refl | apply secondary_idle_refl ].
  - change (evaluations (e :: es) w) with (evaluations es (evaluate e w)).
    destruct (evaluate_step e w) as (K1 & P1 & S1).
    destruct (IH (evaluate e w)) as (K2 & P2 & S2).
    split; [ exact (stamps_kept_trans _ _ _ K1 K2) | ].
    split.
    + exact (primary_chain _ _ _ K1 P1 P2).
    + exact (secondary_chain _ _ _ K1 S1 S2).
Qed.


(** *** One record, at most one sample per channel *)

Lemma samples_of_log_throttled (ch : channel) (lvl : log_level)
    (msg : log_message) (w : world) :
  samples_of ch (w_trace (log_throttled lvl msg w)) = samples_of ch (w_trace w).
Proof.
  unfold log_throttled. destruct (syslogok (pp_of Primary w) (w_up w)) as [ok up].
  destruct ok; cbn; rewrite ?samples_of_app; cbn; rewrite ?app_nil_r;
    reflexivity.
Qed.

Lemma process_watch_samples (ch : channel) (w : world) :
  samples_of ch (w_trace (process_watch w)) = samples_of ch (w_trace w).
Proof.
  unfold process_watch.
  repeat break_match; reflexivity.
Qed.

Lemma process_version_samples (ch : channel) (sys : syscalls) (w : world) :
  samples_of ch (w_trace (process_version sys w)) = samples_of ch (w_trace w).
Proof.
  unfold process_version.
  destruct (json_object_lookup_int (json_parse (w_up w)) (buffer (w_up w)) 0
              "proto_major" 0) as [major e1].
  destruct (json_object_lookup_int (json_parse (w_up w)) (buffer (w_up w)) 0
              "proto_minor" e1) as [minor e2].
  destruct (0 =? e2); [ | apply samples_of_log_throttled ].
  cbv zeta.
  destruct (negb (fl_vers (w_up w)));
    match goal with
    | |- context [if fl_watch ?u then _ else _] => destruct (fl_watch u)
    end;
    try (cbn; rewrite ?samples_of_app; cbn; rewrite ?app_nil_r; reflexivity);
    match goal with
    | |- context [if ?c then _ else _] => destruct c
    end;
    rewrite ?samples_of_log_throttled;
    cbn; rewrite ?samples_of_app; cbn; rewrite ?app_nil_r; reflexivity.
Qed.

Lemma process_tpv_samples (ch : channel) (rtime : l_fp) (w : world) :
  samples_of ch (w_trace (process_tpv rtime w)) = samples_of ch (w_trace w).
Proof.
  unfold process_tpv. cbv zeta.
  destruct (if i32 (fst (json_object_lookup_int_default (json_parse (w_up w))
                           (buffer (w_up w)) 0 "mode" 0 0)) <? 2
            then None
            else json_object_lookup_string (json_parse (w_up w))
                   (buffer (w_up w)) 0 "time") as [gps_time |].
  - destruct (negb (pf_toff (w_up w))); [ | reflexivity ].
    match goal with
    | |- context [convert_ascii_time ?a ?b] =>
        destruct (convert_ascii_time a b) as [ok stamp]
    end.
    destruct ok; reflexivity.
  - destruct (negb (pf_toff (w_up w))); reflexivity.
Qed.

Lemma process_pps_samples (ch : channel) (rtime : l_fp) (w : world) :
  samples_of ch (w_trace (process_pps rtime w)) = samples_of ch (w_trace w).
Proof.
  unfold process_pps. cbv zeta.
  match goal with
  | |- context [if fl_nosync ?u then _ else _] => destruct (fl_nosync u)
  end; [ reflexivity | ].
  match goal with
  | |- context [if pf_nsec ?u then _ else _] => destruct (pf_nsec u)
  end;
    repeat match goal with
           | |- context [match get_binary_time ?a ?b ?c ?d ?e with _ => _ end] =>
               destruct (get_binary_time a b c d e)
           end; reflexivity.
Qed.

Lemma process_toff_samples (ch : channel) (rtime : l_fp) (w : world) :
  samples_of ch (w_trace (process_toff rtime w)) = samples_of ch (w_trace w).
Proof.
  unfold process_toff. cbv zeta.
  match goal with
  | |- context [if fl_nosync ?u then _ else _] => destruct (fl_nosync u)
  end; [ reflexivity | ].
  repeat match goal with
         | |- context [match get_binary_time ?a ?b ?c ?d ?e with _ => _ end] =>
             destruct (get_binary_time a b c d e)
         end; reflexivity.
Qed.

Lemma primary_at_most_one (w w' : world) :
  primary_idle w w' \/ primary_fed w w' -> at_most_one_more Primary w w'.
Proof.
  unfold at_most_one_more.
  intros [(S & _) | (_ & _ & [(S & _) | (_ & _ & S & _)])].
  - exists []. rewrite app_nil_r. split; [ exact S | simpl; lia ].
  - eexists. split; [ exact S | simpl; lia ].
  - eexists. split; [ exact S | simpl; lia ].
Qed.

Lemma secondary_at_most_one (w w' : world) :
  secondary_idle w w' \/ secondary_fed w w' -> at_most_one_more Secondary w w'.
Proof.
  unfold at_most_one_more.
  intros [(S & _) | (_ & _ & S & _)].
  - exists []. rewrite app_nil_r. split; [ exact S | simpl; lia ].
  - eexists. split; [ exact S | simpl; lia ].
Qed.

Lemma at_most_one_more_same (ch : channel) (w w' : world) :
  samples_of ch (w_trace w') = samples_of ch (w_trace w) ->
  at_most_one_more ch w w'.
Proof.
  intros S. exists []. rewrite app_nil_r. split; [ exact S | simpl; lia ].
Qed.

(** What [gpsd_parse] does after a known record has been processed:
    the tally, the secondary channel, the weeding of stale stamps and
    the evaluation of the operation mode. *)
Lemma gpsd_parse_tail_feeds_once (ch : channel) (wp : world) :
  let w1 := upd_up (fun up => set_tc_recv (incr (tc_recv up)) up) wp in
  let w2 := match w_pps_peer w1 with
            | Some _ => eval_pps_secondary w1
            | None => w1
            end in
  let w3 :=
    if fl_pps (w_up w2) && fl_ibt (w_up w2) then
      let diff := u64 (ibt_local (w_up w2) - pps_local (w_up w2)) in
      if lfpsint diff >? 0 then upd_up (set_fl_pps false) w2
      else if lfpsint diff <? 0 then upd_up (set_fl_ibt false) w2
      else w2
    else w2 in
  at_most_one_more ch wp
    (if mode (w_up w3) =? MODE_OP_STRICT then eval_strict w3
     else if mode (w_up w3) =? MODE_OP_AUTO then eval_auto w3
     else eval_serial w3).
Proof.
  intros w1 w2 w3.
  assert (S1 : forall c, samples_of c (w_trace w1) = samples_of c (w_trace wp))
    by reflexivity.
  assert (S2 : (primary_idle w1 w2)
               /\ (secondary_idle w1 w2 \/ secondary_fed w1 w2)).
  { subst w2. destruct (w_pps_peer w1).
    - destruct (eval_pps_secondary_step w1) as (_ & P & S). auto.
    - split; [ apply primary_idle_refl | left; apply secondary_idle_refl ]. }
  assert (S3 : w_trace w3 = w_trace w2).
  { subst w3. destruct (fl_pps (w_up w2) && fl_ibt (w_up w2)); [ | reflexivity ].
    cbv zeta.
    destruct (lfpsint (u64 (ibt_local (w_up w2) - pps_local (w_up w2))) >? 0);
      [ reflexivity | ].
    destruct (lfpsint (u64 (ibt_local (w_up w2) - pps_local (w_up w2))) <? 0);
      reflexivity. }
  clearbody w3 w2 w1.
  set (e := if mode (w_up w3) =? MODE_OP_STRICT then EvalStrict
            else if mode (w_up w3) =? MODE_OP_AUTO then EvalAuto
            else EvalSerial).
  assert (E : (if mode (w_up w3) =? MODE_OP_STRICT then eval_strict w3
               else if mode (w_up w3) =? MODE_OP_AUTO then eval_auto w3
               else eval_serial w3) = evaluate e w3).
  { subst e. destruct (mode (w_up w3) =? MODE_OP_STRICT); [ reflexivity | ].
    destruct (mode (w_up w3) =? MODE_OP_AUTO); reflexivity. }
  rewrite E.
  assert (S4 : (primary_idle w3 (evaluate e w3) \/ primary_fed w3 (evaluate e w3))
               /\ secondary_idle w3 (evaluate e w3)).
  { subst e. destruct (mode (w_up w3) =? MODE_OP_STRICT).
    - destruct (eval_strict_step w3) as (_ & P & S). auto.
    - destruct (mode (w_up w3) =? MODE_OP_AUTO).
      + destruct (eval_auto_step w3) as (_ & P & S). auto.
      + destruct (eval_serial_step w3) as (_ & P & S). auto. }
  clear E. clearbody e.
  destruct S2 as [P2 Q2]. destruct S4 as [P4 Q4].
  destruct ch.
  - destruct (primary_at_most_one _ _ P4) as (fed & F1 & F2).
    exists fed. split; [ | exact F2 ].
    rewrite F1, S3. destruct P2 as (P2 & _). rewrite P2, S1. reflexivity.
  - destruct (secondary_at_most_one _ _ Q2) as (fed & F1 & F2).
    exists fed. split; [ | exact F2 ].
    destruct Q4 as (Q4 & _). rewrite Q4, S3, F1, S1. reflexivity.
Qed.

(** A record, whatever it holds, brings at most one sample to each
    channel, and what the channel had seen before stays as it was. *)
Lemma gpsd_parse_feeds_once (ch : channel) (rtime : l_fp) (sys : syscalls)
    (w : world) :
  at_most_one_more ch w (gpsd_parse rtime sys w).
Proof.
  unfold gpsd_parse.
  destruct (json_parse_record (json_parse (w_up w)) (buffer (w_up w))
              (buflen (w_up w))) as [[ok jctx] mem].
  set (w0 := upd_up (set_buffer mem) (upd_up (set_json_parse jctx) w)).
  assert (S0 : forall c, samples_of c (w_trace w0) = samples_of c (w_trace w))
    by reflexivity.
  destruct ok; cbn [negb]; cbv iota;
    [ | apply at_most_one_more_same; reflexivity ].
  destruct (json_object_lookup_string jctx mem 0 "class") as [clsid |];
    [ | apply at_most_one_more_same; reflexivity ].
  assert (Tail : forall wp,
             (forall c, samples_of c (w_trace wp) = samples_of c (w_trace w)) ->
             at_most_one_more ch w
               (let w1 := upd_up (fun up => set_tc_recv (incr (tc_recv up)) up) wp in
                let w2 := match w_pps_peer w1 with
                          | Some _ => eval_pps_secondary w1
                          | None => w1
                          end in
                let w3 :=
                  if fl_pps (w_up w2) && fl_ibt (w_up w2) then
                    let diff := u64 (ibt_local (w_up w2) - pps_local (w_up w2)) in
                    if lfpsint diff >? 0 then upd_up (set_fl_pps false) w2
                    else if lfpsint diff <? 0 then upd_up (set_fl_ibt false) w2
                    else w2
                  else w2 in
                if mode (w_up w3) =? MODE_OP_STRICT then eval_strict w3
                else if mode (w_up w3) =? MODE_OP_AUTO then eval_auto w3
                else eval_serial w3)).
  { intros wp Sp.
    destruct (gpsd_parse_tail_feeds_once ch wp) as (fed & F1 & F2).
    exists fed. split; [ | exact F2 ]. rewrite <- Sp. exact F1. }
  clearbody w0.
  destruct (streq "TPV" clsid).
  { apply Tail. intros c. rewrite process_tpv_samples. apply S0. }
  destruct (streq "PPS" clsid).
  { apply Tail. intros c. rewrite process_pps_samples. apply S0. }
  destruct (streq "TOFF" clsid).
  { apply Tail. intros c. rewrite process_toff_samples. apply S0. }
  destruct (streq "VERSION" clsid).
  { apply Tail. intros c. rewrite process_version_samples. apply S0. }
  destruct (streq "WATCH" clsid).
  { apply Tail. intros c. rewrite process_watch_samples. apply S0. }
  apply at_most_one_more_same. apply S0.
Qed.

(** ** The PPS account of AUTO mode *)

Lemma eval_serial_account (w : world) :
  ppscount (w_up (eval_serial w)) = ppscount (w_up w)
  /\ fl_rawibt (w_up (eval_serial w)) = fl_rawibt (w_up w).
Proof.
  unfold eval_serial. destruct (fl_ibt (w_up w)); [ | auto ].
  pose proof (add_clock_sample_trace Primary (ibt_stamp (w_up w))
                (ibt_recvt (w_up w)) w) as [Hu _].
  remember (add_clock_sample Primary (ibt_stamp (w_up w))
              (ibt_recvt (w_up w)) w) as wa.
  cbn. rewrite Hu. auto.
Qed.

Lemma eval_strict_account (w : world) :
  ppscount (w_up (eval_strict w)) = ppscount (w_up w)
  /\ fl_rawibt (w_up (eval_strict w)) = fl_rawibt (w_up w).
Proof.
  unfold eval_strict. destruct (fl_ibt (w_up w) && fl_pps (w_up w)); [ | auto ].
  pose proof (add_clock_sample_trace Primary (ibt_stamp (w_up w))
                (pps_recvt (w_up w)) w) as [Hu _].
  remember (add_clock_sample Primary (ibt_stamp (w_up w))
              (pps_recvt (w_up w)) w) as wa.
  cbn. rewrite Hu. auto.
Qed.

(** The account and the feeding flag after one call, case by case. *)
Lemma eval_auto_cases (w : world) :
  let up := w_up w in
  let up' := w_up (eval_auto w) in
  if fl_ibt up then
    if fl_pps up then
      ppscount up' = min PPS_MAXCOUNT (ppscount up + PPS_INCCOUNT)
      /\ fl_rawibt up'
         = (if PPS_MAXCOUNT =? ppscount up' then false else fl_rawibt up)
    else
      ppscount up' = max 0 (ppscount up - PPS_DECCOUNT)
      /\ fl_rawibt up'
         = (if 0 =? ppscount up' then true else fl_rawibt up)
  else eval_auto w = w.
Proof.
  unfold eval_auto.
  destruct (fl_ibt (w_up w)) eqn:Fi; simpl negb; cbv iota zeta;
    [ | reflexivity ].
  match goal with
  | |- context [if fl_rawibt (u_flags (w_up ?m)) then _ else _] => set (wm := m)
  end.
  assert (E : ppscount (w_up (if fl_rawibt (w_up wm) then eval_serial wm
                              else eval_strict wm)) = ppscount (w_up wm)
              /\ fl_rawibt (w_up (if fl_rawibt (w_up wm) then eval_serial wm
                                  else eval_strict wm)) = fl_rawibt (w_up wm)).
  { destruct (fl_rawibt (w_up wm)) eqn:R;
      [ destruct (eval_serial_account wm) as [A B]
      | destruct (eval_strict_account wm) as [A B] ];
      rewrite A, B, R; auto. }
  destruct E as [E1 E2].
  destruct (fl_pps (w_up w)) eqn:Fp.
  - assert (M : ppscount (w_up wm)
                = min PPS_MAXCOUNT (ppscount (w_up w) + PPS_INCCOUNT)
                /\ fl_rawibt (w_up wm)
                   = (if PPS_MAXCOUNT
                         =? min PPS_MAXCOUNT (ppscount (w_up w) + PPS_INCCOUNT)
                      then false else fl_rawibt (w_up w))).
    { clear E1 E2. subst wm. cbn -[Z.eqb min max].
      destruct (PPS_MAXCOUNT =? min PPS_MAXCOUNT (ppscount (w_up w) + PPS_INCCOUNT));
        destruct (fl_rawibt (w_up w)) eqn:R; cbn; rewrite ?R; auto. }
    clearbody wm. destruct M as [M1 M2]. rewrite E1, E2, M1, M2. auto.
  - assert (M : ppscount (w_up wm)
                = max 0 (ppscount (w_up w) - PPS_DECCOUNT)
                /\ fl_rawibt (w_up wm)
                   = (if 0 =? max 0 (ppscount (w_up w) - PPS_DECCOUNT)
                      then true else fl_rawibt (w_up w))).
    { clear E1 E2. subst wm. cbn -[Z.eqb min max].
      destruct (0 =? max 0 (ppscount (w_up w) - PPS_DECCOUNT));
        destruct (fl_rawibt (w_up w)) eqn:R; cbn; rewrite ?R; auto. }
    clearbody wm. destruct M as [M1 M2]. rewrite E1, E2, M1, M2. auto.
Qed.

(** One arrival and one evaluation, seen from the account. *)
Lemma eval_auto_arrival (ibt pps : bool) (w : world) :
  let w1 := eval_auto (upd_up (set_fl_pps pps) (upd_up (set_fl_ibt ibt) w)) in
  0 <= ppscount (w_up w) <= PPS_MAXCOUNT ->
  0 <= ppscount (w_up w1) <= PPS_MAXCOUNT
  /\ ppscount (w_up w) - 1 <= ppscount (w_up w1) <= ppscount (w_up w) + 3
  /\ (fl_rawibt (w_up w) = true -> ppscount (w_up w1) < PPS_MAXCOUNT ->
      fl_rawibt (w_up w1) = true)
  /\ (fl_rawibt (w_up w) = false -> 0 < ppscount (w_up w1) ->
      fl_rawibt (w_up w1) = false).
Proof.
  intros w1 Hr.
  pose proof (eval_auto_cases
                (upd_up (set_fl_pps pps) (upd_up (set_fl_ibt ibt) w))) as C.
  cbv zeta in C. fold w1 in C.
  change (ppscount (w_up (upd_up (set_fl_pps pps) (upd_up (set_fl_ibt ibt) w))))
    with (ppscount (w_up w)) in C.
  change (fl_rawibt (w_up (upd_up (set_fl_pps pps) (upd_up (set_fl_ibt ibt) w))))
    with (fl_rawibt (w_up w)) in C.
  change (fl_ibt (w_up (upd_up (set_fl_pps pps) (upd_up (set_fl_ibt ibt) w))))
    with ibt in C.
  change (fl_pps (w_up (upd_up (set_fl_pps pps) (upd_up (set_fl_ibt ibt) w))))
    with pps in C.
  unfold PPS_MAXCOUNT, PPS_INCCOUNT, PPS_DECCOUNT in *.
  destruct ibt.
  - destruct pps; destruct C as [C1 C2].
    + rewrite min_spec in C1.
      destruct (Z.eqb_spec 60 (ppscount (w_up w1)));
        repeat split; intros; try lia; congruence.
    + rewrite max_spec in C1.
      destruct (Z.eqb_spec 0 (ppscount (w_up w1)));
        repeat split; intros; try lia; congruence.
  - assert (E : w_up w1
                = w_up (upd_up (set_fl_pps pps) (upd_up (set_fl_ibt false) w)))
      by (f_equal; exact C).
    rewrite E. cbn.
    repeat split; intros; try lia; congruence.
Qed.

(** Once raw serial stamps are permitted they stay permitted for as long
    as the credit of the calls so far cannot have filled the account. *)
Lemma eval_auto_run_stays_raw (arrivals : list (bool * bool)) :
  forall w,
    0 <= ppscount (w_up w) <= PPS_MAXCOUNT ->
    fl_rawibt (w_up w) = true ->
    ppscount (w_up w) + 3 * Z.of_nat (List.length arrivals) < PPS_MAXCOUNT ->
    fl_rawibt (w_up (eval_auto_run arrivals w)) = true.
Proof.
  induction arrivals as [| [ibt pps] rest IH]; intros w Hr Hraw Hn;
    [ exact Hraw | ].
  cbn [eval_auto_run].
  destruct (eval_auto_arrival ibt pps w Hr) as (R1 & R2 & R3 & _).
  cbn [List.length] in Hn.
  apply IH; [ exact R1 | apply R3; [ exact Hraw | lia ] | lia ].
Qed.

(** Once PPS is expected it stays expected for as long as the debit of
    the calls so far cannot have emptied the account. *)
Lemma eval_auto_run_stays_pps (arrivals : list (bool * bool)) :
  forall w,
    0 <= ppscount (w_up w) <= PPS_MAXCOUNT ->
    fl_rawibt (w_up w) = false ->
    Z.of_nat (List.length arrivals) < ppscount (w_up w) ->
    fl_rawibt (w_up (eval_auto_run arrivals w)) = false.
Proof.
  induction arrivals as [| [ibt pps] rest IH]; intros w Hr Hraw Hn;
    [ exact Hraw | ].
  cbn [eval_auto_run].
  destruct (eval_auto_arrival ibt pps w Hr) as (R1 & R2 & _ & R4).
  cbn [List.length] in Hn.
  apply IH; [ exact R1 | apply R4; [ exact Hraw | lia ] | lia ].
Qed.

(** C10.  The PPS account of AUTO mode stays between 0 and PPS_MAXCOUNT
    across every call of [eval_auto].  Without a serial stamp the call
    does nothing; with a stamp and a pulse the account goes up by
    PPS_INCCOUNT, stopping at the upper limit; with a stamp and no pulse
    it goes down by PPS_DECCOUNT, stopping at zero.  The flag that
    permits raw serial stamps changes only at the ends: it is cleared
    only in a call that brings the account to PPS_MAXCOUNT and set only
    in a call that brings it to zero.  So the mode cannot flip back and
    forth: whatever arrives, raw stamps stay permitted while the credits
    of the calls made cannot have filled the account (20 calls from an
    empty one), and PPS stays expected while their debits cannot have
    emptied it (60 calls from a full one). *)
Theorem eval_auto_hysteresis (w : world) :
  0 <= ppscount (w_up w) <= PPS_MAXCOUNT ->
  let up := w_up w in
  let up' := w_up (eval_auto w) in
  0 <= ppscount up' <= PPS_MAXCOUNT
  /\ (fl_ibt up = false -> eval_auto w = w)
  /\ (fl_ibt up = true -> fl_pps up = true ->
      ppscount up' = Z.min PPS_MAXCOUNT (ppscount up + PPS_INCCOUNT))
  /\ (fl_ibt up = true -> fl_pps up = false ->
      ppscount up' = Z.max 0 (ppscount up - PPS_DECCOUNT))
  /\ (fl_rawibt up = true -> fl_rawibt up' = false ->
      ppscount up' = PPS_MAXCOUNT /\ fl_ibt up = true /\ fl_pps up = true)
  /\ (fl_rawibt up = false -> fl_rawibt up' = true ->
      ppscount up' = 0 /\ fl_ibt up = true /\ fl_pps up = false)
  /\ (forall arrivals,
        fl_rawibt up = true ->
        ppscount up + PPS_INCCOUNT * Z.of_nat (List.length arrivals)
        < PPS_MAXCOUNT ->
        fl_rawibt (w_up (eval_auto_run arrivals w)) = true)
  /\ (forall arrivals,
        fl_rawibt up = false ->
        PPS_DECCOUNT * Z.of_nat (List.length arrivals) < ppscount up ->
        fl_rawibt (w_up (eval_auto_run arrivals w)) = false).
Proof.
  intros Hr up up'.
  assert (Run1 : forall arrivals,
             fl_rawibt up = true ->
             ppscount up + PPS_INCCOUNT * Z.of_nat (List.length arrivals)
             < PPS_MAXCOUNT ->
             fl_rawibt (w_up (eval_auto_run arrivals w)) = true).
  { intros arrivals A B. apply eval_auto_run_stays_raw; assumption. }
  assert (Run2 : forall arrivals,
             fl_rawibt up = false ->
             PPS_DECCOUNT * Z.of_nat (List.length arrivals) < ppscount up ->
             fl_rawibt (w_up (eval_auto_run arrivals w)) = false).
  { intros arrivals A B. apply eval_auto_run_stays_pps; try assumption.
    unfold PPS_DECCOUNT, up in B. lia. }
  change (w_up w) with up in Hr.
  pose proof (eval_auto_cases w) as C. cbv zeta in C.
  fold up in C. fold up' in C.
  unfold PPS_MAXCOUNT, PPS_INCCOUNT, PPS_DECCOUNT in *.
  destruct (fl_ibt up) eqn:Fi.
  - destruct (fl_pps up) eqn:Fp; destruct C as [C1 C2].
    + rewrite min_spec in C1.
      destruct (Z.eqb_spec 60 (ppscount up')) as [Q | Q].
      * repeat split; intros; repeat split; try lia; try congruence; auto.
      * repeat split; intros; repeat split; try lia; try congruence; auto.
    + rewrite max_spec in C1.
      destruct (Z.eqb_spec 0 (ppscount up')) as [Q | Q].
      * repeat split; intros; repeat split; try lia; try congruence; auto.
      * repeat split; intros; repeat split; try lia; try congruence; auto.
  - assert (U : up' = up) by (unfold up'; rewrite C; reflexivity).
    rewrite U. repeat split; intros; repeat split; try lia; try congruence; auto.
Qed.

(** ** The log throttle *)

Lemma syslogok_unfold (pp : clockprocT) (up : gpsd_unit) :
  syslogok pp up
  = (let res := negb (0 =? Z.land (sloppyclockflag pp) CLK_FLAG3)
                || (0 =? logthrottle up) || (LOGTHROTTLE =? logthrottle up) in
     (res, if res then set_logthrottle LOGTHROTTLE up else up)).
Proof. reflexivity. Qed.

Lemma throttle_run_open (pp : clockprocT) (steps : list throttle_step) :
  negb (0 =? Z.land (sloppyclockflag pp) CLK_FLAG3) = true ->
  forall up, Forall (eq true) (throttle_run pp steps up).
Proof.
  intros F. induction steps as [| [|] rest IH]; intros up; cbn [throttle_run].
  - constructor.
  - apply IH.
  - rewrite syslogok_unfold. cbv zeta. rewrite F. cbn [orb].
    constructor; [ reflexivity | apply IH ].
Qed.

Lemma throttle_run_closed (pp : clockprocT) (steps : list throttle_step) :
  negb (0 =? Z.land (sloppyclockflag pp) CLK_FLAG3) = false ->
  forall up,
    0 < logthrottle up < LOGTHROTTLE ->
    ticks steps < logthrottle up ->
    Forall (eq false) (throttle_run pp steps up).
Proof.
  intros F. unfold LOGTHROTTLE, SECSPERHR.
  induction steps as [| [|] rest IH]; intros up Hl Ht; cbn [throttle_run].
  - constructor.
  - assert (Hr : 0 <= ticks rest)
      by (unfold ticks; apply Nat2Z.is_nonneg).
    assert (E : ticks (Tick :: rest) = ticks rest + 1).
    { unfold ticks. simpl. lia. }
    rewrite E in Ht.
    apply IH; cbn [logthrottle set_logthrottle]; unfold countdown.
    + destruct (Z.eqb_spec (logthrottle up) 0); simpl negb; cbv iota;
        [ lia | rewrite u32_small; lia ].
    + destruct (Z.eqb_spec (logthrottle up) 0); simpl negb; cbv iota;
        [ lia | rewrite u32_small; lia ].
  - rewrite syslogok_unfold. cbv zeta. rewrite F.
    destruct (Z.eqb_spec 0 (logthrottle up)); [ lia | ].
    destruct (Z.eqb_spec LOGTHROTTLE (logthrottle up)) as [E | E];
      [ unfold LOGTHROTTLE, SECSPERHR in E; lia | ].
    cbn [orb]. constructor; [ reflexivity | ].
    apply IH; [ exact Hl | ].
    unfold ticks in *. simpl in Ht. exact Ht.
Qed.

(** C6, as the code has it.  [syslogok] lets a message pass when the clock
    has its flag3 option, when the countdown is at zero, or when the
    countdown still stands at LOGTHROTTLE, that is, when no second has
    passed since the last message went through; a message that passes
    puts the countdown back to LOGTHROTTLE.  With flag3 every message
    passes.  Without it, once the timer has taken a second off the
    countdown every message is turned down until the timer has brought
    the countdown to zero: after a message and a tick nothing passes
    during the next LOGTHROTTLE - 2 ticks. *)
Theorem syslogok_throttles (pp : clockprocT) (up : gpsd_unit) :
  let flag3 := negb (0 =? Z.land (sloppyclockflag pp) CLK_FLAG3) in
  fst (syslogok pp up)
  = flag3 || (0 =? logthrottle up) || (LOGTHROTTLE =? logthrottle up)
  /\ snd (syslogok pp up)
     = (if fst (syslogok pp up) then set_logthrottle LOGTHROTTLE up else up)
  /\ (flag3 = true ->
      forall steps, Forall (eq true) (throttle_run pp steps up))
  /\ (flag3 = false ->
      0 < logthrottle up < LOGTHROTTLE ->
      forall steps,
        ticks steps < logthrottle up ->
        Forall (eq false) (throttle_run pp steps up))
  /\ (flag3 = false ->
      fst (syslogok pp up) = true ->
      forall steps,
        ticks steps < LOGTHROTTLE - 1 ->
        Forall (eq false)
          (throttle_run pp (Tick :: steps) (snd (syslogok pp up)))).
Proof.
  intros flag3.
  split; [ reflexivity | ].
  split; [ reflexivity | ].
  split; [ intros F steps; apply throttle_run_open; exact F | ].
  split; [ intros F Hl steps Ht; apply throttle_run_closed; assumption | ].
  intros F G steps Ht.
  rewrite syslogok_unfold in *. cbv zeta in *. cbn [fst snd] in *.
  rewrite G. cbn [throttle_run].
  apply throttle_run_closed; [ exact F | | ];
    change (logthrottle (set_logthrottle
              (countdown (logthrottle (set_logthrottle LOGTHROTTLE up)))
              (set_logthrottle LOGTHROTTLE up)))
      with (countdown LOGTHROTTLE);
    change (countdown LOGTHROTTLE) with (LOGTHROTTLE - 1);
    unfold LOGTHROTTLE, SECSPERHR in *; lia.
Qed.

(** ** Backing off from GPSD *)

Lemma log_throttled_sock (lvl : log_level) (msg : log_message) (w : world) :
  u_sock (w_up (log_throttled lvl msg w)) = u_sock (w_up w)
  /\ w_peer (log_throttled lvl msg w) = w_peer w
  /\ w_pps_peer (log_throttled lvl msg w) = w_pps_peer w
  /\ w_gpsd_addr (log_throttled lvl msg w) = w_gpsd_addr w.
Proof.
  unfold log_throttled. rewrite syslogok_unfold. cbv zeta.
  destruct (negb (0 =? Z.land (sloppyclockflag (pp_of Primary w)) CLK_FLAG3)
            || (0 =? logthrottle (w_up w))
            || (LOGTHROTTLE =? logthrottle (w_up w))); cbn; auto.
Qed.

Lemma preset_step (p : Z) :
  0 <= p <= TICKOVER_HIGH ->
  min (u32 (p + 5)) TICKOVER_HIGH = Z.min (p + 5) TICKOVER_HIGH.
Proof.
  unfold TICKOVER_HIGH. intros H.
  rewrite u32_small by lia. apply min_spec.
Qed.

Lemma gpsd_stop_socket_presets (w : world) :
  tickover (w_up (gpsd_stop_socket w)) = tickpres (w_up w)
  /\ tickpres (w_up (gpsd_stop_socket w))
     = min (u32 (tickpres (w_up w) + 5)) TICKOVER_HIGH.
Proof.
  unfold gpsd_stop_socket.
  destruct (negb (-1 =? io_fd (pp_of Primary w))); cbv zeta.
  - destruct (log_throttled_sock LOG_INFO
                (MsgClosingSocket (io_fd (pp_of Primary w))) w) as (S & _).
    remember (log_throttled LOG_INFO
                (MsgClosingSocket (io_fd (pp_of Primary w))) w) as wl.
    cbn. rewrite S. auto.
  - cbn. auto.
Qed.

Lemma gpsd_init_socket_no_socket_presets (w : world) :
  tickover (w_up (gpsd_init_socket_no_socket w)) = tickpres (w_up w)
  /\ tickpres (w_up (gpsd_init_socket_no_socket w))
     = min (u32 (tickpres (w_up w) + 5)) TICKOVER_HIGH
  /\ fdt (w_up (gpsd_init_socket_no_socket w)) = -1
  /\ io_fd (pp_of Primary (gpsd_init_socket_no_socket w)) = -1
  /\ w_gpsd_addr (gpsd_init_socket_no_socket w) = w_gpsd_addr w
  /\ addr (w_up (gpsd_init_socket_no_socket w)) = addr (w_up w).
Proof.
  unfold gpsd_init_socket_no_socket.
  destruct (negb (-1 =? io_fd (pp_of Primary w)));
    destruct (negb (-1 =? fdt (w_up w))); cbn;
    repeat break_if; cbn; auto 10.
Qed.

Lemma gpsd_test_socket_no_socket_presets (w : world) :
  tickover (w_up (gpsd_test_socket_no_socket w)) = tickpres (w_up w)
  /\ tickpres (w_up (gpsd_test_socket_no_socket w))
     = min (u32 (tickpres (w_up w) + 5)) TICKOVER_HIGH.
Proof.
  unfold gpsd_test_socket_no_socket.
  destruct (negb (-1 =? fdt (w_up w))); cbn; auto.
Qed.

Lemma stop_socket_iter (n : nat) :
  forall w,
    0 <= tickpres (w_up w) <= TICKOVER_HIGH ->
    tickpres (w_up (Nat.iter n gpsd_stop_socket w))
    = Z.min (tickpres (w_up w) + 5 * Z.of_nat n) TICKOVER_HIGH.
Proof.
  induction n as [| n IH]; intros w H.
  - simpl. unfold TICKOVER_HIGH in *. lia.
  - rewrite Nat.iter_succ_r.
    destruct (gpsd_stop_socket_presets w) as [_ P].
    rewrite preset_step in P by exact H.
    rewrite IH; rewrite P; unfold TICKOVER_HIGH in *; lia.
Qed.

(** C4, as the code has it.  Every failed attempt (the data connection
    timed out, the socket could not be set up, the pending connect
    failed) loads the countdown with the current preset and then raises
    the preset by five seconds, up to TICKOVER_HIGH: the backoff is
    additive.  Below the maximum the preset grows with every failure, at
    the maximum it stays; [n] timeouts in a row lead from a preset [p]
    to [min (p + 5 n) TICKOVER_HIGH], so that a unit started at
    TICKOVER_LOW waits the full TICKOVER_HIGH after 22 failures. *)
Theorem reconnect_backoff_is_additive (w : world) :
  0 <= tickpres (w_up w) <= TICKOVER_HIGH ->
  let p := tickpres (w_up w) in
  (forall w',
      w' = gpsd_stop_socket w
      \/ w' = gpsd_init_socket_no_socket w
      \/ w' = gpsd_test_socket_no_socket w ->
      tickover (w_up w') = p
      /\ tickpres (w_up w') = Z.min (p + 5) TICKOVER_HIGH
      /\ p <= tickpres (w_up w') <= TICKOVER_HIGH
      /\ (p < TICKOVER_HIGH -> p < tickpres (w_up w')))
  /\ (forall n,
        tickpres (w_up (Nat.iter n gpsd_stop_socket w))
        = Z.min (p + 5 * Z.of_nat n) TICKOVER_HIGH)
  /\ (p = TICKOVER_LOW ->
      forall n, (22 <= n)%nat ->
        tickpres (w_up (Nat.iter n gpsd_stop_socket w)) = TICKOVER_HIGH).
Proof.
  intros H p.
  split; [ | split ].
  - intros w' Hw'.
    assert (E : tickover (w_up w') = p
                /\ tickpres (w_up w') = min (u32 (p + 5)) TICKOVER_HIGH).
    { destruct Hw' as [-> | [-> | ->]].
      - apply gpsd_stop_socket_presets.
      - destruct (gpsd_init_socket_no_socket_presets w) as (A & B & _). auto.
      - apply gpsd_test_socket_no_socket_presets. }
    destruct E as [E1 E2]. rewrite preset_step in E2 by exact H.
    rewrite E1, E2. unfold TICKOVER_HIGH in *. fold p in H. lia.
  - intros n. apply stop_socket_iter. exact H.
  - intros Hp n Hn. rewrite stop_socket_iter by exact H. fold p.
    rewrite Hp. unfold TICKOVER_LOW, TICKOVER_HIGH. lia.
Qed.

(** ** Time strings *)

Lemma convert_ascii_time_frac_rest (ep : string) :
  forall dw nsec,
    snd (convert_ascii_time_frac ep dw nsec) = skip_digits ep.
Proof.
  induction ep as [| c r IH]; intros dw nsec; simpl; [ reflexivity | ].
  destruct (isdigit c); [ apply IH | reflexivity ].
Qed.

Lemma convert_ascii_time_frac_bound (ep : string) :
  forall dw nsec,
    0 <= dw ->
    nsec <= fst (convert_ascii_time_frac ep dw nsec)
         <= nsec + Z.max 0 (10 * dw - 1).
Proof.
  induction ep as [| c r IH]; intros dw nsec Hdw;
    cbn [convert_ascii_time_frac fst]; [ lia | ].
  destruct (isdigit c) eqn:D; cbn [fst]; [ | lia ].
  pose proof (isdigit_range c D) as Dr.
  assert (Hq : 0 <= dw / 10) by (apply Z.div_pos; lia).
  assert (Hm : 10 * (dw / 10) <= dw)
    by (apply Z.mul_div_le; lia).
  specialize (IH (dw / 10) (nsec + (uchar c - 48) * dw) Hq).
  assert (Hd : 0 <= (uchar c - 48) * dw <= 9 * dw) by nia.
  lia.
Qed.

Lemma no_nul_drop (n : nat) : forall s, no_nul s = true -> no_nul (drop_nat n s) = true.
Proof.
  induction n as [| n IH]; intros s H; [ exact H | ].
  destruct s as [| c r]; simpl; [ reflexivity | ].
  simpl in H. apply andb_prop in H as [_ H]. apply IH. exact H.
Qed.

Lemma no_nul_skip_digits (s : string) :
  no_nul s = true -> no_nul (skip_digits s) = true.
Proof.
  induction s as [| c r IH]; intros H; simpl; [ reflexivity | ].
  destruct (isdigit c); [ | exact H ].
  simpl in H. apply andb_prop in H as [_ H]. apply IH. exact H.
Qed.

Lemma no_nul_next (s : string) : no_nul s = true -> no_nul (next s) = true.
Proof.
  destruct s as [| c r]; intros H; simpl; [ reflexivity | ].
  simpl in H. apply andb_prop in H as [_ H]. exact H.
Qed.

(** The test [ep[0] != 'Z' || ep[1] != '\0'] on a C string. *)
Lemma ends_with_z (ep : string) :
  no_nul ep = true ->
  (negb (Ascii.eqb (deref ep) "Z") || negb (Ascii.eqb (deref (next ep)) NUL)
   = false
   <-> ep = "Z").
Proof.
  intros H. split.
  - intros T. apply orb_false_elim in T as [T1 T2].
    apply negb_false_iff in T1. apply negb_false_iff in T2.
    destruct ep as [| c r]; [ discriminate | ].
    simpl in T1, T2. apply Ascii.eqb_eq in T1. subst c.
    destruct r as [| d r']; [ reflexivity | ].
    simpl in T2. simpl in H. rewrite T2 in H. discriminate.
  - intros ->. reflexivity.
Qed.

Lemma skip_digits_all (ds tail : string) :
  all_digits ds = true -> deref tail = "Z"%char ->
  skip_digits (ds ++ tail) = tail.
Proof.
  induction ds as [| c r IH]; intros H T; simpl.
  - destruct tail as [| t r]; [ reflexivity | ].
    simpl in T. subst t. reflexivity.
  - simpl in H. apply andb_prop in H as [D H]. rewrite D. apply IH; assumption.
Qed.

Lemma all_digits_prefix (s : string) : all_digits (digit_prefix s) = true.
Proof.
  induction s as [| c r IH]; simpl; [ reflexivity | ].
  destruct (isdigit c) eqn:D; simpl; [ rewrite D; exact IH | reflexivity ].
Qed.

(** The tail the code accepts, in the two shapes it can have. *)
Lemma utc_tail_iff (tail : string) :
  utc_tail tail <->
  (if Ascii.eqb (deref tail) "." then skip_digits (next tail) else tail) = "Z".
Proof.
  unfold utc_tail. split.
  - intros [-> | (ds & Hd & ->)]; [ reflexivity | ].
    simpl. apply skip_digits_all; [ exact Hd | reflexivity ].
  - destruct (Ascii.eqb (deref tail) ".") eqn:Dot.
    + intros E. right. exists (digit_prefix (next tail)).
      split; [ apply all_digits_prefix | ].
      destruct tail as [| c r]; [ discriminate | ].
      simpl in Dot. apply Ascii.eqb_eq in Dot. subst c. simpl in *.
      rewrite <- E. f_equal. apply digit_prefix_app.
    + intros ->. left. reflexivity.
Qed.

(** When [convert_ascii_time] answers true on a C string, when it
    answers false, and what the stamp can be. *)
Lemma convert_ascii_time_accepts (fp : l_fp) (gps_time : string) :
  no_nul gps_time = true ->
  let r := convert_ascii_time fp gps_time in
  (fst r = true <->
   exists gd n, strptime gps_time = Some (gd, n)
                /\ utc_tail (drop_nat n gps_time))
  /\ (fst r = true ->
      exists gd n nsec,
        strptime gps_time = Some (gd, n)
        /\ 0 <= nsec < 1000000000
        /\ snd r = tspec_intv_to_lfp (tm_to_ntp_seconds gd) nsec)
  /\ (fst r = false -> snd r = fp).
Proof.
  intros Hc r. subst r. unfold convert_ascii_time.
  destruct (strptime gps_time) as [[gd n] |] eqn:Sp.
  - set (ep := drop_nat n gps_time).
    assert (Hep : no_nul ep = true) by (apply no_nul_drop; exact Hc).
    pose proof (utc_tail_iff ep) as U.
    pose proof (convert_ascii_time_frac_rest (next ep) 100000000 0) as Fr.
    pose proof (convert_ascii_time_frac_bound (next ep) 100000000 0) as Fb.
    destruct (convert_ascii_time_frac (next ep) 100000000 0) as [ns rest].
    simpl in Fr, Fb. subst rest.
    destruct (Ascii.eqb (deref ep) ".") eqn:Dot.
    + assert (Hr : no_nul (skip_digits (next ep)) = true)
        by (apply no_nul_skip_digits, no_nul_next; exact Hep).
      pose proof (ends_with_z (skip_digits (next ep)) Hr) as Z.
      destruct (negb (Ascii.eqb (deref (skip_digits (next ep))) "Z")
                || negb (Ascii.eqb (deref (next (skip_digits (next ep)))) NUL))
        eqn:T; simpl.
      * split; [ split; [ discriminate | ] | split; [ discriminate | reflexivity ] ].
        intros (gd' & n' & E & Ht). inversion E; subst gd' n'.
        apply U in Ht. apply Z in Ht. discriminate.
      * split; [ split; [ intros _ | reflexivity ] | split; [ | discriminate ] ].
        -- exists gd, n. split; [ reflexivity | ].
           apply U. apply Z. reflexivity.
        -- intros _. exists gd, n, ns.
           split; [ reflexivity | ]. split; [ lia | reflexivity ].
    + pose proof (ends_with_z ep Hep) as Z.
      destruct (negb (Ascii.eqb (deref ep) "Z")
                || negb (Ascii.eqb (deref (next ep)) NUL)) eqn:T; simpl.
      * split; [ split; [ discriminate | ] | split; [ discriminate | reflexivity ] ].
        intros (gd' & n' & E & Ht). inversion E; subst gd' n'.
        apply U in Ht. apply Z in Ht. discriminate.
      * split; [ split; [ intros _ | reflexivity ] | split; [ | discriminate ] ].
        -- exists gd, n. split; [ reflexivity | ].
           apply U. apply Z. reflexivity.
        -- intros _. exists gd, n, 0.
           split; [ reflexivity | ]. split; [ lia | reflexivity ].
  - simpl. split; [ split; [ discriminate | ] | split; [ discriminate | reflexivity ] ].
    intros (gd & n & E & _). discriminate.
Qed.

(** ** Socket errors *)

Lemma log_open_eq (w : world) :
  log_open w = negb (0 =? Z.land (sloppyclockflag (pp_of Primary w)) CLK_FLAG3)
           || (0 =? logthrottle (w_up w))
           || (LOGTHROTTLE =? logthrottle (w_up w)).
Proof. reflexivity. Qed.

(** What one throttled message does. *)
Lemma log_throttled_effect (lvl : log_level) (msg : log_message) (w : world) :
  let w' := log_throttled lvl msg w in
  w_trace w' = (w_trace w ++ (if log_open w then [EvLog lvl msg] else []))%list
  /\ log_open w' = log_open w
  /\ u_sock (w_up w') = u_sock (w_up w)
  /\ w_peer w' = w_peer w
  /\ w_gpsd_addr w' = w_gpsd_addr w
  /\ logthrottle (w_up w')
     = (if log_open w then LOGTHROTTLE else logthrottle (w_up w)).
Proof.
  unfold log_throttled. rewrite !log_open_eq. rewrite syslogok_unfold. cbv zeta.
  destruct (negb (0 =? Z.land (sloppyclockflag (pp_of Primary w)) CLK_FLAG3))
    eqn:F3; cbn [orb].
  - cbn -[Z.eqb Z.land]. unfold pp_of, peer_of in *. cbn -[Z.eqb Z.land].
    rewrite F3. auto 10.
  - destruct (0 =? logthrottle (w_up w)) eqn:Z0; cbn [orb].
    + cbn -[Z.eqb Z.land]. unfold pp_of, peer_of in *. cbn -[Z.eqb Z.land].
      rewrite F3. cbn. auto 10.
    + destruct (LOGTHROTTLE =? logthrottle (w_up w)) eqn:ZL.
      * cbn -[Z.eqb Z.land]. unfold pp_of, peer_of in *. cbn -[Z.eqb Z.land].
        rewrite F3. cbn. auto 10.
      * cbn -[Z.eqb Z.land]. unfold pp_of, peer_of in *. cbn -[Z.eqb Z.land].
        rewrite F3, Z0, ZL, app_nil_r. auto 10.
Qed.

Lemma attempting_refl (w : world) : attempting w w.
Proof.
  unfold attempting. repeat split; [ left; reflexivity | ].
  exists []. rewrite app_nil_r. split; [ reflexivity | reflexivity ].
Qed.

Lemma attempting_log (lvl : log_level) (msg : log_message) (w0 w : world) :
  attempting w0 w -> attempting w0 (log_throttled lvl msg w).
Proof.
  unfold attempting. intros (T & A & G & F & Th & pre & Tr & Q).
  destruct (log_throttled_effect lvl msg w) as (L1 & L2 & L3 & L4 & L5 & L6).
  split; [ unfold tickpres; rewrite L3; exact T | ].
  split; [ congruence | ]. split; [ congruence | ].
  split; [ unfold pp_of, peer_of in *; rewrite L4; exact F | ].
  split.
  - rewrite L6, G. destruct (log_open w0); [ right; auto | exact Th ].
  - exists (pre ++ (if log_open w then [EvLog lvl msg] else []))%list.
    rewrite L1, Tr, app_assoc. split; [ reflexivity | ].
    intros G0. rewrite existsb_app, (Q G0), G, G0. reflexivity.
Qed.

(** The steps of an attempt that touch neither the log throttle nor the
    preset nor the trace. *)
Lemma attempting_step (w0 w w' : world) :
  attempting w0 w ->
  tickpres (w_up w') = tickpres (w_up w) ->
  logthrottle (w_up w') = logthrottle (w_up w) ->
  sloppyclockflag (pp_of Primary w') = sloppyclockflag (pp_of Primary w) ->
  w_gpsd_addr w' = w_gpsd_addr w ->
  w_trace w' = w_trace w ->
  attempting w0 w'.
Proof.
  unfold attempting. intros (T & A & G & F & Th & pre & Tr & Q) E1 E2 E3 E4 E5.
  split; [ congruence | ]. split; [ congruence | ].
  split; [ rewrite <- G; rewrite !log_open_eq; rewrite E2, E3; reflexivity | ].
  split; [ congruence | ].
  split; [ rewrite E2; exact Th | ].
  exists pre. rewrite E5. auto.
Qed.

(** The exits through [no_socket] leave the clock flags and the log
    throttle alone. *)
Lemma gpsd_init_socket_no_socket_frame (w : world) :
  sloppyclockflag (pp_of Primary (gpsd_init_socket_no_socket w))
  = sloppyclockflag (pp_of Primary w)
  /\ logthrottle (w_up (gpsd_init_socket_no_socket w)) = logthrottle (w_up w).
Proof.
  unfold gpsd_init_socket_no_socket.
  destruct (negb (-1 =? io_fd (pp_of Primary w)));
    destruct (negb (-1 =? fdt (w_up w))); cbn;
    repeat break_if; cbn; auto.
Qed.

Lemma gpsd_test_socket_no_socket_frame (w : world) :
  sloppyclockflag (pp_of Primary (gpsd_test_socket_no_socket w))
  = sloppyclockflag (pp_of Primary w)
  /\ logthrottle (w_up (gpsd_test_socket_no_socket w)) = logthrottle (w_up w).
Proof.
  unfold gpsd_test_socket_no_socket.
  destruct (negb (-1 =? fdt (w_up w))); cbn; auto.
Qed.

(** Leaving through [no_socket] after the error message. *)
Lemma attempt_fails (msg : log_message) (w0 w : world) :
  attempting w0 w ->
  failed_attempt w0
    (gpsd_init_socket_no_socket (log_throttled LOG_ERR msg w)).
Proof.
  intros (T & A & G & F & Th & pre & Tr & Q).
  destruct (log_throttled_effect LOG_ERR msg w) as (L1 & L2 & L3 & L4 & L5 & L6).
  remember (log_throttled LOG_ERR msg w) as wl.
  destruct (gpsd_init_socket_no_socket_presets wl) as (N1 & N2 & N3 & N4 & N5 & N6).
  destruct (gpsd_init_socket_no_socket_frame wl) as (N7 & N8).
  unfold failed_attempt, waiting.
  split; [ auto | ]. split; [ | split; [ | split; [ | split ] ] ].
  - rewrite N1. unfold tickpres. rewrite L3. exact T.
  - congruence.
  - rewrite N7. unfold pp_of, peer_of in *. rewrite L4. exact F.
  - rewrite N8, L6, G. destruct (log_open w0); [ reflexivity | ].
    destruct Th as [Th | [Th _]]; [ exact Th | discriminate ].
  - assert (Cl : exists closes,
               w_trace (gpsd_init_socket_no_socket wl)
               = (w_trace wl ++ closes)%list
               /\ existsb is_log closes = false).
    { unfold gpsd_init_socket_no_socket.
      destruct (negb (-1 =? io_fd (pp_of Primary wl))).
      - cbn -[Z.eqb].
        match goal with
        | |- context [if ?c then _ else _] => destruct c
        end; cbn.
        + eexists. rewrite <- app_assoc. split; [ reflexivity | reflexivity ].
        + eexists. split; [ reflexivity | reflexivity ].
      - destruct (negb (-1 =? fdt (w_up wl))); cbn.
        + eexists. split; [ reflexivity | reflexivity ].
        + exists []. rewrite app_nil_r. split; reflexivity. }
    destruct Cl as (closes & C1 & C2).
    exists (pre ++ (if log_open w then [EvLog LOG_ERR msg] else []) ++ closes)%list.
    rewrite C1, L1, Tr, <- !app_assoc.
    split; [ reflexivity | ]. rewrite G. split; intros G0; rewrite G0.
    + rewrite !existsb_app. simpl. rewrite orb_true_r. reflexivity.
    + rewrite !existsb_app. rewrite (Q G0), C2. reflexivity.
Qed.

(** A failing answer of the system sends [gpsd_init_socket] through
    [no_socket], whatever [setsockopt] said. *)
Lemma gpsd_init_socket_fails (sys : syscalls) (w : world) :
  addr (w_up w) <> [] \/ w_gpsd_addr w <> [] ->
  socket_failure sys ->
  exists w', gpsd_init_socket sys w = Some w' /\ failed_attempt w w'.
Proof.
  intros Ha Hf. unfold gpsd_init_socket.
  set (w1 := match addr (w_up w) with
             | [] => upd_up (set_addr (w_gpsd_addr w)) w
             | _ :: _ => w
             end).
  assert (A1 : attempting w w1).
  { subst w1. destruct (addr (w_up w)); [ | apply attempting_refl ].
    apply (attempting_step w w); [ apply attempting_refl | | | | | ];
      reflexivity. }
  assert (N1 : addr (w_up w1) <> []).
  { subst w1. destruct (addr (w_up w)) eqn:E.
    - cbn. destruct Ha as [Ha | Ha]; [ congruence | exact Ha ].
    - rewrite E. discriminate. }
  clearbody w1.
  destruct (addr (w_up w1)) as [| ai ai_next]; [ congruence | ].
  set (w2 := upd_up (set_fdt (sys_socket sys)) (upd_up (set_addr ai_next) w1)).
  assert (A2 : attempting w w2).
  { apply (attempting_step w w1); [ exact A1 | | | | | ]; reflexivity. }
  assert (F2 : fdt (w_up w2) = sys_socket sys) by reflexivity.
  clearbody w2. rewrite F2.
  destruct (Z.eqb_spec (-1) (sys_socket sys)) as [S | S].
  { eexists. split; [ reflexivity | apply attempt_fails; exact A2 ]. }
  destruct (Z.eqb_spec (-1) (sys_fcntl sys)) as [Fc | Fc].
  { eexists. split; [ reflexivity | apply attempt_fails; exact A2 ]. }
  set (w3 := if -1 =? sys_setsockopt sys
             then log_throttled LOG_INFO MsgCannotDisableNagle w2 else w2).
  assert (A3 : attempting w w3).
  { subst w3. destruct (-1 =? sys_setsockopt sys);
      [ apply attempting_log | ]; exact A2. }
  clearbody w3.
  destruct (Z.eqb_spec (-1) (sys_connect sys)) as [Co | Co].
  - destruct (Z.eqb_spec (sys_errno sys) EINPROGRESS) as [Ei | Ei].
    + exfalso. destruct Hf as [Hf | [Hf | [[_ Hf] | [Hf _]]]]; congruence.
    + eexists. split; [ reflexivity | apply attempt_fails; exact A3 ].
  - cbv zeta.
    set (w4 := upd_up (set_fdt (-1))
                 (upd_pp Primary (set_io_fd (fdt (w_up w3))) w3)).
    assert (A4 : attempting w w4).
    { apply (attempting_step w w3); [ exact A3 | | | | | ]; reflexivity. }
    clearbody w4.
    destruct (Z.eqb_spec 0 (sys_io_addclock sys)) as [Io | Io].
    + eexists. split; [ reflexivity | apply attempt_fails; exact A4 ].
    + exfalso. destruct Hf as [Hf | [Hf | [[Hf _] | [_ Hf]]]]; congruence.
Qed.

(** With an address to try, [gpsd_init_socket] comes back. *)
Lemma gpsd_init_socket_returns (sys : syscalls) (w : world) :
  addr (w_up w) <> [] \/ w_gpsd_addr w <> [] ->
  exists w', gpsd_init_socket sys w = Some w'.
Proof.
  intros Ha. unfold gpsd_init_socket.
  set (w1 := match addr (w_up w) with
             | [] => upd_up (set_addr (w_gpsd_addr w)) w
             | _ :: _ => w
             end).
  assert (N1 : addr (w_up w1) <> []).
  { subst w1. destruct (addr (w_up w)) eqn:E.
    - cbn. destruct Ha as [Ha | Ha]; [ congruence | exact Ha ].
    - rewrite E. discriminate. }
  clearbody w1.
  destruct (addr (w_up w1)) as [| ai ai_next]; [ congruence | ].
  cbv zeta.
  repeat break_if; eexists; reflexivity.
Qed.

(** The timer never gives up. *)
Lemma timer_primary_returns (sys : syscalls) (w : world) :
  exists w', timer_primary sys w = Some w'.
Proof.
  unfold timer_primary. cbv zeta.
  remember (timer_countdowns w) as wc.
  destruct (tickover (w_up wc) =? 4).
  - repeat break_if; eexists; reflexivity.
  - destruct (tickover (w_up wc) =? 0).
    + destruct (negb (-1 =? io_fd (pp_of Primary wc)));
        [ eexists; reflexivity | ].
      destruct (negb (-1 =? fdt (w_up wc))); [ eexists; reflexivity | ].
      destruct (w_gpsd_addr wc) eqn:E; [ eexists; reflexivity | ].
      apply gpsd_init_socket_returns. right. rewrite E. discriminate.
    + destruct ((-1 =? io_fd (pp_of Primary wc))
                && negb (-1 =? fdt (w_up wc))); eexists; reflexivity.
Qed.

Lemma timer_run_returns (answers : list syscalls) :
  forall w, timer_run answers w <> None.
Proof.
  induction answers as [| sys rest IH]; intros w; simpl; [ discriminate | ].
  destruct (timer_primary_returns sys w) as (w' & ->). apply IH.
Qed.

Lemma countdown_positive (x : Z) :
  1 <= x < 2 ^ 32 -> countdown x = x - 1.
Proof.
  intros H. unfold countdown.
  destruct (Z.eqb_spec x 0); [ lia | ].
  simpl. apply u32_small. lia.
Qed.

Lemma timer_countdowns_frame (w : world) :
  waiting w ->
  waiting (timer_countdowns w)
  /\ tickover (w_up (timer_countdowns w)) = countdown (tickover (w_up w))
  /\ tickpres (w_up (timer_countdowns w)) = tickpres (w_up w)
  /\ w_gpsd_addr (timer_countdowns w) = w_gpsd_addr w
  /\ w_trace (timer_countdowns w) = w_trace w.
Proof.
  unfold waiting. intros [A B]. repeat split; auto.
Qed.

(** What a second does to the log throttle. *)
Lemma timer_countdowns_throttle (w : world) :
  logthrottle (w_up (timer_countdowns w)) = countdown (logthrottle (w_up w))
  /\ sloppyclockflag (pp_of Primary (timer_countdowns w))
     = sloppyclockflag (pp_of Primary w)
  /\ io_fd (pp_of Primary (timer_countdowns w)) = io_fd (pp_of Primary w)
  /\ fdt (w_up (timer_countdowns w)) = fdt (w_up w).
Proof. repeat split. Qed.

(** With a connect under way and no data connection, every second looks
    at the connecting socket. *)
Lemma timer_primary_tests (sys : syscalls) (w : world) :
  io_fd (pp_of Primary w) = -1 ->
  fdt (w_up w) <> -1 ->
  timer_primary sys w = Some (gpsd_test_socket sys (timer_countdowns w)).
Proof.
  intros Hio Hfdt.
  destruct (timer_countdowns_throttle w) as (_ & _ & Io & Fd).
  unfold timer_primary. cbv zeta.
  remember (timer_countdowns w) as wc.
  rewrite Io, Fd, Hio. change (-1 =? -1) with true. cbn [negb andb].
  destruct (Z.eqb_spec (-1) (fdt (w_up w))) as [E | _]; [ congruence | ].
  cbn [negb].
  destruct (tickover (w_up wc) =? 4); [ reflexivity | ].
  destruct (tickover (w_up wc) =? 0); reflexivity.
Qed.

(** With no socket at all and more than a second to go, a second only
    takes one off the countdowns. *)
Lemma timer_primary_waits (sys : syscalls) (w : world) :
  waiting w ->
  2 <= tickover (w_up w) < 2 ^ 32 ->
  timer_primary sys w = Some (timer_countdowns w).
Proof.
  intros Hw Ht.
  destruct (timer_countdowns_frame w Hw) as ([W1 W2] & T & _).
  rewrite countdown_positive in T by lia.
  unfold timer_primary. cbv zeta.
  remember (timer_countdowns w) as wc.
  rewrite W1, W2, T. change (-1 =? -1) with true. cbn [negb andb].
  destruct (tickover (w_up w) - 1 =? 4); [ reflexivity | ].
  destruct (Z.eqb_spec (tickover (w_up w) - 1) 0); [ lia | reflexivity ].
Qed.

(** With no socket at all and the countdown about to run out, the second
    makes a new attempt. *)
Lemma timer_primary_retries (sys : syscalls) (w : world) :
  waiting w ->
  0 <= tickover (w_up w) <= 1 ->
  w_gpsd_addr w <> [] ->
  timer_primary sys w = gpsd_init_socket sys (timer_countdowns w).
Proof.
  intros Hw Ht Ha.
  destruct (timer_countdowns_frame w Hw) as ([W1 W2] & T & _ & A & _).
  assert (T0 : tickover (w_up (timer_countdowns w)) = 0).
  { rewrite T. unfold countdown.
    destruct (Z.eqb_spec (tickover (w_up w)) 0) as [E | E]; simpl;
      [ exact E | ].
    assert (E1 : tickover (w_up w) = 1) by lia. rewrite E1. reflexivity. }
  unfold timer_primary. cbv zeta.
  remember (timer_countdowns w) as wc.
  rewrite W1, W2, T0. change (-1 =? -1) with true.
  change (0 =? 4) with false. change (0 =? 0) with true. cbn [negb].
  cbv iota. destruct (w_gpsd_addr wc) eqn:E; [ congruence | reflexivity ].
Qed.

(** The seconds between a failed attempt and the next one. *)
Lemma timer_run_waits (idle : list syscalls) :
  forall w,
    waiting w ->
    tickover (w_up w) = Z.of_nat (List.length idle) + 1 ->
    tickover (w_up w) < 2 ^ 32 ->
    exists w1,
      timer_run idle w = Some w1
      /\ waiting w1
      /\ tickover (w_up w1) = 1
      /\ w_gpsd_addr w1 = w_gpsd_addr w
      /\ w_trace w1 = w_trace w
      /\ sloppyclockflag (pp_of Primary w1) = sloppyclockflag (pp_of Primary w)
      /\ logthrottle (w_up w1)
         = Nat.iter (List.length idle) countdown (logthrottle (w_up w)).
Proof.
  induction idle as [| sys rest IH]; intros w Hw Ht Hb.
  - exists w. simpl in Ht. repeat split; auto; apply Hw.
  - cbn [List.length] in Ht. cbn [timer_run].
    rewrite timer_primary_waits by (auto; lia).
    destruct (timer_countdowns_frame w Hw) as (W & T & _ & A & Tr).
    destruct (timer_countdowns_throttle w) as (Th & Fl & _).
    rewrite countdown_positive in T by lia.
    destruct (IH (timer_countdowns w) W)
      as (w1 & R & W1 & T1 & A1 & Tr1 & F1 & L1); [ lia | lia | ].
    exists w1. repeat split; try apply W1; try congruence.
    rewrite L1, Th. cbn [List.length]. symmetry. apply Nat.iter_succ_r.
Qed.

(** A full countdown of the log throttle after [n] seconds. *)
Lemma countdown_iter (n : nat) :
  forall x,
    Z.of_nat n <= x < 2 ^ 32 ->
    Nat.iter n countdown x = x - Z.of_nat n.
Proof.
  induction n as [| n IH]; intros x Hx; [ cbn; lia | ].
  rewrite Nat.iter_succ_r, countdown_positive by lia.
  rewrite IH by lia. lia.
Qed.

(** The pending connect has failed. *)
Lemma gpsd_test_socket_fails (sys : syscalls) (w : world) :
  io_fd (pp_of Primary w) = -1 ->
  connect_failure sys ->
  failed_attempt w (gpsd_test_socket sys w).
Proof.
  intros Hfd (Hs & Hi & He). unfold gpsd_test_socket.
  destruct (Z.eqb_spec 0 (sys_pselect sys)) as [E | _]; [ congruence | ].
  rewrite Hi. cbn [negb orb]. cbv iota zeta.
  set (w1 := upd_up (set_tickover TICKOVER_LOW) w).
  assert (A1 : attempting w w1).
  { apply (attempting_step w w); [ apply attempting_refl | | | | | ];
      reflexivity. }
  assert (F1 : io_fd (pp_of Primary w1) = -1) by exact Hfd.
  clearbody w1.
  assert (C : (-1 =? sys_getsockopt sys) || negb (0 =? sys_so_error sys) = true).
  { destruct He as [He | He].
    - rewrite He. reflexivity.
    - destruct (Z.eqb_spec 0 (sys_so_error sys)); [ congruence | ].
      apply orb_true_r. }
  rewrite C.
  set (msg := MsgAsyncConnectFailed (fdt (w_up w1))
                (if 0 =? sys_so_error sys then sys_errno sys
                 else sys_so_error sys)).
  destruct A1 as (T & A & G & F & Th & pre & Tr & Q).
  destruct (log_throttled_effect LOG_ERR msg w1) as (L1 & L2 & L3 & L4 & L5 & L6).
  remember (log_throttled LOG_ERR msg w1) as wl.
  destruct (gpsd_test_socket_no_socket_presets wl) as (N1 & N2).
  destruct (gpsd_test_socket_no_socket_frame wl) as (N7 & N8).
  assert (Fl : io_fd (pp_of Primary wl) = -1).
  { unfold pp_of, peer_of in *. rewrite L4. exact F1. }
  unfold failed_attempt, waiting.
  assert (Ex : io_fd (pp_of Primary (gpsd_test_socket_no_socket wl)) = -1
               /\ fdt (w_up (gpsd_test_socket_no_socket wl)) = -1
               /\ w_gpsd_addr (gpsd_test_socket_no_socket wl) = w_gpsd_addr wl
               /\ exists closes,
                    w_trace (gpsd_test_socket_no_socket wl)
                    = (w_trace wl ++ closes)%list
                    /\ existsb is_log closes = false).
  { unfold gpsd_test_socket_no_socket.
    destruct (negb (-1 =? fdt (w_up wl))); cbn; repeat split; auto.
    - eexists. split; [ reflexivity | reflexivity ].
    - exists []. rewrite app_nil_r. split; reflexivity. }
  destruct Ex as (X1 & X2 & X3 & closes & C1 & C2).
  split; [ auto | ]. split; [ | split; [ | split; [ | split ] ] ].
  - rewrite N1. unfold tickpres. rewrite L3. exact T.
  - congruence.
  - rewrite N7. unfold pp_of, peer_of in *. rewrite L4. exact F.
  - rewrite N8, L6, G. destruct (log_open w); [ reflexivity | ].
    destruct Th as [Th | [Th _]]; [ exact Th | discriminate ].
  - exists (pre ++ (if log_open w1 then [EvLog LOG_ERR msg] else []) ++ closes)%list.
    rewrite C1, L1, Tr, <- !app_assoc.
    split; [ reflexivity | ]. rewrite G. split; intros G0; rewrite G0.
    + rewrite !existsb_app. simpl. rewrite orb_true_r. reflexivity.
    + rewrite !existsb_app. rewrite (Q G0), C2. reflexivity.
Qed.

(** C5.  When the system refuses the socket, the non-blocking mode, the
    connect or the registration with the I/O engine, [gpsd_init_socket]
    still returns, and so does [gpsd_test_socket] when a pending connect
    turns out to have failed, which is what the timer calls every second
    while a connect is under way.  The error is logged if the log
    throttle lets it pass and nothing is logged otherwise; a message that
    passed loads the countdown of the throttle with LOGTHROTTLE.  No
    socket is left open and the countdown to the next attempt is loaded
    with the preset.  The seconds that follow only count down, and when
    the countdown runs out the timer calls [gpsd_init_socket] again,
    which returns again; if that attempt fails as well and the first
    error was logged, it adds nothing to the log (unless the clock has
    flag3 set).  No answer of the system makes the timer stop. *)
Theorem socket_errors_are_logged_and_retried (sys : syscalls) (w : world) :
  w_gpsd_addr w <> [] ->
  0 <= tickpres (w_up w) <= TICKOVER_HIGH ->
  (socket_failure sys ->
   exists w', gpsd_init_socket sys w = Some w' /\ failed_attempt w w')
  /\ (io_fd (pp_of Primary w) = -1 ->
      connect_failure sys ->
      failed_attempt w (gpsd_test_socket sys w))
  /\ (io_fd (pp_of Primary w) = -1 ->
      fdt (w_up w) <> -1 ->
      timer_primary sys w = Some (gpsd_test_socket sys (timer_countdowns w))
      /\ (connect_failure sys ->
          failed_attempt (timer_countdowns w)
            (gpsd_test_socket sys (timer_countdowns w))))
  /\ (forall w',
        failed_attempt w w' ->
        forall idle again,
          Z.of_nat (List.length idle) = Z.max 0 (tickpres (w_up w) - 1) ->
          exists w1 w2,
            timer_run idle w' = Some w1
            /\ w_trace w1 = w_trace w'
            /\ timer_primary again w1
               = gpsd_init_socket again (timer_countdowns w1)
            /\ timer_primary again w1 = Some w2
            /\ (socket_failure again ->
                failed_attempt (timer_countdowns w1) w2)
            /\ (socket_failure again ->
                log_open w = true ->
                Z.land (sloppyclockflag (pp_of Primary w)) CLK_FLAG3 = 0 ->
                1 <= tickpres (w_up w) ->
                exists new,
                  w_trace w2 = (w_trace w' ++ new)%list
                  /\ existsb is_log new = false))
  /\ (forall answers w0, timer_run answers w0 <> None).
Proof.
  intros Ha Hp.
  split; [ intros Hf; apply gpsd_init_socket_fails; auto | ].
  split; [ intros Hfd Hc; apply gpsd_test_socket_fails; assumption | ].
  split.
  { intros Hio Hfdt.
    split; [ apply timer_primary_tests; assumption | ].
    intros Hc. apply gpsd_test_socket_fails; [ exact Hio | exact Hc ]. }
  split; [ | intros answers w0; apply timer_run_returns ].
  intros w' F.
  destruct F as (W & T & A & Fl & Th & _).
  intros idle again Hl. unfold TICKOVER_HIGH in Hp.
  assert (Again : forall w1,
             waiting w1 -> 0 <= tickover (w_up w1) <= 1 ->
             w_gpsd_addr w1 = w_gpsd_addr w' ->
             exists w2,
               timer_primary again w1
               = gpsd_init_socket again (timer_countdowns w1)
               /\ timer_primary again w1 = Some w2
               /\ (socket_failure again ->
                   failed_attempt (timer_countdowns w1) w2)).
  { intros w1 W1 T1 A1.
    assert (N : w_gpsd_addr w1 <> []) by congruence.
    rewrite (timer_primary_retries again w1 W1 T1 N).
    assert (N' : addr (w_up (timer_countdowns w1)) <> []
                 \/ w_gpsd_addr (timer_countdowns w1) <> []).
    { right. destruct (timer_countdowns_frame w1 W1) as (_ & _ & _ & A2 & _).
      congruence. }
    destruct (gpsd_init_socket_returns again (timer_countdowns w1) N')
      as (w2 & R).
    exists w2. split; [ reflexivity | ]. split; [ exact R | ].
    intros Hf.
    destruct (gpsd_init_socket_fails again (timer_countdowns w1) N' Hf)
      as (w2' & R' & F').
    congruence. }
  destruct (Z.eq_dec (tickpres (w_up w)) 0) as [P0 | P0].
  - assert (I : idle = []).
    { destruct idle; [ reflexivity | ]. cbn [List.length] in Hl. lia. }
    subst idle.
    destruct (Again w' W) as (w2 & R1 & R2 & R3); [ lia | reflexivity | ].
    exists w', w2.
    split; [ reflexivity | ]. split; [ reflexivity | ].
    split; [ exact R1 | ]. split; [ exact R2 | ]. split; [ exact R3 | ].
    intros _ _ _ Hone. lia.
  - destruct (timer_run_waits idle w' W)
      as (w1 & R & W1 & T1 & A1 & Tr1 & F1 & L1); [ lia | lia | ].
    destruct (Again w1 W1) as (w2 & R1 & R2 & R3); [ lia | exact A1 | ].
    exists w1, w2.
    split; [ exact R | ]. split; [ exact Tr1 | ].
    split; [ exact R1 | ]. split; [ exact R2 | ]. split; [ exact R3 | ].
    intros Hf Hopen Hflag Hone.
    destruct (R3 Hf) as (_ & _ & _ & _ & _ & new & N1 & _ & N3).
    exists new. split; [ rewrite N1; cbn; congruence | ].
    apply N3. rewrite log_open_eq.
    destruct (timer_countdowns_throttle w1) as (C1 & C2 & _).
    rewrite C1, C2, F1, Fl, Hflag, L1, Th, Hopen.
    rewrite <- Nat.iter_succ.
    rewrite countdown_iter
      by (unfold LOGTHROTTLE, SECSPERHR; rewrite Nat2Z.inj_succ; lia).
    rewrite Nat2Z.inj_succ. unfold LOGTHROTTLE, SECSPERHR.
    change (negb (0 =? 0)) with false. cbn [orb].
    destruct (Z.eqb_spec 0 (3600 - Z.succ (Z.of_nat (List.length idle))));
      [ lia | ].
    destruct (Z.eqb_spec 3600 (3600 - Z.succ (Z.of_nat (List.length idle))));
      [ lia | reflexivity ].
Qed.

(** ** The assembly of lines *)

Lemma i32_small (z : Z) : - 2 ^ 31 <= z < 2 ^ 31 -> i32 z = z.
Proof.
  intros H. unfold i32, wrap_signed.
  change (2 ^ (32 - 1)) with (2 ^ 31).
  destruct (Z_lt_le_dec z 0) as [N | N].
  - rewrite (mod_neg_once (2 ^ 32) z) by lia.
    destruct (Z.ltb_spec (z + 2 ^ 32) (2 ^ 31)); lia.
  - rewrite Z.mod_small by lia.
    destruct (Z.ltb_spec z (2 ^ 31)); lia.
Qed.






(** *** What is stored, and what is parsed *)








(** ** The walk over the tokens of a record *)

Lemma jsmn_sizes_at (ctx : json_ctx) (tid : Z) :
  jsmn_sizes ctx -> 0 <= tok_size (tok_at ctx tid) <= JSMN_MAXTOK.
Proof.
  intros H. unfold tok_at.
  destruct (nth_in_or_default (Z.to_nat tid) (tok ctx)
              (mk_tok JSMN_UNDEFINED 0 0 0)) as [In | ->].
  - unfold jsmn_sizes in H. rewrite Forall_forall in H. apply H. exact In.
  - cbn. unfold JSMN_MAXTOK. lia.
Qed.

Lemma json_token_skip_ge (ctx : json_ctx) (tid : Z) :
  tid <= json_token_skip ctx tid.
Proof.
  unfold json_token_skip.
  destruct (json_token_skip_fuel_enough ctx (S (Z.to_nat (ntok ctx - tid))) tid)
    as (r & -> & H); [ lia | exact H ].
Qed.

Lemma iter_opt_mono (f g : Z -> option Z) :
  (forall x y, f x = Some y -> g x = Some y) ->
  forall n x y, iter_opt n f x = Some y -> iter_opt n g x = Some y.
Proof.
  intros H. induction n as [| n IH]; intros x y; simpl; [ trivial | ].
  destruct (f x) as [z |] eqn:E; [ | discriminate ].
  rewrite (H x z E). apply IH.
Qed.

(** More fuel does not change a result. *)
Lemma json_token_skip_fuel_mono (ctx : json_ctx) :
  forall fuel fuel' tid r,
    (fuel <= fuel')%nat ->
    json_token_skip_fuel fuel ctx tid = Some r ->
    json_token_skip_fuel fuel' ctx tid = Some r.
Proof.
  induction fuel as [| fuel IH]; intros fuel' tid r Hle; [ discriminate | ].
  destruct fuel' as [| fuel']; [ lia | ].
  simpl.
  destruct ((0 <=? tid) && (tid <? ntok ctx)); [ | trivial ].
  assert (M : forall n x y,
             iter_opt n (json_token_skip_fuel fuel ctx) x = Some y ->
             iter_opt n (json_token_skip_fuel fuel' ctx) x = Some y).
  { apply iter_opt_mono. intros x y. apply IH. lia. }
  destruct (tok_type (tok_at ctx tid)); try trivial.
  - destruct (iter_opt (Z.to_nat (tok_size (tok_at ctx tid) * 2))
                (json_token_skip_fuel fuel ctx) (tid + 1)) as [y |] eqn:E;
      [ | discriminate ].
    rewrite (M _ _ _ E). trivial.
  - destruct (iter_opt (Z.to_nat (tok_size (tok_at ctx tid)))
                (json_token_skip_fuel fuel ctx) (tid + 1)) as [y |] eqn:E;
      [ | discriminate ].
    rewrite (M _ _ _ E). trivial.
Qed.

Lemma json_token_skip_fuel_eq (ctx : json_ctx) (fuel : nat) (tid : Z) :
  (Z.to_nat (ntok ctx - tid) < fuel)%nat ->
  json_token_skip_fuel fuel ctx tid = Some (json_token_skip ctx tid).
Proof.
  intros H.
  apply (json_token_skip_fuel_mono ctx (S (Z.to_nat (ntok ctx - tid)))); [ lia | ].
  apply json_token_skip_total.
Qed.

(** The loop that skips the members of a compound, with the function
    itself in place of its fuelled version. *)
Lemma iter_opt_skip (ctx : json_ctx) (fuel : nat) (n : nat) :
  forall x,
    (Z.to_nat (ntok ctx - x) < fuel)%nat ->
    iter_opt n (json_token_skip_fuel fuel ctx) x
    = Some (Nat.iter n (json_token_skip ctx) x).
Proof.
  induction n as [| n IH]; intros x Hx; [ reflexivity | ].
  cbn [iter_opt]. rewrite (json_token_skip_fuel_eq ctx fuel x Hx).
  rewrite IH.
  - f_equal. apply Nat.iter_swap.
  - pose proof (json_token_skip_ge ctx x). lia.
Qed.

(** [json_token_skip] obeys the equation of the C function. *)
Lemma json_token_skip_eq (ctx : json_ctx) (tid : Z) :
  json_token_skip ctx tid
  = if (0 <=? tid) && (tid <? ntok ctx) then
      let len := tok_size (tok_at ctx tid) in
      let tid' :=
        match tok_type (tok_at ctx tid) with
        | JSMN_OBJECT =>
            Nat.iter (Z.to_nat (len * 2)) (json_token_skip ctx) (tid + 1)
        | JSMN_ARRAY =>
            Nat.iter (Z.to_nat len) (json_token_skip ctx) (tid + 1)
        | _ => tid + 1
        end in
      if tid' >? ntok ctx then ntok ctx else tid'
    else tid.
Proof.
  pose proof (json_token_skip_total ctx tid) as T.
  cbn [json_token_skip_fuel] in T.
  destruct ((0 <=? tid) && (tid <? ntok ctx)) eqn:In.
  - apply andb_prop in In as [L U].
    apply Z.leb_le in L. apply Z.ltb_lt in U.
    cbv zeta.
    destruct (tok_type (tok_at ctx tid));
      rewrite ?iter_opt_skip in T by lia; injection T as T; now symmetry.
  - injection T as T. now symmetry.
Qed.

Lemma skip_scalars (ctx : json_ctx) (n : nat) :
  forall x,
    0 <= x ->
    x + Z.of_nat n <= ntok ctx ->
    (forall i, x <= i < x + Z.of_nat n -> scalar_token ctx i) ->
    Nat.iter n (json_token_skip ctx) x = x + Z.of_nat n.
Proof.
  induction n as [| n IH]; intros x H0 Hn Hs; [ cbn; lia | ].
  rewrite Nat.iter_succ, IH; [ | lia | lia | intros i Hi; apply Hs; lia ].
  rewrite json_token_skip_eq.
  assert (In : (0 <=? x + Z.of_nat n) && (x + Z.of_nat n <? ntok ctx) = true).
  { apply andb_true_intro. split; [ apply Z.leb_le | apply Z.ltb_lt ]; lia. }
  rewrite In. cbv zeta.
  destruct (Hs (x + Z.of_nat n)) as [NO NA]; [ lia | ].
  destruct (tok_type (tok_at ctx (x + Z.of_nat n))); try congruence;
    destruct (Z.gtb_spec (x + Z.of_nat n + 1) (ntok ctx)); lia.
Qed.

(** X1.  Skipping a token moves forward and stays inside the token array.  An
    index outside the array is returned as it is.  From an index inside,
    the result lies behind it and not behind the end of the array: one
    further for a token that is neither object nor array, and behind all
    its members for a flat array or object, a count of [size] or of
    twice [size] tokens. *)
Theorem json_token_skip_advances (ctx : json_ctx) (tid : Z) :
  jsmn_sizes ctx ->
  let r := json_token_skip ctx tid in
  let size := tok_size (tok_at ctx tid) in
  (tid < 0 \/ ntok ctx <= tid -> r = tid)
  /\ (0 <= tid < ntok ctx ->
      tid < r <= ntok ctx
      /\ (scalar_token ctx tid -> r = tid + 1)
      /\ (tok_type (tok_at ctx tid) = JSMN_ARRAY ->
          tid + size < ntok ctx ->
          (forall i, tid < i <= tid + size -> scalar_token ctx i) ->
          r = tid + 1 + size)
      /\ (tok_type (tok_at ctx tid) = JSMN_OBJECT ->
          tid + 2 * size < ntok ctx ->
          (forall i, tid < i <= tid + 2 * size -> scalar_token ctx i) ->
          r = tid + 1 + 2 * size)).
Proof.
  intros Hs. cbv zeta.
  pose proof (jsmn_sizes_at ctx tid Hs) as [S0 _].
  rewrite (json_token_skip_eq ctx tid).
  split.
  - intros H.
    assert (Out : (0 <=? tid) && (tid <? ntok ctx) = false).
    { apply andb_false_iff.
      destruct H; [ left; apply Z.leb_gt | right; apply Z.ltb_ge ]; lia. }
    rewrite Out. reflexivity.
  - intros H.
    assert (In : (0 <=? tid) && (tid <? ntok ctx) = true).
    { apply andb_true_intro. split; [ apply Z.leb_le | apply Z.ltb_lt ]; lia. }
    rewrite In. cbv zeta.
    assert (G : forall n, tid + 1 <= Nat.iter n (json_token_skip ctx) (tid + 1)).
    { induction n as [| n IH]; [ cbn; lia | rewrite Nat.iter_succ ].
      pose proof (json_token_skip_ge ctx
                    (Nat.iter n (json_token_skip ctx) (tid + 1))). lia. }
    split; [ | split; [ | split ] ].
    + destruct (tok_type (tok_at ctx tid));
        match goal with
        | |- context [if ?y >? ntok ctx then _ else _] =>
            destruct (Z.gtb_spec y (ntok ctx))
        end; try lia;
        match goal with
        | |- context [Nat.iter ?n _ _] => specialize (G n); lia
        end.
    + intros SC. destruct SC as [NO NA].
      destruct (tok_type (tok_at ctx tid)); try congruence;
        destruct (Z.gtb_spec (tid + 1) (ntok ctx)); lia.
    + intros -> Hn Hsc.
      rewrite (skip_scalars ctx (Z.to_nat (tok_size (tok_at ctx tid))) (tid + 1));
        try lia.
      * destruct (Z.gtb_spec (tid + 1 + Z.of_nat (Z.to_nat (tok_size (tok_at ctx tid))))
                    (ntok ctx)); lia.
      * intros i Hi. apply Hsc. lia.
    + intros -> Hn Hsc.
      rewrite (skip_scalars ctx (Z.to_nat (tok_size (tok_at ctx tid) * 2)) (tid + 1));
        try lia.
      * destruct (Z.gtb_spec (tid + 1 + Z.of_nat (Z.to_nat (tok_size (tok_at ctx tid) * 2)))
                    (ntok ctx)); lia.
      * intros i Hi. apply Hsc. lia.
Qed.

Lemma jsmntype_eqb_eq (a b : jsmntype_t) :
  jsmntype_eqb a b = true <-> a = b.
Proof. destruct a, b; cbn; split; intros H; try reflexivity; discriminate. Qed.

Lemma json_object_lookup_loop_sound (ctx : json_ctx) (mem key : string)
    (what : option jsmntype_t) (len : nat) :
  forall tid,
    1 <= tid ->
    let r := json_object_lookup_loop ctx mem key what len tid in
    r = INVALID_TOKEN
    \/ (tid < r < ntok ctx
        /\ tok_type (tok_at ctx (r - 1)) = JSMN_STRING
        /\ cstr_at mem (tok_start (tok_at ctx (r - 1))) = key
        /\ match what with
           | Some ty => tok_type (tok_at ctx r) = ty
           | None => True
           end).
Proof.
  induction len as [| len IH]; intros tid Ht; cbv zeta; [ left; reflexivity | ].
  cbn [json_object_lookup_loop].
  destruct (Z.ltb_spec (tid + 1) (ntok ctx)) as [U | U]; [ | left; reflexivity ].
  destruct (jsmntype_eqb (tok_type (tok_at ctx tid)) JSMN_STRING) eqn:Ty;
    cbn [negb]; cbv iota zeta.
  - apply jsmntype_eqb_eq in Ty.
    destruct (streq key (cstr_at mem (tok_start (tok_at ctx tid)))) eqn:K;
      cbn [negb]; cbv iota.
    + apply String.eqb_eq in K.
      assert (G : tid < tid + 1 < ntok ctx
                  /\ tok_type (tok_at ctx (tid + 1 - 1)) = JSMN_STRING
                  /\ cstr_at mem (tok_start (tok_at ctx (tid + 1 - 1))) = key).
      { replace (tid + 1 - 1) with tid by lia.
        split; [ lia | split; [ exact Ty | now symmetry ] ]. }
      destruct what as [ty |].
      * destruct (jsmntype_eqb ty (tok_type (tok_at ctx (tid + 1)))) eqn:W;
          [ | left; reflexivity ].
        apply jsmntype_eqb_eq in W. right.
        destruct G as (G1 & G2 & G3). split_all; auto; lia.
      * right. destruct G as (G1 & G2 & G3). split_all; auto; lia.
    + pose proof (json_token_skip_ge ctx (tid + 1)) as G.
      destruct (Z.ltb_spec (json_token_skip ctx (tid + 1)) 0); [ left; reflexivity | ].
      destruct (IH (json_token_skip ctx (tid + 1))) as [E | (R & E)]; [ lia | | ].
      * left. exact E.
      * right. split; [ lia | exact E ].
  - pose proof (json_token_skip_ge ctx tid) as G1.
    pose proof (json_token_skip_ge ctx (json_token_skip ctx tid)) as G2.
    destruct (Z.ltb_spec (json_token_skip ctx (json_token_skip ctx tid)) 0);
      [ left; reflexivity | ].
    destruct (IH (json_token_skip ctx (json_token_skip ctx tid)))
      as [E | (R & E)]; [ lia | | ].
    + left. exact E.
    + right. split; [ lia | exact E ].
Qed.

(** X2.  What [json_object_lookup] returns is the invalid token or the index
    of a value of the object: a token behind the head of the object and
    inside the array, of the type asked for, whose predecessor is a
    string token that holds the key. *)
Theorem json_object_lookup_sound (ctx : json_ctx) (mem : string) (tid : Z)
    (key : string) (what : option jsmntype_t) :
  jsmn_sizes ctx ->
  let r := json_object_lookup ctx mem tid key what in
  (r = INVALID_TOKEN
   \/ (0 <= tid /\ tid + 1 < r < ntok ctx
       /\ tok_type (tok_at ctx tid) = JSMN_OBJECT
       /\ tok_type (tok_at ctx (r - 1)) = JSMN_STRING
       /\ cstr_at mem (tok_start (tok_at ctx (r - 1))) = key
       /\ match what with
          | Some ty => tok_type (tok_at ctx r) = ty
          | None => True
          end))
  /\ (tid < 0 \/ ntok ctx <= tid + 2 \/ tok_size (tok_at ctx tid) = 0
      \/ tok_type (tok_at ctx tid) <> JSMN_OBJECT ->
      r = INVALID_TOKEN).
Proof.
  intros Hs. cbv zeta. unfold json_object_lookup.
  pose proof (jsmn_sizes_at ctx tid Hs) as [S0 _].
  destruct (Z.ltb_spec tid 0) as [L | L]; cbn [orb];
    [ split; [ left; reflexivity | reflexivity ] | ].
  destruct (Z.geb_spec tid (ntok ctx)) as [U | U]; cbn [orb];
    [ split; [ left; reflexivity | reflexivity ] | ].
  destruct (jsmntype_eqb (tok_type (tok_at ctx tid)) JSMN_OBJECT) eqn:Ty;
    cbn [negb]; cbv iota;
    [ | split; [ left; reflexivity | reflexivity ] ].
  apply jsmntype_eqb_eq in Ty.
  split.
  - destruct (json_object_lookup_loop_sound ctx mem key what
                (Z.to_nat (tok_size (tok_at ctx tid))) (tid + 1))
      as [E | (R & E)]; [ lia | left; exact E | ].
    right. split; [ lia | split; [ lia | split; [ exact Ty | exact E ] ] ].
  - intros [H | [H | [H | H]]]; try lia; try congruence.
    + destruct (Z.to_nat (tok_size (tok_at ctx tid))) as [| n];
        [ reflexivity | ].
      cbn [json_object_lookup_loop].
      destruct (Z.ltb_spec (tid + 1 + 1) (ntok ctx)); [ lia | reflexivity ].
    + rewrite H. reflexivity.
Qed.

Lemma member_from_succ (ctx : json_ctx) (p : Z) (i : nat) :
  member_from ctx p (S i) = member_from ctx (json_token_skip ctx (p + 1)) i.
Proof.
  unfold member_from. rewrite Nat.iter_succ.
  symmetry. apply (Nat.iter_swap i Z (fun p => json_token_skip ctx (p + 1)) p).
Qed.

Lemma member_from_ge (ctx : json_ctx) (i : nat) :
  forall p, p <= member_from ctx p i.
Proof.
  induction i as [| i IH]; intros p; [ cbn; lia | ].
  rewrite member_from_succ.
  pose proof (json_token_skip_ge ctx (p + 1)).
  specialize (IH (json_token_skip ctx (p + 1))). lia.
Qed.

Lemma json_object_lookup_loop_finds (ctx : json_ctx) (mem key : string)
    (what : option jsmntype_t) (j : nat) :
  forall len p,
    (j < len)%nat ->
    0 <= p ->
    member_from ctx p j + 1 < ntok ctx ->
    (forall i, (i < j)%nat ->
               exists k, key_token ctx mem (member_from ctx p i) = Some k
                         /\ k <> key) ->
    key_token ctx mem (member_from ctx p j) = Some key ->
    json_object_lookup_loop ctx mem key what len p
    = match what with
      | None => member_from ctx p j + 1
      | Some ty =>
          if jsmntype_eqb ty (tok_type (tok_at ctx (member_from ctx p j + 1)))
          then member_from ctx p j + 1 else INVALID_TOKEN
      end.
Proof.
  induction j as [| j IH]; intros len p Hl Hp Hn Hb Hk;
    (destruct len as [| len]; [ lia | ]); cbn [json_object_lookup_loop].
  - change (member_from ctx p 0) with p in *.
    destruct (Z.ltb_spec (p + 1) (ntok ctx)); [ | lia ].
    unfold key_token in Hk.
    destruct (tok_type (tok_at ctx p)) eqn:Ty; try discriminate.
    injection Hk as Hk. cbn [jsmntype_eqb negb]. cbv iota.
    rewrite Hk. unfold streq. rewrite String.eqb_refl. cbn [negb]. cbv iota.
    reflexivity.
  - rewrite member_from_succ in Hn, Hk. rewrite member_from_succ.
    pose proof (json_token_skip_ge ctx (p + 1)) as G.
    pose proof (member_from_ge ctx j (json_token_skip ctx (p + 1))) as M.
    destruct (Z.ltb_spec (p + 1) (ntok ctx)); [ | lia ].
    destruct (Hb 0%nat) as (k & Hk0 & Hne); [ lia | ].
    change (member_from ctx p 0) with p in Hk0.
    unfold key_token in Hk0.
    destruct (tok_type (tok_at ctx p)) eqn:Ty; try discriminate.
    injection Hk0 as Hk0. cbn [jsmntype_eqb negb]. cbv iota.
    assert (K : streq key (cstr_at mem (tok_start (tok_at ctx p))) = false).
    { unfold streq. apply String.eqb_neq. rewrite Hk0. congruence. }
    rewrite K. cbn [negb]. cbv iota zeta.
    destruct (Z.ltb_spec (json_token_skip ctx (p + 1)) 0); [ lia | ].
    apply IH; try lia; try assumption.
    intros i Hi. specialize (Hb (S i)). rewrite member_from_succ in Hb.
    apply Hb. lia.
Qed.

(** X3.  The first member whose key is [key] decides: when the members before
    it have other keys, the lookup returns the value of that member, or
    the invalid token when the value is not of the type asked for. *)
Theorem json_object_lookup_finds_first (ctx : json_ctx) (mem : string)
    (tid : Z) (key : string) (what : option jsmntype_t) (j : nat) :
  jsmn_sizes ctx ->
  0 <= tid ->
  tok_type (tok_at ctx tid) = JSMN_OBJECT ->
  Z.of_nat j < tok_size (tok_at ctx tid) ->
  member_key ctx tid j + 1 < ntok ctx ->
  (forall i, (i < j)%nat ->
             exists k, key_token ctx mem (member_key ctx tid i) = Some k
                       /\ k <> key) ->
  key_token ctx mem (member_key ctx tid j) = Some key ->
  json_object_lookup ctx mem tid key what
  = match what with
    | None => member_key ctx tid j + 1
    | Some ty =>
        if jsmntype_eqb ty (tok_type (tok_at ctx (member_key ctx tid j + 1)))
        then member_key ctx tid j + 1 else INVALID_TOKEN
    end.
Proof.
  intros Hs Ht Ty Hj Hn Hb Hk.
  unfold json_object_lookup.
  pose proof (member_from_ge ctx j (tid + 1)) as M.
  fold (member_key ctx tid j) in M.
  destruct (Z.ltb_spec tid 0); [ lia | ].
  destruct (Z.geb_spec tid (ntok ctx)); [ lia | ].
  rewrite Ty. cbn [jsmntype_eqb negb orb]. cbv iota.
  apply (json_object_lookup_loop_finds ctx mem key what j); try assumption; lia.
Qed.

Lemma strtojint_as_spec (cp : string) (errno : Z) :
  strtojint cp errno = strtojint_spec cp errno.
Proof.
  unfold strtojint, strtojint_spec.
  destruct (Ascii.eqb (deref cp) "-") eqn:Neg.
  - simpl orb. cbv iota.
    change (u64 (- (JSON_INT_MIN + 1)) + 1) with (2 ^ 63).
    pose proof (strtojint_body true cp (next cp) errno) as B.
    cbv zeta in B. cbv iota in B.
    change (- LONG_MIN) with (2 ^ 63).
    destruct (strtojint_loop (2 ^ 63 / 10) (2 ^ 63) (next cp) 0 2)
      as [[accu flags] rest].
    destruct (negb (String.length (next cp) =? String.length rest)%nat);
      destruct (negb (Z.land flags 1 =? 0)); exact B.
  - simpl orb.
    change (u64 JSON_INT_MAX) with (2 ^ 63 - 1).
    pose proof (strtojint_body false cp
                  (if Ascii.eqb (deref cp) "+" then next cp else cp) errno) as B.
    cbv zeta in B. cbv iota in B.
    change LONG_MAX with (2 ^ 63 - 1).
    change LONG_MAX with (2 ^ 63 - 1) in B.
    set (body := if Ascii.eqb (deref cp) "+" then next cp else cp) in *.
    destruct (strtojint_loop ((2 ^ 63 - 1) / 10) (2 ^ 63 - 1) body 0 0)
      as [[accu flags] rest].
    destruct (negb (String.length body =? String.length rest)%nat);
      destruct (negb (Z.land flags 1 =? 0)); exact B.
Qed.

Lemma no_nul_until_nul (s : string) : no_nul (until_nul s) = true.
Proof.
  induction s as [| c r IH]; [ reflexivity | ].
  cbn [until_nul]. destruct (Ascii.eqb c NUL) eqn:E; [ reflexivity | ].
  cbn [no_nul]. rewrite E, IH. reflexivity.
Qed.

Lemma no_nul_cstr_at (mem : string) (off : Z) : no_nul (cstr_at mem off) = true.
Proof. apply no_nul_until_nul. Qed.

Lemma deref_nul (s : string) :
  no_nul s = true -> (Ascii.eqb NUL (deref s) = true <-> s = "").
Proof.
  destruct s as [| c r]; cbn [no_nul deref]; intros H.
  - split; reflexivity.
  - apply andb_prop in H as [H _]. rewrite Ascii.eqb_sym.
    destruct (Ascii.eqb c NUL); [ discriminate | ].
    split; discriminate.
Qed.

Lemma all_digits_digit_prefix (ds : string) :
  all_digits ds = true -> digit_prefix ds = ds /\ skip_digits ds = "".
Proof.
  induction ds as [| c r IH]; cbn; [ split; reflexivity | ].
  intros H. apply andb_prop in H as [D A]. rewrite D.
  destruct (IH A) as [-> ->]. split; reflexivity.
Qed.

Lemma skip_digits_empty (s : string) :
  skip_digits s = "" -> all_digits s = true.
Proof.
  induction s as [| c r IH]; cbn; [ reflexivity | ].
  destruct (isdigit c); [ exact IH | discriminate ].
Qed.

Lemma digit_not_sign (c : ascii) :
  isdigit c = true -> Ascii.eqb c "-" = false /\ Ascii.eqb c "+" = false.
Proof.
  intros D. apply isdigit_range in D.
  split; apply Ascii.eqb_neq; intros ->;
    [ change (uchar "-") with 45 in D | change (uchar "+") with 43 in D ]; lia.
Qed.

(** The sign and the digits as [strtojint] sees them. *)
Lemma integer_text_body (s : string) (v : Z) :
  let neg := Ascii.eqb (deref s) "-" in
  let body := if neg || Ascii.eqb (deref s) "+" then next s else s in
  integer_text s v <->
  digit_prefix body <> "" /\ skip_digits body = ""
  /\ v = (if neg then - dec_value (digit_prefix body)
          else dec_value (digit_prefix body)).
Proof.
  cbv zeta. split.
  - intros (ds & Ne & A & [[[-> | ->] ->] | [-> ->]]).
    + destruct ds as [| c r]; [ congruence | ].
      cbn [all_digits] in A. apply andb_prop in A as [D A].
      destruct (digit_not_sign c D) as [N1 N2].
      cbn [deref]. rewrite N1, N2. cbn [orb].
      destruct (all_digits_digit_prefix (String c r)) as [E1 E2];
        [ cbn [all_digits]; now rewrite D, A | ].
      rewrite E1, E2. split; [ discriminate | split; reflexivity ].
    + cbn. destruct (all_digits_digit_prefix ds A) as [E1 E2].
      rewrite E1, E2. split; [ exact Ne | split; reflexivity ].
    + cbn. destruct (all_digits_digit_prefix ds A) as [E1 E2].
      rewrite E1, E2. split; [ exact Ne | split; reflexivity ].
  - intros (Ne & Sk & Hv).
    set (neg := Ascii.eqb (deref s) "-") in *.
    set (body := if neg || Ascii.eqb (deref s) "+" then next s else s) in *.
    pose proof (skip_digits_empty body Sk) as A.
    destruct (all_digits_digit_prefix body A) as [E1 _].
    rewrite E1 in Ne, Hv.
    exists body. split; [ exact Ne | split; [ exact A | ] ].
    destruct neg eqn:Neg.
    + right. split; [ | exact Hv ].
      subst neg body. cbn [orb]. destruct s as [| c r]; [ discriminate | ].
      cbn [deref] in Neg. apply Ascii.eqb_eq in Neg. subst c. reflexivity.
    + left. split; [ | exact Hv ].
      subst body. cbn [orb].
      destruct (Ascii.eqb (deref s) "+") eqn:Pl.
      * right. destruct s as [| c r]; [ discriminate | ].
        cbn [deref] in Pl. apply Ascii.eqb_eq in Pl. subst c. reflexivity.
      * left. reflexivity.
Qed.

Lemma dec_value_nonneg (ds : string) : 0 <= dec_value (digit_prefix ds).
Proof. unfold dec_value. destruct (dec_value_from_mono ds 0 0); lia. Qed.

(** The text, the value and [errno] after [strtojint], and whether the
    caller takes the value. *)
Lemma lookup_int_of_text (cp : string) (errno : Z) :
  no_nul cp = true ->
  let r := strtojint cp errno in
  let taken := negb (String.length cp =? String.length (sj_end r))%nat
               && Ascii.eqb NUL (deref (sj_end r)) in
  (forall v, integer_text cp v ->
             taken = true
             /\ (LONG_MIN <= v <= LONG_MAX ->
                 sj_value r = v /\ sj_errno r = errno)
             /\ (v < LONG_MIN -> sj_value r = LONG_MIN /\ sj_errno r = ERANGE)
             /\ (LONG_MAX < v -> sj_value r = LONG_MAX /\ sj_errno r = ERANGE))
  /\ ((forall v, ~ integer_text cp v) -> taken = false)
  /\ (sj_errno r = errno \/ sj_errno r = EINVAL \/ sj_errno r = ERANGE).
Proof.
  intros NN. cbv zeta. rewrite strtojint_as_spec.
  unfold strtojint_spec.
  set (neg := Ascii.eqb (deref cp) "-").
  set (body := if neg || Ascii.eqb (deref cp) "+" then next cp else cp).
  pose proof (integer_text_body cp) as IT. cbv zeta in IT.
  fold neg in IT. fold body in IT.
  pose proof (dec_value_nonneg body) as Hnn.
  assert (NNb : no_nul body = true).
  { subst body. destruct (neg || Ascii.eqb (deref cp) "+");
      [ apply no_nul_next | ]; exact NN. }
  assert (Len : (String.length body <= String.length cp)%nat).
  { subst body. destruct (neg || Ascii.eqb (deref cp) "+"); [ | lia ].
    destruct cp; cbn; lia. }
  pose proof (length_digit_split body) as LS.
  assert (NNs : no_nul (skip_digits body) = true)
    by (apply no_nul_skip_digits; exact NNb).
  split; [ | split ].
  - intros v Hv. apply IT in Hv as (Ne & Sk & Hv).
    destruct (digit_prefix body) as [| d ds] eqn:Ed; [ congruence | ].
    assert (Tk : forall e val,
               negb (String.length cp
                     =? String.length
                          (sj_end (mk_strtojint_result val (skip_digits body) e)))%nat
               && Ascii.eqb NUL
                    (deref (sj_end (mk_strtojint_result val (skip_digits body) e)))
               = true).
    { intros e val. cbn [sj_end]. rewrite Sk. cbn [deref String.length].
      apply andb_true_intro. split; [ | reflexivity ].
      apply negb_true_iff. apply Nat.eqb_neq. rewrite Sk in LS.
      cbn [String.length] in LS. lia. }
    unfold LONG_MIN, LONG_MAX in *.
    destruct neg.
    + rewrite Z.gtb_ltb.
      destruct (Z.ltb_spec (- - 2 ^ 63) (dec_value (String d ds)));
        (split; [ apply Tk | ]); cbn [sj_value sj_errno];
        split_all; intros; try lia; split; try reflexivity; lia.
    + rewrite Z.gtb_ltb.
      destruct (Z.ltb_spec (2 ^ 63 - 1) (dec_value (String d ds)));
        (split; [ apply Tk | ]); cbn [sj_value sj_errno];
        split_all; intros; try lia; split; try reflexivity; lia.
  - intros Hno.
    destruct (digit_prefix body) as [| d ds] eqn:Ed.
    + cbn [sj_end]. rewrite Nat.eqb_refl. reflexivity.
    + assert (Sk : skip_digits body <> "").
      { intros Sk. apply (Hno (if neg then - dec_value (String d ds)
                               else dec_value (String d ds))).
        apply IT. split; [ discriminate | split; [ exact Sk | reflexivity ] ]. }
      assert (D : Ascii.eqb NUL (deref (skip_digits body)) = false).
      { destruct (Ascii.eqb NUL (deref (skip_digits body))) eqn:E; [ | reflexivity ].
        apply (deref_nul _ NNs) in E. congruence. }
      destruct neg; rewrite Z.gtb_ltb;
        match goal with
        | |- context [if ?a <? ?b then _ else _] => destruct (a <? b)
        end; cbn [sj_end]; rewrite D; apply andb_false_r.
  - destruct (digit_prefix body); [ cbn; auto | ].
    destruct neg; rewrite Z.gtb_ltb;
      match goal with
      | |- context [if ?a <? ?b then _ else _] => destruct (a <? b)
      end; cbn; auto.
Qed.

(** X4.  Numbers are read whole or not at all.  A member that is missing or is
    no primitive gives 0 with [errno] at [EINVAL], or the default with
    [errno] as it was.  A primitive that is an integer, sign and digits
    and nothing else, gives its value, clamped to the range of [long]
    with [errno] at [ERANGE] when it does not fit.  Any other primitive
    gives 0, or the default, and [errno] is what [strtojint] left: set
    when the text has no leading digit or a run of digits that does not
    fit, and as it was when digits are followed by something else. *)
Theorem json_object_lookup_int_reads_whole_numbers (ctx : json_ctx)
    (mem : string) (tid : Z) (key : string) (def errno : Z) :
  let r := json_object_lookup_int ctx mem tid key errno in
  let rd := json_object_lookup_int_default ctx mem tid key def errno in
  match json_object_lookup_primitive ctx mem tid key with
  | None => r = (0, EINVAL) /\ rd = (def, errno)
  | Some cp =>
      (forall v, integer_text cp v ->
         (LONG_MIN <= v <= LONG_MAX -> r = (v, errno) /\ rd = (v, errno))
         /\ (v < LONG_MIN ->
             r = (LONG_MIN, ERANGE) /\ rd = (LONG_MIN, ERANGE))
         /\ (LONG_MAX < v ->
             r = (LONG_MAX, ERANGE) /\ rd = (LONG_MAX, ERANGE)))
      /\ ((forall v, ~ integer_text cp v) ->
          fst r = 0 /\ fst rd = def /\ snd rd = snd r
          /\ snd r = sj_errno (strtojint cp errno))
      /\ (snd r = errno \/ snd r = EINVAL \/ snd r = ERANGE)
  end.
Proof.
  cbv zeta. unfold json_object_lookup_int, json_object_lookup_int_default.
  destruct (json_object_lookup_primitive ctx mem tid key) as [cp |] eqn:L;
    [ | split; reflexivity ].
  assert (NN : no_nul cp = true).
  { unfold json_object_lookup_primitive in L.
    destruct (negb (json_object_lookup ctx mem tid key (Some JSMN_PRIMITIVE)
                    =? INVALID_TOKEN)); [ | discriminate ].
    injection L as <-. apply no_nul_cstr_at. }
  destruct (lookup_int_of_text cp errno NN) as (A & B & C).
  split; [ | split ].
  - intros v Hv. destruct (A v Hv) as (Tk & In & Lo & Hi).
    rewrite Tk.
    split; [ | split ]; intros Hr;
      [ destruct (In Hr) as [-> ->] | destruct (Lo Hr) as [-> ->]
      | destruct (Hi Hr) as [-> ->] ]; split; reflexivity.
  - intros Hno. rewrite (B Hno). cbn. auto.
  - destruct (negb (String.length cp
                    =? String.length (sj_end (strtojint cp errno)))%nat
              && Ascii.eqb NUL (deref (sj_end (strtojint cp errno))));
      cbn [snd]; exact C.
Qed.

Lemma strtojint_errno (cp : string) (errno : Z) :
  sj_errno (strtojint cp errno)
  = if leading_integer cp then errno
    else if String.eqb
              (digit_prefix (if Ascii.eqb (deref cp) "-"
                                || Ascii.eqb (deref cp) "+"
                             then next cp else cp)) ""
         then EINVAL else ERANGE.
Proof.
  rewrite strtojint_as_spec. unfold strtojint_spec, leading_integer.
  set (neg := Ascii.eqb (deref cp) "-").
  set (body := if neg || Ascii.eqb (deref cp) "+" then next cp else cp).
  destruct (digit_prefix body) as [| d ds]; [ reflexivity | ].
  cbn [String.eqb negb andb]. unfold LONG_MIN, LONG_MAX.
  change (- - 2 ^ 63) with (2 ^ 63).
  destruct neg; rewrite Z.gtb_ltb;
    match goal with
    | |- context [?a <? ?b] =>
        destruct (Z.ltb_spec a b); destruct (Z.leb_spec b a); try lia
    end; reflexivity.
Qed.

Lemma json_object_lookup_int_errno (ctx : json_ctx) (mem key : string)
    (errno : Z) :
  snd (json_object_lookup_int ctx mem 0 key errno) = 0
  <-> readable_integer ctx mem key = true /\ errno = 0.
Proof.
  unfold json_object_lookup_int, readable_integer.
  destruct (json_object_lookup_primitive ctx mem 0 key) as [cp |].
  - assert (E : snd (if negb (String.length cp
                               =? String.length (sj_end (strtojint cp errno)))%nat
                        && Ascii.eqb NUL (deref (sj_end (strtojint cp errno)))
                     then (sj_value (strtojint cp errno),
                           sj_errno (strtojint cp errno))
                     else (0, sj_errno (strtojint cp errno)))
                = sj_errno (strtojint cp errno)).
    { destruct (negb _ && _); reflexivity. }
    rewrite E, strtojint_errno.
    destruct (leading_integer cp).
    + split; [ intros ->; split; reflexivity | intros [_ H]; exact H ].
    + split; [ | intros [H _]; discriminate ].
      destruct (String.eqb _ ""); unfold EINVAL, ERANGE; discriminate.
  - cbn. unfold EINVAL. split; [ discriminate | intros [H _]; discriminate ].
Qed.

(** X5.  [get_binary_time] succeeds exactly when both members are primitives
    that begin with an integer in the range of [long]; the stamp is then
    the conversion of the two values, the fraction multiplied by its
    scale. *)
Theorem get_binary_time_succeeds_iff (jctx : json_ctx) (mem : string)
    (time_name frac_name : string) (fscale : Z) :
  (get_binary_time jctx mem time_name frac_name fscale <> None
   <-> readable_integer jctx mem time_name = true
       /\ readable_integer jctx mem frac_name = true)
  /\ (forall stamp,
        get_binary_time jctx mem time_name frac_name fscale = Some stamp ->
        stamp
        = tspec_stamp_to_lfp
            (fst (json_object_lookup_int jctx mem 0 time_name 0))
            (i64 (fst (json_object_lookup_int jctx mem 0 frac_name 0)
                  * fscale))).
Proof.
  unfold get_binary_time. cbv zeta.
  pose proof (json_object_lookup_int_errno jctx mem time_name 0) as E1.
  destruct (json_object_lookup_int jctx mem 0 time_name 0) as [sec e1].
  pose proof (json_object_lookup_int_errno jctx mem frac_name e1) as E2.
  cbn [snd fst] in *.
  destruct (Z.eqb_spec e1 0) as [-> | Ne1].
  - destruct (json_object_lookup_int jctx mem 0 frac_name 0) as [nsec e2].
    cbn [snd fst] in *.
    destruct (Z.eqb_spec 0 e2) as [<- | Ne2].
    + split.
      * split; [ intros _ | discriminate ].
        split; [ apply E1; reflexivity | apply E2; reflexivity ].
      * intros stamp H. injection H as <-. reflexivity.
    + split; [ | discriminate ].
      split; [ congruence | ].
      intros [_ R]. exfalso. apply Ne2. symmetry. apply E2. split; [ exact R | reflexivity ].
  - destruct (json_object_lookup_int jctx mem 0 frac_name e1) as [nsec e2] eqn:L2.
    cbn [snd fst] in *.
    destruct (Z.eqb_spec 0 e2) as [<- | Ne2].
    + exfalso. apply Ne1. apply E2. reflexivity.
    + split.
      * split; [ congruence | ].
        intros [R _]. exfalso. apply Ne1. apply E1. split; [ exact R | reflexivity ].
      * discriminate.
Qed.

(** ** Records that are turned down *)

(** Without such a member the lookup of a string comes back empty. *)
Lemma json_object_lookup_string_misses (ctx : json_ctx) (mem key : string) :
  no_string_member ctx mem key ->
  json_object_lookup_string ctx mem 0 key = None.
Proof.
  intros Hn. unfold json_object_lookup_string, json_object_lookup.
  destruct ((0 <? 0) || (0 >=? ntok ctx)
            || negb (jsmntype_eqb (tok_type (tok_at ctx 0)) JSMN_OBJECT));
    [ reflexivity | ].
  destruct (json_object_lookup_loop_sound ctx mem key (Some JSMN_STRING)
              (Z.to_nat (tok_size (tok_at ctx 0))) (0 + 1))
    as [E | (R & Ty & K & W)]; [ lia | rewrite E; reflexivity | ].
  exfalso.
  apply (Hn (json_object_lookup_loop ctx mem key (Some JSMN_STRING)
               (Z.to_nat (tok_size (tok_at ctx 0))) (0 + 1) - 1));
    try assumption; try lia.
  match goal with
  | |- tok_type (tok_at ctx (?r - 1 + 1)) = _ =>
      replace (r - 1 + 1) with r by lia
  end.
  exact W.
Qed.

(** Nor does it find anything among members none of which fits. *)
Lemma json_object_lookup_loop_misses (ctx : json_ctx) (mem key : string)
    (ty : jsmntype_t) (len : nat) :
  forall p,
    (forall i : nat,
       (i < len)%nat ->
       member_from ctx p i + 1 < ntok ctx ->
       exists k,
         key_token ctx mem (member_from ctx p i) = Some k
         /\ (k = key ->
             tok_type (tok_at ctx (member_from ctx p i + 1)) <> ty)) ->
    json_object_lookup_loop ctx mem key (Some ty) len p = INVALID_TOKEN.
Proof.
  induction len as [| len IH]; intros p H; [ reflexivity | ].
  cbn [json_object_lookup_loop].
  destruct (Z.ltb_spec (p + 1) (ntok ctx)) as [U | U]; [ | reflexivity ].
  destruct (H 0%nat) as (k & Hk & Hv); [ lia | exact U | ].
  change (member_from ctx p 0) with p in Hk, Hv.
  unfold key_token in Hk.
  destruct (tok_type (tok_at ctx p)) eqn:Ty; try discriminate.
  injection Hk as Hk. cbn [jsmntype_eqb negb]. cbv iota.
  destruct (streq key (cstr_at mem (tok_start (tok_at ctx p)))) eqn:K;
    cbn [negb]; cbv iota zeta.
  - apply String.eqb_eq in K.
    destruct (jsmntype_eqb ty (tok_type (tok_at ctx (p + 1)))) eqn:W;
      [ | reflexivity ].
    apply jsmntype_eqb_eq in W. exfalso. apply Hv; congruence.
  - destruct (json_token_skip ctx (p + 1) <? 0); [ reflexivity | ].
    apply IH. intros i Hi Hn.
    rewrite <- member_from_succ in Hn |- *.
    destruct (H (S i)) as (k' & Hk' & Hv'); [ lia | exact Hn | ].
    exists k'. split; assumption.
Qed.

Lemma json_object_lookup_misses_members (ctx : json_ctx) (mem key : string) :
  no_member_of_type ctx mem key JSMN_STRING ->
  json_object_lookup_string ctx mem 0 key = None.
Proof.
  intros Hn. unfold json_object_lookup_string, json_object_lookup.
  destruct ((0 <? 0) || (0 >=? ntok ctx)
            || negb (jsmntype_eqb (tok_type (tok_at ctx 0)) JSMN_OBJECT));
    [ reflexivity | ].
  rewrite json_object_lookup_loop_misses; [ reflexivity | ].
  intros i Hi Hu. apply (Hn i); [ lia | exact Hu ].
Qed.

(** A record that is no object is turned down by [json_parse_record]. *)
Lemma json_parse_record_no_object (w : world) :
  not_an_object w ->
  fst (fst (json_parse_record (json_parse (w_up w)) (buffer (w_up w))
              (buflen (w_up w)))) = false.
Proof.
  unfold not_an_object, record_scan, json_parse_record.
  destruct (jsmn_parse (take (buflen (w_up w)) (buffer (w_up w))))
    as [rc toks].
  cbn [fst snd]. intros [H | H].
  - destruct (Z.leb_spec rc 0); [ reflexivity | lia ].
  - destruct (rc <=? 0); [ reflexivity | ].
    unfold tok_at. cbn [tok Z.to_nat].
    destruct (jsmntype_eqb JSMN_OBJECT
                (tok_type (nth 0 toks (mk_tok JSMN_UNDEFINED 0 0 0)))) eqn:E;
      [ | reflexivity ].
    apply jsmntype_eqb_eq in E. congruence.
Qed.

(** Such a record takes one of the two early returns of [gpsd_parse]. *)
Lemma bad_record_rejected (w : world) :
  not_an_object w \/ lacks_class w -> record_rejected w.
Proof.
  intros H. unfold record_rejected. destruct H as [H | H].
  - apply json_parse_record_no_object in H.
    destruct (json_parse_record (json_parse (w_up w)) (buffer (w_up w))
                (buflen (w_up w))) as [[ok jctx] mem].
    left. exact H.
  - unfold lacks_class in H.
    destruct (json_parse_record (json_parse (w_up w)) (buffer (w_up w))
                (buflen (w_up w))) as [[ok jctx] mem].
    right. destruct H as [H | H];
      [ apply json_object_lookup_string_misses
      | apply json_object_lookup_misses_members ]; exact H.
Qed.

(** C1.  A line that is not a JSON object, or a line in which no string
    token that reads "class" is followed by a string, or an object with
    string keys that has no member "class" with a string for its value,
    costs one count on the bad-reply tally and nothing else: the tally
    goes up by one (modulo 2^32, it is an unsigned int), no sample and no
    event reaches the core, nothing is logged, neither peer changes, and
    in the unit only the tally, the parse context and the record buffer
    differ.  [gpsd_parse] is a total function and its token walk has fuel
    to spare, so the call returns. *)
Theorem gpsd_parse_rejects_quietly (rtime : l_fp) (sys : syscalls) (w : world) :
  not_an_object w \/ lacks_class w ->
  let w' := gpsd_parse rtime sys w in
  tc_breply (w_up w') = (tc_breply (w_up w) + 1) mod 2 ^ 32
  /\ w_trace w' = w_trace w
  /\ w_peer w' = w_peer w
  /\ w_pps_peer w' = w_pps_peer w
  /\ w_gpsd_addr w' = w_gpsd_addr w
  /\ (u_pps (w_up w') = u_pps (w_up w)
      /\ u_ibt (w_up w') = u_ibt (w_up w)
      /\ u_prec (w_up w') = u_prec (w_up w)
      /\ u_fudge (w_up w') = u_fudge (w_up w)
      /\ u_flags (w_up w') = u_flags (w_up w)
      /\ u_sock (w_up w') = u_sock (w_up w))
  /\ (tc_recv (w_up w') = tc_recv (w_up w)
      /\ tc_nosync (w_up w') = tc_nosync (w_up w)
      /\ tc_ibt_recv (w_up w') = tc_ibt_recv (w_up w)
      /\ tc_ibt_used (w_up w') = tc_ibt_used (w_up w)
      /\ tc_pps_recv (w_up w') = tc_pps_recv (w_up w)
      /\ tc_pps_used (w_up w') = tc_pps_used (w_up w))
  /\ (mode (w_up w') = mode (w_up w)
      /\ device (w_up w') = device (w_up w)
      /\ proto_version (w_up w') = proto_version (w_up w)
      /\ logthrottle (w_up w') = logthrottle (w_up w)
      /\ buflen (w_up w') = buflen (w_up w))
  /\ (forall tid,
        json_token_skip_fuel
          (S (Z.to_nat (ntok (json_parse (w_up w')) - tid)))
          (json_parse (w_up w')) tid <> None).
Proof.
  intros H.
  exact (gpsd_parse_early_returns rtime sys w (bad_record_rejected w H)).
Qed.

(** ** What a record leaves alone *)

(** ** What the evaluations do to the unit *)
Lemma w_up_upd_peer (ch : channel) (f : peerT -> peerT) (w : world) :
  w_up (upd_peer ch f w) = w_up w.
Proof. destruct ch; reflexivity. Qed.

Lemma w_up_add_clock_sample (ch : channel) (stamp recvt : l_fp) (w : world) :
  w_up (add_clock_sample ch stamp recvt w) = w_up w.
Proof. apply add_clock_sample_trace. Qed.

Lemma w_up_eval_serial (w : world) :
  w_up (eval_serial w)
  = if fl_ibt (w_up w)
    then set_tc_ibt_used (incr (tc_ibt_used (w_up w)))
           (set_fl_ibt false (w_up w))
    else w_up w.
Proof.
  unfold eval_serial. destruct (fl_ibt (w_up w)); [ | reflexivity ].
  cbn [w_up upd_up]. rewrite w_up_upd_peer, w_up_add_clock_sample.
  reflexivity.
Qed.

Lemma w_up_eval_strict (w : world) :
  w_up (eval_strict w)
  = if fl_ibt (w_up w) && fl_pps (w_up w)
    then set_tc_ibt_used (incr (tc_ibt_used (w_up w)))
           (set_fl_ibt false (set_fl_pps false (w_up w)))
    else w_up w.
Proof.
  unfold eval_strict. destruct (fl_ibt (w_up w) && fl_pps (w_up w));
    [ | reflexivity ].
  cbn [w_up upd_up]. rewrite w_up_upd_peer, w_up_add_clock_sample.
  reflexivity.
Qed.

Lemma w_up_eval_pps_secondary (w : world) :
  w_up (eval_pps_secondary w)
  = if fl_pps2 (w_up w)
    then set_tc_pps_used (incr (tc_pps_used (w_up w)))
           (set_fl_pps2 false
              (set_ppscount2 (min PPS2_MAXCOUNT (ppscount2 (w_up w) + 2))
                 (w_up w)))
    else w_up w.
Proof.
  unfold eval_pps_secondary. destruct (fl_pps2 (w_up w)); [ | reflexivity ].
  cbv zeta.
  match goal with
  | |- context [if ?c then _ else _] => destruct c
  end; cbn [w_up upd_up]; rewrite ?w_up_upd_peer; cbn [w_up upd_up];
    rewrite ?w_up_upd_peer, w_up_add_clock_sample; reflexivity.
Qed.

(** The account of AUTO mode and the evaluation it chooses. *)
Lemma w_up_eval_auto (w : world) :
  w_up (eval_auto w)
  = if negb (fl_ibt (w_up w)) then w_up w
    else
      let up :=
        if fl_pps (w_up w) then
          let up := set_ppscount
                      (min PPS_MAXCOUNT (ppscount (w_up w) + PPS_INCCOUNT))
                      (w_up w) in
          if (PPS_MAXCOUNT =? ppscount up) && fl_rawibt up
          then set_fl_rawibt false up else up
        else
          let up := set_ppscount (max 0 (ppscount (w_up w) - PPS_DECCOUNT))
                      (w_up w) in
          if (0 =? ppscount up) && negb (fl_rawibt up)
          then set_fl_rawibt true up else up in
      if fl_rawibt up
      then set_tc_ibt_used (incr (tc_ibt_used up)) (set_fl_ibt false up)
      else if fl_pps up
           then set_tc_ibt_used (incr (tc_ibt_used up))
                  (set_fl_ibt false (set_fl_pps false up))
           else up.
Proof.
  unfold eval_auto.
  destruct (fl_ibt (w_up w)) eqn:I; cbn [negb]; cbv iota; [ | reflexivity ].
  cbv zeta.
  destruct (fl_pps (w_up w)) eqn:P.
  - cbn [w_up upd_up].
    match goal with
    | |- context [if ?c then msyslog _ _ _ else _] => destruct c eqn:C
    end.
    + cbn. rewrite w_up_eval_strict. cbn. rewrite I, P. reflexivity.
    + destruct (fl_rawibt (w_up w)) eqn:R.
      * cbn. rewrite R. rewrite w_up_eval_serial. cbn. rewrite I. reflexivity.
      * cbn. rewrite R. rewrite w_up_eval_strict. cbn. rewrite I, P. reflexivity.
  - cbn [w_up upd_up].
    match goal with
    | |- context [if ?c then msyslog _ _ _ else _] => destruct c eqn:C
    end.
    + cbn. rewrite w_up_eval_serial. cbn. rewrite I. reflexivity.
    + destruct (fl_rawibt (w_up w)) eqn:R.
      * cbn. rewrite R. rewrite w_up_eval_serial. cbn. rewrite I. reflexivity.
      * cbn. rewrite R. rewrite w_up_eval_strict. cbn. rewrite I, P. reflexivity.
Qed.

Lemma w_up_log_throttled (lvl : log_level) (msg : log_message) (w : world) :
  w_up (log_throttled lvl msg w) = snd (syslogok (pp_of Primary w) (w_up w)).
Proof.
  unfold log_throttled.
  destruct (syslogok (pp_of Primary w) (w_up w)) as [ok up].
  destruct ok; reflexivity.
Qed.

Lemma process_version_eq (sys : syscalls) (w : world) :
  process_version sys w =
  let jctx := json_parse (w_up w) in
  let mem := buffer (w_up w) in
  let '(major, errno) := json_object_lookup_int jctx mem 0 "proto_major" 0 in
  let '(minor, errno) := json_object_lookup_int jctx mem 0 "proto_minor" errno in
  if 0 =? errno
  then request_watch sys
         (note_version
            (json_object_lookup_string_default jctx mem 0 "rev" "(unknown)")
            (json_object_lookup_string_default jctx mem 0 "release" "(unknown)")
            (u16 major) (u16 minor) w)
  else log_throttled LOG_INFO MsgNoVersionData w.
Proof.
  unfold process_version, request_watch, note_version. cbv zeta.
  destruct (json_object_lookup_int (json_parse (w_up w)) (buffer (w_up w)) 0
              "proto_major" 0) as [major e1].
  destruct (json_object_lookup_int (json_parse (w_up w)) (buffer (w_up w)) 0
              "proto_minor" e1) as [minor e2].
  reflexivity.
Qed.

Lemma land_shiftl_low (h l : Z) :
  0 <= l < 2 ^ 16 -> Z.land (Z.shiftl h 16) l = 0.
Proof.
  intros Hl. apply Z.bits_inj'. intros n Hn.
  rewrite Z.land_spec, Z.bits_0.
  destruct (Z.lt_ge_cases n 16) as [L | G].
  - rewrite Z.shiftl_spec_low by exact L. reflexivity.
  - destruct (Z.eq_dec l 0) as [-> | Nz].
    + rewrite Z.bits_0. apply andb_false_r.
    + rewrite (Z.bits_above_log2 l n); [ apply andb_false_r | lia | ].
      apply Z.lt_le_trans with 16; [ | exact G ].
      apply Z.log2_lt_pow2; lia.
Qed.

Lemma PROTO_VERSION_value (hi lo : Z) :
  PROTO_VERSION hi lo = 65536 * (hi mod 65536) + lo mod 65536.
Proof.
  unfold PROTO_VERSION, u32, wrap_unsigned.
  change 4294901760 with (Z.shiftl (Z.ones 16) 16).
  change 65535 with (Z.ones 16).
  rewrite (Z.land_ones _ 16) by lia.
  assert (E : (Z.shiftl (hi mod 2 ^ 32) 16) mod 2 ^ 32
              = Z.shiftl (hi mod 2 ^ 16) 16).
  { rewrite !Z.shiftl_mul_pow2 by lia.
    change (2 ^ 32) with (2 ^ 16 * 2 ^ 16) at 2.
    rewrite Z.mul_mod_distr_r by lia.
    rewrite Z.mod_mod_divide by (exists (2 ^ 16); reflexivity).
    reflexivity. }
  rewrite E, <- Z.shiftl_land, (Z.land_ones _ 16) by lia.
  rewrite Z.mod_mod by lia.
  assert (L : (lo mod 2 ^ 32) mod 2 ^ 16 = lo mod 2 ^ 16).
  { apply Z.mod_mod_divide. exists (2 ^ 16). reflexivity. }
  rewrite L.
  pose proof (Z.mod_pos_bound lo (2 ^ 16) ltac:(lia)) as Bl.
  pose proof (Z.add_lor_land (Z.shiftl (hi mod 2 ^ 16) 16) (lo mod 2 ^ 16))
    as A.
  rewrite land_shiftl_low in A by exact Bl.
  rewrite Z.shiftl_mul_pow2 in A by lia.
  rewrite Z.shiftl_mul_pow2 by lia.
  change (2 ^ 16) with 65536 in *. lia.
Qed.

Lemma protocol_since_spec (a b hi lo : Z) :
  0 <= b < 65536 -> 0 <= lo < 65536 ->
  (65536 * hi + lo >=? 65536 * a + b) = protocol_since a b hi lo.
Proof.
  intros Hb Hl. unfold protocol_since. rewrite Z.geb_leb.
  destruct (Z.ltb_spec a hi), (Z.eqb_spec hi a), (Z.leb_spec b lo);
    cbn [orb andb]; (apply Z.leb_le || apply Z.leb_gt); lia.
Qed.

Lemma until_nul_app_nul (s r : string) :
  until_nul (s ++ String NUL r) = until_nul s.
Proof.
  induction s as [| c s IH]; cbn.
  - reflexivity.
  - destruct (Ascii.eqb c NUL); [ reflexivity | rewrite IH; reflexivity ].
Qed.

Lemma until_nul_no_nul (s : string) : no_nul s = true -> until_nul s = s.
Proof.
  induction s as [| c s IH]; cbn; [ reflexivity | ].
  destruct (Ascii.eqb c NUL); cbn; [ discriminate | ].
  intros H. rewrite IH by exact H. reflexivity.
Qed.

Lemma no_nul_app (a b : string) :
  no_nul (a ++ b) = no_nul a && no_nul b.
Proof.
  induction a as [| c a IH]; cbn; [ reflexivity | ].
  destruct (Ascii.eqb c NUL); cbn; [ reflexivity | exact IH ].
Qed.

Lemma substring_all (s : string) (n : nat) :
  (String.length s <= n)%nat -> String.substring 0 n s = s.
Proof.
  revert n. induction s as [| c s IH]; intros n H.
  - destruct n; reflexivity.
  - destruct n; cbn in H; [ lia | ].
    cbn. rewrite IH by lia. reflexivity.
Qed.

Lemma string_length_app (a b : string) :
  String.length (a ++ b) = (String.length a + String.length b)%nat.
Proof. induction a; cbn; [ reflexivity | rewrite IHa; reflexivity ]. Qed.

(** A device name without a NUL that leaves room for the rest of the
    request is sent as it is. *)
Lemma watch_request_plain (toff : bool) (w : world) :
  no_nul (device (w_up w)) = true ->
  Z.of_nat (String.length (device (w_up w))) <= 8100 ->
  watch_request toff w = s_req_watch toff (device (w_up w)).
Proof.
  intros Hn Hl. unfold watch_request, take.
  rewrite substring_all.
  - apply until_nul_no_nul. unfold s_req_watch.
    rewrite !no_nul_app, Hn. destruct toff; reflexivity.
  - unfold s_req_watch. rewrite !string_length_app.
    unfold MAX_PDU_LEN. destruct toff; cbn; lia.
Qed.

Lemma note_version_effect (revision release : string) (pvhi pvlo : Z)
    (w : world) :
  let w' := note_version revision release pvhi pvlo w in
  w_up w'
  = set_pf_toff (PROTO_VERSION pvhi pvlo >=? PROTO_VERSION 3 10)
      (set_pf_nsec (PROTO_VERSION pvhi pvlo >=? PROTO_VERSION 3 9)
         (set_fl_vers true
            (set_proto_version (PROTO_VERSION pvhi pvlo) (w_up w))))
  /\ w_peer w' = w_peer w
  /\ w_pps_peer w' = w_pps_peer w
  /\ w_trace w'
     = (w_trace w
        ++ (if fl_vers (w_up w) then []
            else [EvLog LOG_INFO
                    (MsgGpsdVersion revision release pvhi pvlo)]))%list.
Proof.
  unfold note_version. cbv zeta.
  destruct (fl_vers (w_up w)); cbn; rewrite ?app_nil_r; auto.
Qed.

Lemma request_watch_effect (sys : syscalls) (w : world) :
  let w' := request_watch sys w in
  let req := watch_request (pf_toff (w_up w)) w in
  (fl_watch (w_up w) = true -> w' = w)
  /\ (fl_watch (w_up w) = false ->
      w_trace w'
      = (w_trace w
         ++ EvWrite (io_fd (pp_of Primary w)) req
            :: (if ((sys_write sys req <? 0)
                    || negb (u64 (sys_write sys req)
                             =? Z.of_nat (String.length req)))
                   && log_open w
                then [EvLog LOG_ERR MsgWatchWriteFailed] else []))%list
      /\ until_nul (buffer (w_up w')) = req)
  /\ u_flags (w_up w') = u_flags (w_up w)
  /\ proto_version (w_up w') = proto_version (w_up w).
Proof.
  unfold request_watch. cbv zeta.
  destruct (fl_watch (w_up w)) eqn:Fw.
  { split; [ reflexivity | ]. split; [ discriminate | split; reflexivity ]. }
  split; [ discriminate | ].
  set (w1 := upd_up _ w).
  assert (B : until_nul (buffer (w_up w1))
              = watch_request (pf_toff (w_up w)) w).
  { subst w1. cbn [w_up upd_up]. unfold watch_request.
    change (buffer (set_buffer ?b ?u)) with b.
    unfold snprintf_buffer. cbv zeta. apply until_nul_app_nul. }
  assert (P : io_fd (pp_of Primary w1) = io_fd (pp_of Primary w))
    by reflexivity.
  assert (T : w_trace w1 = w_trace w) by reflexivity.
  assert (U : u_flags (w_up w1) = u_flags (w_up w)
              /\ proto_version (w_up w1) = proto_version (w_up w))
    by (split; reflexivity).
  assert (L : log_open w1 = log_open w) by reflexivity.
  assert (Bf : buffer (w_up w1) = buffer (w_up w1)) by reflexivity.
  clearbody w1. rewrite B, P.
  set (req := watch_request (pf_toff (w_up w)) w) in *.
  destruct ((sys_write sys req <? 0)
            || negb (u64 (sys_write sys req) =? Z.of_nat (String.length req))).
  - cbn [andb].
    destruct (log_throttled_effect LOG_ERR MsgWatchWriteFailed
                (emit (EvWrite (io_fd (pp_of Primary w)) req) w1))
      as (A1 & A2 & A3 & A4 & A5).
    cbv zeta in A1. rewrite A1.
    change (log_open (emit ?e w1)) with (log_open w1). rewrite L.
    cbn [w_trace emit]. rewrite T, <- app_assoc. cbn [app].
    rewrite !w_up_log_throttled. unfold syslogok.
    destruct (negb _ || _ || _); cbn [snd fst];
      (split; [ split; [ reflexivity | exact B ] | exact U ]).
  - cbn [andb w_trace emit w_up]. rewrite T.
    split; [ split; [ reflexivity | exact B ] | exact U ].
Qed.

Lemma u16_range (z : Z) : 0 <= u16 z < 65536.
Proof. unfold u16, wrap_unsigned. apply Z.mod_pos_bound. reflexivity. Qed.

(** X7.  A VERSION record whose protocol numbers can be read sets the
    protocol version of the unit to major * 65536 + minor, both taken
    modulo 65536, and from it the two protocol flags: nanosecond PPS
    data from protocol 3.9 on, TOFF records from protocol 3.10 on.  The
    version is logged the first time only.  Unless the device is watched
    already, one watch request goes out on the data connection; it asks
    for PPS exactly when the protocol has TOFF records, and with a
    device name of ordinary length it is the request text with the name
    filled in.  A failed or short write is at most logged.  A record
    whose protocol numbers cannot be read changes neither the version
    nor a flag and sends nothing. *)
Theorem version_record_sets_protocol_and_asks_to_watch (sys : syscalls)
    (w : world) :
  let jctx := json_parse (w_up w) in
  let mem := buffer (w_up w) in
  let '(major, e1) := json_object_lookup_int jctx mem 0 "proto_major" 0 in
  let '(minor, e2) := json_object_lookup_int jctx mem 0 "proto_minor" e1 in
  let w' := process_version sys w in
  let hi := u16 major in
  let lo := u16 minor in
  let toff := protocol_since 3 10 hi lo in
  let req := watch_request toff w in
  if 0 =? e2 then
    fl_vers (w_up w') = true
    /\ proto_version (w_up w') = 65536 * hi + lo
    /\ pf_nsec (w_up w') = protocol_since 3 9 hi lo
    /\ pf_toff (w_up w') = toff
    /\ fl_watch (w_up w') = fl_watch (w_up w)
    /\ w_trace w'
       = (w_trace w
          ++ (if fl_vers (w_up w) then []
              else [EvLog LOG_INFO
                      (MsgGpsdVersion
                         (json_object_lookup_string_default jctx mem 0
                            "rev" "(unknown)")
                         (json_object_lookup_string_default jctx mem 0
                            "release" "(unknown)") hi lo)])
          ++ (if fl_watch (w_up w) then []
              else EvWrite (io_fd (pp_of Primary w)) req
                   :: (if ((sys_write sys req <? 0)
                           || negb (u64 (sys_write sys req)
                                    =? Z.of_nat (String.length req)))
                          && log_open w
                       then [EvLog LOG_ERR MsgWatchWriteFailed] else [])))%list
    /\ (no_nul (device (w_up w)) = true ->
        Z.of_nat (String.length (device (w_up w))) <= 8100 ->
        req = s_req_watch toff (device (w_up w)))
  else
    w_trace w'
    = (w_trace w
       ++ (if log_open w then [EvLog LOG_INFO MsgNoVersionData] else []))%list
    /\ u_flags (w_up w') = u_flags (w_up w)
    /\ proto_version (w_up w') = proto_version (w_up w)
    /\ buffer (w_up w') = buffer (w_up w).
Proof.
  cbv zeta. rewrite process_version_eq. cbv zeta.
  destruct (json_object_lookup_int (json_parse (w_up w)) (buffer (w_up w)) 0
              "proto_major" 0) as [major e1].
  destruct (json_object_lookup_int (json_parse (w_up w)) (buffer (w_up w)) 0
              "proto_minor" e1) as [minor e2].
  destruct (0 =? e2).
  - match goal with
    | |- context [note_version ?a ?b ?c ?d w] =>
        destruct (note_version_effect a b c d w) as (N1 & N2 & N3 & N4);
        set (w1 := note_version a b c d w) in *
    end.
    cbv zeta in N1, N2, N3, N4.
    destruct (request_watch_effect sys w1) as (R1 & R2 & R3 & R4).
    assert (V : PROTO_VERSION (u16 major) (u16 minor)
                = 65536 * u16 major + u16 minor).
    { rewrite PROTO_VERSION_value.
      pose proof (u16_range major). pose proof (u16_range minor).
      rewrite !Z.mod_small by assumption. reflexivity. }
    assert (T9 : (PROTO_VERSION (u16 major) (u16 minor) >=? PROTO_VERSION 3 9)
                 = protocol_since 3 9 (u16 major) (u16 minor)).
    { rewrite V. change (PROTO_VERSION 3 9) with (65536 * 3 + 9).
      apply protocol_since_spec; [ lia | apply u16_range ]. }
    assert (T10 : (PROTO_VERSION (u16 major) (u16 minor) >=? PROTO_VERSION 3 10)
                  = protocol_since 3 10 (u16 major) (u16 minor)).
    { rewrite V. change (PROTO_VERSION 3 10) with (65536 * 3 + 10).
      apply protocol_since_spec; [ lia | apply u16_range ]. }
    assert (U : fl_vers (w_up w1) = true
                /\ proto_version (w_up w1) = PROTO_VERSION (u16 major) (u16 minor)
                /\ pf_nsec (w_up w1)
                   = (PROTO_VERSION (u16 major) (u16 minor) >=? PROTO_VERSION 3 9)
                /\ pf_toff (w_up w1)
                   = (PROTO_VERSION (u16 major) (u16 minor) >=? PROTO_VERSION 3 10)
                /\ fl_watch (w_up w1) = fl_watch (w_up w)
                /\ device (w_up w1) = device (w_up w)
                /\ logthrottle (w_up w1) = logthrottle (w_up w))
      by (rewrite N1; repeat split).
    destruct U as (U1 & U2 & U3 & U4 & U5 & U6 & U7).
    assert (Pp : pp_of Primary w1 = pp_of Primary w)
      by (unfold pp_of, peer_of; cbn [w_peer]; rewrite N2; reflexivity).
    assert (Lo : log_open w1 = log_open w)
      by (unfold log_open, syslogok; rewrite Pp, U7; reflexivity).
    assert (Rq : watch_request (pf_toff (w_up w1)) w1
                 = watch_request (protocol_since 3 10 (u16 major) (u16 minor)) w)
      by (unfold watch_request; rewrite U6, U4, T10; reflexivity).
    cbv zeta in R1, R2. rewrite Rq, Pp, Lo in R2.
    assert (Fv : fl_vers (w_up (request_watch sys w1)) = true)
      by (change (fl_vers (u_flags (w_up (request_watch sys w1))) = true);
          rewrite R3; exact U1).
    assert (Fn : pf_nsec (w_up (request_watch sys w1))
                 = protocol_since 3 9 (u16 major) (u16 minor))
      by (rewrite (f_equal pf_nsec R3 : pf_nsec (w_up (request_watch sys w1)) = pf_nsec (w_up w1)), <- T9; exact U3).
    assert (Ft : pf_toff (w_up (request_watch sys w1))
                 = protocol_since 3 10 (u16 major) (u16 minor))
      by (rewrite (f_equal pf_toff R3 : pf_toff (w_up (request_watch sys w1)) = pf_toff (w_up w1)), <- T10; exact U4).
    assert (Fw : fl_watch (w_up (request_watch sys w1)) = fl_watch (w_up w))
      by (rewrite (f_equal fl_watch R3 : fl_watch (w_up (request_watch sys w1)) = fl_watch (w_up w1)); exact U5).
    split; [ exact Fv | ].
    split; [ rewrite R4, U2; exact V | ].
    split; [ exact Fn | ].
    split; [ exact Ft | ].
    split; [ exact Fw | ].
    split; [ | apply watch_request_plain ].
    rewrite <- U5.
    destruct (fl_watch (w_up w1)) eqn:W.
    + rewrite R1 by reflexivity. rewrite N4, app_nil_r. reflexivity.
    + destruct R2 as [R2 _]; [ reflexivity | ].
      rewrite R2, N4, <- app_assoc. reflexivity.
  - destruct (log_throttled_effect LOG_INFO MsgNoVersionData w)
      as (A1 & _).
    cbv zeta in A1. split; [ exact A1 | ].
    rewrite w_up_log_throttled. unfold syslogok.
    destruct (negb _ || _ || _); cbn; auto.
Qed.

Lemma admin_kept_refl (w : world) : admin_kept w w.
Proof. unfold admin_kept. auto. Qed.

Lemma admin_kept_trans (w1 w2 w3 : world) :
  admin_kept w1 w2 -> admin_kept w2 w3 -> admin_kept w1 w3.
Proof.
  unfold admin_kept. intros (A & B & C & D & E) (A' & B' & C' & D' & E').
  split_all; congruence.
Qed.

Lemma w_gpsd_addr_upd_peer (ch : channel) (f : peerT -> peerT) (w : world) :
  w_gpsd_addr (upd_peer ch f w) = w_gpsd_addr w.
Proof. destruct ch; reflexivity. Qed.

Lemma w_gpsd_addr_add_clock_sample (ch : channel) (stamp recvt : l_fp)
    (w : world) :
  w_gpsd_addr (add_clock_sample ch stamp recvt w) = w_gpsd_addr w.
Proof.
  unfold add_clock_sample.
  match goal with
  | |- context [if ?c then _ else _] => destruct c
  end; destruct ch; reflexivity.
Qed.

Lemma admin_kept_unit (w w' : world) :
  w_gpsd_addr w' = w_gpsd_addr w ->
  u_sock (w_up w') = u_sock (w_up w) ->
  u_fudge (w_up w') = u_fudge (w_up w) ->
  mode (w_up w') = mode (w_up w) ->
  device (w_up w') = device (w_up w) ->
  admin_kept w w'.
Proof. unfold admin_kept. auto. Qed.

Lemma w_gpsd_addr_log_throttled (lvl : log_level) (msg : log_message)
    (w : world) :
  w_gpsd_addr (log_throttled lvl msg w) = w_gpsd_addr w.
Proof. apply log_throttled_sock. Qed.

Lemma admin_kept_log_throttled (lvl : log_level) (msg : log_message)
    (w : world) :
  admin_kept w (log_throttled lvl msg w).
Proof.
  apply admin_kept_unit; [ apply w_gpsd_addr_log_throttled | .. ];
    rewrite w_up_log_throttled; unfold syslogok;
    destruct (negb _ || _ || _); reflexivity.
Qed.

Lemma w_gpsd_addr_eval_serial (w : world) :
  w_gpsd_addr (eval_serial w) = w_gpsd_addr w.
Proof.
  unfold eval_serial. destruct (fl_ibt (w_up w)); [ | reflexivity ].
  cbn [w_gpsd_addr upd_up].
  rewrite w_gpsd_addr_upd_peer, w_gpsd_addr_add_clock_sample. reflexivity.
Qed.

Lemma w_gpsd_addr_eval_strict (w : world) :
  w_gpsd_addr (eval_strict w) = w_gpsd_addr w.
Proof.
  unfold eval_strict. destruct (fl_ibt (w_up w) && fl_pps (w_up w));
    [ | reflexivity ].
  cbn [w_gpsd_addr upd_up].
  rewrite w_gpsd_addr_upd_peer, w_gpsd_addr_add_clock_sample. reflexivity.
Qed.

Lemma w_gpsd_addr_eval_pps_secondary (w : world) :
  w_gpsd_addr (eval_pps_secondary w) = w_gpsd_addr w.
Proof.
  unfold eval_pps_secondary. destruct (fl_pps2 (w_up w)); [ | reflexivity ].
  cbv zeta.
  match goal with
  | |- context [if ?c then _ else _] => destruct c
  end; cbn [w_gpsd_addr upd_up]; rewrite ?w_gpsd_addr_upd_peer;
    cbn [w_gpsd_addr upd_up];
    rewrite ?w_gpsd_addr_upd_peer, w_gpsd_addr_add_clock_sample; reflexivity.
Qed.

Lemma w_gpsd_addr_eval_auto (w : world) :
  w_gpsd_addr (eval_auto w) = w_gpsd_addr w.
Proof.
  unfold eval_auto. destruct (negb (fl_ibt (w_up w))); [ reflexivity | ].
  cbv zeta. destruct (fl_pps (w_up w));
    match goal with
    | |- context [if ?c then msyslog _ _ _ else _] => destruct c
    end;
    match goal with
    | |- context [if ?c then eval_serial _ else _] => destruct c
    end;
    rewrite ?w_gpsd_addr_eval_serial, ?w_gpsd_addr_eval_strict; reflexivity.
Qed.

Lemma admin_kept_eval_serial (w : world) : admin_kept w (eval_serial w).
Proof.
  apply admin_kept_unit; [ apply w_gpsd_addr_eval_serial | .. ];
    rewrite w_up_eval_serial; destruct (fl_ibt (w_up w)); reflexivity.
Qed.

Lemma admin_kept_eval_strict (w : world) : admin_kept w (eval_strict w).
Proof.
  apply admin_kept_unit; [ apply w_gpsd_addr_eval_strict | .. ];
    rewrite w_up_eval_strict; destruct (fl_ibt (w_up w) && fl_pps (w_up w));
    reflexivity.
Qed.

Lemma admin_kept_eval_pps_secondary (w : world) :
  admin_kept w (eval_pps_secondary w).
Proof.
  apply admin_kept_unit; [ apply w_gpsd_addr_eval_pps_secondary | .. ];
    rewrite w_up_eval_pps_secondary; destruct (fl_pps2 (w_up w));
    reflexivity.
Qed.

Lemma admin_kept_eval_auto (w : world) : admin_kept w (eval_auto w).
Proof.
  apply admin_kept_unit; [ apply w_gpsd_addr_eval_auto | .. ];
    rewrite w_up_eval_auto; cbv zeta;
    repeat break_if; reflexivity.
Qed.

Lemma admin_kept_process_watch (w : world) : admin_kept w (process_watch w).
Proof.
  unfold process_watch. repeat break_match; unfold admin_kept; cbn; auto.
Qed.

Lemma admin_kept_process_tpv (rtime : l_fp) (w : world) :
  admin_kept w (process_tpv rtime w).
Proof.
  unfold process_tpv. cbv zeta.
  repeat break_match; unfold admin_kept; cbn; auto.
Qed.

Lemma admin_kept_process_toff (rtime : l_fp) (w : world) :
  admin_kept w (process_toff rtime w).
Proof.
  unfold process_toff. cbv zeta.
  repeat break_match; unfold admin_kept; cbn; auto.
Qed.

Lemma admin_kept_process_pps (rtime : l_fp) (w : world) :
  admin_kept w (process_pps rtime w).
Proof.
  unfold process_pps. cbv zeta.
  repeat break_match; unfold admin_kept; cbn;
    rewrite ?w_up_upd_peer, ?w_gpsd_addr_upd_peer; cbn; auto.
Qed.

Lemma admin_kept_note_version (revision release : string) (pvhi pvlo : Z)
    (w : world) :
  admin_kept w (note_version revision release pvhi pvlo w).
Proof.
  unfold note_version. cbv zeta.
  destruct (negb (fl_vers (w_up w))); unfold admin_kept; cbn; auto.
Qed.

Lemma admin_kept_request_watch (sys : syscalls) (w : world) :
  admin_kept w (request_watch sys w).
Proof.
  unfold request_watch. cbv zeta.
  destruct (fl_watch (w_up w)); [ apply admin_kept_refl | ].
  break_if.
  - match goal with
    | |- admin_kept _ (log_throttled ?l ?m ?x) =>
        apply (admin_kept_trans _ x); [ | apply admin_kept_log_throttled ]
    end.
    unfold admin_kept; cbn; auto.
  - unfold admin_kept; cbn; auto.
Qed.

Lemma admin_kept_process_version (sys : syscalls) (w : world) :
  admin_kept w (process_version sys w).
Proof.
  rewrite process_version_eq. cbv zeta.
  do 2 break_match. break_if; [ | apply admin_kept_log_throttled ].
  eapply admin_kept_trans;
    [ apply admin_kept_note_version | apply admin_kept_request_watch ].
Qed.

(** What follows the dispatch in [gpsd_parse]. *)
Lemma admin_kept_tail (wp : world) :
  let w1 := upd_up (fun up => set_tc_recv (incr (tc_recv up)) up) wp in
  let w2 := match w_pps_peer w1 with
            | Some _ => eval_pps_secondary w1
            | None => w1
            end in
  let w3 :=
    if fl_pps (w_up w2) && fl_ibt (w_up w2) then
      let diff := u64 (ibt_local (w_up w2) - pps_local (w_up w2)) in
      if lfpsint diff >? 0 then upd_up (set_fl_pps false) w2
      else if lfpsint diff <? 0 then upd_up (set_fl_ibt false) w2
      else w2
    else w2 in
  admin_kept wp
    (if mode (w_up w3) =? MODE_OP_STRICT then eval_strict w3
     else if mode (w_up w3) =? MODE_OP_AUTO then eval_auto w3
     else eval_serial w3).
Proof.
  cbv zeta.
  set (w1 := upd_up (fun up => set_tc_recv (incr (tc_recv up)) up) wp).
  assert (A1 : admin_kept wp w1) by (unfold admin_kept; cbn; auto).
  set (w2 := match w_pps_peer w1 with
             | Some _ => eval_pps_secondary w1
             | None => w1
             end).
  assert (A2 : admin_kept wp w2).
  { subst w2. destruct (w_pps_peer w1); [ | exact A1 ].
    apply (admin_kept_trans _ w1); [ exact A1 | ].
    apply admin_kept_eval_pps_secondary. }
  set (w3 := if fl_pps (w_up w2) && fl_ibt (w_up w2) then _ else _).
  assert (A3 : admin_kept wp w3).
  { subst w3. repeat break_if; try exact A2;
      (apply (admin_kept_trans _ w2); [ exact A2 | ]);
      unfold admin_kept; cbn; auto. }
  repeat break_if; (apply (admin_kept_trans _ w3); [ exact A3 | ]);
    [ apply admin_kept_eval_strict | apply admin_kept_eval_auto
    | apply admin_kept_eval_serial ].
Qed.

Lemma admin_kept_gpsd_parse (rtime : l_fp) (sys : syscalls) (w : world) :
  admin_kept w (gpsd_parse rtime sys w).
Proof.
  unfold gpsd_parse.
  destruct (json_parse_record (json_parse (w_up w)) (buffer (w_up w))
              (buflen (w_up w))) as [[ok jctx] mem].
  set (w0 := upd_up (set_buffer mem) (upd_up (set_json_parse jctx) w)).
  assert (A0 : admin_kept w w0) by (unfold admin_kept; cbn; auto).
  destruct ok; cbn [negb]; cbv iota;
    [ | apply (admin_kept_trans _ w0); [ exact A0 | ];
        unfold admin_kept; cbn; auto ].
  destruct (json_object_lookup_string jctx mem 0 "class") as [clsid |];
    [ | apply (admin_kept_trans _ w0); [ exact A0 | ];
        unfold admin_kept; cbn; auto ].
  assert (T : forall wp, admin_kept w0 wp ->
              admin_kept w
                (let w := upd_up (fun up => set_tc_recv (incr (tc_recv up)) up) wp in
                 let w := match w_pps_peer w with
                          | Some _ => eval_pps_secondary w
                          | None => w
                          end in
                 let w :=
                   if fl_pps (w_up w) && fl_ibt (w_up w) then
                     let diff := u64 (ibt_local (w_up w) - pps_local (w_up w)) in
                     if lfpsint diff >? 0 then upd_up (set_fl_pps false) w
                     else if lfpsint diff <? 0 then upd_up (set_fl_ibt false) w
                     else w
                   else w in
                 if mode (w_up w) =? MODE_OP_STRICT then eval_strict w
                 else if mode (w_up w) =? MODE_OP_AUTO then eval_auto w
                 else eval_serial w)).
  { intros wp Hp. apply (admin_kept_trans _ wp).
    - apply (admin_kept_trans _ w0); assumption.
    - apply admin_kept_tail. }
  destruct (streq "TPV" clsid);
    [ apply T, admin_kept_process_tpv | ].
  destruct (streq "PPS" clsid);
    [ apply T, admin_kept_process_pps | ].
  destruct (streq "TOFF" clsid);
    [ apply T, admin_kept_process_toff | ].
  destruct (streq "VERSION" clsid);
    [ apply T, admin_kept_process_version | ].
  destruct (streq "WATCH" clsid);
    [ apply T, admin_kept_process_watch | exact A0 ].
Qed.

Lemma log_throttled_pending (lvl : log_level) (msg : log_message) (w : world) :
  pending (log_throttled lvl msg w) = pending w
  /\ mode (w_up (log_throttled lvl msg w)) = mode (w_up w)
  /\ w_pps_peer (log_throttled lvl msg w) = w_pps_peer w
  /\ w_peer (log_throttled lvl msg w) = w_peer w.
Proof.
  unfold log_throttled, syslogok.
  destruct (negb _ || _ || _); cbn; auto.
Qed.

Lemma process_version_pending (sys : syscalls) (w : world) :
  pending (process_version sys w) = pending w
  /\ mode (w_up (process_version sys w)) = mode (w_up w)
  /\ w_pps_peer (process_version sys w) = w_pps_peer w
  /\ w_peer (process_version sys w) = w_peer w.
Proof.
  rewrite process_version_eq. cbv zeta.
  do 2 break_match. break_if; [ | apply log_throttled_pending ].
  match goal with
  | |- context [note_version ?a ?b ?c ?d w] =>
      assert (N : pending (note_version a b c d w) = pending w
                  /\ mode (w_up (note_version a b c d w)) = mode (w_up w)
                  /\ w_pps_peer (note_version a b c d w) = w_pps_peer w
                  /\ w_peer (note_version a b c d w) = w_peer w)
        by (unfold note_version; cbv zeta;
            destruct (negb (fl_vers (w_up w))); cbn; auto);
      generalize dependent (note_version a b c d w)
  end.
  intros w1 (A & B & C & D). rewrite <- A, <- B, <- C, <- D.
  unfold request_watch. cbv zeta.
  destruct (fl_watch (w_up w1)); [ auto | ].
  break_if; [ | cbn; auto ].
  match goal with
  | |- context [log_throttled ?l ?m ?x] =>
      destruct (log_throttled_pending l m x) as (A' & B' & C' & D');
      rewrite A', B', C', D'; cbn; auto
  end.
Qed.

Lemma process_watch_pending (w : world) :
  pending (process_watch w) = pending w
  /\ mode (w_up (process_watch w)) = mode (w_up w)
  /\ w_pps_peer (process_watch w) = w_pps_peer w
  /\ w_peer (process_watch w) = w_peer w.
Proof.
  unfold process_watch. repeat break_match; cbn; auto.
Qed.

Lemma no_fix_tail (wp : world) :
  no_fix wp ->
  let w1 := upd_up (fun up => set_tc_recv (incr (tc_recv up)) up) wp in
  let w2 := match w_pps_peer w1 with
            | Some _ => eval_pps_secondary w1
            | None => w1
            end in
  let w3 :=
    if fl_pps (w_up w2) && fl_ibt (w_up w2) then
      let diff := u64 (ibt_local (w_up w2) - pps_local (w_up w2)) in
      if lfpsint diff >? 0 then upd_up (set_fl_pps false) w2
      else if lfpsint diff <? 0 then upd_up (set_fl_ibt false) w2
      else w2
    else w2 in
  let w4 := if mode (w_up w3) =? MODE_OP_STRICT then eval_strict w3
            else if mode (w_up w3) =? MODE_OP_AUTO then eval_auto w3
            else eval_serial w3 in
  no_fix w4
  /\ samples_of Primary (w_trace w4) = samples_of Primary (w_trace wp)
  /\ w_peer w4 = w_peer wp
  /\ (fl_pps2 (w_up w4) = true -> fl_pps2 (w_up wp) = true).
Proof.
  intros (N & I & P). cbv zeta.
  set (w1 := upd_up (fun up => set_tc_recv (incr (tc_recv up)) up) wp).
  set (w2 := match w_pps_peer w1 with
             | Some _ => eval_pps_secondary w1
             | None => w1
             end).
  assert (H2 : no_fix w2
               /\ samples_of Primary (w_trace w2) = samples_of Primary (w_trace wp)
               /\ w_peer w2 = w_peer wp
               /\ (fl_pps2 (w_up w2) = true -> fl_pps2 (w_up wp) = true)).
  { subst w2. destruct (w_pps_peer w1) eqn:PP.
    - destruct (eval_pps_secondary_step w1) as (_ & (S1 & S2 & _) & _).
      assert (E : fl_pps2 (w_up w1) = fl_pps2 (w_up wp)) by reflexivity.
      unfold no_fix. rewrite w_up_eval_pps_secondary, E. clear E.
      split; [ | split; [ exact S1 | split; [ exact S2 | ] ] ];
        destruct (fl_pps2 (w_up wp)) eqn:F2; subst w1; cbn; auto; congruence.
    - subst w1. cbn. unfold no_fix. cbn. auto. }
  destruct H2 as ((N2 & I2 & P2) & S2 & W2 & F2).
  rewrite P2. cbn [andb].
  assert (E : forall f : world -> world,
             (forall w, fl_ibt (w_up w) = false -> f w = w) ->
             no_fix (f w2)
             /\ samples_of Primary (w_trace (f w2)) = samples_of Primary (w_trace wp)
             /\ w_peer (f w2) = w_peer wp
             /\ (fl_pps2 (w_up (f w2)) = true -> fl_pps2 (w_up wp) = true)).
  { intros f Hf. rewrite (Hf w2 I2). unfold no_fix. auto. }
  destruct (mode (w_up w2) =? MODE_OP_STRICT);
    [ | destruct (mode (w_up w2) =? MODE_OP_AUTO) ]; apply E; intros w Hw.
  - unfold eval_strict. rewrite Hw. reflexivity.
  - unfold eval_auto. rewrite Hw. reflexivity.
  - unfold eval_serial. rewrite Hw. reflexivity.
Qed.

(** X6.  Without a fix nothing is fed on the primary channel.  A TPV record
    without a fix (a mode below 2, or no time) takes down the flags of
    the serial stamp and of the pulse, raises the no-sync flag and
    counts one cycle without sync.  From then on a record of any other
    class leaves these three flags as they are, raises no flag of the
    secondary channel, hands nothing to the core on the primary channel
    and leaves the primary peer as it is: PPS and TOFF records are
    counted and not used until a TPV record tells of a fix. *)
Theorem no_fix_feeds_nothing (rtime : l_fp) (sys : syscalls) (w : world) :
  (tpv_without_fix w ->
   no_fix (process_tpv rtime w)
   /\ tc_nosync (w_up (process_tpv rtime w)) = incr (tc_nosync (w_up w))
   /\ u_ibt (w_up (process_tpv rtime w)) = u_ibt (w_up w)
   /\ w_trace (process_tpv rtime w) = w_trace w)
  /\ (no_fix w ->
      record_class w <> Some "TPV" ->
      no_fix (gpsd_parse rtime sys w)
      /\ samples_of Primary (w_trace (gpsd_parse rtime sys w))
         = samples_of Primary (w_trace w)
      /\ w_peer (gpsd_parse rtime sys w) = w_peer w
      /\ (fl_pps2 (w_up (gpsd_parse rtime sys w)) = true ->
          fl_pps2 (w_up w) = true)).
Proof.
  split.
  - unfold tpv_without_fix, process_tpv. cbv zeta. intros H.
    assert (E : (if i32 (fst (json_object_lookup_int_default
                                (json_parse (w_up w)) (buffer (w_up w)) 0
                                "mode" 0 0)) <? 2
                 then None
                 else json_object_lookup_string (json_parse (w_up w))
                        (buffer (w_up w)) 0 "time") = None).
    { destruct H as [H | H].
      - apply Z.ltb_lt in H. rewrite H. reflexivity.
      - rewrite H. destruct (_ <? 2); reflexivity. }
    rewrite E. unfold no_fix.
    destruct (negb (pf_toff (w_up w))); cbn; auto.
  - intros NF Cls. unfold record_class in Cls. unfold gpsd_parse.
    destruct (json_parse_record (json_parse (w_up w)) (buffer (w_up w))
                (buflen (w_up w))) as [[ok jctx] mem].
    set (w0 := upd_up (set_buffer mem) (upd_up (set_json_parse jctx) w)).
    assert (NF0 : no_fix w0) by exact NF.
    assert (Same : forall w', pending w' = pending w0 ->
                   samples_of Primary (w_trace w') = samples_of Primary (w_trace w) ->
                   w_peer w' = w_peer w ->
                   no_fix w'
                   /\ samples_of Primary (w_trace w') = samples_of Primary (w_trace w)
                   /\ w_peer w' = w_peer w
                   /\ (fl_pps2 (w_up w') = true -> fl_pps2 (w_up w) = true)).
    { intros w' Hp Hs Hw. unfold pending in Hp. injection Hp as A B C D.
      destruct NF0 as (N & I & P). unfold no_fix.
      rewrite A, B, C, D. auto. }
    destruct ok; cbn [negb]; cbv iota; [ | apply Same; reflexivity ].
    destruct (json_object_lookup_string jctx mem 0 "class") as [clsid |];
      [ | apply Same; reflexivity ].
    assert (Tail : forall wp,
               pending wp = pending w0 ->
               samples_of Primary (w_trace wp) = samples_of Primary (w_trace w) ->
               w_peer wp = w_peer w ->
               let w1 := upd_up (fun up => set_tc_recv (incr (tc_recv up)) up) wp in
               let w2 := match w_pps_peer w1 with
                         | Some _ => eval_pps_secondary w1
                         | None => w1
                         end in
               let w3 :=
                 if fl_pps (w_up w2) && fl_ibt (w_up w2) then
                   let diff := u64 (ibt_local (w_up w2) - pps_local (w_up w2)) in
                   if lfpsint diff >? 0 then upd_up (set_fl_pps false) w2
                   else if lfpsint diff <? 0 then upd_up (set_fl_ibt false) w2
                   else w2
                 else w2 in
               let w4 := if mode (w_up w3) =? MODE_OP_STRICT then eval_strict w3
                         else if mode (w_up w3) =? MODE_OP_AUTO then eval_auto w3
                         else eval_serial w3 in
               no_fix w4
               /\ samples_of Primary (w_trace w4) = samples_of Primary (w_trace w)
               /\ w_peer w4 = w_peer w
               /\ (fl_pps2 (w_up w4) = true -> fl_pps2 (w_up w) = true)).
    { intros wp Hp Hs Hw.
      destruct (Same wp Hp Hs Hw) as (NFp & _ & _ & Fp).
      pose proof (no_fix_tail wp NFp) as T. cbv zeta in T |- *.
      destruct T as (T1 & T2 & T3 & T4).
      split; [ exact T1 | split; [ congruence | split; [ congruence | ] ] ].
      intros H. apply Fp. apply T4. exact H. }
    destruct (streq "TPV" clsid) eqn:T1.
    { apply String.eqb_eq in T1. subst clsid. congruence. }
    destruct NF0 as (N0 & I0 & P0).
    destruct (streq "PPS" clsid);
      [ | destruct (streq "TOFF" clsid);
          [ | destruct (streq "VERSION" clsid);
              [ | destruct (streq "WATCH" clsid) ] ] ].
    + apply Tail; unfold process_pps; cbv zeta.
      * replace (fl_nosync (w_up (upd_up
                   (fun up => set_tc_pps_recv (incr (tc_pps_recv up)) up) w0)))
          with true by (symmetry; exact N0).
        reflexivity.
      * replace (fl_nosync (w_up (upd_up
                   (fun up => set_tc_pps_recv (incr (tc_pps_recv up)) up) w0)))
          with true by (symmetry; exact N0).
        reflexivity.
      * replace (fl_nosync (w_up (upd_up
                   (fun up => set_tc_pps_recv (incr (tc_pps_recv up)) up) w0)))
          with true by (symmetry; exact N0).
        reflexivity.
    + assert (E : process_toff rtime w0
                  = upd_up (set_pf_toff true)
                      (upd_up (fun up => set_tc_ibt_recv (incr (tc_ibt_recv up)) up)
                         w0)).
      { unfold process_toff. cbv zeta.
        replace (fl_nosync (w_up (upd_up (set_pf_toff true)
                   (upd_up (fun up => set_tc_ibt_recv (incr (tc_ibt_recv up)) up)
                      w0))))
          with true by (symmetry; exact N0).
        reflexivity. }
      rewrite E. apply Tail; reflexivity.
    + destruct (process_version_pending sys w0) as (A & B & C & D).
      apply Tail; [ exact A | rewrite process_version_samples; reflexivity
                  | rewrite D; reflexivity ].
    + destruct (process_watch_pending w0) as (A & B & C & D).
      apply Tail; [ exact A | rewrite process_watch_samples; reflexivity
                  | rewrite D; reflexivity ].
    + apply Same; reflexivity.
Qed.

(** ** Lines and chunks *)

Lemma gpsd_parse_eq (rtime : l_fp) (sys : syscalls) (w : world) :
  gpsd_parse rtime sys w
  = let up := w_up w in
    let '(ok, jctx, mem) :=
      json_parse_record (json_parse up) (buffer up) (buflen up) in
    let w := upd_up (set_buffer mem) (upd_up (set_json_parse jctx) w) in
    if negb ok then
      upd_up (fun up => set_tc_breply (incr (tc_breply up)) up) w
    else
      match json_object_lookup_string jctx mem 0 "class" with
      | None => upd_up (fun up => set_tc_breply (incr (tc_breply up)) up) w
      | Some clsid =>
          if streq "TPV" clsid then parse_tail (process_tpv rtime w)
          else if streq "PPS" clsid then parse_tail (process_pps rtime w)
          else if streq "TOFF" clsid then parse_tail (process_toff rtime w)
          else if streq "VERSION" clsid then parse_tail (process_version sys w)
          else if streq "WATCH" clsid then parse_tail (process_watch w)
          else w
      end.
Proof.
  unfold gpsd_parse, parse_tail.
  destruct (json_parse_record (json_parse (w_up w)) (buffer (w_up w))
              (buflen (w_up w))) as [[ok jctx] mem].
  cbv beta iota.
  destruct (negb ok); [ reflexivity | ].
  destruct (json_object_lookup_string jctx mem 0 "class") as [clsid |];
    [ | reflexivity ].
  (destruct (streq "TPV" clsid); [ cbv beta iota zeta; reflexivity | ]).
  (destruct (streq "PPS" clsid); [ cbv beta iota zeta; reflexivity | ]).
  (destruct (streq "TOFF" clsid); [ cbv beta iota zeta; reflexivity | ]).
  (destruct (streq "VERSION" clsid); [ cbv beta iota zeta; reflexivity | ]).
  (destruct (streq "WATCH" clsid); cbv beta iota zeta; reflexivity).
Qed.

(** ** The watchdog countdown is no concern of the parser *)
Lemma w_up_rearm (t : Z) (w : world) :
  w_up (rearm t w) = set_tickover t (w_up w).
Proof. reflexivity. Qed.

Lemma pp_of_rearm (t : Z) (ch : channel) (w : world) :
  pp_of ch (rearm t w) = pp_of ch w.
Proof. reflexivity. Qed.

Lemma w_pps_peer_rearm (t : Z) (w : world) :
  w_pps_peer (rearm t w) = w_pps_peer w.
Proof. reflexivity. Qed.

Lemma rearm_upd_up (t : Z) (g : gpsd_unit -> gpsd_unit) (w : world) :
  (forall u, g (set_tickover t u) = set_tickover t (g u)) ->
  upd_up g (rearm t w) = rearm t (upd_up g w).
Proof. intros H. unfold rearm, upd_up. cbn [w_up w_peer w_pps_peer w_gpsd_addr w_trace]. rewrite H. reflexivity. Qed.

Lemma rearm_upd_peer (t : Z) (ch : channel) (f : peerT -> peerT) (w : world) :
  upd_peer ch f (rearm t w) = rearm t (upd_peer ch f w).
Proof. destruct ch; reflexivity. Qed.

Lemma rearm_upd_pp (t : Z) (ch : channel) (f : clockprocT -> clockprocT)
    (w : world) :
  upd_pp ch f (rearm t w) = rearm t (upd_pp ch f w).
Proof. apply rearm_upd_peer. Qed.

Lemma rearm_emit (t : Z) (e : event) (w : world) :
  emit e (rearm t w) = rearm t (emit e w).
Proof. reflexivity. Qed.

Lemma rearm_msyslog (t : Z) (lvl : log_level) (msg : log_message) (w : world) :
  msyslog lvl msg (rearm t w) = rearm t (msyslog lvl msg w).
Proof. reflexivity. Qed.

Ltac unit_fields :=
  cbn [set_tickover upd_sock
       u_pps u_ibt u_prec u_fudge u_flags u_sock u_tally mode device
       proto_version logthrottle json_parse buflen buffer
       pps_local pps_stamp pps_recvt pps_stamp2 pps_recvt2 ppscount ppscount2
       ibt_local ibt_stamp ibt_recvt ibt_prec pps_prec
       pps_fudge pps_fudge2 ibt_fudge
       fl_nosync fl_ibt fl_pps fl_pps2 fl_rawibt fl_vers fl_watch
       pf_nsec pf_toff fdt addr tickover tickpres
       tc_recv tc_breply tc_nosync tc_ibt_recv tc_ibt_used tc_pps_recv
       tc_pps_used].

Ltac norm_rearm :=
  rewrite ?w_up_rearm, ?pp_of_rearm, ?w_pps_peer_rearm; unit_fields.

Lemma rearm_log_throttled (t : Z) (lvl : log_level) (msg : log_message)
    (w : world) :
  log_throttled lvl msg (rearm t w) = rearm t (log_throttled lvl msg w).
Proof.
  unfold log_throttled, syslogok. norm_rearm.
  destruct (negb _ || _ || _).
  - rewrite <- rearm_msyslog. f_equal.
  - reflexivity.
Qed.

Lemma rearm_add_clock_sample (t : Z) (ch : channel) (stamp recvt : l_fp)
    (w : world) :
  add_clock_sample ch stamp recvt (rearm t w)
  = rearm t (add_clock_sample ch stamp recvt w).
Proof.
  unfold add_clock_sample. cbv zeta.
  rewrite !rearm_upd_pp, !pp_of_rearm.
  break_if; rewrite ?rearm_upd_peer, ?rearm_emit, ?rearm_upd_pp, ?rearm_emit;
    reflexivity.
Qed.

Ltac rearm_out :=
  repeat first
    [ rewrite rearm_upd_up by (intro; reflexivity)
    | rewrite rearm_upd_pp
    | rewrite rearm_upd_peer
    | rewrite rearm_emit
    | rewrite rearm_msyslog
    | rewrite rearm_log_throttled
    | rewrite rearm_add_clock_sample ];
  norm_rearm.

Lemma rearm_eval_serial (t : Z) (w : world) :
  eval_serial (rearm t w) = rearm t (eval_serial w).
Proof.
  unfold eval_serial. cbv zeta. norm_rearm.
  destruct (fl_ibt (w_up w)); [ | reflexivity ].
  rearm_out. reflexivity.
Qed.

Lemma rearm_eval_strict (t : Z) (w : world) :
  eval_strict (rearm t w) = rearm t (eval_strict w).
Proof.
  unfold eval_strict. cbv zeta. norm_rearm.
  destruct (fl_ibt (w_up w) && fl_pps (w_up w)); [ | reflexivity ].
  rearm_out. reflexivity.
Qed.

Lemma rearm_eval_pps_secondary (t : Z) (w : world) :
  eval_pps_secondary (rearm t w) = rearm t (eval_pps_secondary w).
Proof.
  unfold eval_pps_secondary. cbv zeta. norm_rearm.
  destruct (fl_pps2 (w_up w)); [ | reflexivity ].
  rearm_out.
  match goal with
  | |- context [if ?c then _ else _] => destruct c
  end; rearm_out; reflexivity.
Qed.

Lemma rearm_eval_auto (t : Z) (w : world) :
  eval_auto (rearm t w) = rearm t (eval_auto w).
Proof.
  unfold eval_auto. cbv zeta. norm_rearm.
  destruct (negb (fl_ibt (w_up w))); [ reflexivity | ].
  destruct (fl_pps (w_up w)); rearm_out;
    (match goal with
     | |- context [if ?c then rearm _ _ else rearm _ _] => destruct c
     end);
    rearm_out;
    (match goal with
     | |- context [if ?c then eval_serial _ else _] => destruct c
     end);
    rewrite ?rearm_eval_serial, ?rearm_eval_strict; reflexivity.
Qed.

Ltac commute :=
  cbv zeta; rearm_out;
  repeat (first [ break_if | break_match ]; rearm_out);
  try reflexivity.

Lemma rearm_process_watch (t : Z) (w : world) :
  process_watch (rearm t w) = rearm t (process_watch w).
Proof. unfold process_watch. commute. Qed.

Lemma rearm_process_tpv (t : Z) (rtime : l_fp) (w : world) :
  process_tpv rtime (rearm t w) = rearm t (process_tpv rtime w).
Proof. unfold process_tpv. commute. Qed.

Lemma rearm_process_toff (t : Z) (rtime : l_fp) (w : world) :
  process_toff rtime (rearm t w) = rearm t (process_toff rtime w).
Proof. unfold process_toff. commute. Qed.

Lemma rearm_process_pps (t : Z) (rtime : l_fp) (w : world) :
  process_pps rtime (rearm t w) = rearm t (process_pps rtime w).
Proof. unfold process_pps. commute. Qed.

Lemma rearm_note_version (t : Z) (revision release : string) (pvhi pvlo : Z)
    (w : world) :
  note_version revision release pvhi pvlo (rearm t w)
  = rearm t (note_version revision release pvhi pvlo w).
Proof. unfold note_version. commute. Qed.

Lemma rearm_request_watch (t : Z) (sys : syscalls) (w : world) :
  request_watch sys (rearm t w) = rearm t (request_watch sys w).
Proof. unfold request_watch. commute. Qed.

Lemma rearm_process_version (t : Z) (sys : syscalls) (w : world) :
  process_version sys (rearm t w) = rearm t (process_version sys w).
Proof.
  rewrite !process_version_eq. cbv zeta. norm_rearm.
  do 2 break_match. break_if.
  - rewrite rearm_note_version, rearm_request_watch. reflexivity.
  - apply rearm_log_throttled.
Qed.

Ltac rearm_all :=
  repeat first
    [ progress rearm_out
    | rewrite rearm_process_tpv
    | rewrite rearm_process_pps
    | rewrite rearm_process_toff
    | rewrite rearm_process_version
    | rewrite rearm_process_watch
    | rewrite rearm_eval_pps_secondary
    | rewrite rearm_eval_strict
    | rewrite rearm_eval_auto
    | rewrite rearm_eval_serial ].

Lemma rearm_if (t : Z) (c : bool) (a b : world) :
  (if c then rearm t a else rearm t b) = rearm t (if c then a else b).
Proof. destruct c; reflexivity. Qed.

Lemma rearm_match (t : Z) (o : option peerT) (a b : world) :
  match o with Some _ => rearm t a | None => rearm t b end
  = rearm t match o with Some _ => a | None => b end.
Proof. destruct o; reflexivity. Qed.

Lemma rearm_parse_tail (t : Z) (w : world) :
  parse_tail (rearm t w) = rearm t (parse_tail w).
Proof.
  unfold parse_tail. cbv zeta.
  rewrite (rearm_upd_up t _ w) by (intro; reflexivity).
  rewrite w_pps_peer_rearm, rearm_eval_pps_secondary, rearm_match.
  norm_rearm.
  rewrite !(rearm_upd_up t (set_fl_pps false)) by (intro; reflexivity).
  rewrite !(rearm_upd_up t (set_fl_ibt false)) by (intro; reflexivity).
  rewrite !rearm_if. norm_rearm.
  rewrite rearm_eval_strict, rearm_eval_auto, rearm_eval_serial.
  rewrite !rearm_if. reflexivity.
Qed.

Lemma rearm_gpsd_parse (t : Z) (rtime : l_fp) (sys : syscalls) (w : world) :
  gpsd_parse rtime sys (rearm t w) = rearm t (gpsd_parse rtime sys w).
Proof.
  rewrite !gpsd_parse_eq. norm_rearm.
  destruct (json_parse_record (json_parse (w_up w)) (buffer (w_up w))
              (buflen (w_up w))) as [[ok jctx] mem].
  rearm_out.
  destruct ok; cbn [negb]; cbv iota; [ | rearm_out; reflexivity ].
  destruct (json_object_lookup_string jctx mem 0 "class") as [clsid |];
    [ | rearm_out; reflexivity ].
  repeat (break_if; [ | try reflexivity ]); rearm_all;
    rewrite rearm_parse_tail; reflexivity.
Qed.

(** ** A stream may be cut into chunks anywhere *)
Lemma gpsd_receive_loop_app (rtime : l_fp) (sys : syscalls) (a b : string)
    (edst : Z) :
  forall pdst w,
    gpsd_receive_loop rtime sys (a ++ b) edst pdst w
    = gpsd_receive_loop rtime sys b edst
        (fst (gpsd_receive_loop rtime sys a edst pdst w))
        (snd (gpsd_receive_loop rtime sys a edst pdst w)).
Proof.
  induction a as [| ch a IH]; intros pdst w; [ reflexivity | ].
  cbn [append gpsd_receive_loop].
  repeat break_if; apply IH.
Qed.

Lemma gpsd_receive_loop_grows (rtime : l_fp) (sys : syscalls) (psrc : string)
    (edst : Z) :
  forall pdst w,
    0 <= pdst ->
    0 <= fst (gpsd_receive_loop rtime sys psrc edst pdst w)
      <= pdst + Z.of_nat (String.length psrc).
Proof.
  induction psrc as [| ch r IH]; intros pdst w Hp;
    cbn [gpsd_receive_loop String.length fst]; [ lia | ].
  repeat break_if;
    match goal with
    | |- context [gpsd_receive_loop rtime sys r edst ?p ?x] =>
        specialize (IH p x)
    end; lia.
Qed.

(** The limit plays no part as long as it is not reached. *)
Lemma gpsd_receive_loop_limit (rtime : l_fp) (sys : syscalls) (psrc : string)
    (edst edst' : Z) :
  forall pdst w,
    0 <= pdst ->
    pdst + Z.of_nat (String.length psrc) <= edst ->
    pdst + Z.of_nat (String.length psrc) <= edst' ->
    gpsd_receive_loop rtime sys psrc edst pdst w
    = gpsd_receive_loop rtime sys psrc edst' pdst w.
Proof.
  induction psrc as [| ch r IH]; intros pdst w Hp He He'; [ reflexivity | ].
  cbn [gpsd_receive_loop]. cbn [String.length] in He, He'.
  destruct (Ascii.eqb ch "010"); [ apply IH; lia | ].
  destruct (Z.ltb_spec pdst edst); [ | lia ].
  destruct (Z.ltb_spec pdst edst'); [ | lia ].
  break_if; apply IH; lia.
Qed.

Lemma rearm_terminate_line (t pdst : Z) (w : world) :
  terminate_line pdst (rearm t w) = rearm t (terminate_line pdst w).
Proof.
  unfold terminate_line. cbv zeta.
  rewrite w_up_rearm.
  change (buffer (set_tickover t (w_up w))) with (buffer (w_up w)).
  rewrite !rearm_upd_up by (intro; reflexivity). reflexivity.
Qed.

Lemma rearm_gpsd_receive_loop (t : Z) (rtime : l_fp) (sys : syscalls)
    (psrc : string) (edst : Z) :
  forall pdst w,
    gpsd_receive_loop rtime sys psrc edst pdst (rearm t w)
    = (fst (gpsd_receive_loop rtime sys psrc edst pdst w),
       rearm t (snd (gpsd_receive_loop rtime sys psrc edst pdst w))).
Proof.
  induction psrc as [| ch r IH]; intros pdst w; [ reflexivity | ].
  cbn [gpsd_receive_loop].
  destruct (Ascii.eqb ch "010").
  - rewrite rearm_terminate_line, rearm_gpsd_parse. apply IH.
  - repeat break_if; try apply IH.
    rewrite rearm_upd_up by (intro; reflexivity). apply IH.
Qed.

(** The saved length is written before it is read. *)
Lemma gpsd_receive_loop_buflen (n : Z) (rtime : l_fp) (sys : syscalls)
    (psrc : string) (edst : Z) :
  forall pdst w,
    fst (gpsd_receive_loop rtime sys psrc edst pdst (upd_up (set_buflen n) w))
    = fst (gpsd_receive_loop rtime sys psrc edst pdst w)
    /\ forall m,
         upd_up (set_buflen m)
           (snd (gpsd_receive_loop rtime sys psrc edst pdst
                   (upd_up (set_buflen n) w)))
         = upd_up (set_buflen m)
             (snd (gpsd_receive_loop rtime sys psrc edst pdst w)).
Proof.
  induction psrc as [| ch r IH]; intros pdst w;
    [ split; [ reflexivity | intros m; reflexivity ] | ].
  cbn [gpsd_receive_loop].
  destruct (Ascii.eqb ch "010").
  - replace (terminate_line pdst (upd_up (set_buflen n) w))
      with (terminate_line pdst w) by reflexivity.
    split; [ reflexivity | intros m; reflexivity ].
  - repeat break_if; try apply IH.
    replace (upd_up (fun up => set_buffer (store (buffer up) pdst ch) up)
               (upd_up (set_buflen n) w))
      with (upd_up (set_buflen n)
              (upd_up (fun up => set_buffer (store (buffer up) pdst ch) up) w))
      by reflexivity.
    apply IH.
Qed.

Lemma gpsd_receive_eq (recv_buffer : string) (rtime : l_fp) (sys : syscalls)
    (w : world) :
  gpsd_receive recv_buffer rtime sys w
  = let r := gpsd_receive_loop rtime sys recv_buffer
               (buflen (w_up w) + MAX_PDU_LEN - 1) (buflen (w_up w)) w in
    rearm TICKOVER_LOW (upd_up (set_buflen (i32 (fst r))) (snd r)).
Proof.
  unfold gpsd_receive. cbv zeta.
  destruct (gpsd_receive_loop rtime sys recv_buffer
              (buflen (w_up w) + MAX_PDU_LEN - 1) (buflen (w_up w)) w).
  reflexivity.
Qed.

(** X8.  Two chunks with the same receive time that together are no longer
    than the buffer can as well come as one: the driver ends in the same
    state, with the same trace of samples, reports, log lines and
    writes, whether the text arrives in one call of [gpsd_receive] or
    cut in two at any place. *)
Theorem gpsd_receive_chunks_compose (a b : string) (rtime : l_fp)
    (sys : syscalls) (w : world) :
  0 <= buflen (w_up w) < 2 ^ 30 ->
  Z.of_nat (String.length (a ++ b)) <= MAX_PDU_LEN - 1 ->
  gpsd_receive (a ++ b) rtime sys w
  = gpsd_receive b rtime sys (gpsd_receive a rtime sys w).
Proof.
  intros Hb Hl.
  assert (La : Z.of_nat (String.length (a ++ b))
               = Z.of_nat (String.length a) + Z.of_nat (String.length b)).
  { clear. induction a as [| c a IH]; cbn [append String.length]; lia. }
  rewrite La in Hl. unfold MAX_PDU_LEN in Hl.
  rewrite !gpsd_receive_eq. cbv zeta.
  set (B0 := buflen (w_up w)) in *.
  set (e0 := B0 + MAX_PDU_LEN - 1).
  rewrite gpsd_receive_loop_app.
  pose proof (gpsd_receive_loop_grows rtime sys a e0 B0 w (proj1 Hb)) as G.
  destruct (gpsd_receive_loop rtime sys a e0 B0 w) as [p1 w1].
  cbn [fst snd] in *.
  assert (I1 : i32 p1 = p1) by (apply i32_small; lia).
  change (buflen (w_up (rearm TICKOVER_LOW
                          (upd_up (set_buflen (i32 p1)) w1))))
    with (i32 p1).
  rewrite I1.
  rewrite rearm_gpsd_receive_loop. cbn [fst snd].
  destruct (gpsd_receive_loop_buflen p1 rtime sys b (p1 + MAX_PDU_LEN - 1) p1 w1)
    as [F S].
  rewrite F.
  rewrite (gpsd_receive_loop_limit rtime sys b (p1 + MAX_PDU_LEN - 1) e0 p1 w1)
    in * by (subst e0; unfold MAX_PDU_LEN; lia).
  set (P := fst (gpsd_receive_loop rtime sys b e0 p1 w1)) in *.
  specialize (S (i32 P)).
  replace (rearm TICKOVER_LOW
             (upd_up (set_buflen (i32 P))
                (rearm TICKOVER_LOW
                   (snd (gpsd_receive_loop rtime sys b (p1 + MAX_PDU_LEN - 1)
                           p1 (upd_up (set_buflen p1) w1))))))
    with (rearm TICKOVER_LOW
            (upd_up (set_buflen (i32 P))
               (snd (gpsd_receive_loop rtime sys b (p1 + MAX_PDU_LEN - 1)
                       p1 (upd_up (set_buflen p1) w1)))))
    by reflexivity.
  rewrite S. reflexivity.
Qed.

Lemma admin_kept_terminate_line (pdst : Z) (w : world) :
  admin_kept w (terminate_line pdst w).
Proof. unfold terminate_line, admin_kept. cbn. auto. Qed.

Lemma admin_kept_gpsd_receive_loop (rtime : l_fp) (sys : syscalls)
    (psrc : string) (edst : Z) :
  forall pdst w,
    admin_kept w (snd (gpsd_receive_loop rtime sys psrc edst pdst w)).
Proof.
  induction psrc as [| ch r IH]; intros pdst w; [ apply admin_kept_refl | ].
  cbn [gpsd_receive_loop].
  destruct (Ascii.eqb ch "010").
  - eapply admin_kept_trans; [ | apply IH ].
    eapply admin_kept_trans;
      [ apply admin_kept_terminate_line | apply admin_kept_gpsd_parse ].
  - repeat break_if; try apply IH.
    eapply admin_kept_trans; [ | apply IH ].
    unfold admin_kept. cbn. auto.
Qed.


(** ** The connection over time *)

(** ** The watchdog *)
Lemma timer_run_app (a b : list syscalls) :
  forall w,
    timer_run (a ++ b) w
    = match timer_run a w with
      | Some w1 => timer_run b w1
      | None => None
      end.
Proof.
  induction a as [| s a IH]; intros w; [ reflexivity | ].
  cbn [timer_run app]. destruct (timer_primary s w); [ apply IH | reflexivity ].
Qed.

Lemma timer_countdowns_connected (w : world) :
  w_peer (timer_countdowns w) = w_peer w
  /\ w_pps_peer (timer_countdowns w) = w_pps_peer w
  /\ w_trace (timer_countdowns w) = w_trace w
  /\ w_gpsd_addr (timer_countdowns w) = w_gpsd_addr w
  /\ tickover (w_up (timer_countdowns w)) = countdown (tickover (w_up w))
  /\ tickpres (w_up (timer_countdowns w)) = tickpres (w_up w)
  /\ fdt (w_up (timer_countdowns w)) = fdt (w_up w)
  /\ addr (w_up (timer_countdowns w)) = addr (w_up w).
Proof. unfold timer_countdowns. cbn. split_all; reflexivity. Qed.

(** One second of a unit that holds a data connection. *)
Lemma timer_primary_connected (sys : syscalls) (fd : Z) (w : world) :
  io_fd (pp_of Primary w) = fd ->
  fd <> -1 ->
  1 <= tickover (w_up w) < 2 ^ 32 ->
  timer_primary sys w
  = Some (if tickover (w_up w) - 1 =? 4
          then emit (EvWrite fd s_req_version) (timer_countdowns w)
          else if tickover (w_up w) - 1 =? 0
               then gpsd_stop_socket (timer_countdowns w)
               else timer_countdowns w).
Proof.
  intros Hfd Hne Ht.
  destruct (timer_countdowns_connected w) as (P & _ & _ & _ & T & _).
  rewrite countdown_positive in T by lia.
  unfold timer_primary. cbv zeta.
  assert (F : io_fd (pp_of Primary (timer_countdowns w)) = fd).
  { unfold pp_of, peer_of in *. cbn [w_peer] in *. rewrite P. exact Hfd. }
  rewrite F, T.
  destruct (Z.eqb_spec (-1) fd) as [E | _]; [ congruence | ].
  cbn [negb andb]. repeat break_if; reflexivity.
Qed.

Lemma gpsd_stop_socket_connected (fd : Z) (w : world) :
  io_fd (pp_of Primary w) = fd ->
  fd <> -1 ->
  let w' := gpsd_stop_socket w in
  io_fd (pp_of Primary w') = -1
  /\ w_trace w'
     = (w_trace w
        ++ (if log_open w then [EvLog LOG_INFO (MsgClosingSocket fd)] else [])
        ++ [EvIoCloseClock fd])%list
  /\ tickover (w_up w') = tickpres (w_up w)
  /\ fdt (w_up w') = fdt (w_up w)
  /\ fl_vers (w_up w') = false
  /\ fl_ibt (w_up w') = false
  /\ fl_pps (w_up w') = false
  /\ fl_watch (w_up w') = false.
Proof.
  intros Hfd Hne. cbv zeta. unfold gpsd_stop_socket. cbv zeta.
  rewrite Hfd.
  destruct (Z.eqb_spec (-1) fd) as [E | _]; [ congruence | ].
  cbn [negb]. cbv iota.
  destruct (log_throttled_effect LOG_INFO (MsgClosingSocket fd) w)
    as (L1 & L2 & L3 & L4 & L5).
  remember (log_throttled LOG_INFO (MsgClosingSocket fd) w) as wl.
  cbn. rewrite L1, <- app_assoc.
  change (tickpres (w_up wl)) with (tickpres (u_sock (w_up wl))).
  change (fdt (w_up wl)) with (fdt (u_sock (w_up wl))).
  rewrite L3. split_all; reflexivity.
Qed.

(** The seconds of a silent connection before the last one. *)
Lemma timer_run_silent (answers : list syscalls) (fd : Z) (w : world) :
  io_fd (pp_of Primary w) = fd ->
  fd <> -1 ->
  tickover (w_up w) = TICKOVER_LOW ->
  (List.length answers < 10)%nat ->
  exists wk,
    timer_run answers w = Some wk
    /\ io_fd (pp_of Primary wk) = fd
    /\ tickover (w_up wk) = TICKOVER_LOW - Z.of_nat (List.length answers)
    /\ tickpres (w_up wk) = tickpres (w_up w)
    /\ w_trace wk
       = (w_trace w
          ++ (if (6 <=? List.length answers)%nat
              then [EvWrite fd s_req_version] else []))%list.
Proof.
  intros Hfd Hne Ht. unfold TICKOVER_LOW in *.
  induction answers as [| sys answers IH] using rev_ind; intros Hl.
  - exists w. cbn. rewrite app_nil_r. split_all; auto.
  - rewrite length_app in *. cbn [List.length] in *.
    destruct IH as (wk & R & F & T & P & Tr); [ lia | ].
    rewrite timer_run_app, R. cbn [timer_run].
    rewrite (timer_primary_connected sys fd wk F Hne) by lia.
    destruct (timer_countdowns_connected wk)
      as (C1 & C2 & C3 & C4 & C5 & C6 & C7 & C8).
    rewrite countdown_positive in C5 by lia.
    assert (Fc : io_fd (pp_of Primary (timer_countdowns wk)) = fd).
    { unfold pp_of, peer_of in *. cbn [w_peer] in *. rewrite C1. exact F. }
    eexists. split; [ reflexivity | ].
    rewrite T.
    destruct (Z.eqb_spec (10 - Z.of_nat (List.length answers) - 1) 4) as [E4 | N4].
    + assert (L5 : List.length answers = 5%nat) by lia.
      change (io_fd (pp_of Primary (emit (EvWrite fd s_req_version)
                                      (timer_countdowns wk))))
        with (io_fd (pp_of Primary (timer_countdowns wk))).
      change (w_up (emit (EvWrite fd s_req_version) (timer_countdowns wk)))
        with (w_up (timer_countdowns wk)).
      change (w_trace (emit (EvWrite fd s_req_version) (timer_countdowns wk)))
        with (w_trace (timer_countdowns wk) ++ [EvWrite fd s_req_version])%list.
      rewrite Fc, C3, C5, C6, Tr, T, P, L5. cbn. rewrite app_nil_r.
      split_all; auto.
    + destruct (Z.eqb_spec (10 - Z.of_nat (List.length answers) - 1) 0);
        [ lia | ].
      rewrite Fc, C3, C5, C6, Tr, T, P.
      split; [ reflexivity | ]. split; [ lia | ]. split; [ reflexivity | ].
      f_equal.
      destruct (Nat.leb_spec 6 (List.length answers));
        destruct (Nat.leb_spec 6 (List.length answers + 1)); try reflexivity; lia.
Qed.

(** X10.  A connection that stays silent is probed and then closed.  From the
    moment data came in, the timer does nothing for five seconds, writes
    the version request to the data connection in the sixth, and in the
    tenth takes the connection down: the clock is removed from the I/O
    engine, the descriptor is forgotten, the flags of the version, of
    the watch and of the pending stamps are cleared and the countdown is
    loaded with the preset. *)
Theorem silent_connection_is_probed_and_closed (answers : list syscalls)
    (fd : Z) (w : world) :
  io_fd (pp_of Primary w) = fd ->
  fd <> -1 ->
  tickover (w_up w) = TICKOVER_LOW ->
  List.length answers = 10%nat ->
  (forall k, (k < 10)%nat ->
     exists wk,
       timer_run (firstn k answers) w = Some wk
       /\ io_fd (pp_of Primary wk) = fd
       /\ w_trace wk
          = (w_trace w
             ++ (if (6 <=? k)%nat then [EvWrite fd s_req_version] else []))%list)
  /\ exists w' log,
       timer_run answers w = Some w'
       /\ io_fd (pp_of Primary w') = -1
       /\ w_trace w'
          = (w_trace w ++ [EvWrite fd s_req_version] ++ log
             ++ [EvIoCloseClock fd])%list
       /\ (log = [] \/ log = [EvLog LOG_INFO (MsgClosingSocket fd)])
       /\ tickover (w_up w') = tickpres (w_up w)
       /\ fl_vers (w_up w') = false
       /\ fl_ibt (w_up w') = false
       /\ fl_pps (w_up w') = false
       /\ fl_watch (w_up w') = false.
Proof.
  intros Hfd Hne Ht Hl. split.
  - intros k Hk.
    destruct (timer_run_silent (firstn k answers) fd w Hfd Hne Ht)
      as (wk & R & F & _ & _ & Tr).
    { rewrite length_firstn. lia. }
    exists wk. rewrite length_firstn in Tr.
    replace (Nat.min k (List.length answers)) with k in Tr by lia.
    auto.
  - destruct (timer_run_silent (firstn 9 answers) fd w Hfd Hne Ht)
      as (wk & R & F & T & P & Tr).
    { rewrite length_firstn. lia. }
    rewrite length_firstn in T, Tr.
    replace (Nat.min 9 (List.length answers)) with 9%nat in * by lia.
    rewrite <- (firstn_skipn 9 answers), timer_run_app, R.
    assert (S1 : exists sys, skipn 9 answers = [sys]).
    { do 10 (destruct answers as [| ? answers]; [ discriminate | ]).
      destruct answers; [ | discriminate ]. cbn. eauto. }
    destruct S1 as (sys & ->). cbn [timer_run].
    unfold TICKOVER_LOW in T. cbn in T.
    rewrite (timer_primary_connected sys fd wk F Hne) by lia.
    rewrite T. cbn [Z.sub Z.eqb Z.add Z.opp Z.pos_sub Pos.pred_double].
    change (1 - 1 =? 4) with false. change (1 - 1 =? 0) with true. cbv iota.
    destruct (timer_countdowns_connected wk)
      as (C1 & C2 & C3 & C4 & C5 & C6 & C7 & C8).
    assert (Fc : io_fd (pp_of Primary (timer_countdowns wk)) = fd).
    { unfold pp_of, peer_of in *. cbn [w_peer] in *. rewrite C1. exact F. }
    destruct (gpsd_stop_socket_connected fd (timer_countdowns wk) Fc Hne)
      as (G1 & G2 & G3 & G4 & G5 & G6 & G7 & G8).
    exists (gpsd_stop_socket (timer_countdowns wk)).
    exists (if log_open (timer_countdowns wk)
            then [EvLog LOG_INFO (MsgClosingSocket fd)] else []).
    split; [ reflexivity | ]. split; [ exact G1 | ].
    split; [ rewrite G2, C3, Tr; cbn; rewrite <- !app_assoc; reflexivity | ].
    split; [ destruct (log_open (timer_countdowns wk)); auto | ].
    split; [ rewrite G3, C6, P; reflexivity | ].
    auto.
Qed.

Lemma preset_same_refl (w : world) : preset_same w w.
Proof. split; reflexivity. Qed.

Lemma preset_same_log (lvl : log_level) (msg : log_message) (w0 w : world) :
  preset_same w0 w -> preset_same w0 (log_throttled lvl msg w).
Proof.
  intros [A B].
  destruct (log_throttled_sock lvl msg w) as (S & _ & _ & G).
  split; [ congruence | ].
  change (tickpres (w_up (log_throttled lvl msg w)))
    with (tickpres (u_sock (w_up (log_throttled lvl msg w)))).
  rewrite S. exact B.
Qed.

Lemma preset_same_moved (w w' : world) : preset_same w w' -> preset_moved w w'.
Proof. intros [A B]. split; auto. Qed.

Lemma init_no_socket_outcome (w0 w : world) :
  preset_same w0 w ->
  one_socket (gpsd_init_socket_no_socket w)
  /\ preset_moved w0 (gpsd_init_socket_no_socket w).
Proof.
  intros [A B].
  destruct (gpsd_init_socket_no_socket_presets w) as (_ & P & F & I & G & _).
  split; [ left; exact I | ].
  split; [ congruence | right; rewrite P, B; reflexivity ].
Qed.

Lemma test_no_socket_outcome (w0 w : world) :
  preset_same w0 w ->
  fdt (w_up (gpsd_test_socket_no_socket w)) = -1
  /\ io_fd (pp_of Primary (gpsd_test_socket_no_socket w))
     = io_fd (pp_of Primary w)
  /\ preset_moved w0 (gpsd_test_socket_no_socket w).
Proof.
  intros [A B].
  destruct (gpsd_test_socket_no_socket_presets w) as (_ & P).
  unfold preset_moved. rewrite P, B.
  unfold gpsd_test_socket_no_socket.
  destruct (negb (-1 =? fdt (w_up w))); cbn; split_all; auto.
Qed.

Lemma gpsd_init_socket_outcome (sys : syscalls) (w : world) :
  addr (w_up w) <> [] \/ w_gpsd_addr w <> [] ->
  exists w',
    gpsd_init_socket sys w = Some w'
    /\ (io_fd (pp_of Primary w) = -1 -> one_socket w')
    /\ preset_moved w w'.
Proof.
  intros Ha. unfold gpsd_init_socket.
  set (w1 := match addr (w_up w) with
             | [] => upd_up (set_addr (w_gpsd_addr w)) w
             | _ :: _ => w
             end).
  assert (A1 : preset_same w w1
               /\ io_fd (pp_of Primary w1) = io_fd (pp_of Primary w)).
  { subst w1. destruct (addr (w_up w)); split; auto using preset_same_refl.
    split; reflexivity. }
  assert (N1 : addr (w_up w1) <> []).
  { subst w1. destruct (addr (w_up w)) eqn:E.
    - cbn. destruct Ha as [Ha | Ha]; [ congruence | exact Ha ].
    - rewrite E. discriminate. }
  clearbody w1. destruct A1 as [A1 F1].
  destruct (addr (w_up w1)) as [| ai ai_next]; [ congruence | ].
  set (w2 := upd_up (set_fdt (sys_socket sys)) (upd_up (set_addr ai_next) w1)).
  assert (A2 : preset_same w w2).
  { destruct A1 as [X Y]. split; [ exact X | exact Y ]. }
  assert (F2 : fdt (w_up w2) = sys_socket sys) by reflexivity.
  assert (I2 : io_fd (pp_of Primary w2) = io_fd (pp_of Primary w)) by exact F1.
  clearbody w2. rewrite F2.
  assert (Fail : forall wm,
             preset_same w wm ->
             exists w',
               Some (gpsd_init_socket_no_socket wm) = Some w'
               /\ (io_fd (pp_of Primary w) = -1 -> one_socket w')
               /\ preset_moved w w').
  { intros wm Hm. eexists. split; [ reflexivity | ].
    destruct (init_no_socket_outcome w wm Hm) as [O M]. auto. }
  destruct (Z.eqb_spec (-1) (sys_socket sys)) as [S | S].
  { apply Fail, preset_same_log, A2. }
  destruct (Z.eqb_spec (-1) (sys_fcntl sys)) as [Fc | Fc].
  { apply Fail, preset_same_log, A2. }
  set (w3 := if -1 =? sys_setsockopt sys
             then log_throttled LOG_INFO MsgCannotDisableNagle w2 else w2).
  assert (A3 : preset_same w w3
               /\ io_fd (pp_of Primary w3) = io_fd (pp_of Primary w)
               /\ fdt (w_up w3) = sys_socket sys).
  { subst w3. destruct (-1 =? sys_setsockopt sys); [ | auto ].
    destruct (log_throttled_sock LOG_INFO MsgCannotDisableNagle w2)
      as (X & Y & _).
    split; [ apply preset_same_log, A2 | ].
    unfold pp_of, peer_of in *. cbn [w_peer] in *. rewrite Y.
    split; [ exact I2 | ].
    change (fdt (w_up (log_throttled LOG_INFO MsgCannotDisableNagle w2)))
      with (fdt (u_sock (w_up (log_throttled LOG_INFO MsgCannotDisableNagle w2)))).
    rewrite X. exact F2. }
  clearbody w3. destruct A3 as (A3 & I3 & F3).
  destruct (Z.eqb_spec (-1) (sys_connect sys)) as [Co | Co].
  - destruct (Z.eqb_spec (sys_errno sys) EINPROGRESS) as [Ei | Ei].
    + eexists. split; [ reflexivity | ].
      split; [ intros H; left; congruence | apply preset_same_moved, A3 ].
    + apply Fail, preset_same_log, A3.
  - cbv zeta.
    set (w4 := upd_up (set_fdt (-1))
                 (upd_pp Primary (set_io_fd (fdt (w_up w3))) w3)).
    assert (A4 : preset_same w w4).
    { destruct A3 as [X Y]. split; [ exact X | exact Y ]. }
    assert (F4 : fdt (w_up w4) = -1) by reflexivity.
    clearbody w4.
    destruct (Z.eqb_spec 0 (sys_io_addclock sys)) as [Io | Io].
    + apply Fail, preset_same_log, A4.
    + eexists. split; [ reflexivity | ].
      split; [ intros _; right; exact F4 | apply preset_same_moved, A4 ].
Qed.

Lemma gpsd_test_socket_outcome (sys : syscalls) (w : world) :
  (io_fd (pp_of Primary w) = -1 -> one_socket (gpsd_test_socket sys w))
  /\ preset_moved w (gpsd_test_socket sys w).
Proof.
  unfold gpsd_test_socket.
  destruct ((0 =? sys_pselect sys) || negb (sys_fd_isset sys)).
  { split; [ intros H; left; exact H
           | apply preset_same_moved, preset_same_refl ]. }
  cbv zeta.
  set (w1 := upd_up (set_tickover TICKOVER_LOW) w).
  assert (A1 : preset_same w w1) by (split; reflexivity).
  clearbody w1.
  destruct ((-1 =? sys_getsockopt sys) || negb (0 =? sys_so_error sys)).
  - match goal with
    | |- context [log_throttled ?l ?m ?x] =>
        pose proof (preset_same_log l m w x A1) as A2;
        destruct (test_no_socket_outcome w (log_throttled l m x) A2)
          as (T1 & T2 & T3)
    end.
    split; [ intros _; right; exact T1 | exact T3 ].
  - set (w2 := upd_up (set_fdt (-1))
                 (upd_pp Primary (set_io_fd (fdt (w_up w1))) w1)).
    assert (A2 : preset_same w w2).
    { destruct A1 as [X Y]. split; [ exact X | exact Y ]. }
    assert (F2 : fdt (w_up w2) = -1) by reflexivity.
    clearbody w2.
    destruct (0 =? sys_io_addclock sys).
    + pose proof (preset_same_log LOG_ERR MsgCannotRegister w w2 A2) as A3.
      destruct (test_no_socket_outcome w _ A3) as (T1 & T2 & T3).
      split; [ intros _; right; exact T1 | exact T3 ].
    + split; [ intros _; right; exact F2 | apply preset_same_moved, A2 ].
Qed.

Lemma timer_primary_outcome (sys : syscalls) (w : world) :
  exists w',
    timer_primary sys w = Some w'
    /\ (one_socket w -> one_socket w')
    /\ preset_moved w w'.
Proof.
  destruct (timer_countdowns_connected w)
    as (C1 & C2 & C3 & C4 & C5 & C6 & C7 & C8).
  assert (Hc : one_socket w -> one_socket (timer_countdowns w)).
  { unfold one_socket, pp_of, peer_of in *. cbn [w_peer] in *.
    rewrite C1, C7. trivial. }
  assert (Pc : preset_same w (timer_countdowns w)) by (split; assumption).
  unfold timer_primary. cbv zeta.
  remember (timer_countdowns w) as wc.
  assert (Stay : exists w', Some wc = Some w'
                 /\ (one_socket w -> one_socket w') /\ preset_moved w w').
  { exists wc. split; [ reflexivity | ].
    split; [ exact Hc | apply preset_same_moved, Pc ]. }
  assert (Test : io_fd (pp_of Primary wc) = -1 ->
                 exists w', Some (gpsd_test_socket sys wc) = Some w'
                 /\ (one_socket w -> one_socket w') /\ preset_moved w w').
  { intros F. destruct (gpsd_test_socket_outcome sys wc) as [A [B D]].
    eexists. split; [ reflexivity | ]. split; [ auto | ].
    destruct Pc as [X Y]. split; [ congruence | rewrite <- Y; exact D ]. }
  destruct (tickover (w_up wc) =? 4).
  - destruct (Z.eqb_spec (-1) (io_fd (pp_of Primary wc))) as [F | F];
      cbn [negb]; cbv iota.
    + destruct (negb (-1 =? fdt (w_up wc))); [ apply Test; auto | exact Stay ].
    + eexists. split; [ reflexivity | ].
      split; [ exact Hc | apply preset_same_moved, Pc ].
  - destruct (tickover (w_up wc) =? 0).
    + destruct (Z.eqb_spec (-1) (io_fd (pp_of Primary wc))) as [F | F];
        cbn [negb]; cbv iota.
      * destruct (Z.eqb_spec (-1) (fdt (w_up wc))) as [G | G];
          cbn [negb]; cbv iota; [ | apply Test; auto ].
        destruct (w_gpsd_addr wc) eqn:E; [ exact Stay | ].
        destruct (gpsd_init_socket_outcome sys wc) as (w' & R & A & [B D]);
          [ right; rewrite E; discriminate | ].
        exists w'. split; [ exact R | ]. split; [ auto | ].
        destruct Pc as [X Y]. split; [ congruence | rewrite <- Y; exact D ].
      * eexists. split; [ reflexivity | ].
        destruct (gpsd_stop_socket_presets wc) as [_ P].
        split.
        -- intros _. left. unfold gpsd_stop_socket. cbv zeta.
           destruct (Z.eqb_spec (-1) (io_fd (pp_of Primary wc)));
             [ congruence | ].
           reflexivity.
        -- destruct Pc as [X Y]. split.
           ++ rewrite <- X. unfold gpsd_stop_socket. cbv zeta.
              destruct (negb (-1 =? io_fd (pp_of Primary wc)));
                [ | reflexivity ].
              cbn. apply w_gpsd_addr_log_throttled.
           ++ right. rewrite P, Y. reflexivity.
    + destruct (Z.eqb_spec (-1) (io_fd (pp_of Primary wc))) as [F | F];
        cbn [andb]; [ | exact Stay ].
      destruct (negb (-1 =? fdt (w_up wc))); [ apply Test; auto | exact Stay ].
Qed.

Lemma preset_step_range (p : Z) :
  TICKOVER_LOW <= p <= TICKOVER_HIGH ->
  TICKOVER_LOW <= min (u32 (p + 5)) TICKOVER_HIGH <= TICKOVER_HIGH
  /\ p <= min (u32 (p + 5)) TICKOVER_HIGH.
Proof.
  unfold TICKOVER_LOW. intros H.
  rewrite preset_step by lia. unfold TICKOVER_HIGH in *. lia.
Qed.

Lemma gpsd_receive_preset (recv_buffer : string) (rtime : l_fp)
    (sys : syscalls) (w : world) :
  preset_same w (gpsd_receive recv_buffer rtime sys w)
  /\ fdt (w_up (gpsd_receive recv_buffer rtime sys w)) = fdt (w_up w).
Proof.
  rewrite gpsd_receive_eq. cbv zeta.
  pose proof (admin_kept_gpsd_receive_loop rtime sys recv_buffer
                (buflen (w_up w) + MAX_PDU_LEN - 1) (buflen (w_up w)) w)
    as (A & B & C & D & E).
  destruct (gpsd_receive_loop rtime sys recv_buffer
              (buflen (w_up w) + MAX_PDU_LEN - 1) (buflen (w_up w)) w)
    as [p w1].
  cbn [fst snd] in *. unfold preset_same, rearm. cbn.
  change (tickpres (w_up w1)) with (tickpres (u_sock (w_up w1))).
  change (fdt (w_up w1)) with (fdt (u_sock (w_up w1))).
  rewrite A, E. auto.
Qed.

(** X11.  However seconds and chunks follow one another, the driver keeps
    going, the preset of the countdown stays between TICKOVER_LOW and
    TICKOVER_HIGH and never gets smaller, and the address list is left
    alone.  Over a stretch of seconds without input the driver never
    holds a data connection and a connecting socket at once. *)
Theorem driver_keeps_preset_and_sockets (w : world) :
  preset_in_range w ->
  (forall steps,
     exists w',
       driver_run steps w = Some w'
       /\ preset_in_range w'
       /\ tickpres (w_up w) <= tickpres (w_up w')
       /\ w_gpsd_addr w' = w_gpsd_addr w)
  /\ (one_socket w ->
      forall answers,
        exists w', timer_run answers w = Some w' /\ one_socket w').
Proof.
  intros Hr. split.
  - intros steps. revert w Hr.
    induction steps as [| st steps IH]; intros w Hr.
    + exists w. cbn. split_all; auto; try apply Hr. lia.
    + assert (Next : forall w1,
                 preset_moved w w1 ->
                 exists w',
                   driver_run steps w1 = Some w'
                   /\ preset_in_range w'
                   /\ tickpres (w_up w) <= tickpres (w_up w')
                   /\ w_gpsd_addr w' = w_gpsd_addr w).
      { intros w1 [G M].
        destruct (preset_step_range _ Hr) as [R1 R2].
        assert (Hr1 : preset_in_range w1 /\ tickpres (w_up w) <= tickpres (w_up w1)).
        { unfold preset_in_range in *. destruct M as [-> | ->]; split; auto; lia. }
        destruct (IH w1 (proj1 Hr1)) as (w' & R & P & L & A).
        exists w'. split; [ exact R | ]. split; [ exact P | ].
        split; [ lia | congruence ]. }
      destruct st as [sys | recv_buffer rtime sys]; cbn [driver_run].
      * destruct (timer_primary_outcome sys w) as (w1 & -> & _ & M).
        apply Next, M.
      * apply Next, preset_same_moved, gpsd_receive_preset.
  - intros H1 answers. revert w Hr H1.
    induction answers as [| sys answers IH]; intros w Hr H1.
    + exists w. split; [ reflexivity | exact H1 ].
    + cbn [timer_run].
      destruct (timer_primary_outcome sys w) as (w1 & -> & O & [G M]).
      destruct (preset_step_range _ Hr) as [R1 R2].
      apply IH; [ | auto ].
      unfold preset_in_range in *. destruct M as [-> | ->]; auto.
Qed.

(** ** Poll, control, start and shutdown *)

Context {core : Core}.

Lemma land_3_small (m : Z) : 0 <= m <= 3 -> Z.land m 3 = m.
Proof.
  intros H.
  assert (C : m = 0 \/ m = 1 \/ m = 2 \/ m = 3) by lia.
  destruct C as [-> | [-> | [-> | ->]]]; reflexivity.
Qed.

Lemma MODE_OP_MODE_range (x : Z) : 0 <= MODE_OP_MODE x <= 3.
Proof.
  unfold MODE_OP_MODE, MODE_OP_MASK.
  change (Z.land x 3) with (Z.land x (Z.ones 2)).
  rewrite Z.land_ones by lia.
  change (2 ^ 2) with 4. pose proof (Z.mod_pos_bound x 4). lia.
Qed.

Lemma land_lxor_distr (a b c : Z) :
  Z.land (Z.lxor a b) c = Z.lxor (Z.land a c) (Z.land b c).
Proof.
  apply Z.bits_inj'. intros n Hn.
  rewrite Z.land_spec, !Z.lxor_spec, !Z.land_spec.
  destruct (Z.testbit a n), (Z.testbit b n), (Z.testbit c n); reflexivity.
Qed.

(** The test of [gpsd_control] for a mode switch compares the two low
    bits. *)
Lemma mode_switch_test (m c : Z) :
  0 <= m <= 3 ->
  (MODE_OP_MODE (Z.lxor (u32 m) c) =? 0) = (MODE_OP_MODE c =? m).
Proof.
  intros H. unfold MODE_OP_MODE, MODE_OP_MASK.
  assert (U : u32 m = m)
    by (unfold u32, wrap_unsigned; apply Z.mod_small; lia).
  rewrite U, land_lxor_distr, (land_3_small m H).
  destruct (Z.eqb_spec (Z.land c 3) m) as [E | N].
  - apply Z.eqb_eq. rewrite E. apply Z.lxor_nilpotent.
  - apply Z.eqb_neq. intros X. apply Z.lxor_eq in X. congruence.
Qed.

Lemma w_peer_leave_opmode (m : Z) (w : world) :
  w_peer (leave_opmode m w) = w_peer w.
Proof. unfold leave_opmode. break_if; reflexivity. Qed.

Lemma land_lnot_clears (f p : Z) : Z.land (Z.land f (Z.lnot p)) p = 0.
Proof.
  rewrite <- Z.land_assoc, (Z.land_comm (Z.lnot p) p), Z.land_lnot_diag.
  apply Z.land_0_r.
Qed.

Lemma gpsd_control_primary_eq (fudge1 fudge2 : l_fp) (w0 : world) :
  0 <= mode (w_up w0) <= 3 ->
  gpsd_control Primary fudge1 fudge2 w0
  = let w1 := upd_up (set_ibt_fudge fudge2)
                (upd_up (set_pps_fudge fudge1) w0) in
    if MODE_OP_MODE (cfg_mode (w_peer w0)) =? mode (w_up w0)
    then w1
    else enter_opmode (MODE_OP_MODE (cfg_mode (w_peer w0)))
           (upd_up (set_mode (MODE_OP_MODE (cfg_mode (w_peer w0))))
              (leave_opmode (mode (w_up w0)) w1)).
Proof.
  intros H0. unfold gpsd_control. cbv zeta.
  change (mode (w_up (upd_up (set_ibt_fudge fudge2)
                        (upd_up (set_pps_fudge fudge1) w0))))
    with (mode (w_up w0)).
  change (peer_of Primary (upd_up (set_ibt_fudge fudge2)
                             (upd_up (set_pps_fudge fudge1) w0)))
    with (w_peer w0).
  rewrite (mode_switch_test _ _ H0).
  destruct (MODE_OP_MODE (cfg_mode (w_peer w0)) =? mode (w_up w0));
    cbn [negb]; cbv iota; [ reflexivity | ].
  change (peer_of Primary ?x) with (w_peer x).
  rewrite w_peer_leave_opmode.
  change (mode (w_up (upd_up (set_mode ?v) ?x))) with v.
  reflexivity.
Qed.

(** Once the unit runs in the configured mode and holds the fudge times,
    a control call changes nothing. *)
Lemma gpsd_control_settled (fudge1 fudge2 : l_fp) (w0 : world) :
  mode (w_up w0) = MODE_OP_MODE (cfg_mode (w_peer w0)) ->
  pps_fudge (w_up w0) = fudge1 ->
  ibt_fudge (w_up w0) = fudge2 ->
  gpsd_control Primary fudge1 fudge2 w0 = w0.
Proof.
  intros M F1 F2.
  rewrite gpsd_control_primary_eq
    by (rewrite M; apply MODE_OP_MODE_range).
  cbv zeta. rewrite <- M, Z.eqb_refl.
  destruct w0 as [up p pp ga tr].
  destruct up as [a b c fu e f g h i j k l m n]. destruct fu as [x y z].
  cbn in F1, F2. subst. reflexivity.
Qed.

(** X12.  After a control call on the primary peer the unit runs in the mode
    the low two bits of the configured mode name, and holds the fudge
    times it was given.  If that is the mode it ran in, nothing else
    changes.  If not, the pending serial and PPS data are dropped; the
    PPS account starts from PPS_MAXCOUNT / 2 when the new mode is the
    automatic one and is emptied when the old one was, and raw serial
    stamps are no longer permitted in either case.  A second call with
    the same values changes nothing.  A control call on the PPS peer
    stores its fudge time and takes the PPS flag from the peer unless
    flag1 is set; it leaves the primary peer alone. *)
Theorem gpsd_control_follows_the_configured_mode (fudge1 fudge2 : l_fp)
    (w : world) :
  0 <= mode (w_up w) <= 3 ->
  let old := mode (w_up w) in
  let new := MODE_OP_MODE (cfg_mode (w_peer w)) in
  let w' := gpsd_control Primary fudge1 fudge2 w in
  let w2 := gpsd_control Secondary fudge1 fudge2 w in
  (mode (w_up w') = new /\ 0 <= new <= 3)
  /\ (pps_fudge (w_up w') = fudge1
      /\ ibt_fudge (w_up w') = fudge2
      /\ pps_fudge2 (w_up w') = pps_fudge2 (w_up w))
  /\ (w_peer w' = w_peer w
      /\ w_pps_peer w' = w_pps_peer w
      /\ w_trace w' = w_trace w
      /\ w_gpsd_addr w' = w_gpsd_addr w)
  /\ (new = old ->
      w' = upd_up (set_ibt_fudge fudge2) (upd_up (set_pps_fudge fudge1) w))
  /\ (new <> old ->
      fl_ibt (w_up w') = false
      /\ fl_pps (w_up w') = false
      /\ ppscount (w_up w')
         = (if new =? MODE_OP_AUTO then PPS_MAXCOUNT / 2
            else if old =? MODE_OP_AUTO then 0
            else ppscount (w_up w))
      /\ fl_rawibt (w_up w')
         = (if (new =? MODE_OP_AUTO) || (old =? MODE_OP_AUTO) then false
            else fl_rawibt (w_up w)))
  /\ gpsd_control Primary fudge1 fudge2 w' = w'
  /\ (w_up w2 = set_pps_fudge2 fudge1 (w_up w)
      /\ w_peer w2 = w_peer w
      /\ w_trace w2 = w_trace w
      /\ forall p,
           w_pps_peer w = Some p ->
           exists p',
             w_pps_peer w2 = Some p'
             /\ procptr p' = procptr p
             /\ precision p' = precision p
             /\ (Z.land (sloppyclockflag (procptr p)) CLK_FLAG1 = 0 ->
                 Z.land (cfg_flags p') FLAG_PPS = 0)
             /\ (Z.land (sloppyclockflag (procptr p)) CLK_FLAG1 <> 0 ->
                 p' = p)).
Proof.
  intros Hm. cbv zeta.
  pose proof (MODE_OP_MODE_range (cfg_mode (w_peer w))) as Hn.
  assert (Sec : let w2 := gpsd_control Secondary fudge1 fudge2 w in
                w_up w2 = set_pps_fudge2 fudge1 (w_up w)
                /\ w_peer w2 = w_peer w
                /\ w_trace w2 = w_trace w
                /\ forall p,
                     w_pps_peer w = Some p ->
                     exists p',
                       w_pps_peer w2 = Some p'
                       /\ procptr p' = procptr p
                       /\ precision p' = precision p
                       /\ (Z.land (sloppyclockflag (procptr p)) CLK_FLAG1 = 0 ->
                           Z.land (cfg_flags p') FLAG_PPS = 0)
                       /\ (Z.land (sloppyclockflag (procptr p)) CLK_FLAG1 <> 0 ->
                           p' = p)).
  { unfold gpsd_control. cbv zeta.
    change (pp_of Secondary (upd_up (set_pps_fudge2 fudge1) w))
      with (pp_of Secondary w).
    destruct (Z.eqb_spec (Z.land (sloppyclockflag (pp_of Secondary w)) CLK_FLAG1) 0)
      as [Z0 | Z1].
    - split; [ reflexivity | ]. split; [ reflexivity | ].
      split; [ reflexivity | ].
      intros p Hp. unfold pp_of, peer_of in Z0. rewrite Hp in Z0.
      cbn [upd_peer upd_up w_pps_peer]. rewrite Hp. cbn [option_map].
      eexists. split; [ reflexivity | ].
      split; [ reflexivity | ]. split; [ reflexivity | ].
      split; [ intros _; apply land_lnot_clears | intros X; contradiction ].
    - split; [ reflexivity | ]. split; [ reflexivity | ].
      split; [ reflexivity | ].
      intros p Hp. unfold pp_of, peer_of in Z1. rewrite Hp in Z1.
      exists p. split; [ exact Hp | ].
      split; [ reflexivity | ]. split; [ reflexivity | ].
      split; [ intros X; contradiction | reflexivity ]. }
  rewrite (gpsd_control_primary_eq _ _ w Hm). cbv zeta.
  destruct (Z.eqb_spec (MODE_OP_MODE (cfg_mode (w_peer w))) (mode (w_up w)))
    as [E | N].
  - (* the mode stays *)
    split; [ split; [ symmetry; exact E | exact Hn ] | ].
    split; [ repeat split | ].
    split; [ repeat split | ].
    split; [ reflexivity | ].
    split; [ intros X; contradiction | ].
    split; [ | exact Sec ].
    apply gpsd_control_settled; [ symmetry; exact E | reflexivity .. ].
  - (* the mode changes *)
    set (new := MODE_OP_MODE (cfg_mode (w_peer w))) in *.
    set (old := mode (w_up w)) in *.
    assert (Mn : MODE_OP_MODE new = new) by (apply land_3_small, Hn).
    assert (Mo : MODE_OP_MODE old = old) by (apply land_3_small, Hm).
    unfold enter_opmode, leave_opmode. rewrite Mn, Mo.
    destruct (new =? MODE_OP_AUTO) eqn:An; destruct (old =? MODE_OP_AUTO) eqn:Ao;
      cbv zeta;
      (split; [ split; [ reflexivity | exact Hn ] | ]);
      (split; [ repeat split | ]);
      (split; [ repeat split | ]);
      (split; [ intros X; contradiction | ]);
      (split; [ intros _; repeat split | ]);
      (split; [ | exact Sec ]);
      apply gpsd_control_settled; reflexivity.
Qed.

Lemma gpsd_parse_rejected_eq (rtime : l_fp) (sys : syscalls) (w : world) :
  record_rejected w ->
  exists jctx mem,
    gpsd_parse rtime sys w
    = upd_up (fun up => set_tc_breply (incr (tc_breply up)) up)
        (upd_up (set_buffer mem) (upd_up (set_json_parse jctx) w)).
Proof.
  unfold record_rejected, gpsd_parse.
  destruct (json_parse_record (json_parse (w_up w)) (buffer (w_up w))
              (buflen (w_up w))) as [[ok jctx] mem].
  intros Hrej. exists jctx, mem.
  destruct ok; cbn [negb]; cbv iota.
  - destruct Hrej as [Hrej | Hrej]; [ discriminate | ].
    rewrite Hrej. reflexivity.
  - reflexivity.
Qed.

Lemma poll_primary_empty (w : world) :
  queue_empty Primary w ->
  let code := if -1 =? io_fd (pp_of Primary w) then CEVNT_FAULT
              else if negb (0 =? tc_breply (w_up w)) then CEVNT_BADREPLY
              else CEVNT_TIMEOUT in
  w_trace (snd (poll_primary w)) = (w_trace w ++ [EvReport Primary code])%list
  /\ w_peer (snd (poll_primary w))
     = refclock_report (set_precision PRECISION (w_peer w)) code
  /\ ~ In (CallReceive Primary) (fst (poll_primary w)).
Proof.
  unfold queue_empty. intros Q. unfold poll_primary. cbv zeta.
  rewrite Q, Z.eqb_refl. cbn [negb]. cbv iota.
  split; [ reflexivity | split; [ reflexivity | ] ].
  cbn [fst]. break_if; cbn; intuition discriminate.
Qed.

(** X13.  What the poll of the primary peer tells the core.  With samples in
    the queue it reports a nominal clock, with the receive time of the
    last sample as the time of the last reference, and has the core
    take the samples.  With an empty queue it sets the precision back
    and names one cause: a fault when there is no data connection, bad
    replies when there were some since the last poll, a timeout
    otherwise.  So a poll that follows a rejected record on a live
    connection reports bad replies, and a poll that follows the closing
    of the connection reports a fault.  The tallies go into the
    statistics line if flag4 is set, and are zero afterwards whatever
    they were; nothing else in the unit and nothing in the PPS peer
    changes. *)
Theorem poll_reports_the_major_cause (polls : Z) (rtime : l_fp)
    (sys : syscalls) (w : world) :
  let poll := fun w0 => snd (snd (gpsd_poll Primary polls w0)) in
  let calls := fun w0 => fst (snd (gpsd_poll Primary polls w0)) in
  fst (gpsd_poll Primary polls w) = (polls + 1) mod 2 ^ 64
  /\ w_up (poll w)
     = upd_tally (fun _ => mk_unit_tally 0 0 0 0 0 0 0) (w_up w)
  /\ w_pps_peer (poll w) = w_pps_peer w
  /\ (~ queue_empty Primary w ->
      w_trace (poll w) = (w_trace w ++ [EvReport Primary CEVNT_NOMINAL])%list
      /\ In (CallReceive Primary) (calls w)
      /\ w_peer (poll w)
         = refclock_receive
             (refclock_report
                (upd_procptr (fun pp => set_lastref (lastrec pp) pp) (w_peer w))
                CEVNT_NOMINAL))
  /\ (queue_empty Primary w ->
      ~ In (CallReceive Primary) (calls w)
      /\ exists code,
           w_trace (poll w) = (w_trace w ++ [EvReport Primary code])%list
           /\ w_peer (poll w)
              = refclock_report (set_precision PRECISION (w_peer w)) code
           /\ (code = CEVNT_FAULT <-> io_fd (pp_of Primary w) = -1)
           /\ (code = CEVNT_BADREPLY <->
               io_fd (pp_of Primary w) <> -1 /\ tc_breply (w_up w) <> 0)
           /\ (code = CEVNT_TIMEOUT <->
               io_fd (pp_of Primary w) <> -1 /\ tc_breply (w_up w) = 0))
  /\ (Z.land (sloppyclockflag (pp_of Primary (poll w))) CLK_FLAG4 <> 0 ->
      In (CallClockStats Primary (tally_line (w_up w))) (calls w))
  /\ (Z.land (sloppyclockflag (pp_of Primary (poll w))) CLK_FLAG4 = 0 ->
      forall tallies, ~ In (CallClockStats Primary tallies) (calls w))
  /\ (queue_empty Primary w ->
      not_an_object w \/ lacks_class w ->
      io_fd (pp_of Primary w) <> -1 ->
      0 <= tc_breply (w_up w) < 2 ^ 32 - 1 ->
      w_trace (poll (gpsd_parse rtime sys w))
      = (w_trace w ++ [EvReport Primary CEVNT_BADREPLY])%list)
  /\ (queue_empty Primary w ->
      w_trace (poll (gpsd_stop_socket w))
      = (w_trace (gpsd_stop_socket w) ++ [EvReport Primary CEVNT_FAULT])%list).
Proof.
  cbv zeta. unfold gpsd_poll. cbn [fst snd].
  split; [ reflexivity | ].
  split.
  { unfold poll_primary. cbv zeta. repeat break_if; reflexivity. }
  split.
  { unfold poll_primary. cbv zeta. repeat break_if; reflexivity. }
  split.
  { unfold queue_empty. intros Q. apply Z.eqb_neq in Q.
    unfold poll_primary. cbv zeta. rewrite Q. cbn [negb]. cbv iota.
    break_if; cbn [fst snd]; (split; [ reflexivity | ]);
      (split; [ | reflexivity ]); cbn; auto. }
  split.
  { intros Q. destruct (poll_primary_empty w Q) as (T & P & C).
    split; [ exact C | ].
    eexists. split; [ exact T | ]. split; [ exact P | ].
    destruct (Z.eqb_spec (-1) (io_fd (pp_of Primary w))) as [F | F].
    - split; [ split; auto | ].
      split; (split; [ discriminate | intros [X _]; congruence ]).
    - destruct (Z.eqb_spec 0 (tc_breply (w_up w))) as [B | B]; cbn [negb].
      + split; [ split; [ discriminate | congruence ] | ].
        split; [ split; [ discriminate | intros [_ X]; congruence ] | ].
        split; [ intros _; split; congruence | reflexivity ].
      + split; [ split; [ discriminate | congruence ] | ].
        split; [ split; [ intros _; split; congruence | reflexivity ] | ].
        split; [ discriminate | intros [_ X]; congruence ]. }
  assert (St : forall w0 : world,
             exists w1 calls0,
               poll_primary w0
               = ((if negb (Z.land (sloppyclockflag (pp_of Primary w1)) CLK_FLAG4
                            =? 0)
                   then calls0 ++ [CallClockStats Primary (tally_line (w_up w0))]
                   else calls0)%list,
                  upd_up (upd_tally (fun _ => mk_unit_tally 0 0 0 0 0 0 0)) w1)
               /\ forall tallies, ~ In (CallClockStats Primary tallies) calls0).
  { intros w0. unfold poll_primary. cbv zeta.
    destruct (negb (coderecv (pp_of Primary w0) =? codeproc (pp_of Primary w0)));
      cbv beta iota;
      match goal with
      | |- context [upd_up (set_tc_breply 0) ?x] => exists x
      end;
      [ exists [CallReceive Primary] | exists [] ];
      (split; [ reflexivity | cbn; intuition discriminate ]). }
  destruct (St w) as (w1 & calls0 & E & NoStats). rewrite E. cbn [fst snd].
  change (pp_of Primary (upd_up ?f w1)) with (pp_of Primary w1).
  split.
  { intros F. apply Z.eqb_neq in F. rewrite F. cbn [negb].
    apply in_or_app. right. left. reflexivity. }
  split.
  { intros F. apply Z.eqb_eq in F. rewrite F. cbn [negb]. exact NoStats. }
  clear w1 calls0 E NoStats St.
  split.
  - intros Q Rj Fd Br. apply bad_record_rejected in Rj.
    destruct (gpsd_parse_rejected_eq rtime sys w Rj) as (jctx & mem & ->).
    match goal with
    | |- context [poll_primary ?x] =>
        assert (Q' : queue_empty Primary x) by exact Q;
        destruct (poll_primary_empty x Q') as (T & _);
        cbv zeta in T; rewrite T
    end.
    cbn [w_trace upd_up]. f_equal.
    change (io_fd (pp_of Primary (upd_up ?f ?x))) with (io_fd (pp_of Primary x)).
    change (io_fd (pp_of Primary (upd_up ?f ?x))) with (io_fd (pp_of Primary x)).
    change (io_fd (pp_of Primary (upd_up ?f ?x))) with (io_fd (pp_of Primary x)).
    destruct (Z.eqb_spec (-1) (io_fd (pp_of Primary w))); [ congruence | ].
    cbn [w_up upd_up]. unfold set_tc_breply at 1. cbn [tc_breply upd_tally u_tally].
    unfold incr, u32, wrap_unsigned.
    cbn [w_up upd_up set_buffer set_json_parse u_tally tc_breply].
    rewrite Z.mod_small by lia.
    destruct (Z.eqb_spec 0 (tc_breply (w_up w) + 1)); [ lia | reflexivity ].
  - intros Q.
    assert (Q' : queue_empty Primary (gpsd_stop_socket w)).
    { unfold queue_empty, gpsd_stop_socket in *. cbv zeta.
      destruct (negb (-1 =? io_fd (pp_of Primary w))); [ | exact Q ].
      destruct (log_throttled_sock LOG_INFO
                  (MsgClosingSocket (io_fd (pp_of Primary w))) w)
        as (_ & P & _).
      unfold pp_of, peer_of in *.
      cbn [w_peer upd_up upd_pp upd_peer emit procptr upd_procptr coderecv
           codeproc set_io_fd].
      rewrite P. exact Q. }
    destruct (poll_primary_empty _ Q') as (T & _). cbv zeta in T. rewrite T.
    assert (F : io_fd (pp_of Primary (gpsd_stop_socket w)) = -1).
    { unfold gpsd_stop_socket. cbv zeta.
      destruct (Z.eqb_spec (-1) (io_fd (pp_of Primary w))) as [X | X];
        cbn [negb]; cbv iota; [ symmetry; exact X | reflexivity ]. }
    rewrite F. reflexivity.
Qed.

Ltac fin :=
  vm_compute;
  repeat match goal with
         | H : _ = (_, _) |- _ => vm_compute in H; rewrite ?H; clear H
         end;
  vm_compute; repeat split.

Ltac nums :=
  try change (Z.to_nat 0) with 0%nat;
  try change (Z.to_nat 1) with 1%nat;
  try change (Z.to_nat 2) with 2%nat;
  try change (Z.to_nat 3) with 3%nat.

(** X14.  The init function tries the service entries in turn and stops at the
    first that resolves: the index it leaves is the number of entries
    that failed, their errors are kept, and the address list is the
    answer to the entry that worked, or empty if none did.  The first
    check after it logs one warning for each entry that failed, in the
    order of the table, and then one more line: which entry is used
    instead of the first, or that the driver gives up.  If the first
    entry resolved, nothing is logged.  The check says that the driver
    can proceed exactly if there is an address, and a second check gives
    the same answer and logs nothing. *)
Theorem resolver_falls_back_and_tells_once
    (getaddrinfo : option string -> option string -> Z * list addrinfoT)
    (r : resolver) :
  List.length (s_svcerr r) = 4%nat ->
  let '(gpsd_addr, r1) := gpsd_init getaddrinfo [] r in
  let '(ok, r2, log) := gpsd_init_check gpsd_addr r1 in
  let '(ok', r3, log') := gpsd_init_check gpsd_addr r2 in
  let idx := s_svcidx r1 in
  0 <= idx <= 3
  /\ (forall i, 0 <= i < idx ->
        fst (resolved getaddrinfo i) <> 0
        /\ nth (Z.to_nat i) (s_svcerr r1) 0 = fst (resolved getaddrinfo i))
  /\ (idx < 3 ->
      fst (resolved getaddrinfo idx) = 0
      /\ gpsd_addr = snd (resolved getaddrinfo idx))
  /\ (idx = 3 -> gpsd_addr = [])
  /\ ok = negb (is_nil gpsd_addr)
  /\ log
     = (map (resolve_warning getaddrinfo) (seq 0 (Z.to_nat idx))
        ++ (if idx =? 0 then []
            else if is_nil gpsd_addr then [(LOG_ERR, MsgNoSocketAddress)]
            else [(LOG_WARNING,
                   MsgUsingInstead (fst (svctab_at idx)) (snd (svctab_at idx))
                     (Some "localhost") (Some "gpsd"))]))%list
  /\ ok' = ok /\ log' = [] /\ r3 = r2.
Proof.
  intros L. destruct r as [err i0]. cbn [s_svcerr] in L.
  destruct err as [| e0 [| e1 [| e2 [| e3 [| ? ?]]]]]; try discriminate L.
  clear L.
  unfold gpsd_init, resolved, resolve_warning.
  cbn [s_svcerr map gpsd_init_loop s_svctab].
  destruct (getaddrinfo (Some "localhost") (Some "gpsd")) as [rc0 res0] eqn:G0.
  assert (T0 : forall i, i = 0 ->
             getaddrinfo (fst (svctab_at i)) (snd (svctab_at i)) = (rc0, res0))
    by (intros i ->; exact G0).
  destruct (Z.eqb_spec 0 rc0) as [Z0 | Z0].
  { (* the first entry resolves *)
    unfold gpsd_init_check. cbn [s_svcidx Z.eqb].
    split; [ lia | ]. split; [ intros i Hi; lia | ].
    split; [ intros _; rewrite T0 by reflexivity; split;
             [ symmetry; exact Z0 | reflexivity ] | ].
    split; [ discriminate | ].
    destruct res0; fin. }
  change (i32 (0 + 1)) with 1.
  destruct (getaddrinfo (Some "localhost") (Some "2947")) as [rc1 res1] eqn:G1.
  assert (T1 : forall i, i = 1 ->
             getaddrinfo (fst (svctab_at i)) (snd (svctab_at i)) = (rc1, res1))
    by (intros i ->; exact G1).
  destruct (Z.eqb_spec 0 rc1) as [Z1 | Z1].
  { unfold gpsd_init_check. cbn [s_svcidx s_svcerr Z.eqb].
    split; [ lia | ].
    split.
    { intros i Hi. rewrite T0 by lia. assert (i = 0) by lia. subst i.
      nums; cbn. split; congruence. }
    split.
    { intros _. rewrite T1 by reflexivity. nums; cbn. split; congruence. }
    split; [ discriminate | ].
    destruct res1; fin. }
  change (i32 (1 + 1)) with 2.
  destruct (getaddrinfo (Some "127.0.0.1") (Some "2947")) as [rc2 res2] eqn:G2.
  assert (T2 : forall i, i = 2 ->
             getaddrinfo (fst (svctab_at i)) (snd (svctab_at i)) = (rc2, res2))
    by (intros i ->; exact G2).
  assert (Low : forall i, 0 <= i < 3 ->
            (i = 2 -> rc2 <> 0) ->
            fst (getaddrinfo (fst (svctab_at i)) (snd (svctab_at i))) <> 0
            /\ nth (Z.to_nat i)
                 (array_set (Z.to_nat 2) rc2
                    (array_set (Z.to_nat 1) rc1
                       (array_set (Z.to_nat 0) rc0 [0; 0; 0; 0]))) 0
               = fst (getaddrinfo (fst (svctab_at i)) (snd (svctab_at i)))).
  { intros i Hi H2. assert (C : i = 0 \/ i = 1 \/ i = 2) by lia.
    destruct C as [-> | [-> | ->]].
    - rewrite T0 by reflexivity. nums; cbn. split; congruence.
    - rewrite T1 by reflexivity. nums; cbn. split; congruence.
    - rewrite T2 by reflexivity. nums; cbn. split; [ auto | reflexivity ]. }
  destruct (Z.eqb_spec 0 rc2) as [Z2 | Z2].
  { unfold gpsd_init_check. cbn [s_svcidx s_svcerr Z.eqb].
    split; [ lia | ].
    split; [ intros i Hi; apply Low; lia | ].
    split.
    { intros _. rewrite T2 by reflexivity. nums; cbn. split; congruence. }
    split; [ discriminate | ].
    destruct res2; fin. }
  change (i32 (2 + 1)) with 3.
  cbn [gpsd_init_loop].
  unfold gpsd_init_check. cbn [s_svcidx s_svcerr Z.eqb].
  split; [ lia | ].
  split; [ intros i Hi; apply Low; [ lia | congruence ] | ].
  split; [ lia | ].
  split; [ reflexivity | ].
  fin.
Qed.

Lemma held_after_app (a b : list heap_call) (h : list Z) :
  held_after (a ++ b) h = held_after b (held_after a h).
Proof.
  revert h. induction a as [| c a IH]; intros h; [ reflexivity | ].
  destruct c as [size [|] | [size |]]; cbn; apply IH.
Qed.

Lemma pow2_double (k : Z) : 0 <= k -> 2 ^ (k + 1) = 2 * 2 ^ k.
Proof. intros H. rewrite Z.pow_add_r by lia. lia. Qed.

Lemma myasprintf_loop_result (malloc : Z -> bool)
    (vsnprintf : Z -> Z * string) (text : string) :
  (forall n, vsnprintf n = (Z.of_nat (String.length text), take (n - 1) text)) ->
  Z.of_nat (String.length text) < 2 ^ 31 ->
  forall (fuel : nat) (k : Z) (spp : option Z) (heap : list heap_call),
    0 <= k ->
    (0 < fuel)%nat ->
    Z.of_nat (String.length text) < 32 * 2 ^ k * 2 ^ Z.of_nat fuel ->
    (k = 0 \/ 32 * 2 ^ k <= Z.of_nat (String.length text)) ->
    held heap = match spp with Some b => [b] | None => [] end ->
    exists k' heap',
      k <= k'
      /\ (forall j, k <= j < k' ->
            malloc (64 * 2 ^ j) = true
            /\ 64 * 2 ^ j <= Z.of_nat (String.length text))
      /\ if malloc (64 * 2 ^ k')
         then Z.of_nat (String.length text) < 64 * 2 ^ k'
              /\ myasprintf_loop fuel malloc vsnprintf (32 * 2 ^ k) spp heap
                 = Some (Z.of_nat (String.length text), Some text, heap')
              /\ held heap' = [64 * 2 ^ k']
         else myasprintf_loop fuel malloc vsnprintf (32 * 2 ^ k) spp heap
              = Some (-1, None, heap')
              /\ held heap' = [].
Proof.
  intros Hv Hl. set (L := Z.of_nat (String.length text)) in *.
  assert (L0 : 0 <= L) by (subst L; lia).
  induction fuel as [| fuel IH]; intros k spp heap Hk Hpos Hf Hlow Hh;
    [ lia | ].
  assert (P : 0 < 2 ^ k) by (apply Z.pow_pos_nonneg; lia).
  assert (B : 32 * 2 ^ k <= 2 ^ 31).
  { destruct Hlow as [-> | Hlow]; [ cbn; lia | lia ]. }
  assert (A : u64 (32 * 2 ^ k + 32 * 2 ^ k) = 64 * 2 ^ k).
  { unfold u64, wrap_unsigned. rewrite Z.mod_small; lia. }
  cbn [myasprintf_loop]. cbv zeta. rewrite A.
  assert (Hfree : held (heap ++ [Free spp]) = []).
  { unfold held in *. rewrite held_after_app, Hh.
    destruct spp as [b |]; cbn; [ | reflexivity ].
    destruct (Z.eq_dec b b); [ reflexivity | congruence ]. }
  destruct (malloc (64 * 2 ^ k)) eqn:M.
  - rewrite Hv.
    assert (U : u64 L = L)
      by (unfold u64, wrap_unsigned; apply Z.mod_small; lia).
    rewrite U.
    assert (Hm : held ((heap ++ [Free spp]) ++ [Malloc (64 * 2 ^ k) true])
                 = [64 * 2 ^ k]).
    { unfold held in *. rewrite held_after_app, Hfree. reflexivity. }
    destruct (Z.geb_spec L (64 * 2 ^ k)) as [G | G].
    + (* the text does not fit: once more *)
      replace (64 * 2 ^ k) with (32 * 2 ^ (k + 1))
        by (rewrite pow2_double by lia; lia).
      destruct (IH (k + 1) (Some (32 * 2 ^ (k + 1)))
                  ((heap ++ [Free spp])
                   ++ [Malloc (32 * 2 ^ (k + 1)) true])%list)
        as (k' & heap' & K & Low & R).
      * lia.
      * destruct fuel; [ | lia ].
        change (Z.of_nat 1) with 1 in Hf. rewrite Z.pow_1_r in Hf. lia.
      * rewrite pow2_double by lia.
        rewrite Nat2Z.inj_succ, <- Z.add_1_r, pow2_double in Hf by lia. lia.
      * right. rewrite pow2_double by lia. lia.
      * replace (32 * 2 ^ (k + 1)) with (64 * 2 ^ k)
          by (rewrite pow2_double by lia; lia).
        exact Hm.
      * exists k', heap'. split; [ lia | ].
        split; [ | exact R ].
        intros j Hj. destruct (Z.eq_dec j k) as [-> | Nj].
        -- split; [ exact M | lia ].
        -- apply Low. lia.
    + exists k. eexists. split; [ lia | ].
      split; [ intros j Hj; lia | ].
      rewrite M. split; [ exact G | ].
      split; [ | exact Hm ].
      unfold i32, wrap_signed.
      replace (take (64 * 2 ^ k - 1) text) with text.
      * f_equal. f_equal. f_equal. unfold wrap_unsigned.
        rewrite Z.mod_small by lia.
        destruct (_ <? _) eqn:X; [ reflexivity | ].
        apply Z.ltb_ge in X. change (2 ^ (32 - 1)) with (2 ^ 31) in X. lia.
      * symmetry. unfold take. apply substring_all. subst L. lia.
  - exists k. eexists. split; [ lia | ].
    split; [ intros j Hj; lia | ].
    rewrite M. split; [ reflexivity | ].
    unfold held in *. rewrite held_after_app, Hfree. reflexivity.
Qed.

(** X15.  With a [vsnprintf] that answers as the C standard has it, and a text
    shorter than 2^31, [myasprintf] comes to its end: it tries buffers
    of 64, 128, 256, ... bytes, and stops at the first that [malloc]
    refuses or that holds the text and its NUL.  In the first case it
    returns -1 and no block is left allocated; in the second it returns
    the length of the text, hands out the whole text, and the block that
    holds it is the only one left allocated. *)
Theorem myasprintf_doubles_until_the_text_fits (fuel : nat)
    (malloc : Z -> bool) (vsnprintf : Z -> Z * string) (text : string) :
  (forall n, vsnprintf n = (Z.of_nat (String.length text), take (n - 1) text)) ->
  Z.of_nat (String.length text) < 2 ^ 31 ->
  (27 <= fuel)%nat ->
  exists k heap,
    0 <= k
    /\ (forall j, 0 <= j < k ->
          malloc (64 * 2 ^ j) = true
          /\ 64 * 2 ^ j <= Z.of_nat (String.length text))
    /\ if malloc (64 * 2 ^ k)
       then Z.of_nat (String.length text) < 64 * 2 ^ k
            /\ myasprintf fuel malloc vsnprintf
               = Some (Z.of_nat (String.length text), Some text, heap)
            /\ held heap = [64 * 2 ^ k]
       else myasprintf fuel malloc vsnprintf = Some (-1, None, heap)
            /\ held heap = [].
Proof.
  intros Hv Hl Hf. unfold myasprintf.
  change 32 with (32 * 2 ^ 0) at 1.
  apply (myasprintf_loop_result malloc vsnprintf text Hv Hl fuel 0 None []).
  - lia.
  - lia.
  - assert (2 ^ 27 <= 2 ^ Z.of_nat fuel)
      by (apply Z.pow_le_mono_r; lia).
    change (2 ^ 0) with 1. lia.
  - left. reflexivity.
  - reflexivity.
Qed.

Lemma length_take_le (n : Z) (s : string) :
  Z.of_nat (String.length (take n s)) <= Z.max 0 n
  /\ (String.length (take n s) <= String.length s)%nat.
Proof.
  unfold take.
  assert (G : forall (m : nat) (t : string),
             (String.length (String.substring 0 m t) <= m)%nat
             /\ (String.length (String.substring 0 m t) <= String.length t)%nat).
  { intros m t. revert m. induction t as [| c t IH]; intros m.
    - destruct m; cbn; lia.
    - destruct m; cbn; [ lia | ]. destruct (IH m). lia. }
  destruct (G (Z.to_nat n) s). lia.
Qed.

Lemma length_hex_escape (c : Z) :
  (String.length (hex_escape c) <= 5)%nat.
Proof. unfold hex_escape. destruct (c =? 0); cbn; lia. Qed.

Lemma no_nul_hex_escape (c : ascii) : no_nul (hex_escape (uchar c)) = true.
Proof.
  destruct c as [b0 b1 b2 b3 b4 b5 b6 b7].
  destruct b0, b1, b2, b3, b4, b5, b6, b7; reflexivity.
Qed.

Lemma no_nul_escape_all (isprint : Z -> bool) (s : string) :
  isprint 0 = false -> no_nul (escape_all isprint s) = true.
Proof.
  intros H0. induction s as [| c s IH]; [ reflexivity | ].
  cbn [escape_all]. rewrite no_nul_app, IH, andb_true_r. unfold escape.
  destruct (Ascii.eqb c "\"); [ reflexivity | ].
  destruct (isprint (uchar c)) eqn:P; [ | apply no_nul_hex_escape ].
  cbn. destruct (Ascii.eqb_spec c NUL) as [-> | _]; [ | reflexivity ].
  change (uchar NUL) with 0 in P. congruence.
Qed.

Lemma length_escape (isprint : Z -> bool) (c : ascii) :
  (String.length (escape isprint c) <= 5)%nat.
Proof.
  unfold escape. destruct (Ascii.eqb c "\"); [ cbn; lia | ].
  destruct (isprint (uchar c)); [ cbn; lia | apply length_hex_escape ].
Qed.

Lemma log_data_loop_bounds (isprint : Z -> bool) (src : string) :
  forall (dptr : Z) (out : string),
    0 <= dptr <= MAX_PDU_LEN - 6 ->
    Z.of_nat (String.length out) <= dptr ->
    let '(dptr', out') := log_data_loop isprint src dptr out in
    0 <= dptr' <= MAX_PDU_LEN - 6
    /\ Z.of_nat (String.length out') <= dptr'.
Proof.
  unfold MAX_PDU_LEN.
  induction src as [| c src IH]; intros dptr out Hd Ho; cbn [log_data_loop].
  { auto. }
  cbv zeta. unfold MAX_PDU_LEN.
  destruct (Z.ltb_spec dptr (8192 - 10)) as [Lt | Ge]; [ | auto ].
  destruct (Ascii.eqb c "\").
  { apply IH; rewrite ?string_length_app; cbn [String.length]; lia. }
  destruct (isprint (uchar c)).
  { apply IH; rewrite ?string_length_app; cbn [String.length]; lia. }
  pose proof (length_hex_escape (uchar c)) as H5.
  destruct (length_take_le (8192 - 10 - dptr - 1) (hex_escape (uchar c)))
    as [T1 T2].
  apply IH; rewrite ?string_length_app; lia.
Qed.

Lemma log_data_loop_full (isprint : Z -> bool) (src : string) :
  forall (dptr : Z) (out : string),
    0 <= dptr ->
    dptr + 5 * Z.of_nat (String.length src) < MAX_PDU_LEN - 10 ->
    log_data_loop isprint src dptr out
    = (dptr + Z.of_nat (String.length (escape_all isprint src)),
       out ++ escape_all isprint src).
Proof.
  unfold MAX_PDU_LEN.
  induction src as [| c src IH]; intros dptr out Hd Hs; cbn [log_data_loop].
  { cbn. rewrite Z.add_0_r. f_equal.
    clear. induction out; cbn; [ reflexivity | congruence ]. }
  cbv zeta. unfold MAX_PDU_LEN.
  cbn [String.length] in Hs. rewrite Nat2Z.inj_succ in Hs.
  destruct (Z.ltb_spec dptr (8192 - 10)) as [Lt | Ge]; [ | lia ].
  cbn [escape_all]. unfold escape.
  assert (Assoc : forall a b d : string, (a ++ b) ++ d = a ++ b ++ d).
  { clear. intros a b d. induction a; cbn; [ reflexivity | congruence ]. }
  destruct (Ascii.eqb c "\").
  { rewrite IH by lia. rewrite string_length_app, Assoc. cbn [String.length].
    f_equal. lia. }
  destruct (isprint (uchar c)).
  { rewrite IH by lia. rewrite string_length_app, Assoc. cbn [String.length].
    f_equal. lia. }
  pose proof (length_hex_escape (uchar c)) as H5.
  replace (take (8192 - 10 - dptr - 1) (hex_escape (uchar c)))
    with (hex_escape (uchar c))
    by (symmetry; unfold take; apply substring_all; lia).
  rewrite IH by lia. rewrite string_length_app, Assoc. f_equal. lia.
Qed.

Lemma length_until_nul (s : string) :
  (String.length (until_nul s) <= String.length s)%nat.
Proof.
  induction s as [| c s IH]; cbn; [ lia | ].
  destruct (Ascii.eqb c NUL); cbn; lia.
Qed.

(** X16.  The dump of a data buffer is made only above debug level 1.  The
    closing NUL is stored inside the line buffer whatever the data are,
    at an offset that is not below the length of the text printed.
    Data whose escapes are sure to fit, at five
    characters each, are dumped in full: every backslash doubled, every
    other printable character as it is, every other byte as a hex
    escape. *)
Theorem log_data_stays_in_its_buffer (debug : Z) (isprint : Z -> bool)
    (buf : string) :
  match log_data debug isprint buf with
  | None => debug <= 1
  | Some (dptr, text) =>
      1 < debug
      /\ 0 <= dptr <= MAX_PDU_LEN - 6
      /\ Z.of_nat (String.length text) <= dptr
      /\ (5 * Z.of_nat (String.length buf) < MAX_PDU_LEN - 10 ->
          dptr = Z.of_nat (String.length (escape_all isprint buf))
          /\ text = until_nul (escape_all isprint buf)
          /\ (isprint 0 = false -> text = escape_all isprint buf))
  end.
Proof.
  unfold log_data. destruct (Z.gtb_spec debug 1) as [G | G]; [ | lia ].
  pose proof (log_data_loop_bounds isprint buf 0 "") as B.
  pose proof (log_data_loop_full isprint buf 0 "") as F.
  destruct (log_data_loop isprint buf 0 "") as [dptr out].
  destruct B as (B1 & B2); try (unfold MAX_PDU_LEN; cbn; lia).
  pose proof (length_until_nul out) as U.
  split; [ lia | ]. split; [ exact B1 | ].
  split; [ lia | ].
  intros Hs. specialize (F ltac:(lia) ltac:(lia)).
  cbn [append] in F. injection F as -> ->.
  split; [ lia | ]. split; [ reflexivity | ].
  intros H0. apply until_nul_no_nul, no_nul_escape_all, H0.
Qed.

Lemma scan_units_found (u : Z) (units : list unit_cell) (c : unit_cell) :
  nth_error units (scan_units u units) = Some c ->
  exists l1 l2,
    units = (l1 ++ c :: l2)%list
    /\ List.length l1 = scan_units u units
    /\ c_unit c = u
    /\ Forall (fun x => c_unit x <> u) l1.
Proof.
  induction units as [| x rest IH]; cbn [scan_units]; [ discriminate | ].
  destruct (Z.eqb_spec (c_unit x) u) as [E | N].
  - cbn. intros [= <-]. exists [], rest. repeat split; auto.
  - cbn [nth_error]. intros H. destruct (IH H) as (l1 & l2 & -> & L & U & F).
    exists (x :: l1), l2. cbn. repeat split; auto.
Qed.

Lemma scan_units_fresh (u : Z) (units : list unit_cell) :
  nth_error units (scan_units u units) = None ->
  scan_units u units = List.length units
  /\ Forall (fun x => c_unit x <> u) units.
Proof.
  induction units as [| x rest IH]; cbn [scan_units]; [ auto | ].
  destruct (Z.eqb_spec (c_unit x) u) as [E | N]; [ discriminate | ].
  cbn [nth_error]. intros H. destruct (IH H) as [L F].
  cbn. split; [ congruence | auto ].
Qed.

Lemma put_unit_end (c : unit_cell) (units : list unit_cell) :
  put_unit (List.length units) c units = (units ++ [c])%list.
Proof. induction units as [| x rest IH]; cbn; [ reflexivity | congruence ]. Qed.

Lemma put_unit_at (c x : unit_cell) (l1 l2 : list unit_cell) :
  put_unit (List.length l1) c (l1 ++ x :: l2) = (l1 ++ c :: l2)%list.
Proof. induction l1 as [| y l1 IH]; cbn; [ reflexivity | congruence ]. Qed.

Lemma unlink_unit_at (x : unit_cell) (l1 l2 : list unit_cell) :
  unlink_unit (List.length l1) (l1 ++ x :: l2) = (l1 ++ l2)%list.
Proof. induction l1 as [| y l1 IH]; cbn; [ reflexivity | congruence ]. Qed.

Lemma scan_units_le (u : Z) (units : list unit_cell) :
  (scan_units u units <= List.length units)%nat.
Proof.
  induction units as [| x rest IH]; cbn; [ lia | ].
  destruct (c_unit x =? u); lia.
Qed.

Lemma put_unit_twice (pos : nat) (c c' : unit_cell) (units : list unit_cell) :
  (pos <= List.length units)%nat ->
  put_unit pos c (put_unit pos c' units) = put_unit pos c units.
Proof.
  revert pos. induction units as [| x rest IH]; intros pos H.
  - cbn in H. assert (pos = O) by lia. subst. reflexivity.
  - destruct pos; cbn; [ reflexivity | ]. cbn in H.
    rewrite IH by lia. reflexivity.
Qed.

Lemma find_addr_at (a : Z) (c : unit_cell) (l1 l2 : list unit_cell) :
  c_addr c = a ->
  ~ In a (map c_addr l1) ->
  find (fun x => c_addr x =? a) (l1 ++ c :: l2) = Some c.
Proof.
  intros E. induction l1 as [| y l1 IH]; cbn.
  - intros _. rewrite (proj2 (Z.eqb_eq _ _) E). reflexivity.
  - intros N. destruct (Z.eqb_spec (c_addr y) a) as [X | X]; [ tauto | ].
    apply IH. tauto.
Qed.

Lemma filter_addr_out (a : Z) (l : list unit_cell) :
  ~ In a (map c_addr l) ->
  filter (fun x => negb (c_addr x =? a)) l = l.
Proof.
  induction l as [| y l IH]; cbn; [ reflexivity | ].
  intros N. destruct (Z.eqb_spec (c_addr y) a) as [X | X]; [ tauto | ].
  cbn. rewrite IH by tauto. reflexivity.
Qed.

Lemma map_addr_out (a : Z) (c : unit_cell) (l : list unit_cell) :
  ~ In a (map c_addr l) ->
  map (fun x => if c_addr x =? a then c else x) l = l.
Proof.
  induction l as [| y l IH]; cbn; [ reflexivity | ].
  intros N. destruct (Z.eqb_spec (c_addr y) a) as [X | X]; [ tauto | ].
  rewrite IH by tauto. reflexivity.
Qed.

Lemma NoDup_app_split {A : Type} (l1 l2 : list A) (x : A) :
  NoDup (l1 ++ x :: l2) ->
  ~ In x l1 /\ ~ In x l2 /\ NoDup (l1 ++ l2).
Proof.
  intros H. apply NoDup_remove in H. destruct H as [H1 H2].
  split; [ | split; [ | exact H1 ] ]; intros X; apply H2, in_or_app; auto.
Qed.

Lemma NoDup_app_put {A : Type} (l1 l2 : list A) (x : A) :
  ~ In x l1 -> ~ In x l2 -> NoDup (l1 ++ l2) -> NoDup (l1 ++ x :: l2).
Proof.
  intros H1 H2 H. apply NoDup_Add with (a := x) (l := (l1 ++ l2)%list).
  - apply Add_app.
  - split; [ exact H | ]. intros X. apply in_app_or in X. tauto.
Qed.

Lemma gpsd_start_eq (fuel : nat) (clockinfo : bool) (unit : Z)
    (sys : start_calls) (d : driver) (p : clock_peer) :
  gpsd_start fuel clockinfo unit sys d p
  = let '(ok, r, ilog) := gpsd_init_check (s_gpsd_addr d) (s_resolver d) in
    let log := map (fun lm => (fst lm, MsgInit (snd lm))) ilog in
    let gpsd_addr := s_gpsd_addr d in
    let units := s_clock_units d in
    if negb ok then Some (false, mk_driver units gpsd_addr r, p, log)
    else
      let pos := scan_units (Z.land unit 127) units in
      match nth_error units pos with
      | None =>
          let c := new_unit unit sys gpsd_addr in
          let text := device_text unit sys in
          match myasprintf fuel (sys_malloc sys)
                  (fun n => (Z.of_nat (String.length text), take (n - 1) text))
          with
          | None => None
          | Some (ret, spp, _) =>
              let c := set_c_up
                         (set_device (match spp with Some s => s | None => "" end)
                            (c_up c)) c in
              let units := put_unit pos c units in
              if -1 =? ret then
                let '(units, p) := gpsd_start_dev_fail pos c units p in
                Some (false, mk_driver units gpsd_addr r, p,
                      (log ++ [(LOG_ERR, MsgDeviceNameTooLong (c_logname c))])%list)
              else
                let '(rc, is_chr) := sys_stat sys (device (c_up c)) in
                if (-1 =? rc) || negb is_chr then
                  let '(units, p) := gpsd_start_dev_fail pos c units p in
                  Some (false, mk_driver units gpsd_addr r, p,
                        (log ++ [(LOG_ERR,
                                  MsgNotCharDevice (c_logname c)
                                    (device (c_up c)))])%list)
                else start_setup clockinfo unit sys gpsd_addr r pos p log c units
          end
      | Some c =>
          let c := set_c_refcount (u64 (c_refcount c + 1)) c in
          start_setup clockinfo unit sys gpsd_addr r pos p log c
            (put_unit pos c units)
      end.
Proof.
  unfold gpsd_start, start_setup, new_unit, device_text.
  destruct (gpsd_init_check (s_gpsd_addr d) (s_resolver d)) as [[ok r] ilog].
  cbv zeta. destruct (negb ok); [ reflexivity | ].
  destruct (nth_error (s_clock_units d)
              (scan_units (Z.land unit 127) (s_clock_units d))) as [c |].
  - reflexivity.
  - match goal with
    | |- match ?m with _ => _ end = match ?m' with _ => _ end =>
        change m' with m; destruct m as [[[ret spp] heap] |]
    end; [ | reflexivity ].
    cbn [c_addr c_refcount c_pps_peer c_unit c_logname c_up set_c_up
         set_c_refcount].
    change (u64 (0 + 1)) with 1.
    rewrite !put_unit_twice by apply scan_units_le.
    destruct (-1 =? ret); [ reflexivity | ].
    match goal with
    | |- context [sys_stat sys ?x] => destruct (sys_stat sys x) as [rc is_chr]
    end.
    destruct ((-1 =? rc) || negb is_chr); reflexivity.
Qed.

Lemma dev_fail_outcome (c : unit_cell) (l1 l2 : list unit_cell)
    (p : clock_peer) :
  gpsd_start_dev_fail (List.length l1) c (l1 ++ c :: l2) p
  = ((if u64 (c_refcount c - 1) =? 0 then l1 ++ l2
      else l1 ++ set_c_refcount (u64 (c_refcount c - 1)) c :: l2)%list,
     set_cp_unitptr None p).
Proof.
  unfold gpsd_start_dev_fail. cbv zeta. cbn [c_refcount set_c_refcount].
  rewrite unlink_unit_at, put_unit_at. reflexivity.
Qed.

Lemma mode_enter_opmode (m : Z) (w : world) :
  mode (w_up (enter_opmode m w)) = mode (w_up w).
Proof. unfold enter_opmode. break_if; reflexivity. Qed.

Lemma device_enter_opmode (m : Z) (w : world) :
  device (w_up (enter_opmode m w)) = device (w_up w).
Proof. unfold enter_opmode. break_if; reflexivity. Qed.

Lemma start_setup_outcome (clockinfo : bool) (unit : Z) (sys : start_calls)
    (gpsd_addr : list addrinfoT) (r : resolver) (p : clock_peer)
    (log : list (log_level * start_message)) (c : unit_cell)
    (l1 l2 : list unit_cell) :
  exists ok d1 p1 log1,
    start_setup clockinfo unit sys gpsd_addr r (List.length l1) p log c
      (l1 ++ c :: l2)
    = Some (ok, d1, p1, log1)
    /\ s_gpsd_addr d1 = gpsd_addr
    /\ if ok then
         exists c',
           s_clock_units d1 = (l1 ++ c' :: l2)%list
           /\ c_addr c' = c_addr c
           /\ c_unit c' = c_unit c
           /\ c_refcount c' = c_refcount c
           /\ device (c_up c') = device (c_up c)
           /\ 0 <= mode (c_up c') <= MODE_OP_MAXVAL
           /\ (128 <= unit -> c_pps_peer c' = Some (cp_addr p))
           /\ cp_unitptr p1 = Some (c_addr c)
           /\ cp_addr p1 = cp_addr p
           /\ io_fd (procptr (cp_peer p1)) = -1
           /\ precision (cp_peer p1)
              = (if unit >=? 128 then PPS_PRECISION else PRECISION)
       else
         s_clock_units d1
         = (if u64 (c_refcount c - 1) =? 0 then l1 ++ l2
            else l1 ++ set_c_refcount (u64 (c_refcount c - 1)) c :: l2)%list
         /\ cp_unitptr p1 = None.
Proof.
  unfold start_setup. cbv zeta.
  destruct (addr (c_up c)) as [| ai rest].
  - rewrite dev_fail_outcome. do 4 eexists.
    split; [ reflexivity | ]. split; [ reflexivity | ].
    split; reflexivity.
  - do 4 eexists. split; [ reflexivity | ]. split; [ reflexivity | ].
    rewrite put_unit_at. eexists. split; [ reflexivity | ].
    set (peer := if unit >=? 128 then set_precision PPS_PRECISION _
                 else set_precision PRECISION _).
    assert (Pr : precision peer
                 = (if unit >=? 128 then PPS_PRECISION else PRECISION)
                 /\ io_fd (procptr peer) = -1).
    { subst peer. destruct (unit >=? 128); split; reflexivity. }
    assert (M : let c1 := set_c_up (set_mode (MODE_OP_MODE (cfg_mode peer))
                                      (c_up c)) c in
                let c2 := if mode (c_up c1) >? MODE_OP_MAXVAL
                          then set_c_up (set_mode 0 (c_up c1)) c1 else c1 in
                0 <= mode (c_up c2) <= MODE_OP_MAXVAL
                /\ c_addr c2 = c_addr c /\ c_unit c2 = c_unit c
                /\ c_refcount c2 = c_refcount c
                /\ device (c_up c2) = device (c_up c)).
    { cbv zeta. cbn [c_up set_c_up mode set_mode].
      pose proof (MODE_OP_MODE_range (cfg_mode peer)) as R.
      unfold MODE_OP_MAXVAL.
      destruct (Z.gtb_spec (MODE_OP_MODE (cfg_mode peer)) 2);
        cbn; repeat split; lia. }
    cbv zeta in M. destruct M as (M1 & M2 & M3 & M4 & M5).
    match goal with
    | |- context [if unit >=? 128 then set_c_pps_peer _ ?x else _] =>
        set (c2 := x) in *
    end.
    destruct (Z.geb_spec unit 128) as [G | G].
    + cbn [c_addr c_unit c_refcount c_up c_pps_peer set_c_pps_peer
           cp_unitptr cp_addr cp_peer set_cp_peer set_cp_unitptr].
      repeat split; try assumption; try apply Pr; try lia.
    + cbn [c_addr c_unit c_refcount c_up c_pps_peer set_c_up
           cp_unitptr cp_addr cp_peer set_cp_peer set_cp_unitptr].
      rewrite mode_enter_opmode, device_enter_opmode. cbn [w_up].
      repeat split; try assumption; try apply Pr; try lia.
Qed.

Lemma other_units_app (u : Z) (a b : list unit_cell) :
  other_units u (a ++ b) = (other_units u a ++ other_units u b)%list.
Proof. apply filter_app. Qed.

Lemma other_units_one (u : Z) (c : unit_cell) (l : list unit_cell) :
  c_unit c = u -> other_units u (c :: l) = other_units u l.
Proof.
  intros E. unfold other_units. cbn.
  rewrite (proj2 (Z.eqb_eq _ _) E). reflexivity.
Qed.

Lemma census_app (a b : list unit_cell) :
  census (a ++ b) = (census a ++ census b)%list.
Proof. apply map_app. Qed.

Lemma land_127_range (x : Z) : 0 <= Z.land x 127 <= 127.
Proof.
  change 127 with (Z.ones 7) at 1 2. rewrite Z.land_ones by lia.
  pose proof (Z.mod_pos_bound x (2 ^ 7) ltac:(lia)).
  change (2 ^ 7) with 128 in *. change (Z.ones 7) with 127. lia.
Qed.

(** The shutdown of the peer that a start has just attached. *)
Lemma shutdown_after_start (clockinfo : bool) (refclkunit : Z)
    (gpsd_addr : list addrinfoT) (r : resolver) (p1 : clock_peer)
    (c' : unit_cell) (l1 l2 : list unit_cell) :
  cp_unitptr p1 = Some (c_addr c') ->
  ~ In (c_addr c') (map c_addr l1) ->
  ~ In (c_addr c') (map c_addr l2) ->
  1 <= c_refcount c' < 2 ^ 64 ->
  exists d2 p2 tr log2,
    gpsd_shutdown clockinfo refclkunit
      (mk_driver (l1 ++ c' :: l2) gpsd_addr r) p1
    = Some (d2, p2, tr, log2)
    /\ cp_unitptr p2 = None
    /\ census (s_clock_units d2)
       = (census l1
          ++ (if c_refcount c' =? 1 then []
              else [(c_addr c', c_unit c', c_refcount c' - 1)])
          ++ census l2)%list.
Proof.
  intros U N1 N2 R. unfold gpsd_shutdown. rewrite U.
  cbn [s_clock_units s_gpsd_addr s_resolver].
  rewrite (find_addr_at (c_addr c') c' l1 l2 eq_refl N1).
  match goal with
  | |- context [let '(p, trace) := ?x in _] => destruct x as [p2 tr]
  end.
  cbv zeta. cbn [c_refcount set_c_refcount].
  rewrite u64_small by lia.
  do 4 eexists. split; [ reflexivity | ].
  split; [ reflexivity | ].
  cbn [s_clock_units].
  destruct (Z.eqb_spec (c_refcount c' - 1) 0) as [Z0 | Z0].
  - rewrite (proj2 (Z.eqb_eq (c_refcount c') 1)) by lia.
    rewrite filter_app. cbn [filter]. rewrite Z.eqb_refl. cbn [negb].
    rewrite !filter_addr_out by assumption.
    rewrite census_app. reflexivity.
  - rewrite (proj2 (Z.eqb_neq (c_refcount c') 1)) by lia.
    rewrite map_app. cbn [map]. rewrite Z.eqb_refl.
    rewrite !map_addr_out by assumption.
    rewrite census_app. reflexivity.
Qed.

(** X17.  A start comes to its end.  If it fails, the list of units is as it
    was before.  If it succeeds, the peer points at the unit with the
    number of the clock modulo 128: a unit that was in the list and has
    one more user now, or a new one at the address the allocator gave,
    with one user and the device name of the clock.  The other units are
    as they were, and the list is in order again.  The peer has no data
    connection, the precision of its side, and the unit runs in one of
    the three modes; the start of a PPS side makes the peer the PPS peer
    of the unit.  A shutdown of the peer then brings the list back to
    the units and the counts it had before the start. *)
Theorem start_and_shutdown_keep_the_units_in_order (fuel : nat)
    (clockinfo clockinfo' : bool) (unit refclkunit : Z) (sys : start_calls)
    (d : driver) (p : clock_peer) :
  registry_ok (s_clock_units d) ->
  ~ In (sys_emalloc_zero sys) (map c_addr (s_clock_units d)) ->
  Forall (fun c => c_refcount c < 2 ^ 64 - 1) (s_clock_units d) ->
  (27 <= fuel)%nat ->
  Z.of_nat (String.length (device_text unit sys)) < 2 ^ 31 ->
  let u := Z.land unit 127 in
  exists ok d1 p1 log,
    gpsd_start fuel clockinfo unit sys d p = Some (ok, d1, p1, log)
    /\ registry_ok (s_clock_units d1)
    /\ s_gpsd_addr d1 = s_gpsd_addr d
    /\ if ok then
         (exists c,
            In c (s_clock_units d1)
            /\ cp_unitptr p1 = Some (c_addr c)
            /\ c_unit c = u
            /\ c_refcount c = users u (s_clock_units d) + 1
            /\ (users u (s_clock_units d) = 0 ->
                c_addr c = sys_emalloc_zero sys
                /\ device (c_up c) = device_text unit sys)
            /\ 0 <= mode (c_up c) <= MODE_OP_MAXVAL
            /\ (128 <= unit -> c_pps_peer c = Some (cp_addr p)))
         /\ other_units u (s_clock_units d1) = other_units u (s_clock_units d)
         /\ io_fd (procptr (cp_peer p1)) = -1
         /\ precision (cp_peer p1)
            = (if unit >=? 128 then PPS_PRECISION else PRECISION)
         /\ exists d2 p2 tr log2,
              gpsd_shutdown clockinfo' refclkunit d1 p1
              = Some (d2, p2, tr, log2)
              /\ cp_unitptr p2 = None
              /\ census (s_clock_units d2) = census (s_clock_units d)
       else
         s_clock_units d1 = s_clock_units d
         /\ (cp_unitptr p1 = None \/ p1 = p).
Proof.
  intros (Nu & Na & Fa) Fresh Fr Hfuel Hlen u.
  rewrite gpsd_start_eq.
  destruct (gpsd_init_check (s_gpsd_addr d) (s_resolver d)) as [[ok r] ilog].
  cbv zeta. destruct ok; cbn [negb].
  2: { do 4 eexists. split; [ reflexivity | ].
       split; [ split; [ exact Nu | split; [ exact Na | exact Fa ] ] | ].
       split; [ reflexivity | ]. split; [ reflexivity | right; reflexivity ]. }
  fold u. unfold users.
  destruct (nth_error (s_clock_units d) (scan_units u (s_clock_units d)))
    as [x |] eqn:Nth.
  - (* the unit is there *)
    destruct (scan_units_found u _ x Nth) as (l1 & l2 & Eu & L & Ux & Fo).
    rewrite <- L. rewrite Eu in *.
    rewrite put_unit_at.
    rewrite map_app in Nu, Na. cbn [map] in Nu, Na.
    destruct (NoDup_app_split _ _ _ Nu) as (Nu1 & Nu2 & Nu3).
    destruct (NoDup_app_split _ _ _ Na) as (Na1 & Na2 & Na3).
    apply Forall_app in Fa. destruct Fa as [Fa1 Fa2].
    apply Forall_cons_iff in Fa2. destruct Fa2 as [[Fx1 Fx2] Fa2].
    apply Forall_app in Fr. destruct Fr as [_ Fr2].
    apply Forall_cons_iff in Fr2. destruct Fr2 as [Frx _].
    assert (Rc : u64 (c_refcount x + 1) = c_refcount x + 1)
      by (apply u64_small; lia).
    destruct (start_setup_outcome clockinfo unit sys (s_gpsd_addr d) r p
                (map (fun lm => (fst lm, MsgInit (snd lm))) ilog)
                (set_c_refcount (u64 (c_refcount x + 1)) x) l1 l2)
      as (ok & d1 & p1 & log1 & E & Ad & Out).
    rewrite E. exists ok, d1, p1, log1. split; [ reflexivity | ].
    destruct ok.
    + destruct Out as (c' & Un & A' & U' & R' & D' & M' & P' & Pt & Pa & Io & Pr).
      cbn [c_addr c_unit c_refcount set_c_refcount] in A', U', R', Pt.
      rewrite Rc in R'.
      split.
      { rewrite Un. split; [ | split ].
        - rewrite map_app. cbn [map]. rewrite U'. exact Nu.
        - rewrite map_app. cbn [map]. rewrite A'. exact Na.
        - apply Forall_app. split; [ exact Fa1 | ].
          apply Forall_cons; [ | exact Fa2 ]. rewrite U', R'. lia. }
      split; [ exact Ad | ].
      split.
      { exists c'. rewrite Un.
        split; [ apply in_or_app; right; left; reflexivity | ].
        split; [ rewrite A'; exact Pt | ].
        split; [ congruence | ].
        split; [ exact R' | ].
        split; [ intros Z0; lia | ].
        split; [ exact M' | exact P' ]. }
      split.
      { rewrite Un, !other_units_app, !other_units_one by congruence.
        reflexivity. }
      split; [ exact Io | ]. split; [ exact Pr | ].
      destruct d1 as [units1 addr1 r1]. cbn [s_clock_units] in Un. subst units1.
      destruct (shutdown_after_start clockinfo' refclkunit addr1 r1 p1 c' l1 l2)
        as (d2 & p2 & tr & log2 & S1 & S2 & S3).
      * rewrite A'. exact Pt.
      * rewrite A'. exact Na1.
      * rewrite A'. exact Na2.
      * lia.
      * exists d2, p2, tr, log2. split; [ exact S1 | ]. split; [ exact S2 | ].
        rewrite S3, R', A', U'.
        rewrite (proj2 (Z.eqb_neq _ _)) by lia.
        rewrite census_app. cbn [census map app].
        replace (c_refcount x + 1 - 1) with (c_refcount x) by lia.
        reflexivity.
    + destruct Out as (Un & Pt).
      cbn [c_refcount set_c_refcount] in Un. rewrite Rc in Un.
      replace (c_refcount x + 1 - 1) with (c_refcount x) in Un by lia.
      rewrite u64_small, (proj2 (Z.eqb_neq _ _)) in Un by lia.
      split.
      { rewrite Un. split; [ | split ].
        - rewrite map_app. exact Nu.
        - rewrite map_app. exact Na.
        - apply Forall_app. split; [ exact Fa1 | ].
          apply Forall_cons; [ | exact Fa2 ]. cbn. lia. }
      split; [ exact Ad | ].
      split; [ | left; exact Pt ].
      rewrite Un. destruct x; reflexivity.
  - (* a new unit *)
    destruct (scan_units_fresh u _ Nth) as [L Fo].
    rewrite L.
    assert (Hmy : exists ret spp heap,
               myasprintf fuel (sys_malloc sys)
                 (fun n => (Z.of_nat (String.length (device_text unit sys)),
                            take (n - 1) (device_text unit sys)))
               = Some (ret, spp, heap)
               /\ (ret = -1
                   \/ 0 <= ret /\ spp = Some (device_text unit sys))).
    { unfold myasprintf. change 32 with (32 * 2 ^ 0) at 1.
      destruct (myasprintf_loop_result (sys_malloc sys)
                  (fun n => (Z.of_nat (String.length (device_text unit sys)),
                             take (n - 1) (device_text unit sys)))
                  (device_text unit sys) (fun n => eq_refl) Hlen fuel 0 None [])
        as (k' & heap' & _ & _ & R); try lia.
      - assert (2 ^ 27 <= 2 ^ Z.of_nat fuel)
          by (apply Z.pow_le_mono_r; lia).
        change (2 ^ 0) with 1. lia.
      - reflexivity.
      - destruct (sys_malloc sys (64 * 2 ^ k')).
        + destruct R as (_ & R & _). do 3 eexists.
          split; [ exact R | right; split; [ lia | reflexivity ] ].
        + destruct R as (R & _). do 3 eexists.
          split; [ exact R | left; reflexivity ]. }
    destruct Hmy as (ret & spp & heap & -> & Hret).
    set (c := set_c_up _ (new_unit unit sys (s_gpsd_addr d))).
    rewrite put_unit_end.
    assert (Rg : registry_ok (s_clock_units d))
      by (split; [ exact Nu | split; [ exact Na | exact Fa ] ]).
    assert (C1 : c_refcount c = 1 /\ c_addr c = sys_emalloc_zero sys
                 /\ c_unit c = u
                 /\ device (c_up c) = match spp with Some s => s | None => "" end)
      by (repeat split).
    destruct C1 as (Cr & Ca & Cu & Cd).
    destruct (Z.eqb_spec (-1) ret) as [Em | Em].
    { rewrite dev_fail_outcome, Cr. change (u64 (1 - 1) =? 0) with true.
      cbv iota. rewrite app_nil_r. do 4 eexists.
      split; [ reflexivity | ]. split; [ exact Rg | ].
      split; [ reflexivity | ]. split; [ reflexivity | left; reflexivity ]. }
    destruct (sys_stat sys (device (c_up c))) as [rc is_chr].
    destruct ((-1 =? rc) || negb is_chr).
    { rewrite dev_fail_outcome, Cr. change (u64 (1 - 1) =? 0) with true.
      cbv iota. rewrite app_nil_r. do 4 eexists.
      split; [ reflexivity | ]. split; [ exact Rg | ].
      split; [ reflexivity | ]. split; [ reflexivity | left; reflexivity ]. }
    destruct (start_setup_outcome clockinfo unit sys (s_gpsd_addr d) r p
                (map (fun lm => (fst lm, MsgInit (snd lm))) ilog)
                c (s_clock_units d) [])
      as (ok & d1 & p1 & log1 & E & Ad & Out).
    rewrite E. exists ok, d1, p1, log1. split; [ reflexivity | ].
    destruct ok.
    + destruct Out as (c' & Un & A' & U' & R' & D' & M' & P' & Pt & Pa & Io & Pr).
      rewrite Ca in A', Pt. rewrite Cu in U'. rewrite Cr in R'.
      pose proof (land_127_range unit) as Ur. fold u in Ur.
      assert (Nu' : ~ In u (map c_unit (s_clock_units d))).
      { intros X. apply in_map_iff in X. destruct X as (y & Y1 & Y2).
        rewrite Forall_forall in Fo. apply (Fo y Y2 Y1). }
      split.
      { rewrite Un. split; [ | split ].
        - rewrite map_app. cbn [map]. rewrite U'.
          apply NoDup_app_put; [ exact Nu' | intros [] | ].
          rewrite app_nil_r. exact Nu.
        - rewrite map_app. cbn [map]. rewrite A'.
          apply NoDup_app_put; [ exact Fresh | intros [] | ].
          rewrite app_nil_r. exact Na.
        - apply Forall_app. split; [ exact Fa | ].
          apply Forall_cons; [ | constructor ]. rewrite U', R'. lia. }
      split; [ exact Ad | ].
      split.
      { exists c'. rewrite Un.
        split; [ apply in_or_app; right; left; reflexivity | ].
        split; [ rewrite A'; exact Pt | ].
        split; [ exact U' | ].
        split; [ rewrite R'; reflexivity | ].
        split; [ intros _ | split; [ exact M' | exact P' ] ].
        split; [ exact A' | ].
        rewrite D', Cd. destruct Hret as [X | [_ ->]]; [ congruence | ].
        reflexivity. }
      split.
      { rewrite Un, other_units_app, other_units_one by exact U'.
        change (other_units u []) with (@nil unit_cell).
        rewrite app_nil_r. reflexivity. }
      split; [ exact Io | ]. split; [ exact Pr | ].
      destruct d1 as [units1 addr1 r1]. cbn [s_clock_units] in Un. subst units1.
      destruct (shutdown_after_start clockinfo' refclkunit addr1 r1 p1 c'
                  (s_clock_units d) [])
        as (d2 & p2 & tr & log2 & S1 & S2 & S3).
      * rewrite A'. exact Pt.
      * rewrite A'. exact Fresh.
      * intros [].
      * lia.
      * exists d2, p2, tr, log2. split; [ exact S1 | ]. split; [ exact S2 | ].
        rewrite S3, R'. cbn. rewrite !app_nil_r. reflexivity.
    + destruct Out as (Un & Pt). rewrite Cr in Un.
      change (u64 (1 - 1) =? 0) with true in Un. cbv iota in Un.
      rewrite app_nil_r in Un.
      split; [ rewrite Un; exact Rg | ].
      split; [ exact Ad | ].
      split; [ exact Un | left; exact Pt ].
Qed.

(** ** Stamps and their flags, time strings, long lines *)

(** ** Lists with elements struck out *)
Lemma sub_list_refl {A : Type} (l : list A) : sub_list l l.
Proof. induction l; constructor; assumption. Qed.

Lemma sub_list_empty {A : Type} (l : list A) : sub_list [] l.
Proof. induction l; constructor; assumption. Qed.

Lemma sub_list_app {A : Type} (a b c d : list A) :
  sub_list a b -> sub_list c d -> sub_list (a ++ c) (b ++ d).
Proof.
  intros H. induction H; intros Hc; cbn; [ exact Hc | | ];
    constructor; auto.
Qed.

Lemma sub_list_trans {A : Type} (b c : list A) :
  sub_list b c -> forall a, sub_list a b -> sub_list a c.
Proof.
  intros H. induction H as [| x b c H IH | x b c H IH]; intros a Ha.
  - exact Ha.
  - inversion Ha; subst.
    + apply sub_list_keep. apply IH. assumption.
    + apply sub_list_drop. apply IH. assumption.
  - apply sub_list_drop. apply IH. exact Ha.
Qed.

Lemma sub_list_later {A : Type} (a b : list A) : sub_list a (b ++ a).
Proof.
  induction b; cbn; [ apply sub_list_refl | constructor; assumption ].
Qed.

Lemma sub_list_sooner {A : Type} (a b : list A) : sub_list a (a ++ b).
Proof.
  induction a; cbn; [ apply sub_list_empty | constructor; assumption ].
Qed.

Lemma sub_list_length {A : Type} (a b : list A) :
  sub_list a b -> (List.length a <= List.length b)%nat.
Proof. intros H. induction H; cbn; lia. Qed.

(** ** The account *)
Lemma accounted_refl (w : world) : accounted [] [] [] w w.
Proof.
  exists [], []. rewrite !app_nil_r. cbn.
  repeat split; apply sub_list_refl.
Qed.

Lemma accounted_trans (a a' a2 b b' b2 : list l_fp) (w w1 w2 : world) :
  accounted a a' a2 w w1 ->
  accounted b b' b2 w1 w2 ->
  accounted (a ++ b) (a' ++ b') (a2 ++ b2) w w2.
Proof.
  intros (f1 & g1 & S1 & T1 & A1 & B1 & C1) (f2 & g2 & S2 & T2 & A2 & B2 & C2).
  exists (f1 ++ f2)%list, (g1 ++ g2)%list.
  split; [ rewrite S2, S1, app_assoc; reflexivity | ].
  split; [ rewrite T2, T1, app_assoc; reflexivity | ].
  rewrite !map_app.
  split; [ | split ].
  - rewrite <- app_assoc.
    apply (sub_list_trans (map fst f1 ++ pending_serial w1 ++ b)%list).
    + rewrite !app_assoc. apply sub_list_app; [ exact A1 | apply sub_list_refl ].
    + apply sub_list_app; [ apply sub_list_refl | exact A2 ].
  - rewrite <- app_assoc.
    apply (sub_list_trans (map fst g1 ++ pending_pulse2 w1 ++ b2)%list).
    + rewrite !app_assoc. apply sub_list_app; [ exact B1 | apply sub_list_refl ].
    + apply sub_list_app; [ apply sub_list_refl | exact B2 ].
  - apply (sub_list_trans (pending_pulse w1 ++ b')%list).
    + rewrite app_assoc. apply sub_list_app; [ exact C1 | apply sub_list_refl ].
    + exact C2.
Qed.

(** A step that hands nothing to the core and leaves the stamps that
    wait as they are. *)
Lemma accounted_same (w w' : world) :
  (forall ch, samples_of ch (w_trace w') = samples_of ch (w_trace w)) ->
  pending_serial w' = pending_serial w ->
  pending_pulse w' = pending_pulse w ->
  pending_pulse2 w' = pending_pulse2 w ->
  accounted [] [] [] w w'.
Proof.
  intros S A B C. exists [], []. rewrite !S, A, B, C, !app_nil_r. cbn.
  repeat split; apply sub_list_refl.
Qed.

(** Evaluations consume what waits. *)
Lemma accounted_evaluated (w w' : world) :
  stamps_kept w w' ->
  primary_idle w w' \/ primary_fed w w' ->
  secondary_idle w w' \/ secondary_fed w w' ->
  accounted [] [] [] w w'.
Proof.
  unfold stamps_kept, accounted, pending_serial, pending_pulse, pending_pulse2.
  intros (K1 & K2 & K3 & K4 & K5) P S.
  assert (Ki : ibt_stamp (w_up w') = ibt_stamp (w_up w))
    by (unfold ibt_stamp; rewrite K1; reflexivity).
  rewrite !app_nil_r, Ki, K3, K4.
  assert (Sec : exists fed2,
             samples_of Secondary (w_trace w')
             = (samples_of Secondary (w_trace w) ++ fed2)%list
             /\ sub_list
                  (map fst fed2
                   ++ (if fl_pps2 (w_up w') then [pps_stamp2 (w_up w)] else []))%list
                  (if fl_pps2 (w_up w) then [pps_stamp2 (w_up w)] else [])).
  { destruct S as [(S1 & _ & S3) | (S1 & S2 & S3 & _)].
    - exists []. rewrite app_nil_r, S3. split; [ exact S1 | apply sub_list_refl ].
    - eexists. split; [ exact S3 | ]. rewrite S1, S2. apply sub_list_refl. }
  destruct Sec as (fed2 & T1 & T2).
  destruct P as [(P1 & _ & P3 & P4) | (P1 & P2 & [(P3 & _ & P5) | (P3 & P4 & P5 & _)])].
  - exists [], fed2. rewrite app_nil_r, P3, P4.
    split; [ exact P1 | ]. split; [ exact T1 | ].
    split; [ apply sub_list_refl | ]. split; [ exact T2 | apply sub_list_refl ].
  - eexists; exists fed2. split; [ exact P3 | ]. split; [ exact T1 | ].
    rewrite P1, P2, P5.
    split; [ apply sub_list_refl | ]. split; [ exact T2 | apply sub_list_refl ].
  - eexists; exists fed2. split; [ exact P5 | ]. split; [ exact T1 | ].
    rewrite P1, P2, P3, P4.
    split; [ apply sub_list_refl | ]. split; [ exact T2 | apply sub_list_empty ].
Qed.

(** The weeding of stale stamps only takes flags down. *)
Lemma accounted_weeded (w : world) :
  accounted [] [] [] w
    (if fl_pps (w_up w) && fl_ibt (w_up w) then
       let diff := u64 (ibt_local (w_up w) - pps_local (w_up w)) in
       if lfpsint diff >? 0 then upd_up (set_fl_pps false) w
       else if lfpsint diff <? 0 then upd_up (set_fl_ibt false) w
       else w
     else w).
Proof.
  destruct (fl_pps (w_up w) && fl_ibt (w_up w)); [ | apply accounted_refl ].
  cbv zeta.
  destruct (lfpsint (u64 (ibt_local (w_up w) - pps_local (w_up w))) >? 0).
  - exists [], []. rewrite !app_nil_r. cbn.
    repeat split; try apply sub_list_refl.
    unfold pending_pulse. cbn. apply sub_list_empty.
  - destruct (lfpsint (u64 (ibt_local (w_up w) - pps_local (w_up w))) <? 0);
      [ | apply accounted_refl ].
    exists [], []. rewrite !app_nil_r. cbn.
    repeat split; try apply sub_list_refl.
    unfold pending_serial. cbn. apply sub_list_empty.
Qed.

(** What [gpsd_parse] does once the record has been processed. *)
Lemma accounted_parse_tail (w : world) : accounted [] [] [] w (parse_tail w).
Proof.
  unfold parse_tail. cbv zeta.
  set (w1 := upd_up (fun up => set_tc_recv (incr (tc_recv up)) up) w).
  assert (A1 : accounted [] [] [] w w1)
    by (apply accounted_same; reflexivity).
  set (w2 := match w_pps_peer w1 with
             | Some _ => eval_pps_secondary w1
             | None => w1
             end).
  assert (A2 : accounted [] [] [] w1 w2).
  { subst w2. destruct (w_pps_peer w1); [ | apply accounted_refl ].
    destruct (eval_pps_secondary_step w1) as (K & P & S).
    apply accounted_evaluated; auto. }
  clearbody w2. clearbody w1.
  pose proof (accounted_weeded w2) as A3.
  match type of A3 with
  | accounted _ _ _ _ ?x => set (w3 := x) in *
  end.
  clearbody w3.
  assert (A4 : accounted [] [] [] w3
                 (if mode (w_up w3) =? MODE_OP_STRICT then eval_strict w3
                  else if mode (w_up w3) =? MODE_OP_AUTO then eval_auto w3
                  else eval_serial w3)).
  { destruct (mode (w_up w3) =? MODE_OP_STRICT).
    - destruct (eval_strict_step w3) as (K & P & S).
      apply accounted_evaluated; auto.
    - destruct (mode (w_up w3) =? MODE_OP_AUTO).
      + destruct (eval_auto_step w3) as (K & P & S).
        apply accounted_evaluated; auto.
      + destruct (eval_serial_step w3) as (K & P & S).
        apply accounted_evaluated; auto. }
  exact (accounted_trans [] [] [] [] [] [] _ _ _
           (accounted_trans [] [] [] [] [] [] _ _ _
              (accounted_trans [] [] [] [] [] [] _ _ _ A1 A2) A3) A4).
Qed.

(** ** What the records bring *)
Lemma sub_list_arrival (p a : list l_fp) : sub_list a (p ++ a).
Proof. apply sub_list_later. Qed.

Lemma process_tpv_accounted (rtime : l_fp) (w : world) :
  accounted (tpv_stamp w) [] [] w (process_tpv rtime w).
Proof.
  exists [], []. rewrite !process_tpv_samples, !app_nil_r.
  split; [ reflexivity | ]. split; [ reflexivity | ]. cbn [map app].
  unfold process_tpv, tpv_stamp, pending_serial, pending_pulse, pending_pulse2.
  cbv zeta.
  destruct (i32 (fst (json_object_lookup_int_default (json_parse (w_up w))
                        (buffer (w_up w)) 0 "mode" 0 0)) <? 2).
  - destruct (pf_toff (w_up w)); cbn;
      repeat split; try apply sub_list_empty; apply sub_list_refl.
  - destruct (json_object_lookup_string (json_parse (w_up w))
                (buffer (w_up w)) 0 "time") as [gps_time |].
    + destruct (pf_toff (w_up w)) eqn:Pt; cbn [negb].
      * cbn. rewrite app_nil_r.
        repeat split; apply sub_list_refl.
      * change (ibt_stamp
                  (w_up
                     (upd_pp Primary (save_ltc (Some gps_time))
                        (upd_up
                           (fun up => set_tc_ibt_recv (incr (tc_ibt_recv up)) up)
                           (upd_up (set_fl_nosync false) w)))))
          with (ibt_stamp (w_up w)).
        destruct (convert_ascii_time (ibt_stamp (w_up w)) gps_time)
          as [ok stamp].
        destruct ok; cbn.
        -- repeat split; try apply sub_list_refl.
           apply sub_list_later.
        -- repeat split; try apply sub_list_refl; apply sub_list_empty.
    + destruct (pf_toff (w_up w)); cbn;
        repeat split; try apply sub_list_empty; apply sub_list_refl.
Qed.

Lemma process_toff_accounted (rtime : l_fp) (w : world) :
  accounted (toff_stamp w) [] [] w (process_toff rtime w).
Proof.
  exists [], []. rewrite !process_toff_samples, !app_nil_r.
  split; [ reflexivity | ]. split; [ reflexivity | ]. cbn [map app].
  unfold process_toff, toff_stamp, pending_serial, pending_pulse, pending_pulse2.
  cbv zeta.
  change (fl_nosync
            (w_up
               (upd_up (set_pf_toff true)
                  (upd_up
                     (fun up => set_tc_ibt_recv (incr (tc_ibt_recv up)) up) w))))
    with (fl_nosync (w_up w)).
  destruct (fl_nosync (w_up w)).
  { cbn. rewrite app_nil_r. repeat split; apply sub_list_refl. }
  change (json_parse
            (w_up
               (upd_up (set_pf_toff true)
                  (upd_up
                     (fun up => set_tc_ibt_recv (incr (tc_ibt_recv up)) up) w))))
    with (json_parse (w_up w)).
  change (buffer
            (w_up
               (upd_up (set_pf_toff true)
                  (upd_up
                     (fun up => set_tc_ibt_recv (incr (tc_ibt_recv up)) up) w))))
    with (buffer (w_up w)).
  destruct (get_binary_time (json_parse (w_up w)) (buffer (w_up w))
              "clock_sec" "clock_nsec" 1) as [recvt |].
  - destruct (get_binary_time (json_parse (w_up w)) (buffer (w_up w))
                "real_sec" "real_nsec" 1) as [stamp |]; cbn.
    + repeat split; try apply sub_list_refl. apply sub_list_later.
    + rewrite app_nil_r. repeat split; apply sub_list_refl.
  - cbn. rewrite app_nil_r. repeat split; apply sub_list_refl.
Qed.

Lemma process_pps_accounted (rtime : l_fp) (w : world) :
  accounted []
    match pulse_times w with
    | Some (clock, _) =>
        if Z.land (sloppyclockflag (pp_of Primary w)) CLK_FLAG2 =? 0
        then [u64 (clock - pps_fudge (w_up w))] else []
    | None => []
    end
    match pulse_times w with
    | Some (_, real) => [real]
    | None => []
    end
    w (process_pps rtime w).
Proof.
  exists [], []. rewrite !process_pps_samples, !app_nil_r.
  split; [ reflexivity | ]. split; [ reflexivity | ]. cbn [map app].
  unfold process_pps, pulse_times, pending_serial, pending_pulse, pending_pulse2.
  cbv zeta.
  change (fl_nosync
            (w_up
               (upd_up
                  (fun up => set_tc_pps_recv (incr (tc_pps_recv up)) up) w)))
    with (fl_nosync (w_up w)).
  destruct (fl_nosync (w_up w)).
  { cbn. rewrite !app_nil_r. repeat split; apply sub_list_refl. }
  match goal with
  | |- context [pf_nsec (u_flags (w_up ?x))] =>
      change (pf_nsec (u_flags (w_up x))) with (pf_nsec (w_up w));
      change (json_parse (w_up x)) with (json_parse (w_up w));
      change (buffer (w_up x)) with (buffer (w_up w))
  end.
  destruct (pf_nsec (w_up w));
    match goal with
    | |- context [get_binary_time ?a ?b "clock_sec" ?c ?d] =>
        destruct (get_binary_time a b "clock_sec" c d) as [clock |]
    end;
    try (cbn; rewrite !app_nil_r; repeat split; apply sub_list_refl);
    match goal with
    | |- context [get_binary_time ?a ?b "real_sec" ?c ?d] =>
        destruct (get_binary_time a b "real_sec" c d) as [real |]
    end;
    try (cbn; rewrite !app_nil_r; repeat split; apply sub_list_refl);
    cbn -[Z.land Z.eqb u64];
    (split; [ apply sub_list_refl | ]);
    (split; [ apply sub_list_later | ]);
    unfold pp_of, peer_of; cbn -[Z.land Z.eqb u64];
    destruct (Z.land (sloppyclockflag (procptr (w_peer w))) CLK_FLAG2 =? 0);
    try apply sub_list_later; apply sub_list_empty.
Qed.

Lemma accounted_stock (w w' : world) :
  (forall ch, samples_of ch (w_trace w') = samples_of ch (w_trace w)) ->
  stock w' = stock w ->
  accounted [] [] [] w w'.
Proof.
  unfold stock. intros S E. inversion E.
  apply accounted_same; assumption.
Qed.

Lemma log_throttled_stock (lvl : log_level) (msg : log_message) (w : world) :
  stock (log_throttled lvl msg w) = stock w.
Proof.
  unfold log_throttled, syslogok.
  destruct (negb _ || _ || _); reflexivity.
Qed.

Lemma process_version_stock (sys : syscalls) (w : world) :
  stock (process_version sys w) = stock w.
Proof.
  rewrite process_version_eq. cbv zeta.
  do 2 break_match. break_if; [ | apply log_throttled_stock ].
  match goal with
  | |- context [note_version ?a ?b ?c ?d w] =>
      assert (N : stock (note_version a b c d w) = stock w)
        by (unfold note_version; cbv zeta;
            destruct (negb (fl_vers (w_up w))); reflexivity);
      generalize dependent (note_version a b c d w)
  end.
  intros w1 A. rewrite <- A.
  unfold request_watch. cbv zeta.
  destruct (fl_watch (w_up w1)); [ reflexivity | ].
  break_if; [ | reflexivity ].
  rewrite log_throttled_stock. reflexivity.
Qed.

Lemma process_watch_stock (w : world) : stock (process_watch w) = stock w.
Proof.
  unfold process_watch. repeat break_match; reflexivity.
Qed.

(** A record of a known class: processed, then counted and evaluated. *)
Lemma accounted_record (a b c : list l_fp) (w w0 w1 : world) :
  accounted [] [] [] w w0 ->
  accounted a b c w0 w1 ->
  accounted a b c w (parse_tail w1).
Proof.
  intros A0 A1.
  pose proof (accounted_trans _ _ _ _ _ _ _ _ _
                (accounted_trans _ _ _ _ _ _ _ _ _ A0 A1)
                (accounted_parse_tail w1)) as A.
  cbn [app] in A. rewrite !app_nil_r in A. exact A.
Qed.

(** One record: what the core gets and what waits afterwards comes out
    of what waited and what the record brought. *)
Lemma gpsd_parse_accounted (rtime : l_fp) (sys : syscalls) (w : world) :
  accounted (serial_arrival w) (pulse_arrival w) (pulse_arrival2 w)
    w (gpsd_parse rtime sys w).
Proof.
  rewrite gpsd_parse_eq.
  unfold serial_arrival, pulse_arrival, pulse_arrival2, record_class, tokenized.
  cbv zeta.
  destruct (json_parse_record (json_parse (w_up w)) (buffer (w_up w))
              (buflen (w_up w))) as [[ok jctx] mem].
  set (w0 := upd_up (set_buffer mem) (upd_up (set_json_parse jctx) w)).
  assert (A0 : accounted [] [] [] w w0) by (apply accounted_same; reflexivity).
  destruct ok; cbn [negb]; cbv iota;
    [ | apply accounted_same; reflexivity ].
  destruct (json_object_lookup_string jctx mem 0 "class") as [clsid |];
    [ | apply accounted_same; reflexivity ].
  destruct (streq "TPV" clsid) eqn:Tpv.
  { apply String.eqb_eq in Tpv. subst clsid.
    change (streq "PPS" "TPV") with false. cbv iota.
    apply (accounted_record _ _ _ w w0); [ exact A0 | ].
    apply process_tpv_accounted. }
  destruct (streq "PPS" clsid) eqn:Pps.
  { apply String.eqb_eq in Pps. subst clsid.
    change (streq "TOFF" "PPS") with false. cbv iota.
    apply (accounted_record _ _ _ w w0); [ exact A0 | ].
    exact (process_pps_accounted rtime w0). }
  destruct (streq "TOFF" clsid) eqn:Toff.
  { apply (accounted_record _ _ _ w w0); [ exact A0 | ].
    apply process_toff_accounted. }
  destruct (streq "VERSION" clsid).
  { apply (accounted_record _ _ _ w w0); [ exact A0 | ].
    apply accounted_stock;
      [ intros ch; apply process_version_samples
      | apply process_version_stock ]. }
  destruct (streq "WATCH" clsid).
  { apply (accounted_record _ _ _ w w0); [ exact A0 | ].
    apply accounted_stock;
      [ intros ch; apply process_watch_samples
      | apply process_watch_stock ]. }
  exact A0.
Qed.

(** A run of records. *)
Lemma parse_records_accounted (rs : list record_in) :
  forall w,
    accounted (arrivals serial_arrival rs w) (arrivals pulse_arrival rs w)
      (arrivals pulse_arrival2 rs w) w (parse_records rs w).
Proof.
  induction rs as [| r rest IH]; intros w; [ apply accounted_refl | ].
  cbn [arrivals parse_records fold_left].
  set (wl := upd_up (set_buflen (Z.of_nat (String.length (r_text r))))
               (upd_up (set_buffer (r_text r)) w)).
  assert (A0 : accounted [] [] [] w wl) by (apply accounted_same; reflexivity).
  pose proof (gpsd_parse_accounted (r_time r) (r_sys r) wl) as A1.
  pose proof (IH (parse_record r w)) as A2.
  pose proof (accounted_trans _ _ _ _ _ _ _ _ _
                (accounted_trans _ _ _ _ _ _ _ _ _ A0 A1) A2) as A.
  cbn [app] in A. exact A.
Qed.

(** In numbers: the core never gets more samples than stamps were
    there to give. *)
Lemma accounted_count (serial pulse pulse2 : list l_fp) (w w' : world) :
  accounted serial pulse pulse2 w w' ->
  (List.length (samples_of Primary (w_trace w'))
   + List.length (pending_serial w')
   <= List.length (samples_of Primary (w_trace w))
      + List.length (pending_serial w) + List.length serial)%nat
  /\ (List.length (samples_of Secondary (w_trace w'))
      + List.length (pending_pulse2 w')
      <= List.length (samples_of Secondary (w_trace w))
         + List.length (pending_pulse2 w) + List.length pulse2)%nat.
Proof.
  intros (fed & fed2 & S & T & A & B & _).
  apply sub_list_length in A. apply sub_list_length in B.
  rewrite S, T. rewrite !length_app, !length_map in *. lia.
Qed.

(** C2.  What the driver hands to the core is a pair of a reference time
    and a receive time, given to [add_clock_sample], with the precision
    of the peer set to the estimate that belongs to the pair.  Whatever
    evaluations follow one another before the next record arrives, the
    core gets at most one such pair on the primary channel (the serial
    stamp with its own receive time, or with the one of the pulse) and
    at most one on the secondary channel (the stamp and the receive time
    of the pulse); the flags of the stamps that were used are down
    afterwards.  One call of [gpsd_parse], whatever the record, adds at
    most one pair per channel.  And a flag goes up only for a stamp that
    the record has brought: over one record, and over any run of records,
    the reference stamps handed to the core on a channel, followed by the
    stamp that still waits, are what is left of the stamp that waited at
    the start and the stamps the records brought when some are struck
    out.  So every stamp that is fed was stored by a record, and none is
    fed twice. *)
Theorem samples_reach_core_once (es : list evaluation) (rs : list record_in)
    (w : world) :
  (primary_idle w (evaluations es w) \/ primary_fed w (evaluations es w))
  /\ (secondary_idle w (evaluations es w)
      \/ secondary_fed w (evaluations es w))
  /\ (forall ch rtime sys, at_most_one_more ch w (gpsd_parse rtime sys w))
  /\ (forall rtime sys,
        accounted (serial_arrival w) (pulse_arrival w) (pulse_arrival2 w)
          w (gpsd_parse rtime sys w))
  /\ accounted (arrivals serial_arrival rs w) (arrivals pulse_arrival rs w)
       (arrivals pulse_arrival2 rs w) w (parse_records rs w).
Proof.
  destruct (evaluations_step es w) as (_ & P & S).
  split; [ exact P | ]. split; [ exact S | ].
  split; [ intros ch rtime sys; apply gpsd_parse_feeds_once | ].
  split; [ intros rtime sys; apply gpsd_parse_accounted | ].
  apply parse_records_accounted.
Qed.

Lemma digit_weight_step (k : nat) :
  digit_weight (S k) / 10 = digit_weight k.
Proof.
  destruct k as [| k]; [ reflexivity | ].
  cbn [digit_weight]. rewrite Nat2Z.inj_succ, Z.pow_succ_r by lia.
  rewrite Z.mul_comm, Z.div_mul by lia. reflexivity.
Qed.

Lemma dec_value_from_acc (ds : string) :
  forall acc,
    dec_value_from acc ds
    = acc * 10 ^ Z.of_nat (String.length ds) + dec_value_from 0 ds.
Proof.
  induction ds as [| c r IH]; intros acc; cbn [dec_value_from String.length].
  - cbn. lia.
  - rewrite IH. rewrite (IH (0 * 10 + (uchar c - 48))).
    rewrite Nat2Z.inj_succ, Z.pow_succ_r by lia. ring.
Qed.

Lemma substring_length_le (s : string) :
  forall k, (String.length (substring 0 k s) <= k)%nat.
Proof.
  induction s as [| c r IH]; intros [| k]; cbn; try lia.
  specialize (IH k). lia.
Qed.

(** The loop of [convert_ascii_time] adds the nanoseconds of the digits it
    passes. *)
Lemma convert_ascii_time_frac_value (ep : string) :
  forall (k : nat) nsec,
    fst (convert_ascii_time_frac ep (digit_weight k) nsec)
    = nsec
      + dec_value (substring 0 k (digit_prefix ep))
        * 10 ^ (Z.of_nat k
                - Z.of_nat (String.length (substring 0 k (digit_prefix ep)))).
Proof.
  induction ep as [| c r IH]; intros k nsec;
    cbn [convert_ascii_time_frac digit_prefix].
  - replace (substring 0 k "") with "" by (destruct k; reflexivity).
    change (dec_value "") with 0. cbn [fst]. ring.
  - destruct (isdigit c) eqn:D.
    + destruct k as [| k].
      * cbn [digit_weight]. change (0 / 10) with (digit_weight 0).
        rewrite IH.
        replace (substring 0 0 (digit_prefix r)) with ""
          by (destruct (digit_prefix r); reflexivity).
        cbn [substring]. change (dec_value "") with 0. ring.
      * rewrite digit_weight_step, IH.
        cbn [substring String.length digit_weight].
        unfold dec_value. cbn [dec_value_from].
        rewrite (dec_value_from_acc _ (0 * 10 + (uchar c - 48))).
        pose proof (substring_length_le (digit_prefix r) k) as L.
        set (h := substring 0 k (digit_prefix r)) in *.
        rewrite !Nat2Z.inj_succ.
        replace (Z.succ (Z.of_nat k) - Z.succ (Z.of_nat (String.length h)))
          with (Z.of_nat k - Z.of_nat (String.length h)) by lia.
        replace (10 ^ Z.of_nat k)
          with (10 ^ Z.of_nat (String.length h)
                * 10 ^ (Z.of_nat k - Z.of_nat (String.length h))).
        { ring. }
        rewrite <- Z.pow_add_r by lia. f_equal. lia.
    + replace (substring 0 k "") with "" by (destruct k; reflexivity).
      change (dec_value "") with 0. cbn [fst]. ring.
Qed.

Lemma nanoseconds_range (ds : string) :
  all_digits ds = true -> 0 <= nanoseconds ds < 1000000000.
Proof.
  intros H.
  pose proof (convert_ascii_time_frac_value ds 9 0) as V.
  pose proof (convert_ascii_time_frac_bound ds 100000000 0 ltac:(lia)) as B.
  change (digit_weight 9) with 100000000 in V.
  assert (P : digit_prefix ds = ds).
  { clear V B. induction ds as [| c r IH]; [ reflexivity | ].
    cbn in H |- *. apply andb_prop in H as [D H]. rewrite D, IH; auto. }
  rewrite P in V. unfold nanoseconds. cbn zeta.
  change (Z.of_nat 9) with 9 in V. lia.
Qed.

(** C3, as the code has it.  [convert_ascii_time] hands back a validity
    indicator.  On a C string it answers true exactly when [strptime]
    accepts a prefix as %Y-%m-%dT%H:%M:%S and what follows is the letter
    Z, or a dot, a run of decimal digits that may be empty, and the
    letter Z, with nothing behind.  The stamp it then stores is the
    conversion of the seconds that go with the date and of the
    nanoseconds that the first nine digits of the run stand for.  When it
    answers false the stamp is as it was. *)
Theorem convert_ascii_time_validity (fp : l_fp) (gps_time : string) :
  no_nul gps_time = true ->
  let r := convert_ascii_time fp gps_time in
  (fst r = true <->
   exists gd n, strptime gps_time = Some (gd, n)
                /\ utc_tail (drop_nat n gps_time))
  /\ (forall gd n,
        strptime gps_time = Some (gd, n) ->
        utc_tail (drop_nat n gps_time) ->
        r = (true,
             tspec_intv_to_lfp (tm_to_ntp_seconds gd)
               (nanoseconds (fraction_digits (drop_nat n gps_time)))))
  /\ (fst r = false -> snd r = fp).
Proof.
  intros Hc r.
  destruct (convert_ascii_time_accepts fp gps_time Hc) as (A & _ & C).
  split; [ exact A | ]. split; [ | exact C ].
  intros gd n Sp Ht. subst r. unfold convert_ascii_time. rewrite Sp.
  set (ep := drop_nat n gps_time) in *.
  apply utc_tail_iff in Ht.
  pose proof (convert_ascii_time_frac_rest (next ep) 100000000 0) as Fr.
  pose proof (convert_ascii_time_frac_value (next ep) 9 0) as Fv.
  change (digit_weight 9) with 100000000 in Fv.
  destruct (convert_ascii_time_frac (next ep) 100000000 0) as [ns rest].
  cbn [fst snd] in Fr, Fv. subst rest.
  unfold fraction_digits, nanoseconds, tm_to_ntp_seconds.
  destruct (Ascii.eqb (deref ep) ".") eqn:Dot.
  - rewrite Ht. cbn [deref next]. cbn [Ascii.eqb Bool.eqb negb orb].
    rewrite Fv. reflexivity.
  - rewrite Ht. reflexivity.
Qed.

(** ** A run of one character in the buffer *)
Lemma store_replicate (c : ascii) (n : nat) :
  store_nat (Bench.replicate n c) n c = Bench.replicate (S n) c.
Proof.
  induction n as [| n IH]; [ reflexivity | ].
  cbn [Bench.replicate store_nat]. rewrite IH. reflexivity.
Qed.

Lemma length_replicate (c : ascii) (n : nat) :
  String.length (Bench.replicate n c) = n.
Proof. induction n as [| n IH]; cbn; [ reflexivity | rewrite IH; reflexivity ]. Qed.

Lemma until_nul_replicate (c : ascii) (n : nat) :
  Ascii.eqb c NUL = false ->
  until_nul (Bench.replicate n c) = Bench.replicate n c.
Proof.
  intros H. induction n as [| n IH]; cbn; [ reflexivity | ].
  rewrite H, IH. reflexivity.
Qed.

(** Characters that are neither a line feed nor white space are stored
    one after the other for as long as the limit allows. *)
Lemma gpsd_receive_loop_run (rtime : l_fp) (sys : syscalls) (c : ascii)
    (edst : Z) :
  Ascii.eqb c "010" = false ->
  (cval c >? 32) = true ->
  forall (m : nat) (z : Z) (w : world),
    0 <= z ->
    buffer (w_up w) = Bench.replicate (Z.to_nat z) c ->
    z + Z.of_nat m <= edst ->
    fst (gpsd_receive_loop rtime sys (Bench.replicate m c) edst z w)
    = z + Z.of_nat m
    /\ buffer (w_up (snd (gpsd_receive_loop rtime sys (Bench.replicate m c)
                            edst z w)))
       = Bench.replicate (Z.to_nat (z + Z.of_nat m)) c.
Proof.
  intros Hnl Hblack. induction m as [| m IH]; intros z w Hz Hb Hl.
  - cbn [Bench.replicate gpsd_receive_loop fst snd Z.of_nat].
    rewrite Z.add_0_r. split; [ reflexivity | exact Hb ].
  - cbn [Bench.replicate gpsd_receive_loop]. rewrite Hnl.
    destruct (Z.ltb_spec z edst) as [_ | G]; [ | lia ].
    rewrite Hblack. cbn [orb].
    set (w1 := upd_up (fun up => set_buffer (store (buffer up) z c) up) w).
    assert (B1 : buffer (w_up w1) = Bench.replicate (Z.to_nat (z + 1)) c).
    { subst w1. cbn [w_up upd_up buffer set_buffer]. rewrite Hb.
      unfold store. destruct (Z.ltb_spec z 0) as [G | _]; [ lia | ].
      rewrite store_replicate. rewrite Z2Nat.inj_add by lia. 
      rewrite Nat.add_1_r. reflexivity. }
    destruct (IH (z + 1) w1) as (I1 & I2); [ lia | exact B1 | lia | ].
    rewrite I1, I2.
    replace (z + 1 + Z.of_nat m) with (z + Z.of_nat (S m)) by lia.
    split; reflexivity.
Qed.

(** A chunk of such characters, shorter than the buffer, is appended
    whole, wherever the characters that wait end. *)
Lemma gpsd_receive_appends (rtime : l_fp) (sys : syscalls) (c : ascii)
    (m : nat) (z : Z) (w : world) :
  Ascii.eqb c "010" = false ->
  (cval c >? 32) = true ->
  buflen (w_up w) = z ->
  0 <= z ->
  buffer (w_up w) = Bench.replicate (Z.to_nat z) c ->
  Z.of_nat m <= MAX_PDU_LEN - 1 ->
  z + Z.of_nat m < 2 ^ 31 ->
  buflen (w_up (gpsd_receive (Bench.replicate m c) rtime sys w))
  = z + Z.of_nat m
  /\ buffer (w_up (gpsd_receive (Bench.replicate m c) rtime sys w))
     = Bench.replicate (Z.to_nat (z + Z.of_nat m)) c.
Proof.
  intros Hnl Hblack Hlen Hz Hb Hm Hi. unfold gpsd_receive. rewrite Hlen.
  destruct (gpsd_receive_loop_run rtime sys c (z + MAX_PDU_LEN - 1) Hnl Hblack
              m z w Hz Hb) as (L1 & L2); [ lia | ].
  destruct (gpsd_receive_loop rtime sys (Bench.replicate m c)
              (z + MAX_PDU_LEN - 1) z w) as [pdst w'].
  cbn [fst snd] in L1, L2. subst pdst.
  cbn [w_up upd_up buflen buffer set_buflen set_tickover upd_sock].
  split; [ apply i32_small; lia | exact L2 ].
Qed.

End Properties.

(** ** The driver at work on the test bench *)

Import Bench.

(** A TPV record with a fix, received in IBT mode, is evaluated at once:
    the core gets the stamp of the record with the receive time of the
    chunk, and nothing is counted as a bad reply. *)
Example tpv_record_is_fed :
  let w := gpsd_receive (tpv_record ++ newline) 1000 sys_ok (connected 0) in
  samples_of Primary (w_trace w) = [(16150925587957940224, 1000)]
  /\ tc_breply (w_up w) = 0
  /\ tc_ibt_used (w_up w) = 1
  /\ fl_ibt (w_up w) = false
  /\ buflen (w_up w) = 0.
Proof. vm_compute. repeat split. Qed.

(** Records of a class the driver does not use are skipped without a
    count on either tally. *)
Example sky_record_is_skipped :
  let w := gpsd_receive (sky_record ++ newline) 1000 sys_ok (connected 0) in
  w_trace w = [] /\ tc_breply (w_up w) = 0 /\ tc_recv (w_up w) = 0.
Proof. vm_compute. repeat split. Qed.

(** White space around a line is not part of what is parsed. *)
Example line_is_trimmed :
  let w := gpsd_receive ("   " ++ tpv_record ++ "  " ++ CRLF) 1000 sys_ok
             (connected 0) in
  samples_of Primary (w_trace w) = [(16150925587957940224, 1000)]
  /\ tc_breply (w_up w) = 0.
Proof. vm_compute. repeat split. Qed.

Example classless_record_is_a_bad_reply :
  let w := gpsd_receive (classless_record ++ newline) 1000 sys_ok
             (connected 0) in
  tc_breply (w_up w) = 1 /\ w_trace w = [].
Proof. vm_compute. repeat split. Qed.

Example convert_ascii_time_examples :
  convert_ascii_time 5 "2019-03-01T12:00:00.250Z" = (true, 16150925587957940224)
  /\ convert_ascii_time 5 "2019-03-01T12:00:00Z" = (true, 16150925586884198400)
  /\ convert_ascii_time 5 "2019-03-01T12:00:00.Z" = (true, 16150925586884198400)
  /\ convert_ascii_time 5 "2019-03-01T12:00:00.25" = (false, 5)
  /\ convert_ascii_time 5 "2019-03-01T12:00:00.25Zx" = (false, 5)
  /\ convert_ascii_time 5 "2019-03-01 12:00:00Z" = (false, 5).
Proof. vm_compute. repeat split. Qed.

(** The presets of a unit that never reaches GPSD: 10, 15, 20, ... *)
Lemma reconnect_backoff_is_additive_witness :
  0 <= tickpres (w_up (started 0)) <= TICKOVER_HIGH
  /\ tickpres (w_up (Nat.iter 3 gpsd_stop_socket (started 0)))
     = Z.min (tickpres (w_up (started 0)) + 5 * 3) TICKOVER_HIGH.
Proof.
  assert (H : 0 <= tickpres (w_up (started 0)) <= TICKOVER_HIGH)
    by (vm_compute; split; discriminate).
  split; [ exact H | ].
  destruct (reconnect_backoff_is_additive (started 0) H) as (_ & P & _).
  exact (P 3%nat).
Defined.

(** C4 as stated fails: the presets 10, 15, 20 that follow one another
    are not the multiples of one another that an exponential backoff
    would produce, whatever its factor. *)
Lemma backoff_is_not_exponential :
  map (fun n => tickpres (w_up (Nat.iter n gpsd_stop_socket (connected 0))))
    [0; 1; 2; 3]%nat
  = [10; 15; 20; 25]
  /\ ~ exponential_backoff (next_preset (connected 0)).
Proof.
  split; [ vm_compute; reflexivity | ].
  intros (num & den & [Hd Hn] & H).
  assert (E10 : next_preset (connected 0) 10 = 15) by (vm_compute; reflexivity).
  assert (E15 : next_preset (connected 0) 15 = 20) by (vm_compute; reflexivity).
  pose proof (H 10) as H10. pose proof (H 15) as H15.
  rewrite E10 in H10. rewrite E15 in H15.
  unfold TICKOVER_LOW, TICKOVER_HIGH in *.
  specialize (H10 ltac:(lia)). specialize (H15 ltac:(lia)).
  pose proof (Z.mul_div_le (10 * num) den Hd) as L.
  pose proof (Z.mul_succ_div_gt (15 * num) den Hd) as U.
  assert (Q10 : 10 * num / den = 15) by lia.
  assert (Q15 : 15 * num / den = 20) by lia.
  rewrite Q10 in L. rewrite Q15 in U. lia.
Qed.

(** C6 as stated fails: with flag3 off, a second message that comes
    before the timer has run passes as the first one did, although the
    countdown stands at LOGTHROTTLE and not at zero. *)
Lemma syslogok_grants_twice_in_one_second :
  Z.land (sloppyclockflag pp0) CLK_FLAG3 = 0
  /\ throttle_run pp0 [Ask; Ask] (w_up (started 0)) = [true; true]
  /\ logthrottle (snd (syslogok pp0 (w_up (started 0)))) = LOGTHROTTLE.
Proof. vm_compute. repeat split. Qed.

Example log_throttle_over_an_hour :
  throttle_run pp0 ([Ask; Ask; Tick; Ask] ++ repeat Tick (Z.to_nat 3598) ++ [Ask; Tick; Ask])
    (w_up (started 0))
  = [true; true; false; false; true].
Proof. vm_compute. reflexivity. Qed.

(** Eleven seconds without a socket: two attempts, the second one ten
    seconds after the first, and one line in the log. *)
Example socket_error_and_retry :
  option_map (fun w => (w_trace w, tickover (w_up w), tickpres (w_up w)))
    (timer_run (repeat sys_no_socket 11) (started 0))
  = Some ([EvLog LOG_ERR MsgCannotCreateSocket], 15, 20).
Proof. vm_compute. reflexivity. Qed.

Example eval_auto_switches_after_thirty_misses :
  map (fun n => fl_rawibt (w_up (eval_auto_run (repeat (true, false) n) (started 2))))
    [29; 30]%nat
  = [false; true].
Proof. vm_compute. reflexivity. Qed.

(** One chunk, however long, is cut off as intended. *)
Example gpsd_receive_truncates_one_chunk :
  buflen (w_up (gpsd_receive (replicate (Z.to_nat 9000) "a") 1000 sys_ok (connected 0)))
  = MAX_PDU_LEN - 1.
Proof. vm_compute. reflexivity. Qed.

(** Numbers. *)
Example strtojint_examples :
  strtojint "-123abc" 0 = mk_strtojint_result (-123) "abc" 0
  /\ strtojint "+0017" 7 = mk_strtojint_result 17 "" 7
  /\ strtojint "-" 0 = mk_strtojint_result 0 "-" EINVAL
  /\ strtojint "9223372036854775807" 0 = mk_strtojint_result LONG_MAX "" 0
  /\ strtojint "9223372036854775808" 0 = mk_strtojint_result LONG_MAX "" ERANGE
  /\ strtojint "-9223372036854775808x" 0 = mk_strtojint_result LONG_MIN "x" 0
  /\ strtojint "-9223372036854775809" 0 = mk_strtojint_result LONG_MIN "" ERANGE.
Proof. vm_compute. repeat split. Qed.

Import Fixtures.

Lemma jsmn_sizes_tpv_ctx : jsmn_sizes tpv_ctx.
Proof.
  unfold jsmn_sizes.
  let l := eval vm_compute in (tok tpv_ctx) in change (tok tpv_ctx) with l.
  repeat (constructor; [ vm_compute; split; discriminate | ]). constructor.
Qed.

(** The walk over the TPV record: seven tokens. *)
Lemma json_token_skip_advances_witness :
  jsmn_sizes tpv_ctx
  /\ (0 <= 0 < ntok tpv_ctx ->
      0 < json_token_skip tpv_ctx 0 <= ntok tpv_ctx).
Proof.
  split; [ exact jsmn_sizes_tpv_ctx | ].
  intros H.
  exact (proj1 (proj2 (json_token_skip_advances tpv_ctx 0 jsmn_sizes_tpv_ctx) H)).
Defined.

Example json_token_skip_tpv :
  ntok tpv_ctx = 7 /\ json_token_skip tpv_ctx 0 = 7
  /\ json_token_skip tpv_ctx 1 = 2.
Proof. vm_compute. repeat split. Qed.

(** Members that are not there. *)
Lemma json_object_lookup_sound_witness :
  jsmn_sizes tpv_ctx
  /\ (tok_type (tok_at tpv_ctx 1) <> JSMN_OBJECT ->
      json_object_lookup tpv_ctx tpv_mem 1 "mode" None = INVALID_TOKEN).
Proof.
  split; [ exact jsmn_sizes_tpv_ctx | ].
  intros H.
  apply (proj2 (json_object_lookup_sound tpv_ctx tpv_mem 1 "mode" None
                  jsmn_sizes_tpv_ctx)).
  right. right. right. exact H.
Defined.

Example json_object_lookup_tpv :
  json_object_lookup tpv_ctx tpv_mem 0 "mode" None = 4
  /\ json_object_lookup tpv_ctx tpv_mem 0 "mode" (Some JSMN_PRIMITIVE) = 4
  /\ json_object_lookup tpv_ctx tpv_mem 0 "mode" (Some JSMN_STRING)
     = INVALID_TOKEN
  /\ json_object_lookup tpv_ctx tpv_mem 0 "ept" None = INVALID_TOKEN.
Proof. vm_compute. repeat split. Qed.

(** The second member of the TPV record. *)
Lemma json_object_lookup_finds_first_witness :
  json_object_lookup tpv_ctx tpv_mem 0 "mode" (Some JSMN_PRIMITIVE)
  = (if jsmntype_eqb JSMN_PRIMITIVE
          (tok_type (tok_at tpv_ctx (member_key tpv_ctx 0 1 + 1)))
     then member_key tpv_ctx 0 1 + 1 else INVALID_TOKEN).
Proof.
  apply (json_object_lookup_finds_first tpv_ctx tpv_mem 0 "mode"
           (Some JSMN_PRIMITIVE) 1).
  - exact jsmn_sizes_tpv_ctx.
  - lia.
  - reflexivity.
  - vm_compute. reflexivity.
  - vm_compute. reflexivity.
  - intros i Hi. assert (i = 0%nat) by lia. subst i.
    exists "class". split; [ vm_compute; reflexivity | discriminate ].
  - vm_compute. reflexivity.
Defined.

(** A record that comes in two chunks. *)
Lemma gpsd_receive_chunks_compose_witness :
  0 <= buflen (w_up (connected 0)) < 2 ^ 30
  /\ Z.of_nat (String.length ("{" ++ (tpv_record ++ newline))) <= MAX_PDU_LEN - 1
  /\ gpsd_receive ("{" ++ (tpv_record ++ newline)) 1000 sys_ok (connected 0)
     = gpsd_receive (tpv_record ++ newline) 1000 sys_ok
         (gpsd_receive "{" 1000 sys_ok (connected 0)).
Proof.
  assert (B : 0 <= buflen (w_up (connected 0)) < 2 ^ 30)
    by (vm_compute; split; [ discriminate | reflexivity ]).
  assert (L : Z.of_nat (String.length ("{" ++ (tpv_record ++ newline)))
              <= MAX_PDU_LEN - 1)
    by (vm_compute; discriminate).
  split; [ exact B | ]. split; [ exact L | ].
  exact (gpsd_receive_chunks_compose "{" (tpv_record ++ newline) 1000 sys_ok
           (connected 0) B L).
Defined.


(** Ten seconds without a byte from GPSD. *)
Lemma silent_connection_is_probed_and_closed_witness :
  io_fd (pp_of Primary (gpsd_receive newline 1000 sys_ok (connected 0))) = 7
  /\ 7 <> -1
  /\ tickover (w_up (gpsd_receive newline 1000 sys_ok (connected 0)))
     = TICKOVER_LOW
  /\ List.length (repeat sys_ok 10) = 10%nat
  /\ exists w' log,
       timer_run (repeat sys_ok 10)
         (gpsd_receive newline 1000 sys_ok (connected 0)) = Some w'
       /\ io_fd (pp_of Primary w') = -1
       /\ w_trace w'
          = (w_trace (gpsd_receive newline 1000 sys_ok (connected 0))
             ++ [EvWrite 7 s_req_version] ++ log ++ [EvIoCloseClock 7])%list.
Proof.
  assert (A : io_fd (pp_of Primary
                       (gpsd_receive newline 1000 sys_ok (connected 0))) = 7)
    by (vm_compute; reflexivity).
  assert (B : 7 <> -1) by discriminate.
  assert (C : tickover (w_up (gpsd_receive newline 1000 sys_ok (connected 0)))
              = TICKOVER_LOW)
    by (vm_compute; reflexivity).
  assert (D : List.length (repeat sys_ok 10) = 10%nat) by reflexivity.
  split; [ exact A | ]. split; [ exact B | ]. split; [ exact C | ].
  split; [ exact D | ].
  destruct (silent_connection_is_probed_and_closed (repeat sys_ok 10) 7 _
              A B C D) as (_ & w' & log & R & F & T & _).
  exists w', log. split; [ exact R | ]. split; [ exact F | exact T ].
Defined.

Lemma driver_keeps_preset_and_sockets_witness :
  preset_in_range (started 0)
  /\ exists w',
       driver_run [Second sys_no_socket; Chunk tpv_record 1000 sys_ok;
                   Second sys_ok] (started 0) = Some w'
       /\ preset_in_range w'.
Proof.
  assert (P : preset_in_range (started 0))
    by (vm_compute; split; discriminate).
  split; [ exact P | ].
  destruct (proj1 (driver_keeps_preset_and_sockets (started 0) P)
              [Second sys_no_socket; Chunk tpv_record 1000 sys_ok;
               Second sys_ok])
    as (w' & R & Q & _).
  exists w'. split; [ exact R | exact Q ].
Defined.

(** From the mode the unit was started in to the automatic one. *)
Lemma gpsd_control_follows_the_configured_mode_witness :
  let w := upd_peer Primary (fun p => mk_peer (precision p) (cfg_flags p) 2
                                        (procptr p)) (started 0) in
  0 <= mode (w_up w) <= 3
  /\ mode (w_up (gpsd_control Primary 5 6 w)) = MODE_OP_AUTO
  /\ gpsd_control Primary 5 6 (gpsd_control Primary 5 6 w)
     = gpsd_control Primary 5 6 w.
Proof.
  cbv zeta.
  set (w := upd_peer Primary _ (started 0)).
  assert (M : 0 <= mode (w_up w) <= 3) by (vm_compute; split; discriminate).
  split; [ exact M | ].
  destruct (gpsd_control_follows_the_configured_mode 5 6 w M)
    as ((A & _) & _ & _ & _ & _ & I & _).
  split; [ exact A | exact I ].
Defined.

Example gpsd_control_enters_auto_mode :
  let w := upd_peer Primary (fun p => mk_peer (precision p) (cfg_flags p) 2
                                        (procptr p)) (started 0) in
  let w' := gpsd_control Primary 5 6 w in
  (mode (w_up w'), ppscount (w_up w'), pps_fudge (w_up w'), ibt_fudge (w_up w'))
  = (2, 30, 5, 6).
Proof. vm_compute. reflexivity. Qed.

Lemma resolver_falls_back_and_tells_once_witness :
  List.length (s_svcerr (mk_resolver [0; 0; 0; 0] 0)) = 4%nat
  /\ (let '(gpsd_addr, r1) :=
        gpsd_init resolver_by_port [] (mk_resolver [0; 0; 0; 0] 0) in
      let '(ok, r2, log) := gpsd_init_check gpsd_addr r1 in
      0 <= s_svcidx r1 <= 3 /\ ok = negb (is_nil gpsd_addr)).
Proof.
  split; [ reflexivity | ].
  pose proof (resolver_falls_back_and_tells_once resolver_by_port
                (mk_resolver [0; 0; 0; 0] 0) eq_refl) as H.
  destruct (gpsd_init resolver_by_port [] (mk_resolver [0; 0; 0; 0] 0))
    as [gpsd_addr r1].
  destruct (gpsd_init_check gpsd_addr r1) as [[ok r2] log].
  destruct (gpsd_init_check gpsd_addr r2) as [[ok' r3] log'].
  destruct H as (A & _ & _ & _ & B & _).
  split; [ exact A | exact B ].
Defined.

Example resolver_fallback_is_logged_once :
  let '(gpsd_addr, r1) :=
    gpsd_init resolver_by_port [] (mk_resolver [0; 0; 0; 0] 0) in
  let '(ok, r2, log) := gpsd_init_check gpsd_addr r1 in
  let '(ok', r3, log') := gpsd_init_check gpsd_addr r2 in
  (gpsd_addr, s_svcidx r1, ok, log, ok', log')
  = ([1], 1, true,
     [(LOG_WARNING, MsgResolveFailed (Some "localhost") (Some "gpsd") (-8));
      (LOG_WARNING,
       MsgUsingInstead (Some "localhost") (Some "2947")
         (Some "localhost") (Some "gpsd"))],
     true, []).
Proof. vm_compute. reflexivity. Qed.

Lemma myasprintf_doubles_until_the_text_fits_witness :
  (forall n, vsnprintf_of long_name n
             = (Z.of_nat (String.length long_name), take (n - 1) long_name))
  /\ Z.of_nat (String.length long_name) < 2 ^ 31
  /\ (27 <= 27)%nat
  /\ exists k heap,
       0 <= k
       /\ if (fun _ : Z => true) (64 * 2 ^ k)
          then myasprintf 27 (fun _ => true) (vsnprintf_of long_name)
               = Some (Z.of_nat (String.length long_name), Some long_name, heap)
               /\ held heap = [64 * 2 ^ k]
          else True.
Proof.
  assert (A : forall n, vsnprintf_of long_name n
                        = (Z.of_nat (String.length long_name),
                           take (n - 1) long_name))
    by (intros n; reflexivity).
  assert (B : Z.of_nat (String.length long_name) < 2 ^ 31)
    by (vm_compute; reflexivity).
  assert (C : (27 <= 27)%nat) by lia.
  split; [ exact A | ]. split; [ exact B | ]. split; [ exact C | ].
  destruct (myasprintf_doubles_until_the_text_fits 27 (fun _ => true)
              (vsnprintf_of long_name) long_name A B C)
    as (k & heap & K & _ & R).
  exists k, heap. split; [ exact K | ].
  cbv beta in *. destruct R as (_ & R1 & R2). split; [ exact R1 | exact R2 ].
Defined.

Example myasprintf_examples :
  myasprintf 27 (fun _ => true) (vsnprintf_of long_name)
  = Some (100, Some long_name,
          [Free None; Malloc 64 true; Free (Some 64); Malloc 128 true])
  /\ myasprintf 27 (fun n => n <? 100) (vsnprintf_of long_name)
     = Some (-1, None,
             [Free None; Malloc 64 true; Free (Some 64); Malloc 128 false])
  /\ myasprintf 27 (fun _ => true) (vsnprintf_of "/dev/gps0")
     = Some (9, Some "/dev/gps0", [Free None; Malloc 64 true]).
Proof. vm_compute. repeat split. Qed.

Example log_data_examples :
  log_data 2 (fun c => (32 <=? c) && (c <=? 126))
    ("a\b" ++ String "001"%char (String "000"%char (String "255"%char "")))
  = Some (17, "a\\b\0x01\00\0xff")
  /\ log_data 1 (fun c => (32 <=? c) && (c <=? 126)) "abc" = None.
Proof. vm_compute. repeat split. Qed.

Lemma start_and_shutdown_keep_the_units_in_order_witness :
  registry_ok (s_clock_units driver0)
  /\ ~ In (sys_emalloc_zero (sys_start 4096)) (map c_addr (s_clock_units driver0))
  /\ Forall (fun c => c_refcount c < 2 ^ 64 - 1) (s_clock_units driver0)
  /\ (27 <= 27)%nat
  /\ Z.of_nat (String.length (device_text 0 (sys_start 4096))) < 2 ^ 31
  /\ exists ok d1 p1 log,
       gpsd_start 27 true 0 (sys_start 4096) driver0 (clock_peer0 64)
       = Some (ok, d1, p1, log)
       /\ registry_ok (s_clock_units d1).
Proof.
  assert (A : registry_ok (s_clock_units driver0))
    by (repeat split; constructor).
  assert (B : ~ In (sys_emalloc_zero (sys_start 4096))
                (map c_addr (s_clock_units driver0)))
    by (intros []).
  assert (C : Forall (fun c => c_refcount c < 2 ^ 64 - 1)
                (s_clock_units driver0))
    by constructor.
  assert (D : (27 <= 27)%nat) by lia.
  assert (E : Z.of_nat (String.length (device_text 0 (sys_start 4096))) < 2 ^ 31)
    by (vm_compute; reflexivity).
  split; [ exact A | ]. split; [ exact B | ]. split; [ exact C | ].
  split; [ exact D | ]. split; [ exact E | ].
  destruct (start_and_shutdown_keep_the_units_in_order 27 true true 0 0
              (sys_start 4096) driver0 (clock_peer0 64) A B C D E)
    as (ok & d1 & p1 & log & R & G & _).
  exists ok, d1, p1, log. split; [ exact R | exact G ].
Defined.

(** The two sides of a clock share one unit, and it goes when both are
    shut down. *)
Example both_sides_share_the_unit :
  match gpsd_start 27 false 0 (sys_start 4096) driver0 (clock_peer0 64) with
  | Some (true, d1, p1, _) =>
      match gpsd_start 27 false 128 (sys_start 8192) d1 (clock_peer0 72) with
      | Some (true, d2, p2, _) =>
          census (s_clock_units d2) = [(4096, 0, 2)]
          /\ cp_unitptr p1 = Some 4096
          /\ cp_unitptr p2 = Some 4096
          /\ map c_pps_peer (s_clock_units d2) = [Some 72]
          /\ map (fun c => device (c_up c)) (s_clock_units d2) = ["/dev/gps0"]
          /\ match gpsd_shutdown false 0 d2 p1 with
             | Some (d3, _, _, _) =>
                 census (s_clock_units d3) = [(4096, 0, 1)]
                 /\ match gpsd_shutdown false 128 d3 p2 with
                    | Some (d4, _, _, _) => s_clock_units d4 = []
                    | None => False
                    end
             | None => False
             end
      | _ => False
      end
  | _ => False
  end.
Proof. vm_compute. repeat split. Qed.

(** ** The properties on the test bench *)
Ltac read_record :=
  match goal with
  | |- context [json_parse_record ?c ?b ?l] =>
      let r := eval vm_compute in (json_parse_record c b l) in
      change (json_parse_record c b l) with r
  end.

(** A line that is no object, an object without a class, an object whose
    class is a number, and an object without a class in which a value
    reads "class". *)
Lemma gpsd_parse_rejects_quietly_witness :
  (not_an_object (with_line "garbage")
   /\ tc_breply (w_up (gpsd_parse 1000 sys_ok (with_line "garbage"))) = 1
   /\ w_trace (gpsd_parse 1000 sys_ok (with_line "garbage")) = [])
  /\ (lacks_class (with_line classless_record)
      /\ tc_breply (w_up (gpsd_parse 1000 sys_ok (with_line classless_record)))
         = 1
      /\ w_trace (gpsd_parse 1000 sys_ok (with_line classless_record)) = [])
  /\ (lacks_class (with_line class_number_record)
      /\ tc_breply
           (w_up (gpsd_parse 1000 sys_ok (with_line class_number_record))) = 1
      /\ w_trace (gpsd_parse 1000 sys_ok (with_line class_number_record)) = [])
  /\ (lacks_class (with_line class_value_record)
      /\ tc_breply
           (w_up (gpsd_parse 1000 sys_ok (with_line class_value_record))) = 1
      /\ w_trace (gpsd_parse 1000 sys_ok (with_line class_value_record)) = []).
Proof.
  assert (G : not_an_object (with_line "garbage"))
    by (right; vm_compute; discriminate).
  assert (L : lacks_class (with_line classless_record)).
  { unfold lacks_class. cbv zeta. read_record. cbv iota beta.
    left. intros t H0 H1 Ty K. cbn in H1.
    assert (E : t = 1) by lia. subst t. vm_compute in K. discriminate. }
  assert (N : lacks_class (with_line class_number_record)).
  { unfold lacks_class. cbv zeta. read_record. cbv iota beta.
    left. intros t H0 H1 Ty K. cbn in H1.
    assert (E : t = 1) by lia. subst t. vm_compute. discriminate. }
  assert (V : lacks_class (with_line class_value_record)).
  { unfold lacks_class. cbv zeta. read_record. cbv iota beta.
    right. intros i Hi Hn. cbn in Hi.
    destruct i as [| [| i]]; [ | | lia ].
    - exists "device". split; [ vm_compute; reflexivity | discriminate ].
    - exists "path". split; [ vm_compute; reflexivity | discriminate ]. }
  split; [ | split; [ | split ] ].
  - split; [ exact G | ].
    destruct (gpsd_parse_rejects_quietly 1000 sys_ok _ (or_introl G))
      as (T & Tr & _).
    split; [ exact T | exact Tr ].
  - split; [ exact L | ].
    destruct (gpsd_parse_rejects_quietly 1000 sys_ok _ (or_intror L))
      as (T & Tr & _).
    split; [ exact T | exact Tr ].
  - split; [ exact N | ].
    destruct (gpsd_parse_rejects_quietly 1000 sys_ok _ (or_intror N))
      as (T & Tr & _).
    split; [ exact T | exact Tr ].
  - split; [ exact V | ].
    destruct (gpsd_parse_rejects_quietly 1000 sys_ok _ (or_intror V))
      as (T & Tr & _).
    split; [ exact T | exact Tr ].
Defined.

(** Four bad lines in one chunk: four counts, nothing for the core. *)
Example bad_lines_are_counted :
  let w := gpsd_receive
             ("garbage" ++ newline ++ classless_record ++ newline
              ++ class_number_record ++ newline ++ class_value_record
              ++ newline)
             1000 sys_ok (connected 0) in
  tc_breply (w_up w) = 4 /\ tc_recv (w_up w) = 0 /\ w_trace w = [].
Proof. vm_compute. repeat split. Qed.

(** A time of GPSD with a quarter of a second. *)
Lemma convert_ascii_time_validity_witness :
  no_nul "2019-03-01T12:00:00.250Z" = true
  /\ convert_ascii_time 0 "2019-03-01T12:00:00.250Z"
     = (true,
        tspec_intv_to_lfp (tm_to_ntp_seconds (mk_tm 119 2 1 12 0 0)) 250000000).
Proof.
  assert (H : no_nul "2019-03-01T12:00:00.250Z" = true) by reflexivity.
  split; [ exact H | ].
  destruct (convert_ascii_time_validity 0 "2019-03-01T12:00:00.250Z" H)
    as (_ & St & _).
  apply (St (mk_tm 119 2 1 12 0 0) 19%nat); [ reflexivity | ].
  right. exists "250". split; reflexivity.
Defined.

(** C3 as stated fails: a dot with no digit behind it is accepted,
    although the string is not of the form the specification gives. *)
Lemma convert_ascii_time_takes_a_bare_dot :
  fst (convert_ascii_time 0 "2019-03-01T12:00:00.Z") = true
  /\ ~ (exists gd n,
          strptime "2019-03-01T12:00:00.Z" = Some (gd, n)
          /\ utc_tail_with_digits (drop_nat n "2019-03-01T12:00:00.Z")).
Proof.
  split; [ vm_compute; reflexivity | ].
  intros (gd & n & E & T). vm_compute in E. inversion E; subst gd n.
  cbn in T. destruct T as [T | (ds & Hne & _ & T)]; [ discriminate | ].
  destruct ds as [| c ds]; [ apply Hne; reflexivity | ].
  cbn in T. inversion T as [[Hc Hr]]. destruct ds; discriminate.
Qed.

(** Only the first nine digits of the fraction count. *)
Example convert_ascii_time_fractions :
  nanoseconds "250" = 250000000
  /\ nanoseconds "" = 0
  /\ nanoseconds "1234567891" = 123456789
  /\ convert_ascii_time 0 "2019-03-01T12:00:00.1234567891Z"
     = convert_ascii_time 0 "2019-03-01T12:00:00.123456789Z".
Proof. vm_compute. repeat split. Qed.

(** The system has no socket to give: the first failure is logged and
    loads the throttle, and the failure ten seconds later is not logged.
    And a connect that is refused while it was under way is found by the
    timer a second later. *)
Lemma socket_errors_are_logged_and_retried_witness :
  (w_gpsd_addr (started 0) <> []
   /\ 0 <= tickpres (w_up (started 0)) <= TICKOVER_HIGH
   /\ socket_failure sys_no_socket
   /\ exists w',
        gpsd_init_socket sys_no_socket (started 0) = Some w'
        /\ failed_attempt (started 0) w'
        /\ logthrottle (w_up w') = LOGTHROTTLE
        /\ exists w1 w2 new,
             timer_run (repeat sys_no_socket 9) w' = Some w1
             /\ timer_primary sys_no_socket w1 = Some w2
             /\ failed_attempt (timer_countdowns w1) w2
             /\ w_trace w2 = (w_trace w' ++ new)%list
             /\ existsb is_log new = false)
  /\ (w_gpsd_addr connecting <> []
      /\ 0 <= tickpres (w_up connecting) <= TICKOVER_HIGH
      /\ io_fd (pp_of Primary connecting) = -1
      /\ fdt (w_up connecting) <> -1
      /\ connect_failure sys_refused
      /\ timer_primary sys_refused connecting
         = Some (gpsd_test_socket sys_refused (timer_countdowns connecting))
      /\ failed_attempt (timer_countdowns connecting)
           (gpsd_test_socket sys_refused (timer_countdowns connecting))).
Proof.
  assert (A : w_gpsd_addr (started 0) <> []) by discriminate.
  assert (P : 0 <= tickpres (w_up (started 0)) <= TICKOVER_HIGH)
    by (vm_compute; split; discriminate).
  assert (F : socket_failure sys_no_socket) by (left; reflexivity).
  assert (A' : w_gpsd_addr connecting <> []) by discriminate.
  assert (P' : 0 <= tickpres (w_up connecting) <= TICKOVER_HIGH)
    by (vm_compute; split; discriminate).
  assert (Io : io_fd (pp_of Primary connecting) = -1) by reflexivity.
  assert (Fd : fdt (w_up connecting) <> -1) by (vm_compute; discriminate).
  assert (C : connect_failure sys_refused).
  { split; [ discriminate | ]. split; [ reflexivity | ].
    right. discriminate. }
  split.
  - split; [ exact A | ]. split; [ exact P | ]. split; [ exact F | ].
    destruct (socket_errors_are_logged_and_retried sys_no_socket (started 0) A P)
      as (I & _ & _ & R & _).
    destruct (I F) as (w' & E & Fa).
    exists w'. split; [ exact E | ]. split; [ exact Fa | ].
    split; [ destruct Fa as (_ & _ & _ & _ & Th & _); exact Th | ].
    destruct (R w' Fa (repeat sys_no_socket 9) sys_no_socket eq_refl)
      as (w1 & w2 & R1 & _ & _ & R4 & R5 & R6).
    destruct (R6 F eq_refl eq_refl ltac:(vm_compute; discriminate))
      as (new & N1 & N2).
    exists w1, w2, new.
    split; [ exact R1 | ]. split; [ exact R4 | ].
    split; [ exact (R5 F) | ]. split; [ exact N1 | exact N2 ].
  - split; [ exact A' | ]. split; [ exact P' | ]. split; [ exact Io | ].
    split; [ exact Fd | ]. split; [ exact C | ].
    destruct (socket_errors_are_logged_and_retried sys_refused connecting A' P')
      as (_ & _ & T & _).
    destruct (T Io Fd) as (T1 & T2).
    split; [ exact T1 | exact (T2 C) ].
Defined.

(** Half a minute without a socket: three attempts, one line in the
    log. *)
Example socket_errors_are_logged_once :
  option_map (fun w => (filter is_log (w_trace w), tickpres (w_up w),
                        logthrottle (w_up w)))
    (timer_run (repeat sys_no_socket 27) (started 0))
  = Some ([EvLog LOG_ERR MsgCannotCreateSocket], 25, 3574).
Proof. vm_compute. reflexivity. Qed.

(** A credit in the middle of the account, the debit that empties it and
    turns raw serial stamps on, and the credit that fills it and turns
    them off again. *)
Lemma eval_auto_hysteresis_witness :
  (0 <= ppscount (w_up auto_credit) <= PPS_MAXCOUNT
   /\ ppscount (w_up auto_credit) = 30
   /\ ppscount (w_up (eval_auto auto_credit)) = 33
   /\ fl_rawibt (w_up (eval_auto auto_credit)) = fl_rawibt (w_up auto_credit))
  /\ (0 <= ppscount (w_up auto_last_debit) <= PPS_MAXCOUNT
      /\ ppscount (w_up auto_last_debit) = 1
      /\ fl_rawibt (w_up auto_last_debit) = false
      /\ fl_rawibt (w_up (eval_auto auto_last_debit)) = true
      /\ ppscount (w_up (eval_auto auto_last_debit)) = 0)
  /\ (0 <= ppscount (w_up auto_last_credit) <= PPS_MAXCOUNT
      /\ ppscount (w_up auto_last_credit) = 57
      /\ fl_rawibt (w_up auto_last_credit) = true
      /\ fl_rawibt (w_up (eval_auto auto_last_credit)) = false
      /\ ppscount (w_up (eval_auto auto_last_credit)) = PPS_MAXCOUNT)
  /\ fl_rawibt
       (w_up (eval_auto_run (repeat (true, false) 29%nat) auto_credit)) = false.
Proof.
  assert (H1 : 0 <= ppscount (w_up auto_credit) <= PPS_MAXCOUNT)
    by (vm_compute; split; discriminate).
  assert (H2 : 0 <= ppscount (w_up auto_last_debit) <= PPS_MAXCOUNT)
    by (vm_compute; split; discriminate).
  assert (H3 : 0 <= ppscount (w_up auto_last_credit) <= PPS_MAXCOUNT)
    by (vm_compute; split; discriminate).
  destruct (eval_auto_hysteresis auto_credit H1)
    as (_ & _ & Credit & _ & _ & _ & _ & Stays).
  destruct (eval_auto_hysteresis auto_last_debit H2)
    as (_ & _ & _ & Debit & _ & On & _ & _).
  destruct (eval_auto_hysteresis auto_last_credit H3)
    as (_ & _ & _ & _ & Off & _ & _ & _).
  split; [ | split; [ | split ] ].
  - split; [ exact H1 | ]. split; [ reflexivity | ].
    split; [ | reflexivity ].
    rewrite (Credit eq_refl eq_refl). reflexivity.
  - split; [ exact H2 | ]. split; [ reflexivity | ].
    split; [ reflexivity | ]. split; [ reflexivity | ].
    exact (proj1 (On eq_refl eq_refl)).
  - split; [ exact H3 | ]. split; [ reflexivity | ].
    split; [ reflexivity | ]. split; [ reflexivity | ].
    exact (proj1 (Off eq_refl eq_refl)).
  - apply Stays; [ reflexivity | vm_compute; reflexivity ].
Defined.

(** Three records: a time, no fix, a later time.  The core gets the two
    times, each once, and the record without a fix brings nothing. *)
Example records_are_fed_once :
  let rs := [mk_record_in 1000 sys_ok tpv_record;
             mk_record_in 2000 sys_ok tpv_nofix_record;
             mk_record_in 3000 sys_ok tpv_record_later] in
  arrivals serial_arrival rs (connected 0)
  = [16150925587957940224; 16150925592252907520]
  /\ samples_of Primary (w_trace (parse_records rs (connected 0)))
     = [(16150925587957940224, 1000); (16150925592252907520, 3000)]
  /\ pending_serial (parse_records rs (connected 0)) = [].
Proof. vm_compute. repeat split. Qed.

(** In STRICT mode a serial stamp waits for its pulse, and a second
    stamp takes its place: the first one is never fed. *)
Example strict_mode_waits_for_the_pulse :
  let rs := [mk_record_in 1000 sys_ok tpv_record;
             mk_record_in 3000 sys_ok tpv_record_later] in
  samples_of Primary (w_trace (parse_records rs (connected 1))) = []
  /\ pending_serial (parse_records rs (connected 1)) = [16150925592252907520].
Proof. vm_compute. repeat split. Qed.

(** C8 fails on the code: nine chunks of a thousand characters without a
    line feed leave 9000 characters behind in a buffer of MAX_PDU_LEN,
    because every chunk measures its limit from where the last one
    stopped. *)
Lemma gpsd_receive_overruns_buffer :
  let chunk := replicate (Z.to_nat 1000) "a" in
  let w := Nat.iter 9 (gpsd_receive chunk 1000 sys_ok) (connected 0) in
  buflen (w_up w) = 9000
  /\ MAX_PDU_LEN - 1 < buflen (w_up w)
  /\ String.length (until_nul (buffer (w_up w))) = Z.to_nat 9000.
Proof.
  cbv zeta.
  assert (Step : forall z w,
             buflen (w_up w) = z ->
             0 <= z <= 8000 ->
             buffer (w_up w) = replicate (Z.to_nat z) "a" ->
             buflen (w_up (gpsd_receive (replicate (Z.to_nat 1000) "a")
                             1000 sys_ok w)) = z + 1000
             /\ buffer (w_up (gpsd_receive (replicate (Z.to_nat 1000) "a")
                                1000 sys_ok w))
                = replicate (Z.to_nat (z + 1000)) "a").
  { intros z w Hl Hz Hb.
    destruct (gpsd_receive_appends 1000 sys_ok "a" (Z.to_nat 1000) z w)
      as (A & B); try assumption; try reflexivity;
      try (rewrite Z2Nat.id by lia; unfold MAX_PDU_LEN; lia); try lia.
    rewrite Z2Nat.id in A, B by lia. split; assumption. }
  set (f := gpsd_receive (replicate (Z.to_nat 1000) "a") 1000 sys_ok) in *.
  assert (Next : forall z w,
             0 <= z <= 8000 ->
             buflen (w_up w) = z
             /\ buffer (w_up w) = replicate (Z.to_nat z) "a" ->
             buflen (w_up (f w)) = z + 1000
             /\ buffer (w_up (f w)) = replicate (Z.to_nat (z + 1000)) "a").
  { intros z w Hz [A B]. apply Step; assumption. }
  clear Step.
  assert (I0 : buflen (w_up (connected 0)) = 0
               /\ buffer (w_up (connected 0)) = replicate (Z.to_nat 0) "a")
    by (split; reflexivity).
  pose proof (Next 0 _ ltac:(lia) I0) as I1.
  pose proof (Next 1000 _ ltac:(lia) I1) as I2.
  pose proof (Next 2000 _ ltac:(lia) I2) as I3.
  pose proof (Next 3000 _ ltac:(lia) I3) as I4.
  pose proof (Next 4000 _ ltac:(lia) I4) as I5.
  pose proof (Next 5000 _ ltac:(lia) I5) as I6.
  pose proof (Next 6000 _ ltac:(lia) I6) as I7.
  pose proof (Next 7000 _ ltac:(lia) I7) as I8.
  pose proof (Next 8000 _ ltac:(lia) I8) as I9.
  destruct I9 as [A B].
  change (Nat.iter 9 f (connected 0))
    with (f (f (f (f (f (f (f (f (f (connected 0)))))))))).
  rewrite A, B.
  split; [ reflexivity | ]. split; [ reflexivity | ].
  rewrite until_nul_replicate by reflexivity.
  rewrite length_replicate. reflexivity.
Qed.
